(* ===== verification/_CoqProject ===== *)
-Q . S2P
Prelude.v
GoBytes.v
Loops.v
GoCrypto.v
GoRuntime.v
Attest.v
EventLog.v
Replay.v
Verify.v
AppendEvents.v
Tpm2.v
Quote.v
Attestation.v
UefiEvents.v
SecureBoot.v
Challenge.v
Activation.v
Certification.v
WinEvents.v
Templates.v
Channel.v
EKCert.v
Fuzz.v
Wrapped20.v
KeyHandles.v
PcrBank.v
Platform.v
KeyOps.v
Trousers12.v
OpenTpm.v
WinBlobs.v
Pcp.v
Windows.v
WindowsSim.v
WindowsSpec.v
WindowsAttest.v
WindowsKeys.v
Driver.v
AttestTool.v
GenEKCert.v
Oid.v
Asn1.v
Asn1Types.v
Asn1Marshal.v
Pkix.v
X509Ext.v
AttributeCert.v
AttributeCertSpec.v
ToolEventLog.v
