(* ===== verification/Prelude.v ===== *)
(** * Verification of go-attestation

    The Go packages [attest] ([src/attest/]), [attributecert], [x509ext] and
    [oid], as executable Rocq definitions with theorems about them.  A
    definition has the name of the Go function, type or constant it models where
    Rocq allows it; a doc comment says which code it is where the names differ.

    ** The program and its parts

    A machine with a TPM ([OpenTPM], [TPM], [AK], [Key]) makes attestations: it
    creates keys, activates credentials, quotes its PCRs and reads its event
    log ([AttestPlatform]).  A verifier checks the AK ([ActivationParameters])
    and application keys ([CertificationParameters]), the quotes
    ([AKPublic.VerifyAll]) and the event log ([ParseEventLog],
    [EventLog.Verify]), and draws conclusions from the verified events
    ([ParseSecurebootState], [ParseWinEvents]).  Certificates of the machine are
    parsed by [ParseEKCertificate], [x509ext] and [attributecert].

    ** The files

    Foundations.
    - [Prelude]: results and errors of Go functions ([res]: [Ok], [Err],
      [Panic], [NoFuel]), the state monad [M] with its notations, reasoning
      ([spec], the [inv_ok] tactic, the [go] hints), lengths and fixed-width
      integers.
    - [GoBytes]: byte strings, readers with limits, [encoding/binary], hex,
      UTF-16, and the calculus [reads]/[format] that turns a parser into the
      exact format of the bytes it accepts.
    - [Loops]: loops over slices, and exactly when a computation panics.
    - [GoCrypto]: hash functions, with executable SHA-1 and SHA-256.
    - [GoRuntime]: what Go leaves open: the order of map iteration and of equal
      elements after an unstable sort.
    - [Tpm2]: the structures of go-tpm and the calls of go-tpm, go-tspi and
      crypto/rsa as the interface [GoTPM].

    The verifier ([attest/]).
    - [Attest]: [attest.go], shared data: versions, [HashAlg], [PCR], [Quote].
    - [EventLog]: [eventlog.go], parsing: both event formats, the Spec ID
      event, [ParseEventLog], [Events].
    - [Replay]: [eventlog.go], [extend], [replayPCR], [replayEvents].
    - [Verify]: [eventlog.go] and [eventlog_workarounds.go], [EventLog.Verify].
    - [AppendEvents]: [eventlog.go], [AppendEvents].
    - [Quote]: [eventlog.go] and [attest.go], [validate12Quote],
      [validate20Quote], [ParseAKPublic], [AKPublic.Verify], [VerifyAll].  The
      PCR slice that the caller shares is the state of the monad.
    - [Attestation]: the verification of a whole attestation, as the
      documentation of [PlatformParameters] describes it.
    - [UefiEvents]: [internal/events.go]; [SecureBoot]: [secureboot.go];
      [WinEvents]: [win_events.go].  In the last two the variables of the Go
      function are a record that the events update.
    - [Challenge]: [challenge.go]; [Activation]: [activation.go];
      [Certification]: [certification.go].

    The machine ([attest/]).
    - [Templates]: the key templates of [tpm.go] and [templateFromConfig]; the
      parameter structures that templates share are cells of a heap.
    - [Channel]: the TPM 2.0 commands as an interface over an abstract device,
      the accounting of handles ([balanced], [opens_one]) and a simulated device.
    - [EKCert]: [tpm.go] and [vendors.go]: EK certificates, vendor properties.
    - [Wrapped20]: [wrapped_tpm20.go] and [storage.go]: every operation of
      [wrappedTPM20] and [wrappedKey20]; the receiver and the heap are the state.
    - [KeyHandles], [PcrBank], [KeyOps]: theorems about the driver: handles,
      reading PCRs, signing, stored keys, EK templates; [KeyOps] also has
      [TPM.NewKey] of [tpm.go].
    - [Platform]: [tpm.go] and [attest.go]: [AttestPlatform] against the
      interface of [tpmBase] and [ak] (a class), with the drivers as instances.
    - [Trousers12]: [tpm12_linux.go] and [key_linux.go], the TPM 1.2 driver.
    - [OpenTpm]: [attest.go], [tpm_linux.go] and [tpm_other.go]: probing and
      opening.
    - [Fuzz]: [attest_fuzz.go] and [eventlog_fuzz.go].

    The machine on Windows ([attest/]).
    - [WinBlobs]: [tpm_windows.go] and [pcp_windows.go], the binary structures.
    - [Pcp]: [pcp_windows.go], the Platform Crypto Provider over an interface
      for the calls of Windows; [Windows]: [tpm_windows.go] and
      [key_windows.go], the driver.
    - [WindowsSim]: a simulated Windows; [WindowsSpec], [WindowsAttest],
      [WindowsKeys]: theorems about versions, handles and opening, about
      attestation, and about keys, credentials and certificate stores.
    - [Driver]: [tpm.go], [attest.go], [application_key.go]: all methods of
      [TPM], [AK] and [Key] against the interfaces [tpmBase] and [ak] (the class
      [tpmDriver]), with the three drivers as instances.

    Certificates.
    - [Oid]: [oid/oid.go].
    - [Asn1], [Asn1Types], [Asn1Marshal], [Pkix]: the parts of the standard
      library's encoding/asn1 and crypto/x509/pkix that the packages are
      written with.  A Go type with its field tags is a [gotype]; decoding and
      encoding recurse over it, as the code does by reflection.
    - [X509Ext]: [x509/x509ext.go].
    - [AttributeCert]: [attributecert/attributecert.go], its structures and
      operations; [AttributeCertSpec]: the theorems about it.

    The tool.
    - [AttestTool]: [attest-tool/attest-tool.go] and [internal/internal.go]: the
      commands and the self test, over any [tpmDriver].
    - [GenEKCert]: [ci/gen_ekcert.go], which stores a test certificate in NVRAM.
    - [ToolEventLog]: [attest-tool/internal/eventlog/], its event types and its
      own [ParseSecureBoot].

    ** What the theorems show

    - Attestation: [Attestation.attestation_sound] composes
      [Quote.VerifyAll_sound], [Replay.replayEvents_Ok] and [Verify.Verify_Ok]:
      the events returned are in the log and extended into registers of the
      PCRs given, and if no register is named twice, with values that a quote
      covers.  [Attestation.forged_log_accepted] shows what the code accepts
      otherwise; [Replay.pcr_binds_digests] and [Quote.quote_binds_pcrs] what a
      value and a quote fix.  [Platform.AttestPlatform_verifies] closes the loop
      with the machine's side.
    - Parsers: each is proved to accept exactly a format that is described
      independently ([EventLog], [UefiEvents], [WinEvents], [X509Ext]), most as
      a round trip with an encoder; they return on every input.
    - State machines: [SecureBoot] is a refinement of a step relation with an
      invariant by rule induction; [WinEvents] has latches and an invariant;
      [ToolEventLog.ParseSecureBoot_agrees] relates two independent readings of
      the same log.
    - Keys: acceptance of AKs and certified keys is characterised exactly
      ([Activation], [Certification]), challenges open to the secret
      ([Challenge]), handles are balanced or returned ([KeyHandles]), all
      registers are read ([PcrBank]).  [WindowsKeys.windows_activates] follows a
      challenge from the verifier to the secret on a Windows machine.
    - Drivers: versions are types ([WindowsSpec.windows_types]); the clients of
      an interface are proved against it ([Platform], [Driver], [AttestTool])
      and the drivers discharge its laws: [tpmBaseLaws] for TPM 2.0 on Linux and
      Windows, [DriverHandles] on Linux ([wrapped20_handles]), while the Windows
      driver leaks handles on errors ([WindowsSpec.windows_handles]), so that
      [AttestTool.runCommand_settles] is about the former; TPM 1.2 is treated
      separately ([WindowsAttest], [Trousers12]).  The tool's self test passes
      exactly if the key activates and a verifier accepts what is attested
      ([AttestTool.selftest_agrees]).
    - Certificates: what an attribute certificate reports is a function of
      the signed bytes ([AttributeCertSpec.attribute_certificate_authentic]),
      and which parts of it reach the result.
    - Errors and panics: where the code can panic on input, the theorem says
      exactly when ([..._panics_iff]), also for opening a TPM on Windows, over
      a provider that may answer with empty properties and DLLs that may be
      missing ([WindowsSpec.windows_OpenTPM_panics_iff]).

    ** Interfaces and assumptions

    What is not in the repository is an argument: classes [GoCrypto], [GoTPM],
    [GoRuntime], [X509] (one in [UefiEvents] and one in [EKCert], each with the
    calls of its file), [Encodings], [TPM2Channel], [Tspi], [System],
    [X509Parent], [GoTime], [GoMemory], [Windows], [WindowsTPM], [GoAES],
    [ToolFiles], [ToolEncodings], [CiSystem].  Documented behaviour that a theorem
    needs is a class of laws beside them ([GoTPMLaws], [TPM2Handles],
    [EncodingsLaws], [SystemLaws], [TspiReturns], [tpmBaseLaws], [GoTimeLaws],
    [GoAESLaws], [WinHandles], [WinReturns], [WinStores], [DriverHandles], [CiLaws]);
    each has an instance in the witnesses, by a concrete implementation.
    Hash functions are not assumed to be collision free: the theorems end in
    "or a collision is exhibited".

    ** Conventions, bounds and fuel

    - Integers are [Z], reduced to their width where the code converts or
      computes with them ([uint8], [uint16], [uint32], [uint64], [int64]); a
      field read from [n] bytes is in range by construction.
    - A nil slice and an empty one are the same list, except where the code
      tells them apart (a quote's selection is an [option]); pointers that may
      be nil are options, and [deref] panics on [None].
    - Errors keep the sentinel values, types and error numbers ([Errno]) that
      code compares, else the format string; the arguments of messages are not
      kept.
    - Loops whose iterations consume input take fuel, one more than the bytes
      left or their number: [parse_events], [parse_digests], [read_algs],
      [read_lists], [read_signatures], [device_path], [lma_loop], [elam_loop],
      [block_loop], [parse_arcs], [count_elements], [der_loop].  For each there
      is a lemma that this is enough ([NoFuel] is never the result), and the
      theorems about the functions that call them include that they return.
      [read_pcrs] has the 24 iterations of the code; [enum_certs] has
      [enum_limit], an argument of the interface that [WinStores] asks to exceed
      the certificates of any store; [break_lines] has one more than the
      characters to break.
    - Inputs are bounded where the Go [int] matters: 2 GiB for signature
      databases, 4 GiB for event logs.

    ** Not modelled

    - What the DLLs of Windows, the file systems and the devices do (interfaces);
      of the tool, the parsing of flags and the texts of its errors.
    - Strings of error types and the table [isReadyErrors] of
      [pcp_windows.go], which no code uses.
    - [TCGData] of [attributecert.go], which no code uses.
    - Of encoding/asn1: the formats of times (a parameter), types the packages
      do not use, and what a failed decoding leaves in an object identifier, bit
      string or time.  Wall-clock time, memory (but for [GoMemory]) and
      concurrency: the packages start no goroutines. *)
From Stdlib Require Export ZArith Lia.
From stdpp Require Export base gmap sets list strings sorting.
From coqutil Require Export Word.LittleEndianList Byte.
#[global] Open Scope Z_scope.
#[global] Open Scope list_scope.

(** ** Results of Go computations

    A Go function that returns [(value, error)] yields [Ok] or [Err]; a run-time
    panic is the outcome [Panic], and a loop of the model whose fuel was too
    small would be [NoFuel] (each loop has a theorem that it never is). *)
Inductive res (E A : Type) : Type :=
| Ok (a : A)
| Err (e : E)
| Panic (msg : string)
| NoFuel.
Arguments Ok {E A} a.
Arguments Err {E A} e.
Arguments Panic {E A} msg.
Arguments NoFuel {E A}.

(** Errors keep the sentinel values and error types the code compares against;
    the others keep the format string of the source ([Errorf]) and the error
    it wraps ([Wrapf]); the rendered arguments are not kept. *)
Inductive error : Type :=
| EOF
| ErrUnexpectedEOF
| eventSizeErr (eventSize logSize : Z)
| unknownSIPAEvent
| ErrSigMissingGUID
| LibErr (what : string)
| Errno (code : Z)
| Errorf (fmt : string)
| Wrapf (fmt : string) (cause : error).

#[export] Instance error_eq_dec : EqDecision error.
Proof. solve_decision. Defined.

#[export] Instance res_ret {E} : MRet (res E) := λ A a, Ok a.
#[export] Instance res_bind {E} : MBind (res E) := λ A B f m,
  match m with
  | Ok a => f a
  | Err e => Err e
  | Panic s => Panic s
  | NoFuel => NoFuel
  end.

(** Outcomes a caller can handle: a value or an error, no crash. *)
Definition no_crash {E A} (r : res E A) : Prop :=
  match r with Ok _ | Err _ => True | _ => False end.

(** [return nil, fmt.Errorf(fmt, err)] around a fallible computation. *)
Definition wrapf {A} (fmt : string) (r : res error A) : res error A :=
  match r with Err e => Err (Wrapf fmt e) | r => r end.

(** ** State and error monad

    A statement sequence that reads from (or writes to) a state [S] and may
    return early with an error.  The state reached is kept on every outcome,
    since Go code may go on using a reader after an error. *)
Definition M (S A : Type) : Type := S → res error A * S.

#[export] Instance M_ret {S} : MRet (M S) := λ A a s, (Ok a, s).
#[export] Instance M_bind {S} : MBind (M S) := λ A B f m s,
  match m s with
  | (Ok a, s') => f a s'
  | (Err e, s') => (Err e, s')
  | (Panic p, s') => (Panic p, s')
  | (NoFuel, s') => (NoFuel, s')
  end.

Section Monad.
Context {S : Type}.

Definition fail {A} (e : error) : M S A := λ s, (Err e, s).
Definition panic {A} (msg : string) : M S A := λ s, (Panic msg, s).
Definition nofuel {A} : M S A := λ s, (NoFuel, s).
Definition gets {A} (f : S → A) : M S A := λ s, (Ok (f s), s).
Definition modify (f : S → S) : M S () := λ s, (Ok tt, f s).
Definition lift_res {A} (r : res error A) : M S A := λ s, (r, s).
Definition wrapM {A} (fmt : string) (m : M S A) : M S A := λ s,
  let '(r, s') := m s in (wrapf fmt r, s').
(** [if c { return fmt.Errorf(...) }] *)
Definition reject_if (c : bool) (e : error) : M S () :=
  if c then fail e else mret tt.
End Monad.

(** ** A total-correctness triple for the monad

    [spec m s Q E]: from state [s], [m] neither panics nor runs out of fuel; it
    returns a value satisfying [Q] or an error satisfying [E], each together
    with the state reached. *)
Section Spec.
Context {S : Type}.

Definition spec {A} (m : M S A) (s : S) (Q : A → S → Prop) (E : error → S → Prop) : Prop :=
  match m s with
  | (Ok a, s') => Q a s'
  | (Err e, s') => E e s'
  | _ => False
  end.

Lemma spec_ret {A} (a : A) s (Q : A → S → Prop) E : Q a s → spec (mret a) s Q E.
Proof. done. Qed.

Lemma spec_fail {A} e s (Q : A → S → Prop) (E : error → S → Prop) :
  E e s → spec (fail e) s Q E.
Proof. done. Qed.

Lemma spec_bind {A B} (m : M S A) (f : A → M S B) s Q (E : error → S → Prop) :
  spec m s (λ a s', spec (f a) s' Q E) E → spec (m ≫= f) s Q E.
Proof.
  unfold spec, mbind, M_bind. destruct (m s) as [[a|e|p|] s']; done.
Qed.

Lemma spec_mono {A} (m : M S A) s (Q Q' : A → S → Prop) (E E' : error → S → Prop) :
  spec m s Q E → (∀ a s', Q a s' → Q' a s') → (∀ e s', E e s' → E' e s') →
  spec m s Q' E'.
Proof. unfold spec. destruct (m s) as [[a|e|p|] s']; auto. Qed.

Lemma spec_wrapM {A} fmt (m : M S A) s (Q : A → S → Prop) (E : error → S → Prop) :
  spec m s Q (λ e s', E (Wrapf fmt e) s') → spec (wrapM fmt m) s Q E.
Proof. unfold spec, wrapM. destruct (m s) as [[a|e|p|] s']; done. Qed.

Lemma spec_reject_if c e s (Q : () → S → Prop) (E : error → S → Prop) :
  (c = true → E e s) → (c = false → Q tt s) → spec (reject_if c e) s Q E.
Proof. destruct c; cbn; auto. Qed.

Lemma spec_gets {A} (f : S → A) s (Q : A → S → Prop) E : Q (f s) s → spec (gets f) s Q E.
Proof. done. Qed.

Lemma spec_modify (f : S → S) s (Q : () → S → Prop) E : Q tt (f s) → spec (modify f) s Q E.
Proof. done. Qed.

Lemma spec_lift_res {A} (r : res error A) s (Q : A → S → Prop) (E : error → S → Prop) :
  no_crash r → (∀ a, r = Ok a → Q a s) → (∀ e, r = Err e → E e s) → spec (lift_res r) s Q E.
Proof. unfold spec, lift_res. destruct r; auto. Qed.

Lemma spec_no_crash {A} (m : M S A) s Q E : spec m s Q E → no_crash (m s).1.
Proof. unfold spec. by destruct (m s) as [[a|e|p|] s']. Qed.

Lemma spec_Ok {A} (m : M S A) s Q E a s' : spec m s Q E → m s = (Ok a, s') → Q a s'.
Proof. unfold spec. intros H Hm. by rewrite Hm in H. Qed.

(** *** Inversion and computation rules *)
Lemma bind_Ok_inv {A B} (m : M S A) (f : A → M S B) s b s' :
  (m ≫= f) s = (Ok b, s') → ∃ a s1, m s = (Ok a, s1) ∧ f a s1 = (Ok b, s').
Proof. unfold mbind, M_bind. destruct (m s) as [[] s1]; naive_solver. Qed.

Lemma bind_Err_inv {A B} (m : M S A) (f : A → M S B) s e s' :
  (m ≫= f) s = (Err e, s') →
  m s = (Err e, s') ∨ ∃ a s1, m s = (Ok a, s1) ∧ f a s1 = (Err e, s').
Proof. unfold mbind, M_bind. destruct (m s) as [[] s1]; naive_solver. Qed.

Lemma wrapM_Err_inv {A} fmt (m : M S A) s e s1 :
  wrapM fmt m s = (Err e, s1) → ∃ e', e = Wrapf fmt e' ∧ m s = (Err e', s1).
Proof. unfold wrapM. destruct (m s) as [[]] eqn:?; cbn; intros [= <- <-]; eauto. Qed.

Lemma bind_Ok {A B} (m : M S A) (f : A → M S B) s a s1 :
  m s = (Ok a, s1) → (m ≫= f) s = f a s1.
Proof. unfold mbind, M_bind. by intros ->. Qed.

Lemma bind_Err {A B} (m : M S A) (f : A → M S B) s e s1 :
  m s = (Err e, s1) → (m ≫= f) s = (Err e, s1).
Proof. unfold mbind, M_bind. by intros ->. Qed.

Lemma wrapM_Ok {A} fmt (m : M S A) s a s1 :
  m s = (Ok a, s1) → wrapM fmt m s = (Ok a, s1).
Proof. unfold wrapM. by intros ->. Qed.

Lemma wrapM_Err {A} fmt (m : M S A) s e s1 :
  m s = (Err e, s1) → wrapM fmt m s = (Err (Wrapf fmt e), s1).
Proof. unfold wrapM. by intros ->. Qed.

Lemma wrapM_Ok_inv {A} fmt (m : M S A) s a s1 :
  wrapM fmt m s = (Ok a, s1) → m s = (Ok a, s1).
Proof. unfold wrapM. destruct (m s) as [[]] eqn:?; naive_solver. Qed.

Lemma reject_if_Ok_inv c e (s : S) u s1 :
  reject_if c e s = (Ok u, s1) → c = false ∧ s1 = s.
Proof. destruct c; unfold reject_if, fail, mret, M_ret; naive_solver. Qed.

Lemma lift_res_Ok_inv {A} (r : res error A) (s : S) a s1 :
  lift_res r s = (Ok a, s1) → r = Ok a ∧ s1 = s.
Proof. unfold lift_res. naive_solver. Qed.

Lemma lift_res_Ok {A} (r : res error A) (s : S) a : r = Ok a → lift_res r s = (Ok a, s).
Proof. by intros ->. Qed.

Lemma reject_if_Ok c e (s : S) : c = false → reject_if c e s = (Ok tt, s).
Proof. by intros ->. Qed.
End Spec.

(** *** Computations that return

    From every state they end with a value or an error. *)
Definition returns {S A} (m : M S A) : Prop := ∀ s, no_crash (m s).1.

Section Returns.
Context {S A B : Type}.
Lemma returns_mret (a : A) : returns (S := S) (mret a).
Proof. done. Qed.
Lemma returns_fail e : returns (S := S) (A := A) (fail e).
Proof. done. Qed.
Lemma returns_gets (f : S → A) : returns (gets f).
Proof. done. Qed.
Lemma returns_modify (f : S → S) : returns (modify f).
Proof. done. Qed.
Lemma returns_lift_res (r : res error A) : no_crash r → returns (S := S) (lift_res r).
Proof. by intros H s. Qed.
Lemma returns_reject_if c e : returns (S := S) (reject_if c e).
Proof. by destruct c. Qed.
Lemma returns_wrapM fmt (m : M S A) : returns m → returns (wrapM fmt m).
Proof. intros Hm s. specialize (Hm s). unfold wrapM. by destruct (m s) as [[] ?]. Qed.
Lemma returns_mbind (m : M S A) (f : A → M S B) : returns m → (∀ a, returns (f a)) → returns (m ≫= f).
Proof.
  intros Hm Hf s. specialize (Hm s). unfold mbind, M_bind. destruct (m s) as [[] ?]; try done. apply Hf.
Qed.
End Returns.
Create HintDb returns.
#[export] Hint Resolve returns_mret returns_fail returns_gets returns_modify returns_lift_res
  returns_reject_if returns_wrapM returns_mbind : returns.

Lemma res_bind_Ok_inv {E A B} (m : res E A) (f : A → res E B) b :
  (m ≫= f) = Ok b → ∃ a, m = Ok a ∧ f a = Ok b.
Proof. destruct m; cbn; naive_solver. Qed.

Lemma wrapf_Ok_inv {A} fmt (m : res error A) a : wrapf fmt m = Ok a → m = Ok a.
Proof. by destruct m. Qed.

Lemma wrapf_no_crash {A} fmt (m : res error A) : no_crash m → no_crash (wrapf fmt m).
Proof. by destruct m. Qed.

(** [if c { return fmt.Errorf(...) }] in a function without state. *)
Definition reject (c : bool) (e : error) : res error () := if c then Err e else Ok tt.

Section Res.
Context {A B : Type}.
Implicit Types (r : res error A).

Lemma Ok_inj (x y : A) : @Ok error A x = Ok y → x = y.
Proof. congruence. Qed.

Lemma reject_Ok c e : reject c e = Ok tt ↔ c = false.
Proof. by destruct c. Qed.

Lemma wrapf_Ok fmt r a : wrapf fmt r = Ok a ↔ r = Ok a.
Proof. by destruct r. Qed.

Lemma res_bind_Ok r (f : A → res error B) b :
  (r ≫= f) = Ok b ↔ ∃ a, r = Ok a ∧ f a = Ok b.
Proof. split; [apply res_bind_Ok_inv|]. by intros (? & -> & ?). Qed.

Lemma res_bind_unit_Ok (r : res error ()) (f : () → res error B) b :
  (r ≫= f) = Ok b ↔ r = Ok tt ∧ f tt = Ok b.
Proof. destruct r as [[]| | |]; cbn; split; try done; by intros [? ?]. Qed.

Lemma no_crash_bind r (f : A → res error B) :
  no_crash r → (∀ a, r = Ok a → no_crash (f a)) → no_crash (r ≫= f).
Proof. destruct r; cbn; auto. Qed.

Lemma reject_no_crash c e : no_crash (reject c e).
Proof. by destruct c. Qed.
End Res.

Create HintDb go.
Create Rewrite HintDb go.
#[export] Hint Resolve spec_ret spec_fail spec_gets spec_modify wrapf_no_crash reject_no_crash : go.

(** [inv_ok H] decomposes a hypothesis stating that a monadic block returned
    [Ok] into the successive statements' results. *)
Ltac inv_ok_step H :=
  lazymatch type of H with
  | (mbind _ _) _ = (Ok _, _) =>
      let a := fresh "a" in let s := fresh "s" in let Hm := fresh "Hm" in
      apply bind_Ok_inv in H as (a & s & Hm & H); inv_ok_step Hm
  | (mbind _ _) = Ok _ =>
      let a := fresh "a" in let Hm := fresh "Hm" in
      apply res_bind_Ok_inv in H as (a & Hm & H); inv_ok_step Hm
  | wrapM _ _ _ = (Ok _, _) => apply wrapM_Ok_inv in H; inv_ok_step H
  | wrapf _ _ = Ok _ => apply wrapf_Ok_inv in H; inv_ok_step H
  | reject_if ?c _ _ = (Ok _, _) =>
      let Hc := fresh "Hc" in apply reject_if_Ok_inv in H as [Hc H]; subst
  | lift_res _ _ = (Ok _, _) =>
      let Hr := fresh "Hr" in apply lift_res_Ok_inv in H as [Hr H]; subst; inv_ok_step Hr
  | modify _ _ = (Ok _, _) => injection H as H; subst
  | fail _ _ = (Ok _, _) => discriminate H
  | panic _ _ = (Ok _, _) => discriminate H
  | nofuel _ = (Ok _, _) => discriminate H
  | mret _ _ = (Ok _, _) => injection H as H; subst
  | gets _ _ = (Ok _, _) => injection H as H; subst
  | mret _ = Ok _ => injection H as H; subst
  | (Ok _, _) = (Ok _, _) => injection H as H; subst
  | Ok _ = Ok _ => injection H as H; subst
  | Err _ = Ok _ => discriminate H
  | (Err _, _) = (Ok _, _) => discriminate H
  | _ => idtac
  end.
Ltac inv_ok H := repeat (progress (inv_ok_step H)).

(** [go_step] advances a [spec] goal by one statement. *)
Ltac go_step :=
  lazymatch goal with
  | |- spec (mbind _ _) _ _ _ => apply spec_bind
  | |- spec (mret _) _ _ _ => apply spec_ret
  | |- spec (fail _) _ _ _ => apply spec_fail
  | |- spec (gets _) _ _ _ => apply spec_gets
  | |- spec (modify _) _ _ _ => apply spec_modify
  | |- spec (wrapM _ _) _ _ _ => apply spec_wrapM
  | |- spec (lift_res _) _ _ _ => apply spec_lift_res; [|intros ? ?|intros ? ?]
  | |- spec (reject_if _ _) _ _ _ => apply spec_reject_if; intros ?
  | |- spec (if ?b then _ else _) _ _ _ => destruct b eqn:?
  end.

(** ** Generic lemmas on lists and integers *)

Lemma bool_decide_not_false_1 (P : Prop) `{!Decision P, !Decision (¬ P)} :
  bool_decide (¬ P) = false → P.
Proof. rewrite bool_decide_eq_false. by apply dec_stable. Qed.
Lemma bool_decide_not_false_2 (P : Prop) `{!Decision (¬ P)} : P → bool_decide (¬ P) = false.
Proof. rewrite bool_decide_eq_false. auto. Qed.

(** Go's [len] as an integer. *)
Definition zlen {A} (l : list A) : Z := Z.of_nat (length l).

Lemma zlen_nonneg {A} (l : list A) : 0 ≤ zlen l.
Proof. unfold zlen. lia. Qed.

Lemma zlen_app {A} (l k : list A) : zlen (l ++ k) = zlen l + zlen k.
Proof. unfold zlen. rewrite length_app. lia. Qed.

Lemma zlen_cons {A} (x : A) l : zlen (x :: l) = 1 + zlen l.
Proof. unfold zlen. cbn [length]. lia. Qed.

Lemma zlen_0 {A} (l : list A) : zlen l = 0 ↔ l = [].
Proof. unfold zlen. destruct l; cbn; split; [done|done|lia|done]. Qed.

Lemma ltb_zlen {A} (l : list A) : BoolSpec (l ≠ []) (l = []) (0 <? zlen l).
Proof. destruct l; cbn; by constructor. Qed.

#[export] Hint Rewrite @zlen_app @zlen_cons : go.
#[export] Hint Resolve zlen_nonneg : go.

Lemma app_inj_len {A} (a b c d : list A) :
  length a = length c → a ++ b = c ++ d → a = c ∧ b = d.
Proof. intros. by apply app_inj_1. Qed.

Lemma take_app_len {A} (l k : list A) n : n = length l → take n (l ++ k) = l.
Proof. intros ->. apply take_app_length. Qed.

Lemma drop_app_len {A} (l k : list A) n : n = length l → drop n (l ++ k) = k.
Proof. intros ->. apply drop_app_length. Qed.

(** Conversions to fixed-width unsigned integers. *)
Definition uint8 (z : Z) : Z := z mod 2 ^ 8.
Definition uint16 (z : Z) : Z := z mod 2 ^ 16.
Definition uint32 (z : Z) : Z := z mod 2 ^ 32.
Definition uint64 (z : Z) : Z := z mod 2 ^ 64.
(** [int(n)] of a [uint64] *)
Definition int_of_uint64 (n : Z) : Z := if n <? 2 ^ 63 then n else n - 2 ^ 64.

(** Lookup in a table written as an association list (a Go map literal). *)
Fixpoint assoc {A} (k : Z) (l : list (Z * A)) : option A :=
  match l with
  | [] => None
  | (k', a) :: l => if k =? k' then Some a else assoc k l
  end.

Lemma assoc_Some_In {A} k (l : list (Z * A)) a : assoc k l = Some a → (k, a) ∈ l.
Proof.
  induction l as [|[k' a'] l IH]; cbn; [done|].
  destruct (Z.eqb_spec k k') as [->|]; intros H.
  - injection H as ->. by left.
  - right. auto.
Qed.
