(* ===== verification/GoBytes.v ===== *)
(** * Bytes, readers and fixed-width decoding

    The parts of Go's standard library the parsers are written with:
    [bytes.Buffer] and [bytes.Reader] (a suffix of the input still to read),
    [io.LimitedReader] (a stack of byte budgets over it), [io.ReadFull] and
    [encoding/binary.Read]/[Write] for fixed-size integers and structures,
    [encoding/hex] and [unicode/utf16]. *)
From S2P Require Import Prelude.

Abbreviation bytes := (list byte).

#[export] Instance byte_eq_dec : EqDecision byte.
Proof. intros x y. destruct (Byte.eqb x y) eqn:E; [left|right].
  - by apply Byte.byte_dec_bl.
  - intros ->. by rewrite Byte.byte_dec_lb in E.
Defined.

(** Bytes of an ASCII string literal. *)
Definition str (s : string) : bytes := String.list_byte_of_string s.

(** ** Little and big endian integers *)

Definition le_uint (b : bytes) : Z := le_combine b.
Definition le_bytes (n : nat) (z : Z) : bytes := le_split n z.
Definition be_uint (b : bytes) : Z := le_combine (reverse b).
Definition be_bytes (n : nat) (z : Z) : bytes := reverse (le_split n z).

Lemma length_le_bytes n z : length (le_bytes n z) = n.
Proof. apply length_le_split. Qed.
Lemma length_be_bytes n z : length (be_bytes n z) = n.
Proof. unfold be_bytes. by rewrite length_reverse, length_le_split. Qed.

Lemma le_uint_bound b : 0 ≤ le_uint b < 2 ^ (8 * zlen b).
Proof. apply le_combine_bound. Qed.

Lemma le_uint_le_bytes n z :
  0 ≤ z < 2 ^ (8 * Z.of_nat n) → le_uint (le_bytes n z) = z.
Proof.
  intros Hz. unfold le_uint, le_bytes. rewrite le_combine_split.
  apply Z.mod_small. by rewrite (Z.mul_comm _ 8).
Qed.

Lemma le_bytes_le_uint n b : length b = n → le_bytes n (le_uint b) = b.
Proof. apply split_le_combine'. Qed.

Lemma le_uint_inj b1 b2 : length b1 = length b2 → le_uint b1 = le_uint b2 → b1 = b2.
Proof. apply le_combine_inj. Qed.

Lemma be_uint_be_bytes n z :
  0 ≤ z < 2 ^ (8 * Z.of_nat n) → be_uint (be_bytes n z) = z.
Proof. unfold be_uint, be_bytes. rewrite reverse_involutive. apply le_uint_le_bytes. Qed.

#[export] Hint Rewrite length_le_bytes length_be_bytes : go.

(** The field of [n] bytes at offset [off] of a fixed-size structure. *)
Definition field (off n : nat) (b : bytes) : bytes := take n (drop off b).

Lemma field_app (a b c : bytes) off n :
  off = length a → n = length b → field off n (a ++ b ++ c) = b.
Proof. intros -> ->. unfold field. by rewrite drop_app_length, take_app_length. Qed.

Lemma length_field off n b : (off + n ≤ length b)%nat → length (field off n b) = n.
Proof. intros. unfold field. rewrite length_take, length_drop. lia. Qed.

(** Reading the fields of a concatenation. *)
Lemma field_skip k (a b : bytes) off n :
  length a = k → (k ≤ off)%nat → field off n (a ++ b) = field (off - k) n b.
Proof. intros <- ?. unfold field. by rewrite drop_app_ge. Qed.

Lemma field_here (a b : bytes) n : length a = n → field 0 n (a ++ b) = a.
Proof. intros <-. unfold field. by rewrite drop_0, take_app_length. Qed.

Lemma field_whole (a : bytes) n : length a = n → field 0 n a = a.
Proof. intros <-. unfold field. by rewrite drop_0, take_ge. Qed.

(** Evaluates [field] on a concatenation of pieces of known lengths. *)
Ltac field_len := first [apply length_le_bytes | eassumption | reflexivity].
Ltac field_eval :=
  repeat first
    [ rewrite field_here by field_len
    | rewrite field_whole by field_len
    | erewrite field_skip; [|field_len|lia]; cbn [Nat.sub] ].

Lemma le_field off n b :
  (off + n ≤ length b)%nat → le_bytes n (le_uint (field off n b)) = field off n b.
Proof. intros. apply le_bytes_le_uint. by apply length_field. Qed.

Lemma le_field_bound off n b :
  (off + n ≤ length b)%nat → 0 ≤ le_uint (field off n b) < 2 ^ (8 * Z.of_nat n).
Proof. intros H. pose proof (le_uint_bound (field off n b)) as Hb.
  unfold zlen in Hb. by rewrite (length_field off n b H) in Hb. Qed.

(** A byte string cut at consecutive offsets. *)
Lemma field_split off n m (b : bytes) :
  field off (n + m) b = field off n b ++ field (off + n) m b.
Proof. unfold field. by rewrite <- drop_drop, take_take_drop. Qed.

Lemma field_all (b : bytes) n : length b = n → field 0 n b = b.
Proof. intros <-. unfold field. by rewrite drop_0, take_ge. Qed.

Lemma zlen_be_bytes n z : zlen (be_bytes n z) = Z.of_nat n.
Proof. unfold zlen. by rewrite length_be_bytes. Qed.
Lemma zlen_le_bytes n z : zlen (le_bytes n z) = Z.of_nat n.
Proof. unfold zlen. by rewrite length_le_bytes. Qed.
#[export] Hint Rewrite zlen_le_bytes zlen_be_bytes : go.

Lemma be_uint_bound b : 0 ≤ be_uint b < 2 ^ (8 * zlen b).
Proof. unfold be_uint. pose proof (le_uint_bound (reverse b)) as H. unfold zlen in *. by rewrite length_reverse in H. Qed.
Lemma be_bytes_be_uint n b : length b = n → be_bytes n (be_uint b) = b.
Proof. intros <-. unfold be_bytes, be_uint. rewrite split_le_combine'; [by rewrite reverse_involutive|by rewrite length_reverse]. Qed.

(** ** Readers *)

(** [rd_buf] is what is left to read; [rd_lims] the remaining budgets [N] of
    the [io.LimitedReader]s wrapped around it, innermost (current) first. *)
Record reader := mkReader { rd_buf : bytes; rd_lims : list Z }.

Definition NewReader (b : bytes) : reader := mkReader b [].

(** Bytes a sequence of [Read] calls can deliver before [io.EOF]. *)
Definition rd_avail (r : reader) : Z := foldr Z.min (zlen (rd_buf r)) (rd_lims r).

(** Every read moves the buffer and decrements all the budgets. *)
Definition rd_consume (n : Z) (r : reader) : reader :=
  mkReader (drop (Z.to_nat n) (rd_buf r)) ((λ l, l - n) <$> rd_lims r).

(** [Len()] of a [bytes.Buffer]/[bytes.Reader]. *)
Definition rd_len (r : reader) : Z := zlen (rd_buf r).

(** [r.N] of the current [io.LimitedReader]. *)
Definition rd_N (r : reader) : Z := hd (rd_len r) (rd_lims r).

(** [io.ReadFull] into a buffer of [n] bytes: all of it, or [io.EOF] when
    nothing could be read, or [io.ErrUnexpectedEOF] after a short read (whose
    bytes are consumed).  [binary.Read] of a value of [n] bytes is the same. *)
Definition ReadFull (n : Z) : M reader bytes := λ r,
  if n <=? rd_avail r then (Ok (take (Z.to_nat n) (rd_buf r)), rd_consume n r)
  else (Err (if rd_avail r =? 0 then EOF else ErrUnexpectedEOF), rd_consume (rd_avail r) r).

Definition read_le (n : Z) : M reader Z := b ← ReadFull n; mret (le_uint b).
Definition read_be (n : nat) : M reader Z := b ← ReadFull (Z.of_nat n); mret (be_uint b).

(** [r' := &io.LimitedReader{R: r, N: n}]: run [m] on [r'], then go on with [r]. *)
Definition with_limit {A} (n : Z) (m : M reader A) : M reader A := λ r,
  let '(x, r') := m (mkReader (rd_buf r) (n :: rd_lims r)) in
  (x, mkReader (rd_buf r') (tail (rd_lims r'))).

(** *** Facts about readers *)

Lemma rd_avail_le r : rd_avail r ≤ zlen (rd_buf r).
Proof. unfold rd_avail. induction (rd_lims r); cbn; lia. Qed.

Lemma rd_avail_NewReader b : rd_avail (NewReader b) = zlen b.
Proof. done. Qed.

(** Budgets never go negative. *)
Definition rd_ok (r : reader) : Prop := Forall (λ l, 0 ≤ l) (rd_lims r).

Lemma rd_avail_nonneg r : rd_ok r → 0 ≤ rd_avail r.
Proof.
  unfold rd_ok, rd_avail. intros H. pose proof (zlen_nonneg (rd_buf r)).
  induction H; cbn; lia.
Qed.

Lemma rd_avail_lims r : Forall (λ l, rd_avail r ≤ l) (rd_lims r).
Proof.
  unfold rd_avail. induction (rd_lims r) as [|l ls IH]; constructor; cbn; [lia|].
  eapply Forall_impl; [exact IH|]. cbn. lia.
Qed.

Lemma rd_ok_consume n r : n ≤ rd_avail r → rd_ok (rd_consume n r).
Proof.
  intros Hn. unfold rd_ok, rd_consume; cbn. apply Forall_fmap.
  eapply Forall_impl; [apply rd_avail_lims|]. cbn. lia.
Qed.

Lemma zlen_consume n r :
  0 ≤ n → n ≤ rd_avail r → zlen (rd_buf (rd_consume n r)) = zlen (rd_buf r) - n.
Proof.
  intros H0 Hn. pose proof (rd_avail_le r). unfold zlen, rd_consume in *; cbn.
  rewrite length_drop. lia.
Qed.

Lemma rd_consume_N n r l ls :
  rd_lims r = l :: ls → rd_N (rd_consume n r) = l - n.
Proof. intros E. unfold rd_N, rd_consume; cbn. by rewrite E. Qed.

(** The specification of [ReadFull]: on success exactly the next [n] bytes. *)
Lemma ReadFull_spec n r :
  0 ≤ n → rd_ok r →
  spec (ReadFull n) r
    (λ b r', n ≤ rd_avail r ∧ r' = rd_consume n r ∧ b ++ rd_buf r' = rd_buf r ∧ zlen b = n ∧ rd_ok r')
    (λ e r', rd_avail r < n ∧ r' = rd_consume (rd_avail r) r ∧ rd_ok r').
Proof.
  intros Hn Hr. unfold spec, ReadFull. pose proof (rd_avail_le r).
  destruct (Z.leb_spec n (rd_avail r)).
  - split_and!; [done|done|cbn; apply take_drop| |by apply rd_ok_consume].
    unfold zlen in *. rewrite length_take. lia.
  - split_and!; [done..|]. apply rd_ok_consume. lia.
Qed.

(** Reading what was written first. *)
Lemma ReadFull_app n (b rest : bytes) :
  zlen b = n → ReadFull n (NewReader (b ++ rest)) = (Ok b, NewReader rest).
Proof.
  intros <-. unfold ReadFull. rewrite rd_avail_NewReader, zlen_app.
  pose proof (zlen_nonneg rest). destruct (Z.leb_spec (zlen b) (zlen b + zlen rest)); [|lia].
  unfold rd_consume, NewReader, zlen; cbn. rewrite Nat2Z.id.
  by rewrite take_app_length, drop_app_length.
Qed.

Lemma ReadFull_short n b :
  zlen b < n → ReadFull n (NewReader b) =
    (Err (if zlen b =? 0 then EOF else ErrUnexpectedEOF), NewReader []).
Proof.
  intros Hn. unfold ReadFull. rewrite rd_avail_NewReader.
  destruct (Z.leb_spec n (zlen b)); [lia|].
  unfold rd_consume, NewReader, zlen; cbn. rewrite Nat2Z.id. by rewrite drop_all.
Qed.

Lemma read_be_app k z (rest : bytes) :
  0 ≤ z < 2 ^ (8 * Z.of_nat k) →
  read_be k (NewReader (be_bytes k z ++ rest)) = (Ok z, NewReader rest).
Proof.
  intros Hz. unfold read_be. erewrite bind_Ok; [|apply ReadFull_app].
  - cbn. rewrite be_uint_be_bytes; done.
  - unfold zlen. by rewrite length_be_bytes.
Qed.

Lemma read_le_app k n z (rest : bytes) :
  n = Z.of_nat k → 0 ≤ z < 2 ^ (8 * n) →
  read_le n (NewReader (le_bytes k z ++ rest)) = (Ok z, NewReader rest).
Proof.
  intros -> Hz. unfold read_le. erewrite bind_Ok; [|apply ReadFull_app].
  - cbn. rewrite le_uint_le_bytes; done.
  - unfold zlen. by rewrite length_le_bytes.
Qed.

(** Inversion: a successful read of an unlimited reader split its input. *)
Lemma ReadFull_Ok_inv n b s r' :
  0 ≤ n → ReadFull n (NewReader s) = (Ok b, r') →
  ∃ rest, s = b ++ rest ∧ zlen b = n ∧ r' = NewReader rest.
Proof.
  intros Hn H. pose proof (ReadFull_spec n (NewReader s) Hn (Forall_nil_2 _)) as Hs.
  destruct (spec_Ok _ _ _ _ _ _ Hs H) as (? & -> & E & Hl & _).
  exists (rd_buf (rd_consume n (NewReader s))). by rewrite E.
Qed.

Lemma read_le_Ok_inv n z s r' :
  0 ≤ n → read_le n (NewReader s) = (Ok z, r') →
  ∃ b rest, s = b ++ rest ∧ zlen b = n ∧ z = le_uint b ∧ r' = NewReader rest.
Proof.
  intros Hn H. unfold read_le in H. inv_ok H.
  apply ReadFull_Ok_inv in Hm as (rest & -> & Hl & ->); [|done]. naive_solver.
Qed.

(** ** Parsers over an unlimited reader

    [reads m s P]: on input [s], [m] does not crash; when it succeeds with [a]
    it has consumed a prefix [used] of [s] with [P a used].  The composition
    rules turn a parser into the exact format of the bytes it accepts. *)
Definition reads {A} (m : M reader A) (s : bytes) (P : A → bytes → Prop) : Prop :=
  spec m (NewReader s)
    (λ a r', ∃ used rest, r' = NewReader rest ∧ s = used ++ rest ∧ P a used)
    (λ _ r', ∃ rest, r' = NewReader rest).

Section Reads.
Context {A B : Type}.
Implicit Types (s used rest : bytes).

Lemma reads_mono (m : M reader A) s (P Q : A → bytes → Prop) :
  reads m s P → (∀ a used rest, s = used ++ rest → P a used → Q a used) → reads m s Q.
Proof.
  intros H HPQ. eapply spec_mono; [exact H| |done].
  intros a r' (u & rest & -> & -> & HP). exists u, rest. eauto.
Qed.

Lemma reads_ret (a : A) s (P : A → bytes → Prop) : P a [] → reads (mret a) s P.
Proof. intros. apply spec_ret. by exists [], s. Qed.

Lemma reads_fail e s (P : A → bytes → Prop) : reads (fail e) s P.
Proof. apply spec_fail. by exists s. Qed.

Lemma reads_bind (m : M reader A) (f : A → M reader B) s P Q :
  reads m s P →
  (∀ a used rest, s = used ++ rest → P a used →
     reads (f a) rest (λ b u, Q b (used ++ u))) →
  reads (m ≫= f) s Q.
Proof.
  intros Hm Hf. apply spec_bind. eapply spec_mono; [exact Hm| |done].
  intros a r' (used & rest & -> & -> & HP). eapply spec_mono; [by eapply Hf| |done].
  intros b r' (u & rest' & -> & -> & HQ). exists (used ++ u), rest'. by rewrite (assoc_L app).
Qed.

Lemma reads_gets {C} (g : reader → C) (f : C → M reader B) s Q :
  reads (f (g (NewReader s))) s Q → reads (gets g ≫= f) s Q.
Proof. intros H. apply spec_bind, spec_gets, H. Qed.

Lemma reads_wrapM fmt (m : M reader A) s P : reads m s P → reads (wrapM fmt m) s P.
Proof. intros H. apply spec_wrapM, H. Qed.

Lemma reads_reject_if c e (f : () → M reader B) s Q :
  (c = false → reads (f tt) s Q) → reads (reject_if c e ≫= f) s Q.
Proof.
  intros H. apply spec_bind, spec_reject_if; intros Hc; [by exists s|]. by apply H.
Qed.

Lemma reads_lift_res (r : res error A) (f : A → M reader B) s Q :
  no_crash r → (∀ a, r = Ok a → reads (f a) s Q) → reads (lift_res r ≫= f) s Q.
Proof.
  intros Hr Hf. apply spec_bind. unfold spec, lift_res. destruct r; try done.
  - by apply Hf. - by exists s.
Qed.

Lemma reads_Ok (m : M reader A) s P a r' :
  reads m s P → m (NewReader s) = (Ok a, r') →
  ∃ used rest, r' = NewReader rest ∧ s = used ++ rest ∧ P a used.
Proof. intros H E. exact (spec_Ok _ _ _ _ _ _ H E). Qed.

Lemma reads_no_crash (m : M reader A) s P : reads m s P → no_crash (m (NewReader s)).1.
Proof. apply spec_no_crash. Qed.
End Reads.

Lemma reads_ReadFull n s : 0 ≤ n → reads (ReadFull n) s (λ b used, used = b ∧ zlen b = n).
Proof.
  intros Hn. eapply spec_mono; [apply ReadFull_spec; [done|constructor]| |].
  - intros b r' (Hle & -> & E & Hl & _). exists b, (rd_buf (rd_consume n (NewReader s))).
    split_and!; by rewrite ?E.
  - intros e r' (_ & -> & _). by eexists.
Qed.

Lemma reads_le n s :
  0 ≤ n → reads (read_le n) s (λ z used, used = le_bytes (Z.to_nat n) z ∧ 0 ≤ z < 2 ^ (8 * n)).
Proof.
  intros Hn. eapply reads_bind; [by apply reads_ReadFull|].
  intros b used rest -> [-> Hl]. apply reads_ret. rewrite app_nil_r.
  rewrite le_bytes_le_uint by (unfold zlen in *; lia).
  split; [done|]. rewrite <- Hl. apply le_uint_bound.
Qed.

Lemma reads_be n s :
  reads (read_be n) s (λ z used, used = be_bytes n z ∧ 0 ≤ z < 2 ^ (8 * Z.of_nat n)).
Proof.
  eapply reads_bind; [apply reads_ReadFull; lia|].
  intros b used rest -> [-> Hl]. apply reads_ret. rewrite app_nil_r.
  rewrite be_bytes_be_uint by (unfold zlen in *; lia).
  split; [done|]. rewrite <- Hl. apply be_uint_bound.
Qed.

(** ** Formats

    [format m enc wf]: the parser [m] accepts exactly the encodings of the
    well-formed values, whatever follows them. *)
Definition format {A} (m : M reader A) (enc : A → bytes) (wf : A → Prop) : Prop :=
  (∀ s, reads m s (λ a used, wf a ∧ used = enc a)) ∧
  (∀ a rest, wf a → m (NewReader (enc a ++ rest)) = (Ok a, NewReader rest)).

Section Format.
Context {A : Type} (m : M reader A) (enc : A → bytes) (wf : A → Prop).

Lemma format_no_crash b : format m enc wf → no_crash (m (NewReader b)).1.
Proof. intros [Hr _]. eapply reads_no_crash, Hr. Qed.

Lemma format_iff b a :
  format m enc wf →
  (m (NewReader b)).1 = Ok a ↔ wf a ∧ ∃ rest, b = enc a ++ rest.
Proof.
  intros [Hr He]. split.
  - destruct (m (NewReader b)) as [r r'] eqn:E. cbn. intros ->.
    destruct (reads_Ok _ _ _ _ _ (Hr b) E) as (u & rest & _ & -> & Hw & ->). eauto.
  - intros (Hw & rest & ->). by rewrite He.
Qed.
End Format.

(** A value read with one [binary.Read]. *)
Lemma reads_struct {A} n (f : bytes → A) s :
  0 ≤ n → reads (b ← ReadFull n; mret (f b)) s (λ a used, a = f used ∧ zlen used = n).
Proof.
  intros Hn. eapply reads_bind; [by apply reads_ReadFull|].
  intros b used rest -> [-> Hl]. apply reads_ret. by rewrite app_nil_r.
Qed.

(** ** Readers that move forward

    [advances r r']: some of the bytes that [r] could deliver were consumed. *)
Definition advances (r r' : reader) : Prop := ∃ n, 0 ≤ n ≤ rd_avail r ∧ r' = rd_consume n r.

Lemma rd_consume_0 r : rd_consume 0 r = r.
Proof.
  destruct r as [b ls]. unfold rd_consume; cbn. f_equal.
  induction ls as [|l ls IH]; cbn; [done|]. by rewrite IH, Z.sub_0_r.
Qed.

Lemma rd_consume_add n m r :
  0 ≤ n → 0 ≤ m → rd_consume m (rd_consume n r) = rd_consume (n + m) r.
Proof.
  intros Hn Hm. destruct r as [b ls]. unfold rd_consume; cbn. f_equal.
  - rewrite drop_drop. f_equal. lia.
  - rewrite <- list_fmap_compose. apply list_fmap_ext. intros _ l _. cbn. lia.
Qed.

Lemma rd_avail_consume n r : 0 ≤ n ≤ rd_avail r → rd_avail (rd_consume n r) = rd_avail r - n.
Proof.
  intros Hn. destruct r as [b ls]. unfold rd_consume, rd_avail in *; cbn in *.
  assert (n ≤ zlen b) as Hb by (induction ls; cbn in *; lia).
  assert (zlen (drop (Z.to_nat n) b) = zlen b - n) as ->
    by (unfold zlen in *; rewrite length_drop; lia).
  clear Hn Hb. induction ls as [|l ls IH]; cbn; lia.
Qed.

Lemma advances_refl r : rd_ok r → advances r r.
Proof. intros Hr. exists 0. split; [by apply rd_avail_nonneg in Hr|]. by rewrite rd_consume_0. Qed.

Lemma advances_trans r1 r2 r3 : advances r1 r2 → advances r2 r3 → advances r1 r3.
Proof.
  intros (n & Hn & ->) (m & Hm & ->). rewrite rd_avail_consume in Hm by done.
  exists (n + m). split; [lia|]. apply rd_consume_add; lia.
Qed.

Lemma advances_ok r r' : advances r r' → rd_ok r'.
Proof. intros (n & Hn & ->). apply rd_ok_consume. lia. Qed.

Lemma advances_zlen r r' : advances r r' → zlen (rd_buf r') ≤ zlen (rd_buf r).
Proof. intros (n & Hn & ->). rewrite zlen_consume by lia. lia. Qed.

Lemma advances_NewReader s r' : advances (NewReader s) r' → ∃ used rest, s = used ++ rest ∧ r' = NewReader rest.
Proof.
  intros (n & _ & ->). exists (take (Z.to_nat n) s), (drop (Z.to_nat n) s). by rewrite take_drop.
Qed.

(** A limited reader that has moved left the reader under it moved. *)
Lemma advances_limit l r r' :
  advances (mkReader (rd_buf r) (l :: rd_lims r)) r' →
  advances r (mkReader (rd_buf r') (tail (rd_lims r'))) ∧ 0 ≤ rd_N r'.
Proof.
  intros (n & Hn & ->). cbn in Hn. unfold rd_avail in Hn; cbn in Hn. split; [|cbn; lia].
  exists n. split; [unfold rd_avail; lia|done].
Qed.

(** [moves m]: [m] returns, and its reader only moves forward. *)
Definition moves {A} (m : M reader A) : Prop :=
  ∀ r, rd_ok r → spec m r (λ _ r', advances r r') (λ _ r', advances r r').

Section Moves.
Context {A B : Type}.

Lemma moves_ret (a : A) : moves (mret a).
Proof. intros r Hr. by apply spec_ret, advances_refl. Qed.
Lemma moves_fail e : moves (A:=A) (fail e).
Proof. intros r Hr. by apply spec_fail, advances_refl. Qed.
Lemma moves_gets (f : reader → A) : moves (gets f).
Proof. intros r Hr. by apply spec_gets, advances_refl. Qed.
Lemma moves_reject_if c e : moves (reject_if c e).
Proof. destruct c; intros r Hr; by apply advances_refl. Qed.
Lemma moves_wrapM fmt (m : M reader A) : moves m → moves (wrapM fmt m).
Proof. intros Hm r Hr. apply spec_wrapM, Hm, Hr. Qed.
Lemma moves_bind (m : M reader A) (f : A → M reader B) :
  moves m → (∀ a, moves (f a)) → moves (m ≫= f).
Proof.
  intros Hm Hf r Hr. apply spec_bind. eapply spec_mono; [by apply Hm| |done].
  intros a r' Ha. eapply spec_mono; [apply Hf; exact (advances_ok _ _ Ha)|..];
    intros ? ? Hb; exact (advances_trans _ _ _ Ha Hb).
Qed.
End Moves.

Lemma moves_ReadFull n : 0 ≤ n → moves (ReadFull n).
Proof.
  intros Hn r Hr. eapply spec_mono; [by apply ReadFull_spec|..]; cbn.
  - intros b r' (Hle & -> & _). by exists n.
  - intros e r' (Hlt & -> & _). exists (rd_avail r). split; [|done].
    pose proof (rd_avail_nonneg r Hr). lia.
Qed.
Lemma moves_read_le n : 0 ≤ n → moves (read_le n).
Proof. intros. apply moves_bind; [by apply moves_ReadFull|intros; apply moves_ret]. Qed.

Create HintDb moves.
#[export] Hint Resolve moves_ret moves_fail moves_gets moves_reject_if moves_wrapM moves_bind
  moves_ReadFull moves_read_le : moves.

Lemma returns_ReadFull n : returns (ReadFull n).
Proof. intros r. unfold ReadFull. by case_match. Qed.
Lemma returns_read_be n : returns (read_be n).
Proof. apply returns_mbind; [apply returns_ReadFull|intros; apply returns_mret]. Qed.
#[export] Hint Resolve returns_ReadFull returns_read_be : returns.

(** ** [unicode/utf16.Decode]

    Code units to code points; unpaired surrogates become U+FFFD.  A Go string
    made from the result is represented by its code points. *)
Fixpoint utf16_Decode (u : list Z) : list Z :=
  match u with
  | [] => []
  | r :: u' =>
      if (0xd800 <=? r) && (r <? 0xdc00) then
        match u' with
        | s :: u'' =>
            if (0xdc00 <=? s) && (s <? 0xe000) then
              ((r - 0xd800) * 1024 + (s - 0xdc00) + 0x10000) :: utf16_Decode u''
            else 0xfffd :: utf16_Decode u'
        | [] => [0xfffd]
        end
      else if (0xdc00 <=? r) && (r <? 0xe000) then 0xfffd :: utf16_Decode u'
      else r :: utf16_Decode u'
  end.

(** The little-endian 16-bit integers of a buffer of whole ones. *)
Fixpoint uint16s (b : bytes) : list Z :=
  match b with
  | x :: y :: b => le_uint [x; y] :: uint16s b
  | _ => []
  end.

(** The code points of an ASCII literal. *)
Definition runes (s : string) : list Z := byte.unsigned <$> str s.

(** ** Formatting of unsigned integers and bytes in hexadecimal *)

Definition hex_digit (d : Z) : Ascii.ascii :=
  Ascii.ascii_of_N (Z.to_N (if d <? 10 then 48 + d else 87 + d)).

(** [%0<n>x] of a value below [16 ^ n]. *)
Fixpoint hex_pad (n : nat) (z : Z) : string :=
  match n with
  | O => ""
  | S n => String (hex_digit (z / 16 ^ Z.of_nat n mod 16)) (hex_pad n z)
  end.

(** [%x]: no leading zeros. *)
Fixpoint hex_trim (n : nat) (z : Z) : string :=
  match n with
  | O => ""
  | S m => if (z <? 16 ^ Z.of_nat m) && negb (Nat.eqb m 0) then hex_trim m z else hex_pad n z
  end.

(** [hex.EncodeToString]. *)
Fixpoint hex_EncodeToString (b : bytes) : string :=
  match b with
  | [] => ""
  | x :: b =>
      String (hex_digit (byte.unsigned x / 16))
        (String (hex_digit (byte.unsigned x mod 16)) (hex_EncodeToString b))
  end.
