(* ===== verification/Loops.v ===== *)
(** * Loops over slices, and computations that panic

    [for _, x := range l] and [for len(rest) > 0] with the state their
    iterations update, how properties of an iteration carry over to the loop,
    and the calculus of [panics_if]: when exactly a computation panics. *)
From S2P Require Import Prelude GoBytes.

(** ** Loops *)
(** [for _, x := range l] with a state that the iterations update *)
Fixpoint for_each {S A} (f : S → A → res error S) (s : S) (l : list A) : res error S :=
  match l with
  | [] => Ok s
  | a :: l => s ← f s a; for_each f s l
  end.

(** [for len(rest) > 0] over a sequence of DER values; an iteration consumes
    one of them, so the length of the input is enough fuel. *)
Fixpoint der_loop {S} (fuel : nat) (f : S → bytes → res error (S * bytes)) (s : S) (rest : bytes)
  : res error S :=
  match rest with
  | [] => Ok s
  | _ =>
      match fuel with
      | O => NoFuel
      | Datatypes.S fuel => sr ← f s rest; der_loop fuel f sr.1 sr.2
      end
  end.

Section Loops.
Context {S A : Type}.
Implicit Types (f : S → A → res error S).

Lemma for_each_app f s l k : for_each f s (l ++ k) = s ← for_each f s l; for_each f s k.
Proof.
  revert s. induction l as [|a l IH]; intros s; cbn; [done|]. destruct (f s a); cbn; [apply IH|done..].
Qed.

Lemma for_each_snoc_Ok f s l a s' :
  for_each f s (l ++ [a]) = Ok s' ↔ ∃ s1, for_each f s l = Ok s1 ∧ f s1 a = Ok s'.
Proof.
  rewrite for_each_app, res_bind_Ok. cbn. split; intros (s1 & H1 & H2); exists s1; split; auto.
  - by destruct (f s1 a); cbn in H2.
  - by rewrite H2.
Qed.

(** An operation that commutes with every iteration commutes with the loop. *)
Definition commutes (g : S → S) (h : S → res error S) : Prop :=
  ∀ s, h (g s) = s' ← h s; Ok (g s').

Lemma for_each_commutes f g l s :
  (∀ a, commutes g (λ s, f s a)) → for_each f (g s) l = s' ← for_each f s l; Ok (g s').
Proof.
  intros Hf. revert s. induction l as [|a l IH]; intros s; cbn; [done|].
  rewrite (Hf a s : f (g s) a = _). destruct (f s a) as [s'| | |]; cbn; [apply (IH s')|done..].
Qed.

Lemma der_loop_commutes (f : S → bytes → res error (S * bytes)) g fuel rest s :
  (∀ s b, f (g s) b = sr ← f s b; Ok (g sr.1, sr.2)) →
  der_loop fuel f (g s) rest = s' ← der_loop fuel f s rest; Ok (g s').
Proof.
  intros Hf. revert rest s. induction fuel as [|fuel IH]; intros [|x rest] s; cbn; try done.
  rewrite Hf. destruct (f s (x :: rest)) as [[s' r]| | |]; cbn; [apply (IH r s')|done..].
Qed.
End Loops.

Lemma for_each_invariant {S A} (P : S → Prop) (f : S → A → res error S) l : ∀ s s',
  (∀ a s s', P s → f s a = Ok s' → P s') → P s → for_each f s l = Ok s' → P s'.
Proof.
  induction l as [|a l IH]; intros s s' Hf Hs; cbn; [by intros [= <-]|].
  intros (s1 & H1 & H)%res_bind_Ok_inv. eauto.
Qed.

Lemma der_loop_invariant {S} (P : S → Prop) (f : S → bytes → res error (S * bytes)) fuel : ∀ rest s s',
  (∀ s b s' r, P s → f s b = Ok (s', r) → P s') → P s → der_loop fuel f s rest = Ok s' → P s'.
Proof.
  induction fuel as [|fuel IH]; intros [|x rest] s s' Hf Hs; cbn; try done; try (by intros [= <-]).
  intros ([s1 r] & H1 & H)%res_bind_Ok_inv. eauto.
Qed.

Lemma for_each_returns {S A} (f : S → A → res error S) l : ∀ s,
  (∀ s a, no_crash (f s a)) → no_crash (for_each f s l).
Proof.
  induction l as [|a l IH]; intros s Hf; cbn; [done|]. apply no_crash_bind; [done|]. auto.
Qed.

(** A loop over elements that are consumed *)
Lemma der_loop_returns {S} (f : S → bytes → res error (S * bytes)) fuel : ∀ s rest,
  (∀ s b, no_crash (f s b)) →
  (∀ s b s' r, f s b = Ok (s', r) → (length r < length b)%nat) →
  (length rest ≤ fuel)%nat → no_crash (der_loop fuel f s rest).
Proof.
  induction fuel as [|fuel IH]; intros s [|x rest] Hf Hlen Hfuel; cbn; try done; [cbn in Hfuel; lia|].
  apply no_crash_bind; [done|]. intros [s' r] Hr. apply IH; [done|done|].
  apply Hlen in Hr. cbn in *. lia.
Qed.

Lemma for_each_Ok_Forall {S A} (f : S → A → res error S) (P : A → Prop) l : ∀ s,
  (∀ s a, (∃ s', f s a = Ok s') ↔ P a) → (∃ s', for_each f s l = Ok s') ↔ Forall P l.
Proof.
  induction l as [|a l IH]; intros s Hf; cbn.
  - split; [done|eauto].
  - rewrite Forall_cons, <-(Hf s a). split.
    + intros (s' & (s1 & H1 & H2)%res_bind_Ok). split; [eauto|]. apply (IH s1); eauto.
    + intros ((s1 & H1) & H). apply (IH s1) in H as (s' & H); [|done]. exists s'. by rewrite H1.
Qed.

(** A loop followed by another one on its side *)
Lemma for_each_simulated {S S' A} (R : S → S' → Prop) (f : S → A → res error S) (g : S' → A → res error S') l :
  ∀ s s' t,
  (∀ a s s' t, R s t → f s a = Ok s' → ∃ t', g t a = Ok t' ∧ R s' t') →
  R s t → for_each f s l = Ok s' → ∃ t', for_each g t l = Ok t' ∧ R s' t'.
Proof.
  induction l as [|a l IH]; intros s s' t Hf Hs; cbn; [intros [= <-]; eauto|].
  intros (s1 & H1 & H)%res_bind_Ok_inv. destruct (Hf _ _ _ _ Hs H1) as (t1 & -> & HR). cbn. eauto.
Qed.

Lemma der_loop_simulated {S S'} (R : S → S' → Prop) f g fuel : ∀ rest (s s' : S) (t : S'),
  (∀ b s s' r t, R s t → f s b = Ok (s', r) → ∃ t', g t b = Ok (t', r) ∧ R s' t') →
  R s t → der_loop fuel f s rest = Ok s' → ∃ t', der_loop fuel g t rest = Ok t' ∧ R s' t'.
Proof.
  induction fuel as [|fuel IH]; intros [|x rest] s s' t Hf Hs; cbn; try done;
    try (intros [= <-]; eauto; done).
  intros ([s1 r] & H1 & H)%res_bind_Ok_inv. destruct (Hf _ _ _ _ _ Hs H1) as (t1 & -> & HR). cbn. eauto.
Qed.

(** ** Panics *)
(** A computation that returns, except that it panics if [P] *)
Definition panics_if {A} (r : res error A) (P : Prop) : Prop :=
  match r with Ok _ | Err _ => ¬ P | Panic _ => P | NoFuel => False end.

Lemma returns_panics_if {A} (r : res error A) P : no_crash r → ¬ P → panics_if r P.
Proof. by destruct r. Qed.

Lemma panics_if_bind {A B} (r : res error A) (f : A → res error B) (P : Prop) (Q : A → Prop) R :
  panics_if r P → (∀ a, r = Ok a → panics_if (f a) (Q a)) →
  (R ↔ P ∨ ∃ a, r = Ok a ∧ Q a) → panics_if (r ≫= f) R.
Proof.
  intros Hr Hf HR. destruct r as [a|e|m|]; cbn in *; try done.
  - specialize (Hf a eq_refl). assert (R ↔ Q a) as HQ by naive_solver.
    destruct (f a); cbn in *; tauto.
  - rewrite HR. naive_solver.
  - tauto.
Qed.

Lemma panics_if_iff {A} (r : res error A) P Q : (P ↔ Q) → panics_if r P → panics_if r Q.
Proof. intros H. destruct r; cbn; tauto. Qed.

Lemma returns_bind {A B} (r : res error A) (f : A → res error B) (Q : A → Prop) R :
  no_crash r → (∀ a, r = Ok a → panics_if (f a) (Q a)) →
  (R ↔ ∃ a, r = Ok a ∧ Q a) → panics_if (r ≫= f) R.
Proof.
  intros Hr Hf HR. eapply (panics_if_bind _ _ False); [destruct r; cbn in *; tauto|done|]. rewrite HR. tauto.
Qed.

Lemma panics_if_for_each {S A} (f : S → A → res error S) (Q : S → A → Prop) l : ∀ s,
  (∀ s a, panics_if (f s a) (Q s a)) →
  panics_if (for_each f s l)
    (∃ pre a post s', l = pre ++ a :: post ∧ for_each f s pre = Ok s' ∧ Q s' a).
Proof.
  induction l as [|a l IH]; intros s Hf; cbn.
  - by intros ([|] & ? & ? & ? & ? & _).
  - eapply panics_if_bind; [apply Hf|intros s' _; by apply IH|]. split.
    + intros (pre & a' & post & s' & E & Hpre & Ha). destruct pre as [|b pre]; cbn in *.
      * injection E as -> ->. injection Hpre as ->. by left.
      * injection E as -> ->. apply res_bind_Ok in Hpre as (s1 & H1 & H2). right. exists s1.
        split; [done|]. by exists pre, a', post, s'.
    + intros [Ha|(s1 & H1 & pre & a' & post & s' & -> & H2 & Ha)].
      * by exists [], a, l, s.
      * exists (a :: pre), a', post, s'. split; [done|]. split; [|done]. cbn. by rewrite H1.
Qed.
