(* ===== verification/GoCrypto.v ===== *)
(** * Hash functions

    [crypto.Hash] values with their sizes, SHA-1 and SHA-256 as executable
    functions ([crypto/sha1], [crypto/sha256]), and the interface [GoCrypto]
    through which the attestation code uses the hash registry: which hash
    functions are linked into the binary and what they compute.  The theorems
    of the other files are proved for every implementation of the interface;
    [sha_crypto] is the implementation the concrete evaluations use. *)
From S2P Require Import Prelude GoBytes.

(** ** SHA-1 and SHA-256 (FIPS 180-4) *)
Module Sha.
(** 32-bit words. *)
Definition add32 (x y : Z) : Z := Z.land (x + y) 0xffffffff.
Definition rotl (n x : Z) : Z :=
  Z.lor (Z.land (Z.shiftl x n) 0xffffffff) (Z.shiftr x (32 - n)).
Definition rotr (n x : Z) : Z := rotl (32 - n) x.
Definition not32 (x : Z) : Z := Z.lxor x 0xffffffff.
Definition xor3 (x y z : Z) : Z := Z.lxor x (Z.lxor y z).
Definition Ch (x y z : Z) : Z := Z.lxor (Z.land x y) (Z.land (not32 x) z).
Definition Maj (x y z : Z) : Z := xor3 (Z.land x y) (Z.land x z) (Z.land y z).

(** Padding of both functions: 0x80, zeros up to 56 modulo 64, bit length. *)
Definition pad (m : bytes) : bytes :=
  m ++ [Byte.x80] ++ replicate (Z.to_nat ((55 - zlen m) mod 64)) Byte.x00
    ++ be_bytes 8 (8 * zlen m).

Fixpoint words (n : nat) (b : bytes) : list Z :=
  match n with
  | O => []
  | S n => be_uint (take 4 b) :: words n (drop 4 b)
  end.

Fixpoint blocks (fuel : nat) (b : bytes) : list (list Z) :=
  match fuel, b with
  | S f, _ :: _ => words 16 (take 64 b) :: blocks f (drop 64 b)
  | _, _ => []
  end.

(** The message schedule, latest word first. *)
Fixpoint expand (next : list Z → Z) (n : nat) (ws : list Z) : list Z :=
  match n with
  | O => ws
  | S n => expand next n (next ws :: ws)
  end.
Definition w (ws : list Z) (back : nat) : Z := nth (back - 1) ws 0.

Record st1 := St1 { a1 : Z; b1 : Z; c1 : Z; d1 : Z; e1 : Z }.

Definition f1 (t : nat) (b c d : Z) : Z * Z :=
  if Nat.ltb t 20 then (Ch b c d, 0x5a827999)
  else if Nat.ltb t 40 then (xor3 b c d, 0x6ed9eba1)
  else if Nat.ltb t 60 then (Maj b c d, 0x8f1bbcdc)
  else (xor3 b c d, 0xca62c1d6).

Fixpoint rounds1 (t : nat) (ws : list Z) (s : st1) : st1 :=
  match ws with
  | [] => s
  | wt :: ws =>
      let '(f, k) := f1 t (b1 s) (c1 s) (d1 s) in
      let tmp := add32 (rotl 5 (a1 s)) (add32 f (add32 (e1 s) (add32 k wt))) in
      rounds1 (S t) ws (St1 tmp (a1 s) (rotl 30 (b1 s)) (c1 s) (d1 s))
  end.

Definition block1 (s : st1) (blk : list Z) : st1 :=
  let ws := reverse (expand
    (λ ws, rotl 1 (Z.lxor (w ws 3) (xor3 (w ws 8) (w ws 14) (w ws 16)))) 64 (reverse blk)) in
  let r := rounds1 0 ws s in
  St1 (add32 (a1 s) (a1 r)) (add32 (b1 s) (b1 r)) (add32 (c1 s) (c1 r))
      (add32 (d1 s) (d1 r)) (add32 (e1 s) (e1 r)).

Definition sha1 (m : bytes) : bytes :=
  let p := pad m in
  let s := foldl block1 (St1 0x67452301 0xefcdab89 0x98badcfe 0x10325476 0xc3d2e1f0)
             (blocks (length p) p) in
  be_bytes 4 (a1 s) ++ be_bytes 4 (b1 s) ++ be_bytes 4 (c1 s) ++ be_bytes 4 (d1 s)
    ++ be_bytes 4 (e1 s).

Record st2 := St2 { a2 : Z; b2 : Z; c2 : Z; d2 : Z; e2 : Z; f2 : Z; g2 : Z; h2 : Z }.

(** The constants: the first 32 bits of the fractional parts of the square
    and cube roots of the first primes. *)
Definition primes (n : nat) : list Z :=
  filter (λ p, forallb (λ q, negb (p mod q =? 0)) (filter (λ q, q * q ≤ p) (seqZ 2 (p - 2))) = true)
    (take n (seqZ 2 400)).
(** The bits of the cube root of [x] from [2 ^ n] down. *)
Fixpoint cube_root (n : nat) (x root : Z) : Z :=
  match n with
  | O => root
  | S m =>
      let next := root + 2 ^ Z.of_nat m in
      cube_root m x (if next * next * next <=? x then next else root)
  end.
Definition root3 (p : Z) : Z := cube_root 36 (p * 2 ^ 96) 0 mod 2 ^ 32.
Definition root2 (p : Z) : Z := Z.sqrt (p * 2 ^ 64) mod 2 ^ 32.
Definition K256 : list Z := Eval vm_compute in root3 <$> take 64 (primes 400).
Definition H256 : st2 := Eval vm_compute in
  match root2 <$> take 8 (primes 400) with
  | [a; b; c; d; e; f; g; h] => St2 a b c d e f g h
  | _ => St2 0 0 0 0 0 0 0 0
  end.

Fixpoint rounds2 (kws : list (Z * Z)) (s : st2) : st2 :=
  match kws with
  | [] => s
  | (k, wt) :: kws =>
      let S1 := xor3 (rotr 6 (e2 s)) (rotr 11 (e2 s)) (rotr 25 (e2 s)) in
      let t1 := add32 (h2 s) (add32 S1 (add32 (Ch (e2 s) (f2 s) (g2 s)) (add32 k wt))) in
      let S0 := xor3 (rotr 2 (a2 s)) (rotr 13 (a2 s)) (rotr 22 (a2 s)) in
      let t2 := add32 S0 (Maj (a2 s) (b2 s) (c2 s)) in
      rounds2 kws (St2 (add32 t1 t2) (a2 s) (b2 s) (c2 s) (add32 (d2 s) t1)
                     (e2 s) (f2 s) (g2 s))
  end.

Definition next256 (ws : list Z) : Z :=
  let x := w ws 15 in
  let y := w ws 2 in
  add32 (xor3 (rotr 17 y) (rotr 19 y) (Z.shiftr y 10))
    (add32 (w ws 7) (add32 (xor3 (rotr 7 x) (rotr 18 x) (Z.shiftr x 3)) (w ws 16))).

Definition block2 (s : st2) (blk : list Z) : st2 :=
  let ws := reverse (expand next256 48 (reverse blk)) in
  let r := rounds2 (zip K256 ws) s in
  St2 (add32 (a2 s) (a2 r)) (add32 (b2 s) (b2 r)) (add32 (c2 s) (c2 r)) (add32 (d2 s) (d2 r))
      (add32 (e2 s) (e2 r)) (add32 (f2 s) (f2 r)) (add32 (g2 s) (g2 r)) (add32 (h2 s) (h2 r)).

Definition sha256 (m : bytes) : bytes :=
  let p := pad m in
  let s := foldl block2 H256 (blocks (length p) p) in
  be_bytes 4 (a2 s) ++ be_bytes 4 (b2 s) ++ be_bytes 4 (c2 s) ++ be_bytes 4 (d2 s)
    ++ be_bytes 4 (e2 s) ++ be_bytes 4 (f2 s) ++ be_bytes 4 (g2 s) ++ be_bytes 4 (h2 s).

Lemma length_sha1 m : length (sha1 m) = 20%nat.
Proof. unfold sha1. cbv zeta. by rewrite !length_app, !length_be_bytes. Qed.
Lemma length_sha256 m : length (sha256 m) = 32%nat.
Proof. unfold sha256. cbv zeta. by rewrite !length_app, !length_be_bytes. Qed.

(** The test vectors of FIPS 180-4 for "abc" and for the empty message. *)
Example sha1_abc : sha1 (str "abc") =
  be_bytes 20 0xa9993e364706816aba3e25717850c26c9cd0d89d.
Proof. vm_compute. reflexivity. Qed.
Example sha1_empty : sha1 [] = be_bytes 20 0xda39a3ee5e6b4b0d3255bfef95601890afd80709.
Proof. vm_compute. reflexivity. Qed.
Example sha256_abc : sha256 (str "abc") =
  be_bytes 32 0xba7816bf8f01cfea414140de5dae2223b00361a396177a9cb410ff61f20015ad.
Proof. vm_compute. reflexivity. Qed.
Example sha256_two_blocks :
  sha256 (str "abcdbcdecdefdefgefghfghighijhijkijkljklmklmnlmnomnopnopq") =
  be_bytes 32 0x248d6a61d20638b8e5c026930c3e6039a33ce45964ff2167f6ecedd419db06c1.
Proof. vm_compute. reflexivity. Qed.
End Sha.

(** ** [crypto.Hash] *)

Definition crypto_SHA1 : Z := 3.
Definition crypto_SHA256 : Z := 5.

(** Digest sizes of the [crypto] package; [Size] panics on any other value. *)
Definition digestSizes : list (Z * Z) :=
  [(1, 16); (2, 16); (3, 20); (4, 28); (5, 32); (6, 48); (7, 64); (8, 36); (9, 20);
   (10, 28); (11, 32); (12, 48); (13, 64); (14, 28); (15, 32); (16, 32); (17, 32);
   (18, 48); (19, 64)].

Definition hash_size (h : Z) : option Z := assoc h digestSizes.
#[global] Arguments hash_size : simpl never.

(** What the code relies on: SHA-1 and SHA-256 are linked in, a hash function
    that is available has a size, and its sums have that size. *)
Class GoCrypto := {
  hash_available : Z → bool;
  hash_sum : Z → bytes → bytes;
  sha1_available : hash_available crypto_SHA1 = true;
  sha256_available : hash_available crypto_SHA256 = true;
  available_size h : hash_available h = true → is_Some (hash_size h);
  length_hash_sum h m sz :
    hash_available h = true → hash_size h = Some sz → zlen (hash_sum h m) = sz;
}.
#[export] Hint Resolve sha1_available sha256_available : go.

Section Hash.
Context `{GoCrypto}.

(** [h.New()] and [h.Size()], with their panics. *)
Definition hash_New (h : Z) : res error () :=
  if hash_available h then Ok tt
  else Panic "crypto: requested hash function is unavailable".
Definition hash_Size (h : Z) : res error Z :=
  match hash_size h with
  | Some sz => Ok sz
  | None => Panic "crypto: Size of unknown hash function"
  end.
Definition sha1_Sum (m : bytes) : bytes := hash_sum crypto_SHA1 m.
Definition sha256_Sum256 (m : bytes) : bytes := hash_sum crypto_SHA256 m.

Lemma hash_size_pos h sz : hash_size h = Some sz → 0 < sz.
Proof.
  unfold hash_size. intros E%assoc_Some_In.
  assert (Forall (λ p, 0 < p.2) digestSizes) as F by (repeat constructor).
  by rewrite Forall_forall in F; apply (F _ E).
Qed.

Lemma zlen_sha1 m : zlen (sha1_Sum m) = 20.
Proof. by apply length_hash_sum; auto with go. Qed.
Lemma zlen_sha256 m : zlen (sha256_Sum256 m) = 32.
Proof. by apply length_hash_sum; auto with go. Qed.

Lemma hash_New_ok h : hash_available h = true → hash_New h = Ok tt.
Proof. unfold hash_New. by intros ->. Qed.

Lemma hash_sum_nonempty h m : hash_available h = true → hash_sum h m ≠ [].
Proof.
  intros Ha. destruct (available_size h Ha) as [sz Hsz].
  pose proof (hash_size_pos h sz Hsz). pose proof (length_hash_sum h m sz Ha Hsz) as Hl.
  intros E. rewrite E in Hl. unfold zlen in Hl. cbn in Hl. lia.
Qed.
End Hash.

(** The executable implementation: only SHA-1 and SHA-256 are linked in. *)
Program Definition sha_crypto : GoCrypto := {|
  hash_available h := (h =? crypto_SHA1) || (h =? crypto_SHA256);
  hash_sum h m := if h =? crypto_SHA1 then Sha.sha1 m else Sha.sha256 m;
|}.
Next Obligation. reflexivity. Qed.
Next Obligation. reflexivity. Qed.
Next Obligation.
  intros h. unfold crypto_SHA1, crypto_SHA256. cbn beta.
  destruct (Z.eqb_spec h 3) as [->|]; [by eexists|].
  destruct (Z.eqb_spec h 5) as [->|]; [by eexists|done].
Qed.
Next Obligation.
  intros h m sz. unfold crypto_SHA1, crypto_SHA256. cbn beta. unfold zlen.
  destruct (Z.eqb_spec h 3) as [->|].
  { intros _ [= <-]. by rewrite Sha.length_sha1. }
  destruct (Z.eqb_spec h 5) as [->|]; [|done].
  intros _ [= <-]. by rewrite Sha.length_sha256.
Qed.
