(* ===== verification/GoRuntime.v ===== *)
(** * What the Go runtime leaves open

    Iterating over a map visits its entries in an unspecified order, and
    [sort.Slice] leaves the order of equal elements unspecified.  The interface
    [GoRuntime] has one operation for each with what the language promises;
    the theorems hold for every such runtime, so they hold for every run. *)
From S2P Require Import Prelude.

Class GoRuntime := {
  (** [for k, v := range m] *)
  map_range : ∀ {V : Type}, gmap Z V → list (Z * V);
  map_range_perm : ∀ (V : Type) (m : gmap Z V), map_range m ≡ₚ map_to_list m;
  (** [sort.Slice(l, func(i, j int) bool { return key(l[i]) < key(l[j]) })] *)
  sort_by : ∀ {A : Type}, (A → Z) → list A → list A;
  sort_by_perm : ∀ (A : Type) (key : A → Z) l, sort_by key l ≡ₚ l;
  sort_by_sorted : ∀ (A : Type) (key : A → Z) l,
    StronglySorted (λ x y, key x ≤ key y) (sort_by key l);
}.

Section Sorting.
Context `{GoRuntime} {A : Type} (key : A → Z).

Lemma sorted_unique (l1 l2 : list A) :
  (∀ x y, x ∈ l1 → y ∈ l1 → key x = key y → x = y) →
  StronglySorted (λ x y, key x ≤ key y) l1 → StronglySorted (λ x y, key x ≤ key y) l2 →
  l1 ≡ₚ l2 → l1 = l2.
Proof.
  intros Hinj H1 H2 Hp. eapply StronglySorted_unique_strong; [|exact H1|exact H2|exact Hp].
  intros x y Hx Hy Hxy Hyx. cbn in *. apply Hinj; [done|by rewrite Hp|lia].
Qed.

(** A list already sorted by distinct keys is what sorting any permutation
    of it yields. *)
Lemma sort_by_eq (l k : list A) :
  StronglySorted (λ x y, key x < key y) k → l ≡ₚ k → sort_by key l = k.
Proof.
  intros Hk Hp. symmetry. apply sorted_unique.
  - clear Hp l. induction Hk as [|a k Hk IH Ha]; [by intros ?? ?%elem_of_nil|].
    rewrite Forall_forall in Ha.
    intros x y [->|Hx]%elem_of_cons [->|Hy]%elem_of_cons E; [done| | |by apply IH].
    + specialize (Ha y Hy). lia.
    + specialize (Ha x Hx). lia.
  - clear Hp l. induction Hk as [|a k Hk IH Ha]; [constructor|]. constructor; [done|].
    eapply Forall_impl; [exact Ha|]. cbn. lia.
  - apply sort_by_sorted.
  - by rewrite sort_by_perm.
Qed.
End Sorting.

(** The runtime used in concrete evaluations. *)
#[local] Instance key_le_dec {A} (key : A → Z) : RelDecision (λ x y, key x ≤ key y).
Proof. intros x y. apply Z.le_dec. Defined.

Program Definition std_runtime : GoRuntime := {|
  map_range V m := map_to_list m;
  sort_by A key l := merge_sort (λ x y, key x ≤ key y) l;
|}.
Next Obligation. done. Qed.
Next Obligation. intros. apply merge_sort_Permutation. Qed.
Next Obligation.
  intros A key l. cbn beta.
  assert (Transitive (λ x y : A, key x ≤ key y)) by (intros x y z ??; cbn in *; lia).
  assert (Total (λ x y : A, key x ≤ key y)) by (intros x y; cbn; lia).
  apply (StronglySorted_merge_sort (λ x y, key x ≤ key y)).
Qed.
