(* ===== verification/Attest.v ===== *)
(** * Shared data of package attest ([attest/attest.go])

    TPM versions, hash algorithm identifiers with their conversions, PCR
    values, quotes and the parameter blobs exchanged during attestation. *)
From S2P Require Import Prelude GoBytes GoCrypto.

(** ** Identifiers of the TPM 2.0 specification (part 2, tables 9, 19, 23, 31)
    as exported by [go-tpm/legacy/tpm2]. *)
Module tpm2.
Definition AlgRSA : Z := 0x0001.
Definition AlgAES : Z := 0x0006.
Definition AlgRSASSA : Z := 0x0014.
Definition AlgRSAPSS : Z := 0x0016.
Definition AlgECDSA : Z := 0x0018.
Definition AlgCFB : Z := 0x0043.
Definition AlgSHA1 : Z := 0x0004.
Definition AlgSHA256 : Z := 0x000b.
Definition AlgSHA384 : Z := 0x000c.
Definition AlgSHA512 : Z := 0x000d.
Definition AlgECC : Z := 0x0023.
Definition TagAttestCertify : Z := 0x8017.
Definition TagAttestQuote : Z := 0x8018.
Definition TagAttestCreation : Z := 0x801a.
Definition FlagFixedTPM : Z := 0x00000002.
Definition FlagFixedParent : Z := 0x00000010.
Definition FlagSensitiveDataOrigin : Z := 0x00000020.
Definition FlagUserWithAuth : Z := 0x00000040.
Definition FlagAdminWithPolicy : Z := 0x00000080.
Definition FlagNoDA : Z := 0x00000400.
Definition FlagRestricted : Z := 0x00010000.
Definition FlagDecrypt : Z := 0x00020000.
Definition FlagSign : Z := 0x00040000.
Definition HandleOwner : Z := 0x40000001.
Definition HandleEndorsement : Z := 0x4000000b.
(** TPM_ECC_CURVE *)
Definition CurveNISTP256 : Z := 0x0003.
Definition CurveNISTP384 : Z := 0x0004.
Definition CurveNISTP521 : Z := 0x0005.
Definition CurveBNP256 : Z := 0x0010.
Definition CurveBNP638 : Z := 0x0011.
End tpm2.

(** ** [TPMVersion] *)
Definition TPMVersionAgnostic : Z := 0.
Definition TPMVersion12 : Z := 1.
Definition TPMVersion20 : Z := 2.

(** ** [TPMInterface] *)
Definition TPMInterfaceDirect : Z := 0.
Definition TPMInterfaceKernelManaged : Z := 1.
Definition TPMInterfaceDaemonManaged : Z := 2.
Definition TPMInterfaceCommandChannel : Z := 3.

(** ** [HashAlg], a [uint8] *)
Definition HashSHA1 : Z := uint8 tpm2.AlgSHA1.
Definition HashSHA256 : Z := uint8 tpm2.AlgSHA256.

(** [HashAlg(x)]: conversion of a 16-bit algorithm identifier, which keeps the
    low byte only. *)
Definition HashAlg_of (x : Z) : Z := uint8 x.

Definition cryptoHash (a : Z) : Z :=
  if a =? HashSHA1 then crypto_SHA1
  else if a =? HashSHA256 then crypto_SHA256
  else 0.

Definition goTPMAlg (a : Z) : Z :=
  if a =? HashSHA1 then tpm2.AlgSHA1
  else if a =? HashSHA256 then tpm2.AlgSHA256
  else 0.

(** ** [PCR], [Quote] *)
Record PCR := mkPCR {
  pcr_Index : Z;
  pcr_Digest : bytes;
  pcr_DigestAlg : Z;
  pcr_quoteVerified : bool;
}.

Definition QuoteVerified (p : PCR) : bool := pcr_quoteVerified p.
Definition set_quoteVerified (p : PCR) : PCR :=
  mkPCR (pcr_Index p) (pcr_Digest p) (pcr_DigestAlg p) true.

Record Quote := mkQuote {
  q_Version : Z;
  q_Quote : bytes;
  q_Signature : bytes;
}.

(** ** Lemmas *)

Lemma cryptoHash_cases a :
  (a = HashSHA1 ∧ cryptoHash a = crypto_SHA1) ∨
  (a = HashSHA256 ∧ cryptoHash a = crypto_SHA256) ∨
  (a ≠ HashSHA1 ∧ a ≠ HashSHA256 ∧ cryptoHash a = 0).
Proof.
  unfold cryptoHash. destruct (Z.eqb_spec a HashSHA1) as [->|]; [by left|].
  destruct (Z.eqb_spec a HashSHA256) as [->|]; [by right; left|]. by right; right.
Qed.

Lemma cryptoHash_SHA1 : cryptoHash HashSHA1 = crypto_SHA1.
Proof. reflexivity. Qed.
Lemma cryptoHash_SHA256 : cryptoHash HashSHA256 = crypto_SHA256.
Proof. reflexivity. Qed.
