(* ===== verification/EventLog.v ===== *)
(** * The TCG event log parser ([attest/eventlog.go], parsing part)

    Events and logs as the code represents them, the TPM 1.2 and the crypto
    agile (TPM 2.0) event formats, the Spec ID header and [ParseEventLog]. *)
From S2P Require Import Prelude GoBytes GoCrypto Attest.

(** ** Event types *)
Definition eventTypeStrings : list (Z * string) := [
  (0x00000000, "EV_PREBOOT_CERT");
  (0x00000001, "EV_POST_CODE");
  (0x00000002, "EV_UNUSED");
  (0x00000003, "EV_NO_ACTION");
  (0x00000004, "EV_SEPARATOR");
  (0x00000005, "EV_ACTION");
  (0x00000006, "EV_EVENT_TAG");
  (0x00000007, "EV_S_CRTM_CONTENTS");
  (0x00000008, "EV_S_CRTM_VERSION");
  (0x00000009, "EV_CPU_MICROCODE");
  (0x0000000A, "EV_PLATFORM_CONFIG_FLAGS");
  (0x0000000B, "EV_TABLE_OF_DEVICES");
  (0x0000000C, "EV_COMPACT_HASH");
  (0x0000000D, "EV_IPL");
  (0x0000000E, "EV_IPL_PARTITION_DATA");
  (0x0000000F, "EV_NONHOST_CODE");
  (0x00000010, "EV_NONHOST_CONFIG");
  (0x00000011, "EV_NONHOST_INFO");
  (0x00000012, "EV_OMIT_BOOT_DEVICE_EVENTS");
  (0x80000000, "EV_EFI_EVENT_BASE");
  (0x80000001, "EV_EFI_VARIABLE_DRIVER_CONFIG");
  (0x80000002, "EV_EFI_VARIABLE_BOOT");
  (0x80000003, "EV_EFI_BOOT_SERVICES_APPLICATION");
  (0x80000004, "EV_EFI_BOOT_SERVICES_DRIVER");
  (0x80000005, "EV_EFI_RUNTIME_SERVICES_DRIVER");
  (0x80000006, "EV_EFI_GPT_EVENT");
  (0x80000007, "EV_EFI_ACTION");
  (0x80000008, "EV_EFI_PLATFORM_FIRMWARE_BLOB");
  (0x80000009, "EV_EFI_HANDOFF_TABLES");
  (0x80000010, "EV_EFI_HCRTM_EVENT");
  (0x800000E0, "EV_EFI_VARIABLE_AUTHORITY")
]%string.

Definition EventType_String (e : Z) : string :=
  match assoc e eventTypeStrings with
  | Some s => s
  | None => ("EventType(0x" +:+ hex_pad 8 e +:+ ")")%string
  end.

Definition eventTypeNoAction : Z := 0x03.

(** ** Data *)
Record digest := mkDigest { dg_hash : Z; dg_data : bytes }.

Record rawEvent := mkRawEvent {
  re_sequence : Z;
  re_index : Z;
  re_typ : Z;
  re_data : bytes;
  re_digests : list digest;
}.

Record Event := mkEvent {
  ev_sequence : Z;
  ev_Index : Z;
  ev_Type : Z;
  ev_Data : bytes;
  ev_Digest : bytes;
}.

Record specAlgSize := mkSpecAlg { sa_ID : Z; sa_Size : Z }.
Record specIDEvent := mkSpecID { algs : list specAlgSize }.

Record EventLog := mkEventLog {
  Algs : list Z;
  rawEvents : list rawEvent;
  el_specIDEvent : option specIDEvent;
}.

#[export] Instance specAlgSize_eq_dec : EqDecision specAlgSize.
Proof. solve_decision. Defined.
#[export] Instance digest_eq_dec : EqDecision digest.
Proof. solve_decision. Defined.
#[export] Instance rawEvent_eq_dec : EqDecision rawEvent.
Proof. solve_decision. Defined.
#[export] Instance Event_eq_dec : EqDecision Event.
Proof. solve_decision. Defined.

Definition set_sequence (n : Z) (e : rawEvent) : rawEvent :=
  mkRawEvent n (re_index e) (re_typ e) (re_data e) (re_digests e).

(** [Event.digestEquals]: [nil] is the result [Ok tt]. *)
Definition digestEquals `{GoCrypto} (e : Event) (b : bytes) : res error () :=
  if zlen (ev_Digest e) =? 0 then Err (Errorf "no digests present")
  else
    if zlen (ev_Digest e) =? 32 then
      if bool_decide (sha256_Sum256 b = ev_Digest e) then Ok tt
      else Err (Errorf "digest (len %d) does not match")
    else if zlen (ev_Digest e) =? 20 then
      if bool_decide (sha1_Sum b = ev_Digest e) then Ok tt
      else Err (Errorf "digest (len %d) does not match")
    else Err (Errorf "cannot compare hash of length %d").

(** The event type as the analyses see it; the digest is that of the data. *)
Definition etype (e : Event) : Z := uint32 (ev_Type e).
Definition data_digest `{GoCrypto} (e : Event) : Prop := digestEquals e (ev_Data e) = Ok tt.

(** [EventLog.Events]: the unverified view of the log for one hash. *)
Fixpoint find_digest (h : Z) (ds : list digest) : option bytes :=
  match ds with
  | [] => None
  | d :: ds => if h =? dg_hash d then Some (dg_data d) else find_digest h ds
  end.

Definition Events (el : EventLog) (hash : Z) : list Event :=
  (λ re, mkEvent 0 (re_index re) (re_typ re) (re_data re)
           (default [] (find_digest (cryptoHash hash) (re_digests re)))) <$> rawEvents el.

(** ** TPM 1.2 events *)
Record rawEventHeader := mkHeader {
  h_PCRIndex : Z; h_Type : Z; h_Digest : bytes; h_EventSize : Z;
}.

Definition decode_rawEventHeader (b : bytes) : rawEventHeader :=
  mkHeader (le_uint (field 0 4 b)) (le_uint (field 4 4 b)) (field 8 20 b)
    (le_uint (field 28 4 b)).

Definition parseRawEvent (specID : option specIDEvent) : M reader rawEvent :=
  h ← wrapM "header deserialization error: %w"
        (b ← ReadFull 32; mret (decode_rawEventHeader b));
  n ← gets rd_len;
  _ ← reject_if (uint32 n <? h_EventSize h) (eventSizeErr (h_EventSize h) n);
  data ← wrapM "reading data error: %w" (ReadFull (h_EventSize h));
  mret (mkRawEvent 0 (h_PCRIndex h) (h_Type h) data [mkDigest crypto_SHA1 (h_Digest h)]).

(** ** TPM 2.0 crypto agile events *)

(** The inner loop over [specID.algs]: the last entry with the identifier read
    determines the digest's size and hash; every such entry is checked against
    the bytes left. *)
Fixpoint lookup_alg (l : list specAlgSize) (algID rlen : Z) (acc : Z * Z) : res error (Z * Z) :=
  match l with
  | [] => Ok acc
  | alg :: l =>
      if sa_ID alg =? algID then
        if rlen <? sa_Size alg then Err (Wrapf "reading digest: %v" ErrUnexpectedEOF)
        else lookup_alg l algID rlen (cryptoHash (HashAlg_of (sa_ID alg)), sa_Size alg)
      else lookup_alg l algID rlen acc
  end.

Definition parse_digest (specID : option specIDEvent) : M reader digest :=
  algID ← read_le 2;
  n ← gets rd_len;
  match specID with
  | None => panic "nil pointer dereference"
  | Some spec =>
      a ← lift_res (lookup_alg (algs spec) algID n (0, 0));
      _ ← reject_if (a.2 =? 0) (Errorf "unknown algorithm ID %x");
      data ← ReadFull a.2;
      mret (mkDigest a.1 data)
  end.

(** [for i := 0; i < int(numDigests); i++] *)
Fixpoint parse_digests (fuel : nat) (specID : option specIDEvent) (i numDigests : Z)
    : M reader (list digest) :=
  if i <? numDigests then
    match fuel with
    | O => nofuel
    | S fuel =>
        d ← parse_digest specID;
        ds ← parse_digests fuel specID (i + 1) numDigests;
        mret (d :: ds)
    end
  else mret [].

Definition parseRawEvent2 (specID : option specIDEvent) : M reader rawEvent :=
  h ← ReadFull 8;
  numDigests ← read_le 4;
  n ← gets rd_len;
  digests ← parse_digests (S (Z.to_nat n)) specID 0 numDigests;
  eventSize ← read_le 4;
  n ← gets rd_len;
  _ ← reject_if (uint32 n <? eventSize) (eventSizeErr eventSize n);
  data ← ReadFull eventSize;
  mret (mkRawEvent 0 (le_uint (field 0 4 h)) (le_uint (field 4 4 h)) data digests).

(** ** The Spec ID event *)
Definition wantSignature : bytes := str "Spec ID Event03" ++ [Byte.x00].
Definition wantMajor : Z := 2.
Definition wantMinor : Z := 0.

Record specIDEventHeader := mkSpecHeader {
  sh_Signature : bytes; sh_PlatformClass : Z; sh_VersionMinor : Z; sh_VersionMajor : Z;
  sh_Errata : Z; sh_UintnSize : Z; sh_NumAlgs : Z;
}.

(** [binary.Size(specIDEventHeader{})] *)
Definition specIDEventHeader_size : Z := 28.

Definition decode_specIDEventHeader (b : bytes) : specIDEventHeader :=
  mkSpecHeader (field 0 16 b) (le_uint (field 16 4 b)) (le_uint (field 20 1 b))
    (le_uint (field 21 1 b)) (le_uint (field 22 1 b)) (le_uint (field 23 1 b))
    (le_uint (field 24 4 b)).

Definition read_specAlgSize : M reader specAlgSize :=
  b ← ReadFull 4; mret (mkSpecAlg (le_uint (field 0 2 b)) (le_uint (field 2 2 b))).

Fixpoint read_algs (fuel : nat) (i numAlgs : Z) : M reader (list specAlgSize) :=
  if i <? numAlgs then
    match fuel with
    | O => nofuel
    | S fuel =>
        a ← wrapM "reading algorithm: %v" read_specAlgSize;
        l ← read_algs fuel (i + 1) numAlgs;
        mret (a :: l)
    end
  else mret [].

Definition parseSpecIDEvent_body : M reader specIDEvent :=
  header ← wrapM "reading event header: %w: %X"
             (b ← ReadFull specIDEventHeader_size; mret (decode_specIDEventHeader b));
  _ ← reject_if (bool_decide (sh_Signature header ≠ wantSignature))
        (Errorf "invalid spec id signature: %x");
  _ ← reject_if (negb (sh_VersionMajor header =? wantMajor))
        (Errorf "invalid spec major version, got %02x, wanted %02x");
  _ ← reject_if (negb (sh_VersionMinor header =? wantMinor))
        (Errorf "invalid spec minor version, got %02x, wanted %02x");
  n ← gets rd_len;
  l ← read_algs (S (Z.to_nat n)) 0 (sh_NumAlgs header);
  vendorInfoSize ← wrapM "reading vender info size: %v" (read_le 1);
  n ← gets rd_len;
  _ ← reject_if (negb (n =? vendorInfoSize))
        (Errorf "reading vendor info, expected %d remaining bytes, got %d");
  mret (mkSpecID l).

Definition parseSpecIDEvent (b : bytes) : res error specIDEvent :=
  (parseSpecIDEvent_body (NewReader b)).1.

(** ** [ParseEventLog] *)

(** [for r.Len() != 0 { e, err := parseFn(r, specID); ... }] *)
Fixpoint parse_events (fuel : nat) (parseFn : option specIDEvent → M reader rawEvent)
    (specID : option specIDEvent) (sequence : Z) : M reader (list rawEvent) :=
  n ← gets rd_len;
  if n =? 0 then mret []
  else
    match fuel with
    | O => nofuel
    | S fuel =>
        e ← parseFn specID;
        l ← parse_events fuel parseFn specID (sequence + 1);
        mret (set_sequence sequence e :: l)
    end.

(** The [switch tpm2.Algorithm(alg.ID)] loop. *)
Definition spec_hashes (l : list specAlgSize) : list Z :=
  omap (λ alg, if sa_ID alg =? tpm2.AlgSHA1 then Some HashSHA1
               else if sa_ID alg =? tpm2.AlgSHA256 then Some HashSHA256
               else None) l.

Definition ParseEventLog_body : M reader EventLog :=
  e ← wrapM "parse first event: %v" (parseRawEvent None);
  n ← gets rd_len;
  if (re_typ e =? eventTypeNoAction) && (specIDEventHeader_size <=? zlen (re_data e)) then
    specID ← lift_res (wrapf "failed to parse spec ID event: %v" (parseSpecIDEvent (re_data e)));
    _ ← reject_if (zlen (spec_hashes (algs specID)) =? 0)
          (Errorf "measurement log didn't use sha1 or sha256 digests");
    evs ← parse_events (S (Z.to_nat n)) parseRawEvent2 (Some specID) 1;
    mret (mkEventLog (spec_hashes (algs specID)) evs (Some specID))
  else
    evs ← parse_events (S (Z.to_nat n)) parseRawEvent None 1;
    mret (mkEventLog [HashSHA1] (e :: evs) None).

Definition ParseEventLog (measurementLog : bytes) : res error EventLog :=
  (ParseEventLog_body (NewReader measurementLog)).1.

(** ** The event formats, as byte strings *)

(** Bounds of the fields as they come out of a log. *)
Definition u32 (z : Z) : Prop := 0 ≤ z < 2 ^ 32.

(** TCG_PCR_EVENT: what [parseRawEvent] accepts. *)
Definition encode_rawEvent (e : rawEvent) : bytes :=
  le_bytes 4 (re_index e) ++ le_bytes 4 (re_typ e) ++ concat (dg_data <$> re_digests e)
    ++ le_bytes 4 (zlen (re_data e)) ++ re_data e.

Definition wf_rawEvent (e : rawEvent) : Prop :=
  u32 (re_index e) ∧ u32 (re_typ e) ∧ u32 (zlen (re_data e)) ∧
  ∃ d, re_digests e = [mkDigest crypto_SHA1 d] ∧ zlen d = 20.

(** TCG_PCR_EVENT2, given the algorithm identifiers of the digests (the parsed
    event only keeps their [crypto.Hash]). *)
Definition encode_digest (id : Z) (d : digest) : bytes := le_bytes 2 id ++ dg_data d.

Definition encode_rawEvent2 (ids : list Z) (e : rawEvent) : bytes :=
  le_bytes 4 (re_index e) ++ le_bytes 4 (re_typ e) ++ le_bytes 4 (zlen (re_digests e))
    ++ concat (zip_with encode_digest ids (re_digests e))
    ++ le_bytes 4 (zlen (re_data e)) ++ re_data e.

(** The digest [d] is stored under identifier [id] in a log with header [spec]:
    some algorithm of the header has that identifier and that size. *)
Definition digest_of_spec (spec : specIDEvent) (id : Z) (d : digest) : Prop :=
  0 ≤ id < 2 ^ 16 ∧ 0 < zlen (dg_data d) ∧ mkSpecAlg id (zlen (dg_data d)) ∈ algs spec ∧
  dg_hash d = cryptoHash (HashAlg_of id).

Definition wf_rawEvent2 (spec : specIDEvent) (ids : list Z) (e : rawEvent) : Prop :=
  u32 (re_index e) ∧ u32 (re_typ e) ∧ u32 (zlen (re_data e)) ∧ u32 (zlen (re_digests e)) ∧
  Forall2 (digest_of_spec spec) ids (re_digests e).

(** TCG_EfiSpecIdEvent. *)
Definition encode_alg (a : specAlgSize) : bytes := le_bytes 2 (sa_ID a) ++ le_bytes 2 (sa_Size a).
Definition wf_alg (a : specAlgSize) : Prop := 0 ≤ sa_ID a < 2 ^ 16 ∧ 0 ≤ sa_Size a < 2 ^ 16.

Definition encode_specIDEvent (platformClass errata uintnSize : Z) (vendor : bytes)
    (s : specIDEvent) : bytes :=
  wantSignature ++ le_bytes 4 platformClass ++ le_bytes 1 wantMinor ++ le_bytes 1 wantMajor
    ++ le_bytes 1 errata ++ le_bytes 1 uintnSize ++ le_bytes 4 (zlen (algs s))
    ++ concat (encode_alg <$> algs s) ++ le_bytes 1 (zlen vendor) ++ vendor.

Definition is_specIDEvent (b : bytes) (s : specIDEvent) : Prop :=
  ∃ platformClass errata uintnSize vendor,
    b = encode_specIDEvent platformClass errata uintnSize vendor s ∧
    u32 platformClass ∧ 0 ≤ errata < 2 ^ 8 ∧ 0 ≤ uintnSize < 2 ^ 8 ∧
    zlen vendor < 2 ^ 8 ∧ u32 (zlen (algs s)) ∧ Forall wf_alg (algs s).

(** Events of a log are numbered from [n] on. *)
Fixpoint number (n : Z) (l : list rawEvent) : list rawEvent :=
  match l with
  | [] => []
  | e :: l => set_sequence n e :: number (n + 1) l
  end.

(** ** The parsers accept exactly these formats *)

Lemma decode_header_bytes b :
  length b = 32%nat →
  let h := decode_rawEventHeader b in
  u32 (h_PCRIndex h) ∧ u32 (h_Type h) ∧ u32 (h_EventSize h) ∧ zlen (h_Digest h) = 20 ∧
  b = le_bytes 4 (h_PCRIndex h) ++ le_bytes 4 (h_Type h) ++ h_Digest h
        ++ le_bytes 4 (h_EventSize h).
Proof.
  intros Hl. cbn. unfold u32.
  repeat split; try (apply le_field_bound; lia).
  - unfold zlen. rewrite length_field; lia.
  - rewrite !le_field by lia. rewrite <- (field_split 8 20 4), <- (field_split 4 4 24),
      <- (field_split 0 4 28). by rewrite field_all.
Qed.

Lemma parseRawEvent_reads specID s :
  reads (parseRawEvent specID) s
    (λ e used, wf_rawEvent e ∧ used = encode_rawEvent e ∧ re_sequence e = 0).
Proof.
  unfold parseRawEvent. eapply reads_bind.
  { apply reads_wrapM. eapply reads_bind; [by apply reads_ReadFull|].
    intros b used rest -> [-> Hl]. apply reads_ret. rewrite app_nil_r.
    instantiate (1 := λ h u, h = decode_rawEventHeader u ∧ length u = 32%nat).
    unfold zlen in Hl. split; [done|lia]. }
  intros h used rest -> [-> Hl]. apply reads_gets, reads_reject_if. intros _.
  destruct (decode_header_bytes used Hl) as (Hi & Ht & Hs & Hd & E).
  eapply reads_bind; [apply reads_wrapM, reads_ReadFull; unfold u32 in Hs; lia|].
  intros data used' rest' -> [-> Hdl]. apply reads_ret. rewrite app_nil_r.
  split_and!; [|by unfold encode_rawEvent; cbn; rewrite Hdl, app_nil_r, E at 1; rewrite <- !(assoc_L app)|done].
  split_and!; cbn; [done..|by rewrite Hdl|by eexists].
Qed.

(** *** Crypto agile events *)

Lemma lookup_alg_spec l algID n acc :
  no_crash (lookup_alg l algID n acc) ∧
  ∀ a, lookup_alg l algID n acc = Ok a →
    a = acc ∨ (mkSpecAlg algID a.2 ∈ l ∧ a.1 = cryptoHash (HashAlg_of algID) ∧ a.2 ≤ n).
Proof.
  revert acc. induction l as [|[id sz] l IH]; intros acc; cbn.
  { split; [done|]. intros a [= <-]. by left. }
  destruct (Z.eqb_spec id algID) as [->|Hne].
  - destruct (Z.ltb_spec n sz); [done|].
    destruct (IH (cryptoHash (HashAlg_of algID), sz)) as [Hc Ha]. split; [done|].
    intros a H'. destruct (Ha a H') as [->|(? & ? & ?)]; right; cbn.
    + split_and!; [by left|done|done].
    + split_and!; [by right|done|done].
  - destruct (IH acc) as [Hc Ha]. split; [done|].
    intros a H'. destruct (Ha a H') as [->|(? & ? & ?)]; [by left|].
    right. split_and!; [by right|done|done].
Qed.

Lemma parse_digest_reads spec s :
  Forall wf_alg (algs spec) →
  reads (parse_digest (Some spec)) s
    (λ d used, ∃ id, digest_of_spec spec id d ∧ used = encode_digest id d).
Proof.
  intros Hwf. unfold parse_digest. eapply reads_bind; [by apply reads_le|].
  intros id used rest -> [-> Hid]. apply reads_gets.
  destruct (lookup_alg_spec (algs spec) id (rd_len (NewReader rest)) (0, 0)) as [Hc Ha].
  apply reads_lift_res; [done|]. intros [h sz] E. apply Ha in E. clear Ha Hc.
  apply reads_reject_if. cbn. intros Hsz%Z.eqb_neq.
  destruct E as [[= -> ->]|(Hin & Hh & _)]; [done|]. cbn in *.
  assert (0 ≤ sz) by (eapply Forall_forall in Hwf as [_ ?]; [|exact Hin]; cbn in *; lia).
  eapply reads_bind; [by apply reads_ReadFull|].
  intros data used' rest' -> [-> Hl]. apply reads_ret. rewrite app_nil_r.
  exists id. unfold digest_of_spec, encode_digest; cbn. rewrite Hl. split_and!; done || lia.
Qed.

Lemma parse_digests_reads spec fuel i n s :
  Forall wf_alg (algs spec) → zlen s < Z.of_nat fuel →
  reads (parse_digests fuel (Some spec) i n) s
    (λ ds used, zlen ds = Z.max 0 (n - i) ∧ ∃ ids, Forall2 (digest_of_spec spec) ids ds ∧
       used = concat (zip_with encode_digest ids ds)).
Proof.
  intros Hwf. revert i s. induction fuel as [|fuel IH]; intros i s Hf.
  { pose proof (zlen_nonneg s). lia. }
  cbn [parse_digests]. destruct (Z.ltb_spec i n).
  - eapply reads_bind; [by apply parse_digest_reads|].
    intros d used rest -> (id & Hd & ->). eapply reads_bind.
    { apply IH. destruct Hd as (_ & Hpos & _). unfold encode_digest in Hf.
      autorewrite with go in Hf. unfold zlen in Hf, Hpos |- *.
      autorewrite with go in Hf. lia. }
    intros ds used' rest' -> (Hn & ids & Hds & ->). apply reads_ret. rewrite app_nil_r.
    split; [autorewrite with go; lia|]. exists (id :: ids). split; [by constructor|done].
  - apply reads_ret. split; [unfold zlen; cbn; lia|]. by exists [].
Qed.

Lemma parseRawEvent2_reads spec s :
  Forall wf_alg (algs spec) →
  reads (parseRawEvent2 (Some spec)) s
    (λ e used, re_sequence e = 0 ∧ ∃ ids, wf_rawEvent2 spec ids e ∧ used = encode_rawEvent2 ids e).
Proof.
  intros Hwf. unfold parseRawEvent2. eapply reads_bind; [by apply reads_ReadFull|].
  intros h used rest -> [-> Hh]. assert (length h = 8%nat) as Hl by (unfold zlen in Hh; lia).
  eapply reads_bind; [by apply reads_le|]. intros nd used rest' -> [-> Hnd].
  apply reads_gets. eapply reads_bind.
  { apply parse_digests_reads; [done|]. unfold rd_len; cbn. pose proof (zlen_nonneg rest'). lia. }
  intros ds used' rest2 -> (Hn & ids & Hds & ->).
  eapply reads_bind; [by apply reads_le|]. intros sz used' rest3 -> [-> Hsz].
  apply reads_gets, reads_reject_if. intros _.
  eapply reads_bind; [apply reads_ReadFull; lia|].
  intros data used' rest4 -> [-> Hd]. apply reads_ret. split; [done|]. exists ids.
  assert (zlen ds = nd) as Hds' by lia. split.
  - split_and!; cbn; unfold u32; [by apply (le_field_bound 0 4); lia|
      by apply (le_field_bound 4 4); lia|lia|lia|done].
  - unfold encode_rawEvent2; cbn. rewrite Hd, Hds', app_nil_r, !le_field by lia.
    rewrite (assoc_L app (field 0 4 h)), <- (field_split 0 4 4), (field_all h) by done.
    done.
Qed.

(** *** The Spec ID event *)

Lemma read_specAlgSize_reads s :
  reads read_specAlgSize s (λ a used, wf_alg a ∧ used = encode_alg a).
Proof.
  unfold read_specAlgSize. eapply reads_bind; [by apply reads_ReadFull|].
  intros b used rest -> [-> Hb]. assert (length b = 4%nat) by (unfold zlen in Hb; lia).
  apply reads_ret. rewrite app_nil_r. split.
  - split; cbn; [by apply (le_field_bound 0 2); lia|by apply (le_field_bound 2 2); lia].
  - unfold encode_alg; cbn. rewrite !le_field by lia.
    by rewrite <- (field_split 0 2 2), (field_all b).
Qed.

Lemma read_algs_reads fuel i n s :
  zlen s < Z.of_nat fuel →
  reads (read_algs fuel i n) s
    (λ l used, zlen l = Z.max 0 (n - i) ∧ Forall wf_alg l ∧ used = concat (encode_alg <$> l)).
Proof.
  revert i s. induction fuel as [|fuel IH]; intros i s Hf.
  { pose proof (zlen_nonneg s). lia. }
  cbn [read_algs]. destruct (Z.ltb_spec i n).
  - eapply reads_bind; [apply reads_wrapM, read_specAlgSize_reads|].
    intros a used rest -> [Ha ->]. eapply reads_bind.
    { apply IH. unfold encode_alg in Hf. autorewrite with go in Hf.
      unfold zlen in Hf |- *. autorewrite with go in Hf. lia. }
    intros l used' rest' -> (Hn & Hl & ->). apply reads_ret. rewrite app_nil_r.
    split_and!; [autorewrite with go; lia|by constructor|done].
  - apply reads_ret. split_and!; [unfold zlen; cbn; lia|constructor|done].
Qed.

Lemma decode_spec_header_bytes b :
  length b = 28%nat →
  let h := decode_specIDEventHeader b in
  u32 (sh_PlatformClass h) ∧ 0 ≤ sh_Errata h < 2 ^ 8 ∧ 0 ≤ sh_UintnSize h < 2 ^ 8 ∧
  u32 (sh_NumAlgs h) ∧
  b = sh_Signature h ++ le_bytes 4 (sh_PlatformClass h) ++ le_bytes 1 (sh_VersionMinor h)
        ++ le_bytes 1 (sh_VersionMajor h) ++ le_bytes 1 (sh_Errata h)
        ++ le_bytes 1 (sh_UintnSize h) ++ le_bytes 4 (sh_NumAlgs h).
Proof.
  intros Hl. cbn. split_and!; try (apply le_field_bound; lia).
  - rewrite !le_field by lia.
    rewrite <- (field_split 23 1 4), <- (field_split 22 1 5), <- (field_split 21 1 6),
      <- (field_split 20 1 7), <- (field_split 16 4 8), <- (field_split 0 16 12).
    by rewrite field_all.
Qed.

Lemma parseSpecIDEvent_reads s :
  reads parseSpecIDEvent_body s (λ spec used, ∃ vendor rest, s = used ++ rest ∧ rest = vendor ∧
    is_specIDEvent (used ++ vendor) spec).
Proof.
  unfold parseSpecIDEvent_body. eapply reads_bind.
  { apply reads_wrapM. eapply reads_bind; [by apply reads_ReadFull|].
    intros b used rest -> [-> Hl]. apply reads_ret. rewrite app_nil_r.
    instantiate (1 := λ h u, h = decode_specIDEventHeader u ∧ length u = 28%nat).
    unfold zlen, specIDEventHeader_size in Hl. split; [done|lia]. }
  intros h used rest -> [-> Hl].
  destruct (decode_spec_header_bytes used Hl) as (Hpc & Her & Hui & Hna & E).
  set (h := decode_specIDEventHeader used) in *.
  apply reads_reject_if. intros Hsig. apply bool_decide_eq_false_1, dec_stable in Hsig.
  apply reads_reject_if. intros Hmaj%negb_false_iff%Z.eqb_eq.
  apply reads_reject_if. intros Hmin%negb_false_iff%Z.eqb_eq.
  apply reads_gets. eapply reads_bind.
  { apply read_algs_reads. unfold rd_len; cbn. pose proof (zlen_nonneg rest). lia. }
  intros l used' rest' -> (Hn & Hwf & ->).
  eapply reads_bind; [by apply reads_wrapM, reads_le|].
  intros vs used2 vendor -> [-> Hvs]. apply reads_gets, reads_reject_if.
  intros Hv%negb_false_iff%Z.eqb_eq. unfold rd_len in Hv; cbn in Hv, Hvs.
  apply reads_ret. exists vendor, vendor. rewrite app_nil_r.
  assert (zlen l = sh_NumAlgs h) as Hnl by (unfold u32 in Hna; lia).
  split_and!; [by rewrite <- !(assoc_L app)|done|].
  exists (sh_PlatformClass h), (sh_Errata h), (sh_UintnSize h), vendor.
  split; [|refine (conj Hpc (conj Her (conj Hui (conj _ (conj _ Hwf))))); [lia|by cbn; rewrite Hnl]].
  unfold encode_specIDEvent; cbn. rewrite E at 1.
  rewrite Hsig, Hmaj, Hmin, Hnl, Hv. rewrite <- !(assoc_L app). done.
Qed.

(** *** Whole logs *)

Lemma parse_events_reads fuel parseFn specID n s (P : rawEvent → bytes → Prop) :
  (∀ s, reads (parseFn specID) s (λ e used, P e used ∧ 0 < zlen used)) →
  zlen s < Z.of_nat fuel →
  reads (parse_events fuel parseFn specID n) s
    (λ l used, used = s ∧ ∃ evs chunks, l = number n evs ∧ Forall2 P evs chunks ∧
       used = concat chunks).
Proof.
  intros HP. revert n s. induction fuel as [|fuel IH]; intros n s Hf.
  { pose proof (zlen_nonneg s). lia. }
  cbn [parse_events]. apply reads_gets. unfold rd_len; cbn.
  destruct (Z.eqb_spec (zlen s) 0) as [->%zlen_0|Hne].
  - apply reads_ret. split; [done|]. exists [], []. split_and!; [done|constructor|done].
  - eapply reads_bind; [apply HP|]. intros e used rest -> [He Hpos].
    eapply reads_bind.
    { apply IH. autorewrite with go in Hf. lia. }
    intros l used' rest' -> (E & evs & chunks & -> & Hevs & ->). apply reads_ret.
    rewrite app_nil_r. split; [by rewrite <- E|].
    exists (e :: evs), (used :: chunks). split_and!; [done|by constructor|done].
Qed.

(** The exact contents of a log that parses. *)
Definition is_log12 (log : bytes) (el : EventLog) : Prop :=
  ∃ e evs,
    log = concat (encode_rawEvent <$> e :: evs) ∧ Forall wf_rawEvent (e :: evs) ∧
    (re_typ e = eventTypeNoAction → zlen (re_data e) < specIDEventHeader_size) ∧
    el = mkEventLog [HashSHA1] (number 0 (e :: evs)) None.

Definition is_log20 (log : bytes) (el : EventLog) : Prop :=
  ∃ e spec evs chunks,
    log = encode_rawEvent e ++ concat chunks ∧ wf_rawEvent e ∧
    re_typ e = eventTypeNoAction ∧ is_specIDEvent (re_data e) spec ∧
    spec_hashes (algs spec) ≠ [] ∧
    Forall2 (λ ev c, ∃ ids, wf_rawEvent2 spec ids ev ∧ c = encode_rawEvent2 ids ev) evs chunks ∧
    el = mkEventLog (spec_hashes (algs spec)) (number 1 evs) (Some spec).

Lemma parseSpecIDEvent_sound b spec :
  no_crash (parseSpecIDEvent b) ∧ (parseSpecIDEvent b = Ok spec → is_specIDEvent b spec).
Proof.
  unfold parseSpecIDEvent. pose proof (parseSpecIDEvent_reads b) as H. split.
  - by eapply reads_no_crash.
  - intros E. destruct (parseSpecIDEvent_body (NewReader b)) as [r r'] eqn:E'. cbn in E. subst r.
    destruct (reads_Ok _ _ _ _ _ H E') as (used & rest & _ & -> & (v & ? & Eq & -> & Hs)).
    apply app_inv_head in Eq as ->. done.
Qed.

Lemma parse_events12_reads s n :
  reads (parse_events (S (Z.to_nat (zlen s))) parseRawEvent None n) s
    (λ l used, used = s ∧ ∃ evs, l = number n evs ∧ Forall wf_rawEvent evs ∧
       used = concat (encode_rawEvent <$> evs)).
Proof.
  pose proof (zlen_nonneg s). eapply reads_mono; [apply parse_events_reads with
    (P := λ e u, wf_rawEvent e ∧ u = encode_rawEvent e); [|lia]|].
  - intros s'. eapply reads_mono; [apply parseRawEvent_reads|].
    intros e u rest -> (Hw & -> & _). split; [done|].
    unfold encode_rawEvent. autorewrite with go.
    pose proof (zlen_nonneg (re_data e)). pose proof (zlen_nonneg (concat (dg_data <$> re_digests e))).
    lia.
  - intros l u rest _ (-> & evs & chunks & -> & HF & ->). split; [done|]. exists evs.
    split_and!; [done| |].
    + eapply Forall2_Forall_l; [exact HF|]. apply Forall_true. by intros ? ? [? _].
    + f_equal. clear -HF. induction HF as [|?? ? ? [_ ->]]; cbn; congruence.
Qed.

Lemma parse_events20_reads spec s n :
  Forall wf_alg (algs spec) →
  reads (parse_events (S (Z.to_nat (zlen s))) parseRawEvent2 (Some spec) n) s
    (λ l used, used = s ∧ ∃ evs chunks, l = number n evs ∧
       Forall2 (λ ev c, ∃ ids, wf_rawEvent2 spec ids ev ∧ c = encode_rawEvent2 ids ev) evs chunks ∧
       used = concat chunks).
Proof.
  intros Hwf. pose proof (zlen_nonneg s). apply parse_events_reads; [|lia].
  intros s'. eapply reads_mono; [by apply parseRawEvent2_reads|].
  intros e u rest -> (_ & ids & Hw & ->). split; [by exists ids|].
  unfold encode_rawEvent2. autorewrite with go. pose proof (zlen_nonneg (re_data e)).
  pose proof (zlen_nonneg (concat (zip_with encode_digest ids (re_digests e)))). lia.
Qed.

Lemma ParseEventLog_reads log :
  reads ParseEventLog_body log (λ el used, used = log ∧ (is_log12 log el ∨ is_log20 log el)).
Proof.
  unfold ParseEventLog_body. eapply reads_bind; [apply reads_wrapM, parseRawEvent_reads|].
  intros e used rest -> (He & -> & Hseq). apply reads_gets.
  destruct (Z.eqb_spec (re_typ e) eventTypeNoAction) as [Ht|Ht]; cbn [andb].
  1: destruct (Z.leb_spec specIDEventHeader_size (zlen (re_data e))) as [Hs|Hs].
  1: { destruct (parseSpecIDEvent_sound (re_data e) (mkSpecID [])) as [Hc _].
    apply reads_lift_res; [by apply wrapf_no_crash|]. intros spec E%wrapf_Ok_inv.
    apply parseSpecIDEvent_sound in E. apply reads_reject_if. intros Hne%Z.eqb_neq.
    assert (Forall wf_alg (algs spec)) by (destruct E as (?&?&?&?&?&?&?&?&?&?&?); done).
    eapply reads_bind; [by apply parse_events20_reads|].
    intros l used ? -> (Hu & evs & chunks & -> & HF & ->). apply reads_ret.
    rewrite app_nil_r. rewrite <- Hu. split; [done|]. right. exists e, spec, evs, chunks.
    split_and!; try done. by intros Hn%zlen_0. }
  all: eapply reads_bind; [apply parse_events12_reads|];
    intros l used ? -> (Hu & evs & -> & HF & ->); apply reads_ret;
    rewrite app_nil_r; rewrite <- Hu; (split; [done|]); left; exists e, evs;
    (split_and!; [done|by constructor|by intros|]);
    destruct e; cbn in *; by subst.
Qed.

(** *** Encodings parse back *)

Lemma parseRawEvent_encode specID e rest :
  wf_rawEvent e → zlen (re_data e ++ rest) < 2 ^ 32 →
  parseRawEvent specID (NewReader (encode_rawEvent e ++ rest)) =
    (Ok (set_sequence 0 e), NewReader rest).
Proof.
  intros (Hi & Ht & Hs & d & Ed & Hd) Hlen. unfold u32 in *.
  unfold parseRawEvent, encode_rawEvent. rewrite Ed; cbn [fmap list_fmap concat dg_data].
  rewrite app_nil_r. rewrite <- !(assoc_L app).
  set (hdr := le_bytes 4 (re_index e) ++ le_bytes 4 (re_typ e) ++ d ++ le_bytes 4 (zlen (re_data e))).
  replace (le_bytes 4 (re_index e) ++ _) with (hdr ++ re_data e ++ rest)
    by (unfold hdr; rewrite <- !(assoc_L app); done).
  assert (length d = 20%nat) as Hd' by (unfold zlen in Hd; lia).
  erewrite bind_Ok; [|apply wrapM_Ok; erewrite bind_Ok; [reflexivity|apply ReadFull_app]].
  2: { unfold hdr. autorewrite with go. lia. }
  assert (decode_rawEventHeader hdr = mkHeader (re_index e) (re_typ e) d (zlen (re_data e))) as ->.
  { unfold decode_rawEventHeader, hdr. f_equal.
    all: field_eval; by rewrite ?le_uint_le_bytes. }
  cbn [h_PCRIndex h_Type h_Digest h_EventSize].
  erewrite bind_Ok; [|reflexivity]. unfold rd_len; cbn [rd_buf NewReader].
  pose proof (zlen_nonneg rest). pose proof (zlen_nonneg (re_data e)).
  autorewrite with go in *. unfold uint32. rewrite Z.mod_small by lia.
  destruct (Z.ltb_spec (zlen (re_data e) + zlen rest) (zlen (re_data e))); [lia|].
  erewrite bind_Ok; [|reflexivity].
  erewrite bind_Ok; [|apply wrapM_Ok; by apply ReadFull_app].
  unfold set_sequence. by rewrite Ed.
Qed.

Lemma lookup_alg_absent l algID n acc :
  algID ∉ sa_ID <$> l → lookup_alg l algID n acc = Ok acc.
Proof.
  revert acc. induction l as [|[id sz] l IH]; intros acc; [done|].
  rewrite fmap_cons, not_elem_of_cons. intros [Hne Hnin]. cbn in *.
  destruct (Z.eqb_spec id algID); [congruence|auto].
Qed.

Lemma lookup_alg_found l id sz n acc :
  NoDup (sa_ID <$> l) → mkSpecAlg id sz ∈ l → sz ≤ n →
  lookup_alg l id n acc = Ok (cryptoHash (HashAlg_of id), sz).
Proof.
  intros Hnd Hin Hsz. revert acc Hnd Hin.
  induction l as [|[id' sz'] l IH]; intros acc Hnd Hin; [by apply elem_of_nil in Hin|].
  rewrite fmap_cons in Hnd. apply NoDup_cons in Hnd as [Hnin Hnd]. cbn in *.
  apply elem_of_cons in Hin as [[= <- <-]|Hin].
  - rewrite Z.eqb_refl. destruct (Z.ltb_spec n sz); [lia|]. by apply lookup_alg_absent.
  - destruct (Z.eqb_spec id' id) as [->|]; [|by apply IH].
    destruct Hnin. apply list_elem_of_fmap. by exists (mkSpecAlg id sz).
Qed.

Lemma parse_digest_encode spec id d rest :
  NoDup (sa_ID <$> algs spec) → digest_of_spec spec id d →
  parse_digest (Some spec) (NewReader (encode_digest id d ++ rest)) = (Ok d, NewReader rest).
Proof.
  intros Hnd (Hid & Hpos & Hin & Hh). unfold parse_digest, encode_digest.
  rewrite <- (assoc_L app). erewrite bind_Ok; [|by apply read_le_app].
  erewrite bind_Ok; [|reflexivity]. unfold rd_len; cbn [rd_buf NewReader].
  pose proof (zlen_nonneg rest). autorewrite with go.
  erewrite bind_Ok; [|unfold lift_res; f_equal; apply lookup_alg_found; try done; unfold rd_len; cbn; autorewrite with go; lia].
  cbn [fst snd]. destruct (Z.eqb_spec (zlen (dg_data d)) 0); [lia|].
  erewrite bind_Ok; [|reflexivity]. erewrite bind_Ok; [|by apply ReadFull_app].
  rewrite <- Hh. by destruct d.
Qed.

Lemma parse_digests_encode spec fuel ids ds i rest :
  NoDup (sa_ID <$> algs spec) → Forall2 (digest_of_spec spec) ids ds →
  (length ds ≤ fuel)%nat →
  parse_digests fuel (Some spec) i (i + zlen ds)
    (NewReader (concat (zip_with encode_digest ids ds) ++ rest)) = (Ok ds, NewReader rest).
Proof.
  intros Hnd HF. revert fuel i. induction HF as [|id d ids ds Hd HF IH]; intros fuel i Hfuel.
  - replace (i + zlen []) with i by (unfold zlen; cbn; lia).
    destruct fuel; cbn; by rewrite Z.ltb_irrefl.
  - destruct fuel as [|fuel]; [cbn in Hfuel; lia|]. cbn [parse_digests zip_with concat].
    autorewrite with go. pose proof (zlen_nonneg ds).
    destruct (Z.ltb_spec i (i + (1 + zlen ds))); [|lia].
    rewrite <- (assoc_L app). erewrite bind_Ok; [|by apply parse_digest_encode].
    rewrite (Z.add_assoc i). erewrite bind_Ok; [|apply IH; cbn in Hfuel; lia]. done.
Qed.

Lemma zlen_encode_digest id d : zlen (encode_digest id d) = 2 + zlen (dg_data d).
Proof. unfold encode_digest. by autorewrite with go. Qed.

Lemma zlen_encode_digests spec ids ds :
  Forall2 (digest_of_spec spec) ids ds → zlen ds ≤ zlen (concat (zip_with encode_digest ids ds)).
Proof.
  induction 1 as [|id d ids ds (_ & Hp & _) _ IH]; [done|]. cbn [zip_with concat].
  autorewrite with go. rewrite zlen_encode_digest. lia.
Qed.

Lemma parseRawEvent2_encode spec ids e rest :
  NoDup (sa_ID <$> algs spec) → wf_rawEvent2 spec ids e →
  zlen (re_data e ++ rest) < 2 ^ 32 →
  parseRawEvent2 (Some spec) (NewReader (encode_rawEvent2 ids e ++ rest)) =
    (Ok (set_sequence 0 e), NewReader rest).
Proof.
  intros Hnd (Hi & Ht & Hs & Hnds & HF) Hlen. unfold u32 in *.
  unfold parseRawEvent2, encode_rawEvent2.
  rewrite <- !(assoc_L app), (assoc_L app (le_bytes 4 (re_index e))).
  erewrite bind_Ok; [|apply ReadFull_app; by autorewrite with go].
  erewrite bind_Ok; [|by apply read_le_app].
  erewrite bind_Ok; [|reflexivity]. unfold rd_len; cbn [rd_buf NewReader].
  rewrite <- (Z.add_0_l (zlen (re_digests e))).
  erewrite bind_Ok; [|apply parse_digests_encode; [done|done|]].
  2: { pose proof (zlen_encode_digests _ _ _ HF). autorewrite with go.
    pose proof (zlen_nonneg rest). pose proof (zlen_nonneg (re_data e)). unfold zlen in *. lia. }
  erewrite bind_Ok; [|by apply read_le_app].
  erewrite bind_Ok; [|reflexivity]. unfold rd_len; cbn [rd_buf NewReader].
  pose proof (zlen_nonneg rest). pose proof (zlen_nonneg (re_data e)).
  unfold uint32. rewrite Z.mod_small by (split; [apply zlen_nonneg|done]).
  autorewrite with go in *.
  destruct (Z.ltb_spec (zlen (re_data e) + zlen rest) (zlen (re_data e))); [lia|].
  erewrite bind_Ok; [|reflexivity]. erewrite bind_Ok; [|by apply ReadFull_app].
  field_eval. rewrite !le_uint_le_bytes by done. by destruct e.
Qed.

Lemma read_algs_encode l fuel i rest :
  Forall wf_alg l → (length l ≤ fuel)%nat →
  read_algs fuel i (i + zlen l) (NewReader (concat (encode_alg <$> l) ++ rest)) =
    (Ok l, NewReader rest).
Proof.
  intros HF. revert fuel i. induction HF as [|[id sz] l [Hid Hsz] HF IH]; intros fuel i Hfuel.
  - replace (i + zlen []) with i by (unfold zlen; cbn; lia).
    destruct fuel; cbn; by rewrite Z.ltb_irrefl.
  - destruct fuel as [|fuel]; [cbn in Hfuel; lia|]. cbn [read_algs fmap list_fmap concat].
    autorewrite with go. pose proof (zlen_nonneg l).
    destruct (Z.ltb_spec i (i + (1 + zlen l))); [|lia]. cbn in Hid, Hsz.
    rewrite <- (assoc_L app). erewrite bind_Ok.
    2: { apply wrapM_Ok. unfold read_specAlgSize. erewrite bind_Ok; [reflexivity|].
      apply ReadFull_app. unfold encode_alg. by autorewrite with go. }
    unfold encode_alg; cbn [sa_ID sa_Size]. field_eval. rewrite !le_uint_le_bytes by lia.
    rewrite (Z.add_assoc i). erewrite bind_Ok; [|apply IH; cbn in Hfuel; lia]. done.
Qed.

Lemma parseSpecIDEvent_complete b spec :
  is_specIDEvent b spec → parseSpecIDEvent b = Ok spec.
Proof.
  intros (pc & er & ui & v & -> & Hpc & Her & Hui & Hv & Hn & HF). unfold u32 in *.
  unfold parseSpecIDEvent, parseSpecIDEvent_body, encode_specIDEvent.
  set (hdr := wantSignature ++ le_bytes 4 pc ++ le_bytes 1 wantMinor ++ le_bytes 1 wantMajor
    ++ le_bytes 1 er ++ le_bytes 1 ui ++ le_bytes 4 (zlen (algs spec))).
  replace (wantSignature ++ _) with (hdr ++ concat (encode_alg <$> algs spec)
    ++ le_bytes 1 (zlen v) ++ v) by (unfold hdr; rewrite <- !(assoc_L app); done).
  erewrite bind_Ok; [|apply wrapM_Ok; erewrite bind_Ok; [reflexivity|by apply ReadFull_app]].
  assert (decode_specIDEventHeader hdr =
    mkSpecHeader wantSignature pc wantMinor wantMajor er ui (zlen (algs spec))) as ->.
  { assert (length wantSignature = 16%nat) by done.
    unfold decode_specIDEventHeader, hdr. f_equal; field_eval;
    rewrite ?le_uint_le_bytes by (unfold wantMinor, wantMajor; lia); done. }
  cbn [sh_Signature sh_VersionMajor sh_VersionMinor sh_NumAlgs].
  rewrite bool_decide_eq_false_2 by (intros Hx; by apply Hx).
  do 3 (erewrite bind_Ok; [|reflexivity]). erewrite bind_Ok; [|reflexivity].
  rewrite <- (Z.add_0_l (zlen (algs spec))). erewrite bind_Ok; [|apply read_algs_encode; [done|]].
  2: { unfold rd_len; cbn [rd_buf NewReader]. autorewrite with go.
    assert (zlen (algs spec) ≤ zlen (concat (encode_alg <$> algs spec))).
    { induction (algs spec) as [|a l IH]; [done|]. cbn [fmap list_fmap concat].
      unfold encode_alg at 1. autorewrite with go. inversion HF; subst.
      autorewrite with go in Hn. pose proof (zlen_nonneg l).
      assert (zlen l ≤ zlen (concat (encode_alg <$> l))) by (apply IH; [lia|done]). lia. }
    pose proof (zlen_nonneg v). unfold zlen in *. lia. }
  pose proof (zlen_nonneg v).
  erewrite bind_Ok; [|apply wrapM_Ok; apply (read_le_app 1); [reflexivity|cbn; lia]].
  erewrite bind_Ok; [|reflexivity]. unfold rd_len; cbn [rd_buf NewReader].
  rewrite Z.eqb_refl. erewrite bind_Ok; [|reflexivity]. cbn. by destruct spec.
Qed.

Lemma parse_events_encode fuel parseFn specID n (P : rawEvent → bytes → Prop) evs chunks :
  (∀ e c rest, P e c → zlen (c ++ rest) < 2 ^ 32 →
     parseFn specID (NewReader (c ++ rest)) = (Ok (set_sequence 0 e), NewReader rest)) →
  (∀ e c, P e c → 0 < zlen c) →
  Forall2 P evs chunks → zlen (concat chunks) < 2 ^ 32 → (length evs ≤ fuel)%nat →
  parse_events fuel parseFn specID n (NewReader (concat chunks)) =
    (Ok (number n evs), NewReader []).
Proof.
  intros Hp Hpos HF. revert fuel n.
  induction HF as [|e c evs chunks HP HF IH]; intros fuel n Hlen Hfuel.
  { by destruct fuel. }
  destruct fuel as [|fuel]; [cbn in Hfuel; lia|]. cbn [parse_events concat] in *.
  erewrite bind_Ok; [|reflexivity]. unfold rd_len; cbn [rd_buf NewReader].
  pose proof (Hpos e c HP). pose proof (zlen_nonneg (concat chunks)).
  autorewrite with go in *.
  destruct (Z.eqb_spec (zlen c + zlen (concat chunks)) 0); [lia|].
  erewrite bind_Ok; [|apply Hp; [done|by autorewrite with go]].
  erewrite bind_Ok; [|apply IH; [lia|cbn in Hfuel; lia]]. done.
Qed.

Lemma encode_chunks_length {A} (P : A → bytes → Prop) evs chunks :
  (∀ e c, P e c → 0 < zlen c) → Forall2 P evs chunks →
  (length evs ≤ Z.to_nat (zlen (concat chunks)))%nat.
Proof.
  intros Hpos. induction 1 as [|e c evs chunks HP _ IH]; [cbn; lia|].
  cbn [concat length]. autorewrite with go. pose proof (Hpos e c HP).
  pose proof (zlen_nonneg (concat chunks)). lia.
Qed.

Lemma zlen_encode_rawEvent_pos e : 0 < zlen (encode_rawEvent e).
Proof.
  unfold encode_rawEvent. autorewrite with go.
  pose proof (zlen_nonneg (re_data e)). pose proof (zlen_nonneg (concat (dg_data <$> re_digests e))).
  lia.
Qed.

Lemma zlen_encode_rawEvent2_pos ids e : 0 < zlen (encode_rawEvent2 ids e).
Proof.
  unfold encode_rawEvent2. autorewrite with go. pose proof (zlen_nonneg (re_data e)).
  pose proof (zlen_nonneg (concat (zip_with encode_digest ids (re_digests e)))). lia.
Qed.

Lemma zlen_drop_prefix (a b : bytes) n : zlen (a ++ b) < n → zlen b < n.
Proof. rewrite zlen_app. pose proof (zlen_nonneg a). lia. Qed.

Lemma set_sequence_twice n m e : set_sequence n (set_sequence m e) = set_sequence n e.
Proof. done. Qed.

Lemma parse_events12_encode evs n :
  Forall wf_rawEvent evs → zlen (concat (encode_rawEvent <$> evs)) < 2 ^ 32 →
  parse_events (S (Z.to_nat (zlen (concat (encode_rawEvent <$> evs))))) parseRawEvent None n
    (NewReader (concat (encode_rawEvent <$> evs))) = (Ok (number n evs), NewReader []).
Proof.
  intros HF Hlen. set (P := λ e c, wf_rawEvent e ∧ c = encode_rawEvent e).
  assert (∀ e c, P e c → 0 < zlen c) as Hpos by (intros e c [_ ->]; apply zlen_encode_rawEvent_pos).
  assert (Forall2 P evs (encode_rawEvent <$> evs)) as HF2.
  { clear Hlen. induction HF as [|e l He _ IH]; constructor; [by split|done]. }
  apply (parse_events_encode _ _ _ _ P); [|done|done|done|].
  - intros e c rest [Hw ->] Hl. apply parseRawEvent_encode; [done|].
    unfold encode_rawEvent in Hl. rewrite <- !(assoc_L app) in Hl.
    by do 4 apply zlen_drop_prefix in Hl.
  - pose proof (encode_chunks_length P _ _ Hpos HF2). lia.
Qed.

Lemma parse_events20_encode spec evs chunks n :
  NoDup (sa_ID <$> algs spec) →
  Forall2 (λ ev c, ∃ ids, wf_rawEvent2 spec ids ev ∧ c = encode_rawEvent2 ids ev) evs chunks →
  zlen (concat chunks) < 2 ^ 32 →
  parse_events (S (Z.to_nat (zlen (concat chunks)))) parseRawEvent2 (Some spec) n
    (NewReader (concat chunks)) = (Ok (number n evs), NewReader []).
Proof.
  intros Hnd HF Hlen.
  set (P := λ ev c, ∃ ids, wf_rawEvent2 spec ids ev ∧ c = encode_rawEvent2 ids ev) in HF.
  assert (∀ e c, P e c → 0 < zlen c) as Hpos
    by (intros e c (ids & _ & ->); apply zlen_encode_rawEvent2_pos).
  apply (parse_events_encode _ _ _ _ P); [|done|done|done|].
  - intros e c rest (ids & Hw & ->) Hl. apply parseRawEvent2_encode; [done|done|].
    unfold encode_rawEvent2 in Hl. rewrite <- !(assoc_L app) in Hl.
    by do 5 apply zlen_drop_prefix in Hl.
  - pose proof (encode_chunks_length P _ _ Hpos HF). lia.
Qed.

Lemma ParseEventLog_complete12 log el :
  zlen log < 2 ^ 32 → is_log12 log el → ParseEventLog log = Ok el.
Proof.
  intros Hlen (e & evs & -> & HF & Hna & ->). inversion_clear HF as [|?? He Hevs].
  unfold ParseEventLog, ParseEventLog_body. cbn [fmap list_fmap concat] in *.
  assert (zlen (re_data e ++ concat (encode_rawEvent <$> evs)) < 2 ^ 32).
  { unfold encode_rawEvent at 1 in Hlen. rewrite <- !(assoc_L app) in Hlen.
    by do 4 apply zlen_drop_prefix in Hlen. }
  erewrite bind_Ok; [|apply wrapM_Ok; by apply parseRawEvent_encode].
  erewrite bind_Ok; [|reflexivity]. cbn [set_sequence re_typ re_data].
  assert (((re_typ e =? eventTypeNoAction) && (specIDEventHeader_size <=? zlen (re_data e))) = false)
    as ->.
  { destruct (Z.eqb_spec (re_typ e) eventTypeNoAction) as [E|]; [|done].
    apply Hna in E. by apply Z.leb_gt. }
  apply zlen_drop_prefix in Hlen. unfold rd_len; cbn [rd_buf NewReader].
  erewrite bind_Ok; [|by apply parse_events12_encode]. done.
Qed.

Lemma ParseEventLog_complete20 log el :
  zlen log < 2 ^ 32 → is_log20 log el →
  (∀ spec, el_specIDEvent el = Some spec → NoDup (sa_ID <$> algs spec)) →
  ParseEventLog log = Ok el.
Proof.
  intros Hlen (e & spec & evs & chunks & -> & He & Ht & Hs & Hh & HF & ->) Hnd.
  specialize (Hnd spec eq_refl). unfold ParseEventLog, ParseEventLog_body.
  assert (zlen (re_data e ++ concat chunks) < 2 ^ 32).
  { unfold encode_rawEvent in Hlen. rewrite <- !(assoc_L app) in Hlen.
    by do 4 apply zlen_drop_prefix in Hlen. }
  erewrite bind_Ok; [|apply wrapM_Ok; by apply parseRawEvent_encode].
  erewrite bind_Ok; [|reflexivity]. cbn [set_sequence re_typ re_data].
  rewrite Ht. assert ((specIDEventHeader_size <=? zlen (re_data e)) = true) as ->.
  { destruct Hs as (pc & er & ui & v & -> & _). apply Z.leb_le.
    unfold encode_specIDEvent. autorewrite with go. change (zlen wantSignature) with 16.
    pose proof (zlen_nonneg v). pose proof (zlen_nonneg (concat (encode_alg <$> algs spec))).
    unfold specIDEventHeader_size. lia. }
  rewrite (parseSpecIDEvent_complete _ _ Hs). cbn [Z.eqb eventTypeNoAction Pos.eqb andb wrapf].
  erewrite bind_Ok; [|reflexivity].
  assert ((zlen (spec_hashes (algs spec)) =? 0) = false) as ->.
  { apply Z.eqb_neq. by rewrite zlen_0. }
  erewrite bind_Ok; [|reflexivity]. unfold rd_len; cbn [rd_buf NewReader].
  apply zlen_drop_prefix in Hlen.
  erewrite bind_Ok; [|by apply parse_events20_encode]. done.
Qed.

Lemma number_sequences n evs :
  Forall (λ e, n ≤ re_sequence e) (number n evs) ∧
  StronglySorted (λ e1 e2, re_sequence e1 < re_sequence e2) (number n evs).
Proof.
  revert n. induction evs as [|e evs IH]; intros n; cbn; [by split; constructor|].
  destruct (IH (n + 1)) as [Hle Hs]. split.
  - constructor; [done|]. eapply Forall_impl; [exact Hle|]. cbn. lia.
  - constructor; [done|]. eapply Forall_impl; [exact Hle|]. cbn. lia.
Qed.

Lemma number_length n evs : length (number n evs) = length evs.
Proof. revert n. induction evs; intros; cbn; [done|]. by f_equal. Qed.

Lemma digestEquals_Ok `{GoCrypto} e b :
  digestEquals e b = Ok tt ↔
    (zlen (ev_Digest e) = 32 ∧ ev_Digest e = sha256_Sum256 b) ∨
    (zlen (ev_Digest e) = 20 ∧ ev_Digest e = sha1_Sum b).
Proof.
  unfold digestEquals. destruct (Z.eqb_spec (zlen (ev_Digest e)) 0); [split; [done|lia]|].
  destruct (Z.eqb_spec (zlen (ev_Digest e)) 32) as [E|].
  { case_bool_decide as Hd; [split; [by left|done]|].
    split; [done|]. intros [[_ Hx]|[Hx _]]; [by destruct Hd|lia]. }
  destruct (Z.eqb_spec (zlen (ev_Digest e)) 20) as [E|].
  { case_bool_decide as Hd; [split; [by right|done]|].
    split; [done|]. intros [[Hx _]|[_ Hx]]; [lia|by destruct Hd]. }
  split; [done|lia].
Qed.

Lemma digestEquals_no_crash `{GoCrypto} e b : no_crash (digestEquals e b).
Proof. unfold digestEquals. repeat case_match; done. Qed.

Lemma parsed_format log el : ParseEventLog log = Ok el → is_log12 log el ∨ is_log20 log el.
Proof.
  unfold ParseEventLog. destruct (ParseEventLog_body (NewReader log)) as [r r'] eqn:E.
  cbn. intros ->. by destruct (reads_Ok _ _ _ _ _ (ParseEventLog_reads log) E) as (? & ? & _ & _ & _ & ?).
Qed.

Lemma parsed_no_crash log : no_crash (ParseEventLog log).
Proof. eapply reads_no_crash, ParseEventLog_reads. Qed.

Lemma parsed_sequences log el :
  ParseEventLog log = Ok el →
  StronglySorted (λ e1 e2, re_sequence e1 < re_sequence e2) (rawEvents el).
Proof.
  intros [(? & ? & _ & _ & _ & ->)|(? & ? & ? & ? & _ & _ & _ & _ & _ & _ & ->)]%parsed_format;
    cbn [rawEvents]; apply number_sequences.
Qed.

Lemma parsed_Algs log el :
  ParseEventLog log = Ok el → Forall (λ a, a = HashSHA1 ∨ a = HashSHA256) (Algs el).
Proof.
  intros [(? & ? & _ & _ & _ & ->)|(? & spec & ? & ? & _ & _ & _ & _ & _ & _ & ->)]%parsed_format;
    cbn [Algs]; [by repeat constructor; left|].
  apply Forall_forall. intros a (alg & _ & Ha)%list_elem_of_omap. revert Ha.
  repeat case_match; intros [= <-]; auto.
Qed.

(** ** Properties *)

(** [ParseEventLog] returns a log or an error on every input: no loop of
    the parser runs on, no out-of-range access or nil dereference occurs. *)
Theorem ParseEventLog_total (log : bytes) : no_crash (ParseEventLog log).
Proof. apply parsed_no_crash. Qed.

(** C22: A log that parses is, byte for byte, the encoding of the events
    returned: nothing is skipped, invented or reordered. *)
Theorem ParseEventLog_sound log el :
  ParseEventLog log = Ok el → is_log12 log el ∨ is_log20 log el.
Proof. apply parsed_format. Qed.

(** C23: Conversely every well-formed log below 4 GiB, whose header lists each
    algorithm once, parses to exactly its events. *)
Theorem ParseEventLog_complete log el :
  zlen log < 2 ^ 32 →
  (∀ spec, el_specIDEvent el = Some spec → NoDup (sa_ID <$> algs spec)) →
  is_log12 log el ∨ is_log20 log el → ParseEventLog log = Ok el.
Proof.
  intros Hlen Hnd [H|H]; [by apply ParseEventLog_complete12|by apply ParseEventLog_complete20].
Qed.

(** The Spec ID parser accepts exactly the TCG_EfiSpecIdEvent format
    (version 2.0, vendor information filling the rest of the event). *)
Theorem parseSpecIDEvent_iff b spec :
  parseSpecIDEvent b = Ok spec ↔ is_specIDEvent b spec.
Proof. split; [apply parseSpecIDEvent_sound|apply parseSpecIDEvent_complete]. Qed.


Section Witnesses.
(** A TPM 1.2 log of two events. *)
Definition ex_event12 (index typ : Z) (data : string) : rawEvent :=
  mkRawEvent 0 index typ (str data) [mkDigest crypto_SHA1 (repeat Byte.x07 20)].
Definition ex_events12 : list rawEvent := [ex_event12 0 8 "version"; ex_event12 4 13 "ipl"].
Definition ex_log12 : bytes := concat (encode_rawEvent <$> ex_events12).
Definition ex_parsed12 : EventLog := mkEventLog [HashSHA1] (number 0 ex_events12) None.

Lemma ParseEventLog_sound_witness :
  is_log12 ex_log12 ex_parsed12 ∨ is_log20 ex_log12 ex_parsed12.
Proof. apply (ParseEventLog_sound ex_log12 ex_parsed12). vm_compute. reflexivity. Defined.

Lemma ex_log12_format : is_log12 ex_log12 ex_parsed12.
Proof.
  exists (ex_event12 0 8 "version"), [ex_event12 4 13 "ipl"].
  split_and!; [done| |done|done]. repeat constructor; try done; by exists (repeat Byte.x07 20).
Qed.

Lemma ParseEventLog_complete_witness : ParseEventLog ex_log12 = Ok ex_parsed12.
Proof.
  apply (ParseEventLog_complete ex_log12 ex_parsed12).
  - vm_compute. reflexivity.
  - discriminate.
  - left. apply ex_log12_format.
Defined.
End Witnesses.
