(* ===== verification/Replay.v ===== *)
(** * Replaying an event log against PCR values ([attest/eventlog.go])

    [extend], [replayPCR] and [replayEvents], with an independent description
    of what a PCR value says about a log. *)
From S2P Require Import Prelude GoBytes GoCrypto GoRuntime Attest EventLog.

(** ** [ReplayError] *)
Record ReplayError := mkReplayError {
  rerr_Events : list Event;
  rerr_InvalidPCRs : list Z;
}.

Fixpoint affected_in (l : list Z) (pcr : Z) : bool :=
  match l with
  | [] => false
  | p :: l => if p =? pcr then true else affected_in l pcr
  end.
Definition affected (e : ReplayError) (pcr : Z) : bool := affected_in (rerr_InvalidPCRs e) pcr.

(** The errors of [verify]: a [ReplayError] or any other error. *)
Inductive verifyError :=
| VReplay (e : ReplayError)
| VError (e : error).

Definition lift_error {A} (r : res error A) : res verifyError A :=
  match r with
  | Ok a => Ok a
  | Err e => Err (VError e)
  | Panic s => Panic s
  | NoFuel => NoFuel
  end.

Section Replay.
Context `{GoCrypto}.

(** [b := make([]byte, h.Size()); b[h.Size()-1] = locality] *)
Definition startup_block (sz : Z) (locality : byte) : bytes :=
  replicate (Z.to_nat (sz - 1)) Byte.x00 ++ [locality].

(** The loop of [extend] over the digests of the event. *)
Fixpoint extend_digests (ds : list digest) (pcr : PCR) (replay : bytes) (locality : byte)
    : res error (bytes * bytes) :=
  match ds with
  | [] => Err (Errorf "no event digest matches pcr algorithm: %v")
  | d :: ds =>
      if negb (dg_hash d =? pcr_DigestAlg pcr) then extend_digests ds pcr replay locality
      else if negb (zlen (dg_data d) =? zlen (pcr_Digest pcr)) then
        Err (Errorf "digest data length (%d) doesn't match PCR digest length (%d)")
      else
        _ ← hash_New (pcr_DigestAlg pcr);
        written ← (if negb (zlen replay =? 0) then Ok replay
                   else sz ← hash_Size (pcr_DigestAlg pcr); Ok (startup_block sz locality));
        Ok (hash_sum (pcr_DigestAlg pcr) (written ++ dg_data d), dg_data d)
  end.

Definition extend (pcr : PCR) (replay : bytes) (e : rawEvent) (locality : byte)
    : res error (bytes * bytes) :=
  extend_digests (re_digests e) pcr replay locality.

(** The last byte of a StartupLocality event of PCR 0. *)
Definition is_StartupLocality (pcrIndex : Z) (data : bytes) : bool :=
  (pcrIndex =? 0) && (zlen data =? 17) && bool_decide (take 15 data = str "StartupLocality").

Definition update_locality (pcrIndex : Z) (data : bytes) (locality : byte) : byte :=
  if is_StartupLocality pcrIndex data then nth (length data - 1) data Byte.x00 else locality.

Definition replayed_event (pcr : PCR) (e : rawEvent) (dg : bytes) : Event :=
  mkEvent (re_sequence e) (pcr_Index pcr) (re_typ e) (re_data e) dg.

(** The loop of [replayPCR]; [None] is the early [return nil, false]. *)
Fixpoint replay_loop (raw : list rawEvent) (pcr : PCR) (replay : bytes)
    (outEvents : list Event) (locality : byte) : res error (option (bytes * list Event)) :=
  match raw with
  | [] => Ok (Some (replay, outEvents))
  | e :: raw =>
      if negb (re_index e =? pcr_Index pcr) then replay_loop raw pcr replay outEvents locality
      else if re_typ e =? eventTypeNoAction then
        replay_loop raw pcr replay outEvents
          (update_locality (pcr_Index pcr) (re_data e) locality)
      else
        match extend pcr replay e locality with
        | Ok (replayValue, dg) =>
            replay_loop raw pcr replayValue (outEvents ++ [replayed_event pcr e dg]) locality
        | Err _ => Ok None
        | Panic s => Panic s
        | NoFuel => NoFuel
        end
  end.

Definition replayPCR (raw : list rawEvent) (pcr : PCR) : res error (list Event * bool) :=
  r ← replay_loop raw pcr [] [] Byte.x00;
  match r with
  | None => Ok ([], false)
  | Some (replay, outEvents) =>
      if (0 <? zlen outEvents) && bool_decide (replay ≠ pcr_Digest pcr) then Ok ([], false)
      else Ok (outEvents, true)
  end.

Record pcrReplayResult := mkReplayResult { rr_events : list Event; rr_successful : bool }.

(** [allPCRReplays[pcr.Index] = append(allPCRReplays[pcr.Index], ...)] *)
Fixpoint replay_all (raw : list rawEvent) (pcrs : list PCR)
    (m : gmap Z (list pcrReplayResult)) : res error (gmap Z (list pcrReplayResult)) :=
  match pcrs with
  | [] => Ok m
  | pcr :: pcrs =>
      r ← replayPCR raw pcr;
      replay_all raw pcrs
        (<[pcr_Index pcr := default [] (m !! pcr_Index pcr) ++ [mkReplayResult r.1 r.2]]> m)
  end.

(** The inner loop of [pcrLoop]: the events of the first successful replay. *)
Fixpoint first_successful (l : list pcrReplayResult) : option (list Event) :=
  match l with
  | [] => None
  | r :: l => if rr_successful r then Some (rr_events r) else first_successful l
  end.

Fixpoint pcr_loop (kvs : list (Z * list pcrReplayResult)) (invalid : list Z)
    (verified : list Event) : list Z * list Event :=
  match kvs with
  | [] => (invalid, verified)
  | (i, replays) :: kvs =>
      match first_successful replays with
      | Some evs => pcr_loop kvs invalid (verified ++ evs)
      | None => pcr_loop kvs (invalid ++ [i]) verified
      end
  end.

(** An event as listed in a [ReplayError]. *)
Definition unverified (e : rawEvent) : Event :=
  mkEvent (re_sequence e) (re_index e) (re_typ e) (re_data e) [].

Definition replayEvents `{GoRuntime} (raw : list rawEvent) (pcrs : list PCR)
    : res verifyError (list Event) :=
  m ← lift_error (replay_all raw pcrs ∅);
  let '(invalid, verified) := pcr_loop (map_range m) [] [] in
  if 0 <? zlen invalid then Err (VReplay (mkReplayError (unverified <$> raw) invalid))
  else Ok (sort_by ev_sequence verified).

(** ** What a PCR value says about a log *)

(** The events that extend PCR [i], in order. *)
Definition extends_pcr (i : Z) (e : rawEvent) : Prop :=
  re_index e = i ∧ re_typ e ≠ eventTypeNoAction.
#[export] Instance extends_pcr_dec i e : Decision (extends_pcr i e).
Proof. apply and_dec; apply _. Defined.
Definition pcr_events (i : Z) (raw : list rawEvent) : list rawEvent :=
  filter (extends_pcr i) raw.

(** The locality TPM2_Startup was issued from, as announced by the
    EV_NO_ACTION events of the PCR before its first extension. *)
Fixpoint startup_locality (i : Z) (raw : list rawEvent) (acc : byte) : byte :=
  match raw with
  | [] => acc
  | e :: raw =>
      if negb (re_index e =? i) then startup_locality i raw acc
      else if re_typ e =? eventTypeNoAction then
        startup_locality i raw (update_locality i (re_data e) acc)
      else acc
  end.

(** The digest of an event in the bank of the PCR. *)
Definition pcr_digest_of (pcr : PCR) (e : rawEvent) : option bytes :=
  d ← find_digest (pcr_DigestAlg pcr) (re_digests e);
  if bool_decide (zlen d = zlen (pcr_Digest pcr)) then Some d else None.

(** The value of a register after a sequence of extensions. *)
Definition chain (alg : Z) (init : bytes) (ds : list bytes) : bytes :=
  foldl (λ acc d, hash_sum alg (acc ++ d)) init ds.

Definition initial_value (pcr : PCR) (raw : list rawEvent) : bytes :=
  startup_block (default 0 (hash_size (pcr_DigestAlg pcr)))
    (startup_locality (pcr_Index pcr) raw Byte.x00).

(** The log [raw] explains the value of [pcr], through the event digests [ds]. *)
Definition explains (raw : list rawEvent) (pcr : PCR) (ds : list bytes) : Prop :=
  Forall2 (λ e d, pcr_digest_of pcr e = Some d) (pcr_events (pcr_Index pcr) raw) ds ∧
  (ds ≠ [] → chain (pcr_DigestAlg pcr) (initial_value pcr raw) ds = pcr_Digest pcr).

Definition replayed_events (raw : list rawEvent) (pcr : PCR) (ds : list bytes) : list Event :=
  zip_with (replayed_event pcr) (pcr_events (pcr_Index pcr) raw) ds.
End Replay.

#[global] Arguments pcr_events : simpl never.

Section ReplayFacts.
Context `{GoCrypto}.

(** ** One PCR *)

Lemma extend_spec pcr replay e locality :
  hash_available (pcr_DigestAlg pcr) = true →
  match pcr_digest_of pcr e with
  | Some d =>
      extend pcr replay e locality =
        Ok (hash_sum (pcr_DigestAlg pcr)
             ((if zlen replay =? 0
               then startup_block (default 0 (hash_size (pcr_DigestAlg pcr))) locality
               else replay) ++ d), d)
  | None => ∃ err, extend pcr replay e locality = Err err
  end.
Proof.
  intros Ha. unfold extend, pcr_digest_of.
  destruct (available_size _ Ha) as [sz Hsz].
  induction (re_digests e) as [|d ds IH]; cbn; [by eexists|].
  rewrite (Z.eqb_sym (dg_hash d)). destruct (Z.eqb_spec (pcr_DigestAlg pcr) (dg_hash d)); cbn; [|done].
  destruct (Z.eqb_spec (zlen (dg_data d)) (zlen (pcr_Digest pcr))) as [E|E]; cbn.
  - rewrite bool_decide_eq_true_2 by done. rewrite hash_New_ok by done. cbn.
    unfold hash_Size. rewrite Hsz. by destruct (zlen replay =? 0).
  - rewrite bool_decide_eq_false_2 by done. by eexists.
Qed.

Lemma pcr_events_cons_skip i e raw : re_index e ≠ i → pcr_events i (e :: raw) = pcr_events i raw.
Proof. intros. unfold pcr_events. by rewrite filter_cons_False by by intros [? _]. Qed.
Lemma pcr_events_cons_noaction i e raw :
  re_typ e = eventTypeNoAction → pcr_events i (e :: raw) = pcr_events i raw.
Proof. intros. unfold pcr_events. by rewrite filter_cons_False by by intros [_ ?]. Qed.
Lemma pcr_events_cons i e raw :
  re_index e = i → re_typ e ≠ eventTypeNoAction → pcr_events i (e :: raw) = e :: pcr_events i raw.
Proof. intros. unfold pcr_events. by rewrite filter_cons_True. Qed.

(** The loop computes the chain of extensions. *)
Lemma replay_loop_spec raw pcr replay out loc :
  hash_available (pcr_DigestAlg pcr) = true →
  replay_loop raw pcr replay out loc =
    Ok (ds ← mapM (pcr_digest_of pcr) (pcr_events (pcr_Index pcr) raw);
        Some (if bool_decide (ds = []) then replay
              else chain (pcr_DigestAlg pcr)
                     (if zlen replay =? 0
                      then startup_block (default 0 (hash_size (pcr_DigestAlg pcr)))
                             (startup_locality (pcr_Index pcr) raw loc)
                      else replay) ds,
              out ++ zip_with (replayed_event pcr) (pcr_events (pcr_Index pcr) raw) ds)).
Proof.
  intros Ha. revert replay out loc. induction raw as [|e raw IH]; intros replay out loc.
  { change (pcr_events (pcr_Index pcr) []) with (@nil rawEvent). cbn. by rewrite app_nil_r. }
  cbn [replay_loop startup_locality].
  destruct (Z.eqb_spec (re_index e) (pcr_Index pcr)) as [Hi|Hi]; cbn [negb].
  2: { rewrite IH. by rewrite pcr_events_cons_skip. }
  destruct (Z.eqb_spec (re_typ e) eventTypeNoAction) as [Ht|Ht].
  { rewrite IH. by rewrite pcr_events_cons_noaction. }
  rewrite pcr_events_cons by done. cbn [mapM].
  pose proof (extend_spec pcr replay e loc Ha) as Hx.
  destruct (pcr_digest_of pcr e) as [d|]; [|by destruct Hx as [? ->]].
  rewrite Hx, IH. cbn. destruct (mapM _ _) as [ds|]; [|done]. cbn.
  f_equal. f_equal.
  assert ((zlen (hash_sum (pcr_DigestAlg pcr) ((if zlen replay =? 0 then startup_block
    (default 0 (hash_size (pcr_DigestAlg pcr))) loc else replay) ++ d)) =? 0) = false) as ->.
  { apply Z.eqb_neq. rewrite zlen_0. by apply hash_sum_nonempty. }
  rewrite <- (assoc_L app). f_equal.
  destruct ds; [by rewrite bool_decide_eq_true_2|by rewrite bool_decide_eq_false_2].
Qed.

Lemma chain_nonempty alg init d ds :
  hash_available alg = true → chain alg init (d :: ds) ≠ [].
Proof.
  intros Ha. revert init d. induction ds as [|d' ds IH]; intros init d.
  - by apply hash_sum_nonempty.
  - apply (IH (hash_sum alg (init ++ d)) d').
Qed.

Lemma length_replayed_events raw pcr ds :
  explains raw pcr ds → length (replayed_events raw pcr ds) = length ds.
Proof.
  intros [HF _]. unfold replayed_events. rewrite length_zip_with.
  rewrite (Forall2_length _ _ _ HF). lia.
Qed.

Lemma replayed_digests raw pcr ds :
  explains raw pcr ds → ev_Digest <$> replayed_events raw pcr ds = ds.
Proof.
  intros [HF _]. unfold replayed_events. induction HF as [|e d es ds _ _ IH]; [done|]. cbn. by rewrite IH.
Qed.

Lemma replayPCR_success raw pcr evs :
  hash_available (pcr_DigestAlg pcr) = true →
  replayPCR raw pcr = Ok (evs, true) ↔
    ∃ ds, explains raw pcr ds ∧ evs = replayed_events raw pcr ds.
Proof.
  intros Ha. unfold replayPCR. rewrite replay_loop_spec by done. cbn.
  destruct (mapM _ _) as [ds|] eqn:Em; cbn.
  - apply mapM_Some in Em. fold (replayed_events raw pcr ds) (initial_value pcr raw).
    assert (length (replayed_events raw pcr ds) = length ds) as Hl.
    { unfold replayed_events. rewrite length_zip_with, (Forall2_length _ _ _ Em). lia. }
    destruct ds as [|d ds].
    + apply nil_length_inv in Hl. rewrite Hl.
      cbn. split; [intros [= <-]; exists []; split; [by split; [|intros []]|done]|].
      intros (ds' & [HF _] & ->). apply Forall2_nil_inv_r in Em. unfold replayed_events. by rewrite Em.
    + destruct (Z.ltb_spec 0 (zlen (replayed_events raw pcr (d :: ds)))); [|unfold zlen in *; cbn in *; lia].
      cbn [andb]. case_bool_decide as Hc; rewrite (bool_decide_eq_false_2 (d :: ds = [])) in Hc by done.
      * split; [done|]. intros (ds' & [HF Hch] & _). destruct Hc.
        assert (ds' = d :: ds) as -> by (apply mapM_Some in HF, Em; congruence).
        by apply Hch.
      * split; [intros [= <-]; exists (d :: ds); split; [by split|done]|].
        intros (ds' & [HF Hch] & ->).
        by assert (ds' = d :: ds) as -> by (apply mapM_Some in HF, Em; congruence).
  - split; [done|]. intros (ds & [HF _] & _). apply mapM_Some in HF. congruence.
Qed.
End ReplayFacts.

(** ** All PCRs *)

Section Banks.
Context `{GoCrypto}.

(** The digests through which the log explains the PCR, if it does. *)
Definition explained_digests (raw : list rawEvent) (pcr : PCR) : option (list bytes) :=
  ds ← mapM (pcr_digest_of pcr) (pcr_events (pcr_Index pcr) raw);
  if bool_decide (ds = [] ∨
       chain (pcr_DigestAlg pcr) (initial_value pcr raw) ds = pcr_Digest pcr)
  then Some ds else None.

(** The first of the PCRs with index [i] that the log explains. *)
Definition bank (raw : list rawEvent) (pcrs : list PCR) (i : Z) : option PCR :=
  head (filter (λ p, pcr_Index p = i ∧ is_Some (explained_digests raw p)) pcrs).

(** Some PCR with index [i] is explained by the log. *)
Definition index_explained (raw : list rawEvent) (pcrs : list PCR) (i : Z) : Prop :=
  ∃ p ds, p ∈ pcrs ∧ pcr_Index p = i ∧ explains raw p ds.

(** What is returned for an event of the log. *)
Definition verified_event (raw : list rawEvent) (pcrs : list PCR) (e : rawEvent) : option Event :=
  if re_typ e =? eventTypeNoAction then None
  else p ← bank raw pcrs (re_index e);
       d ← pcr_digest_of p e;
       Some (replayed_event p e d).

Definition good_pcrs (pcrs : list PCR) : Prop :=
  Forall (λ p, hash_available (pcr_DigestAlg p) = true) pcrs.

Definition replay_result (raw : list rawEvent) (pcr : PCR) : pcrReplayResult :=
  match explained_digests raw pcr with
  | Some ds => mkReplayResult (replayed_events raw pcr ds) true
  | None => mkReplayResult [] false
  end.

Lemma explained_digests_Some raw pcr ds :
  explained_digests raw pcr = Some ds ↔ explains raw pcr ds.
Proof.
  unfold explained_digests, explains. rewrite <- mapM_Some.
  destruct (mapM _ _) as [ds'|]; cbn; [|by split; [|intros [? _]]].
  case_bool_decide as Hc.
  - split; [intros [= ->]; split; [done|by destruct Hc]|by intros [[= ->] _]].
  - split; [done|]. intros [[= ->] Hd]. destruct Hc.
    destruct (decide (ds = [])); [by left|right; by apply Hd].
Qed.

(** Every event of the log that extends register [i] carries a digest of the
    bank [alg], of the length of the hash. *)
Definition has_bank (raw : list rawEvent) (i alg : Z) : Prop :=
  Forall (λ e, ∃ d, find_digest alg (re_digests e) = Some d ∧ hash_size alg = Some (zlen d)) (pcr_events i raw).

(** The register that the log replays to. *)
Definition replayed_pcr (raw : list rawEvent) (i alg : Z) : PCR :=
  mkPCR i (chain alg (initial_value (mkPCR i [] alg false) raw)
             (omap (λ e, find_digest alg (re_digests e)) (pcr_events i raw))) alg false.

Lemma length_chain alg init d ds sz :
  hash_available alg = true → hash_size alg = Some sz → zlen (chain alg init (d :: ds)) = sz.
Proof.
  intros Ha Hs. revert init d. induction ds as [|d' ds IH]; intros init d.
  - by apply length_hash_sum.
  - apply (IH (hash_sum alg (init ++ d)) d').
Qed.

Lemma bank_digests p evs :
  Forall (λ e, ∃ d, find_digest (pcr_DigestAlg p) (re_digests e) = Some d ∧ zlen d = zlen (pcr_Digest p)) evs →
  Forall2 (λ e d, pcr_digest_of p e = Some d) evs (omap (λ e, find_digest (pcr_DigestAlg p) (re_digests e)) evs).
Proof.
  induction 1 as [|e evs (d & Hd & Hl) _ IH]; [constructor|]. cbn. rewrite Hd. constructor; [|done].
  unfold pcr_digest_of. rewrite Hd. cbn. by rewrite bool_decide_eq_true_2.
Qed.

(** A log with digests of a bank explains the register it replays to. *)
Lemma replayed_pcr_explained raw i alg :
  hash_available alg = true → has_bank raw i alg → ∃ ds, explains raw (replayed_pcr raw i alg) ds.
Proof.
  intros Ha Hb. exists (omap (λ e, find_digest alg (re_digests e)) (pcr_events i raw)). split; [|done].
  apply (bank_digests (replayed_pcr raw i alg)). cbn [pcr_Index pcr_DigestAlg pcr_Digest replayed_pcr].
  unfold has_bank in Hb. destruct (pcr_events i raw) as [|e evs]; [constructor|].
  apply Forall_cons in Hb as Hb'. destruct Hb' as [(d0 & Hd0 & Hs0) _].
  eapply Forall_impl; [exact Hb|]. cbn. intros e' (d & Hd & Hs). exists d. split; [done|].
  rewrite Hd0. symmetry. by apply length_chain.
Qed.

Lemma replayPCR_eq raw pcr :
  hash_available (pcr_DigestAlg pcr) = true →
  replayPCR raw pcr = Ok (rr_events (replay_result raw pcr), rr_successful (replay_result raw pcr)).
Proof.
  intros Ha. unfold replay_result. destruct (explained_digests raw pcr) as [ds|] eqn:E; cbn.
  - apply replayPCR_success; [done|]. exists ds. by rewrite <- explained_digests_Some.
  - destruct (replayPCR raw pcr) as [[evs []]|e|m|] eqn:R.
    + apply replayPCR_success in R as (ds & Hx & _); [|done].
      apply explained_digests_Some in Hx. congruence.
    + revert R. unfold replayPCR. rewrite replay_loop_spec by done. cbn.
      destruct (mapM _ _); cbn; [|by intros [= <-]]. destruct (_ && _); [by intros [= <-]|done].
    + revert R. unfold replayPCR. rewrite replay_loop_spec by done. cbn.
      destruct (mapM _ _); cbn; [|done]. by destruct (_ && _).
    + revert R. unfold replayPCR. rewrite replay_loop_spec by done. cbn.
      destruct (mapM _ _); cbn; [|done]. by destruct (_ && _).
    + revert R. unfold replayPCR. rewrite replay_loop_spec by done. cbn.
      destruct (mapM _ _); cbn; [|done]. by destruct (_ && _).
Qed.

(** The map built by [replayEvents] before its [pcrLoop]. *)
Lemma replay_all_spec raw pcrs m :
  good_pcrs pcrs →
  ∃ m', replay_all raw pcrs m = Ok m' ∧
    ∀ i, m' !! i = match filter (λ p, pcr_Index p = i) pcrs with
                   | [] => m !! i
                   | ps => Some (default [] (m !! i) ++ (replay_result raw <$> ps))
                   end.
Proof.
  revert m. induction pcrs as [|p pcrs IH]; intros m Hg; [by exists m|].
  inversion Hg; subst. cbn [replay_all]. rewrite replayPCR_eq by done. cbn [mbind res_bind fst snd].
  destruct (IH (<[pcr_Index p := default [] (m !! pcr_Index p) ++
    [mkReplayResult (rr_events (replay_result raw p)) (rr_successful (replay_result raw p))]]> m))
    as (m' & Hm' & Hl); [done|].
  exists m'. split; [exact Hm'|]. intros i. rewrite Hl.
  destruct (decide (pcr_Index p = i)) as [<-|Hne].
  - rewrite filter_cons_True, lookup_insert_eq by done. cbn.
    destruct (filter _ pcrs); cbn; [by destruct (replay_result raw p)|].
    rewrite <- (assoc_L app). by destruct (replay_result raw p).
  - rewrite filter_cons_False, lookup_insert_ne by done. done.
Qed.

Lemma first_successful_bank raw pcrs i :
  first_successful (replay_result raw <$> filter (λ p, pcr_Index p = i) pcrs) =
    (p ← bank raw pcrs i; ds ← explained_digests raw p; Some (replayed_events raw p ds)).
Proof.
  unfold bank. induction pcrs as [|p pcrs IH]; [done|].
  destruct (decide (pcr_Index p = i)) as [Hi|Hi].
  - rewrite (filter_cons_True (λ p, pcr_Index p = i)) by done. rewrite fmap_cons.
    unfold replay_result at 1. destruct (explained_digests raw p) as [ds|] eqn:E.
    + rewrite filter_cons_True by (split; [done|by rewrite E]). cbn. by rewrite E.
    + rewrite filter_cons_False by (rewrite E; by intros [_ [? [=]]]). apply IH.
  - rewrite !filter_cons_False by (done || by intros [? _]). done.
Qed.

Lemma bank_Some raw pcrs i p :
  bank raw pcrs i = Some p → p ∈ pcrs ∧ pcr_Index p = i ∧ is_Some (explained_digests raw p).
Proof.
  unfold bank. intros Hh. apply head_Some_elem_of in Hh.
  apply list_elem_of_filter in Hh as [[? ?] ?]. done.
Qed.

Lemma bank_is_Some raw pcrs i : is_Some (bank raw pcrs i) ↔ index_explained raw pcrs i.
Proof.
  split.
  - intros [p Hp]. apply bank_Some in Hp as (? & ? & [ds Hds]).
    exists p, ds. by rewrite explained_digests_Some in Hds.
  - intros (p & ds & Hp & Hi & Hx%explained_digests_Some). unfold bank.
    assert (p ∈ filter (λ p, pcr_Index p = i ∧ is_Some (explained_digests raw p)) pcrs) as Hf.
    { apply list_elem_of_filter. rewrite Hx. done. }
    destruct (filter _ _); [by apply elem_of_nil in Hf|by eexists].
Qed.

#[export] Instance index_explained_dec raw pcrs i : Decision (index_explained raw pcrs i).
Proof.
  destruct (bank raw pcrs i) as [p|] eqn:E.
  - left. apply bank_is_Some. by rewrite E.
  - right. rewrite <- bank_is_Some, E. by intros [? ?].
Defined.

(** The events of one register, listed event by event. *)
Lemma replayed_events_omap raw pcrs i p ds :
  bank raw pcrs i = Some p → explained_digests raw p = Some ds →
  replayed_events raw p ds =
    omap (λ e, if bool_decide (re_index e = i) then verified_event raw pcrs e else None) raw.
Proof.
  intros Hb Hd. pose proof (bank_Some _ _ _ _ Hb) as (_ & Hi & _).
  apply explained_digests_Some in Hd as [HF _]. revert HF. unfold replayed_events. rewrite Hi.
  assert (∀ l, Forall2 (λ e d, pcr_digest_of p e = Some d) (pcr_events i l) ds →
    zip_with (replayed_event p) (pcr_events i l) ds =
    omap (λ e, if bool_decide (re_index e = i) then verified_event raw pcrs e else None) l); [|auto].
  intros l. revert ds. induction l as [|e l IH]; intros ds HF; [done|]. cbn.
  case_bool_decide as He.
  - unfold verified_event at 1. destruct (Z.eqb_spec (re_typ e) eventTypeNoAction) as [Ht|Ht].
    + rewrite pcr_events_cons_noaction in HF |- * by done. by apply IH.
    + rewrite pcr_events_cons in HF |- * by done. apply Forall2_cons_inv_l in HF as (d & ds' & Hd1 & HF & ->).
      rewrite He, Hb. cbn. rewrite Hd1. cbn. f_equal. by apply IH.
  - rewrite pcr_events_cons_skip in HF |- * by done. by apply IH.
Qed.
End Banks.

(** Splitting a selection of elements into disjoint selections. *)
Lemma omap_split {A B} (f g h : A → option B) l :
  (∀ x, h x = f x ∧ g x = None ∨ h x = g x ∧ f x = None) →
  omap f l ++ omap g l ≡ₚ omap h l.
Proof.
  intros Hs. induction l as [|x l IH]; [done|]. cbn.
  destruct (Hs x) as [[-> Hn]|[-> Hn]]; rewrite Hn.
  - destruct (f x); cbn; by rewrite IH.
  - destruct (g x); cbn; [|done]. by rewrite <- Permutation_middle, IH.
Qed.

Lemma omap_partition {A B} (f : A → option B) (key : A → Z) (ks : list Z) l :
  NoDup ks →
  mjoin ((λ i, omap (λ x, if bool_decide (key x = i) then f x else None) l) <$> ks) ≡ₚ
  omap (λ x, if bool_decide (key x ∈ ks) then f x else None) l.
Proof.
  induction 1 as [|i ks Hi Hnd IH]; cbn.
  - induction l as [|x l IHl]; [done|]. cbn. rewrite bool_decide_eq_false_2; [done|by apply not_elem_of_nil].
  - rewrite IH. apply omap_split. intros x. destruct (decide (key x = i)) as [->|Hne].
    + left. rewrite !bool_decide_eq_true_2, bool_decide_eq_false_2 by (done || by left). done.
    + right. rewrite (bool_decide_eq_false_2 (key x = i)) by done. split; [|done].
      erewrite (bool_decide_ext (key x ∈ i :: ks) (key x ∈ ks)); [done|].
      rewrite elem_of_cons. split; [by intros [?|?]|by right].
Qed.

Section ReplayAll.
Context `{GoCrypto, GoRuntime}.

Lemma pcr_loop_spec kvs inv ver :
  pcr_loop kvs inv ver =
    (inv ++ omap (λ kv, match first_successful kv.2 with None => Some kv.1 | Some _ => None end) kvs,
     ver ++ mjoin ((λ kv, default [] (first_successful kv.2)) <$> kvs)).
Proof.
  revert inv ver. induction kvs as [|[i rs] kvs IH]; intros inv ver; cbn.
  - by rewrite !app_nil_r.
  - destruct (first_successful rs); rewrite IH; cbn; by rewrite <- (assoc_L app).
Qed.

(** The first successful replay recorded for each register is that of its bank. *)
Definition banked (raw : list rawEvent) (pcrs : list PCR) (kvs : list (Z * list pcrReplayResult)) : Prop :=
  ∀ kv, kv ∈ kvs →
    first_successful kv.2 =
      (p ← bank raw pcrs kv.1; ds ← explained_digests raw p; Some (replayed_events raw p ds)).

Lemma unexplained_keys raw pcrs kvs :
  banked raw pcrs kvs →
  omap (λ kv, match first_successful kv.2 with None => Some kv.1 | Some _ => None end) kvs =
    filter (λ i, ¬ index_explained raw pcrs i) kvs.*1.
Proof.
  induction kvs as [|[i rs] l IH]; intros Hkv; [done|].
  pose proof (Hkv (i, rs) ltac:(by left)) as Hx. cbn in Hx |- *. rewrite Hx.
  rewrite IH by (intros ??; apply Hkv; by right).
  destruct (bank raw pcrs i) as [p|] eqn:B; cbn.
  - destruct (bank_Some _ _ _ _ B) as (_ & _ & [ds ->]). cbn.
    rewrite decide_False; [done|]. intros []. apply bank_is_Some. by rewrite B.
  - rewrite decide_True; [done|]. rewrite <- bank_is_Some, B. by intros [? [=]].
Qed.

Lemma collected_keys raw pcrs kvs :
  banked raw pcrs kvs → filter (λ i, ¬ index_explained raw pcrs i) kvs.*1 = [] →
  (λ kv, default [] (first_successful kv.2)) <$> kvs =
    (λ i, omap (λ e, if bool_decide (re_index e = i) then verified_event raw pcrs e else None) raw) <$> kvs.*1.
Proof.
  intros Hkv Hz. rewrite <- list_fmap_compose. apply list_fmap_ext.
  intros k [i rs] Hin%list_elem_of_lookup_2. cbn. pose proof (Hkv _ Hin) as Hx. cbn in Hx. rewrite Hx.
  destruct (bank raw pcrs i) as [p|] eqn:B; cbn.
  - destruct (bank_Some _ _ _ _ B) as (_ & _ & [ds E]). rewrite E. cbn. by apply replayed_events_omap.
  - destruct (decide (i ∈ filter (λ i, ¬ index_explained raw pcrs i) kvs.*1)) as [Hi|[]].
    + rewrite Hz in Hi. by apply elem_of_nil in Hi.
    + apply list_elem_of_filter. split; [rewrite <- bank_is_Some, B; by intros [? [=]]|].
      by apply (list_elem_of_fmap_2 fst) in Hin.
Qed.

(** [replayEvents] decides, register by register in the order [keys] of the
    map, whether a bank is explained, and collects the events. *)
Lemma replayEvents_keys raw pcrs :
  good_pcrs pcrs →
  ∃ keys, NoDup keys ∧ (∀ i, i ∈ keys ↔ i ∈ pcr_Index <$> pcrs) ∧
    replayEvents raw pcrs =
      (if 0 <? zlen (filter (λ i, ¬ index_explained raw pcrs i) keys)
       then Err (VReplay (mkReplayError (unverified <$> raw)
                   (filter (λ i, ¬ index_explained raw pcrs i) keys)))
       else Ok (sort_by ev_sequence (mjoin ((λ i,
              omap (λ e, if bool_decide (re_index e = i) then verified_event raw pcrs e else None)
                raw) <$> keys)))).
Proof.
  intros Hg. destruct (replay_all_spec raw pcrs ∅ Hg) as (m & Hm & Hl).
  assert (∀ kv, kv ∈ map_range m → filter (λ p, pcr_Index p = kv.1) pcrs ≠ [] ∧
    kv.2 = replay_result raw <$> filter (λ p, pcr_Index p = kv.1) pcrs) as Hin.
  { intros [i rs] Hin. rewrite map_range_perm in Hin. apply elem_of_map_to_list in Hin.
    rewrite Hl, lookup_empty in Hin. cbn in *. destruct (filter _ pcrs) eqn:F; [done|].
    by injection Hin as <-. }
  assert (banked raw pcrs (map_range m)) as Hkv.
  { intros kv [_ E]%Hin. by rewrite E, first_successful_bank. }
  exists ((map_range m).*1). split; [|split].
  - rewrite map_range_perm. apply NoDup_fst_map_to_list.
  - intros i. rewrite list_elem_of_fmap. split.
    + intros ([j rs] & -> & [Hf _]%Hin). cbn in *.
      destruct (filter _ pcrs) as [|p l] eqn:F; [done|].
      assert (p ∈ filter (λ p, pcr_Index p = j) pcrs) as Hp by (rewrite F; left).
      apply list_elem_of_filter in Hp as [<- Hp]. by apply list_elem_of_fmap_2.
    + intros (p & -> & Hp)%list_elem_of_fmap. specialize (Hl (pcr_Index p)).
      assert (p ∈ filter (λ q, pcr_Index q = pcr_Index p) pcrs) as Hf by by apply list_elem_of_filter.
      destruct (filter _ pcrs) as [|q l]; [by apply elem_of_nil in Hf|].
      eexists (_, _). split; [|rewrite map_range_perm; by apply elem_of_map_to_list]. done.
  - unfold replayEvents. rewrite Hm. cbn [lift_error mbind res_bind].
    rewrite pcr_loop_spec. cbn [app]. rewrite (unexplained_keys raw pcrs) by done.
    destruct (ltb_zlen (filter (λ i, ¬ index_explained raw pcrs i) (map_range m).*1)) as [|Hz]; [done|].
    by rewrite (collected_keys _ _ _ Hkv Hz).
Qed.

Lemma no_failed_keys raw pcrs keys :
  (∀ i, i ∈ keys ↔ i ∈ pcr_Index <$> pcrs) →
  filter (λ i, ¬ index_explained raw pcrs i) keys = [] ↔
    Forall (λ p, index_explained raw pcrs (pcr_Index p)) pcrs.
Proof.
  intros Hk. rewrite Forall_forall. split.
  - intros F p Hp. destruct (decide (index_explained raw pcrs (pcr_Index p))) as [|Hn]; [done|].
    destruct (filter_nil_not_elem_of _ _ _ F Hn). apply Hk. by apply list_elem_of_fmap_2.
  - intros Hall. apply elem_of_nil_inv. intros i [Hn Hi]%list_elem_of_filter.
    apply Hk, list_elem_of_fmap in Hi as (p & -> & Hp). by apply Hn, Hall.
Qed.

(** Events of a parsed log are numbered in order. *)
Definition sequenced (raw : list rawEvent) : Prop :=
  StronglySorted (λ e e', re_sequence e < re_sequence e') raw.

Lemma verified_event_sequence raw pcrs e ev :
  verified_event raw pcrs e = Some ev → ev_sequence ev = re_sequence e.
Proof.
  unfold verified_event. destruct (_ =? _); [done|].
  destruct (bank _ _ _) as [p|]; [|done]. cbn. destruct (pcr_digest_of p e); [|done].
  by intros [= <-].
Qed.

Lemma sequenced_verified raw pcrs l :
  sequenced l →
  StronglySorted (λ e e', ev_sequence e < ev_sequence e') (omap (verified_event raw pcrs) l).
Proof.
  induction 1 as [|e l Hl IH Hf]; [constructor|]. cbn.
  destruct (verified_event raw pcrs e) as [ev|] eqn:E; [|done]. constructor; [done|].
  apply Forall_forall. intros ev' (e' & He' & E')%list_elem_of_omap.
  rewrite Forall_forall in Hf. apply verified_event_sequence in E, E'. rewrite E, E'. by apply Hf.
Qed.

(** Every PCR index given has a PCR value that the log explains. *)
Definition all_explained (raw : list rawEvent) (pcrs : list PCR) : Prop :=
  Forall (λ p, index_explained raw pcrs (pcr_Index p)) pcrs.

#[export] Instance all_explained_dec raw pcrs : Decision (all_explained raw pcrs).
Proof. apply Forall_dec. intros p. apply _. Defined.

Lemma replayEvents_explained raw pcrs :
  good_pcrs pcrs → sequenced raw → all_explained raw pcrs →
  replayEvents raw pcrs = Ok (omap (verified_event raw pcrs) raw).
Proof.
  intros Hg Hs Hall. destruct (replayEvents_keys raw pcrs Hg) as (keys & Hnd & Hk & ->).
  rewrite (proj2 (no_failed_keys raw pcrs keys Hk) Hall). cbn. f_equal.
  apply sort_by_eq; [by apply sequenced_verified|]. rewrite omap_partition by done.
  erewrite list_omap_ext; [done|]. apply Forall_Forall2_diag, Forall_forall.
  intros e _. case_bool_decide as He; [done|]. unfold verified_event.
  destruct (_ =? _); [done|]. destruct (bank raw pcrs (re_index e)) as [p|] eqn:B; [|done].
  exfalso. apply He, Hk. apply bank_Some in B as (? & <- & _). by apply list_elem_of_fmap_2.
Qed.

Lemma replayEvents_unexplained raw pcrs :
  good_pcrs pcrs → ¬ all_explained raw pcrs →
  ∃ inv, replayEvents raw pcrs = Err (VReplay (mkReplayError (unverified <$> raw) inv)) ∧
    NoDup inv ∧
    ∀ i, i ∈ inv ↔ i ∈ pcr_Index <$> pcrs ∧ ¬ index_explained raw pcrs i.
Proof.
  intros Hg Hn. destruct (replayEvents_keys raw pcrs Hg) as (keys & Hnd & Hk & ->).
  exists (filter (λ i, ¬ index_explained raw pcrs i) keys).
  unfold all_explained in Hn. rewrite <- (no_failed_keys raw pcrs keys) in Hn by done.
  split; [|split].
  - by destruct (ltb_zlen (filter (λ i, ¬ index_explained raw pcrs i) keys)).
  - by apply NoDup_filter.
  - intros i. rewrite list_elem_of_filter, Hk. tauto.
Qed.
End ReplayAll.

(** ** Binding

    The inputs a register hashed to reach its value. *)
Section Binding.
Context `{GoCrypto}.

Fixpoint hash_inputs (alg : Z) (init : bytes) (ds : list bytes) : list bytes :=
  match ds with
  | [] => []
  | d :: ds => (init ++ d) :: hash_inputs alg (hash_sum alg (init ++ d)) ds
  end.

(** Two computations give themselves away: they hashed different inputs to
    the same value, or one of them hit the start value of the other. *)
Definition hash_broken (alg : Z) (init1 : bytes) (ds1 : list bytes)
    (init2 : bytes) (ds2 : list bytes) : Prop :=
  (∃ x y, x ∈ hash_inputs alg init1 ds1 ∧ y ∈ hash_inputs alg init2 ds2 ∧ x ≠ y ∧
     hash_sum alg x = hash_sum alg y) ∨
  (∃ x, x ∈ hash_inputs alg init1 ds1 ∧ hash_sum alg x = init2) ∨
  (∃ y, y ∈ hash_inputs alg init2 ds2 ∧ hash_sum alg y = init1).

Lemma chain_snoc alg init ds d :
  chain alg init (ds ++ [d]) = hash_sum alg (chain alg init ds ++ d).
Proof. unfold chain. by rewrite foldl_app. Qed.

Lemma hash_inputs_snoc alg init ds d :
  hash_inputs alg init (ds ++ [d]) = hash_inputs alg init ds ++ [chain alg init ds ++ d].
Proof. revert init. induction ds as [|d' ds IH]; intros init; cbn; [done|]. f_equal. apply IH. Qed.

Lemma hash_broken_snoc alg init1 ds1 d1 init2 ds2 d2 :
  hash_broken alg init1 ds1 init2 ds2 → hash_broken alg init1 (ds1 ++ [d1]) init2 (ds2 ++ [d2]).
Proof.
  unfold hash_broken. rewrite !hash_inputs_snoc.
  intros [(x & y & Hx & Hy & Hne)|[(x & Hx & E)|(y & Hy & E)]].
  - left. exists x, y. rewrite !elem_of_app. by eauto.
  - right; left. exists x. rewrite elem_of_app. by eauto.
  - right; right. exists y. rewrite elem_of_app. by eauto.
Qed.

Lemma chain_binding alg sz init1 ds1 init2 ds2 :
  Forall (λ d, zlen d = sz) ds1 → Forall (λ d, zlen d = sz) ds2 →
  chain alg init1 ds1 = chain alg init2 ds2 →
  init1 = init2 ∧ ds1 = ds2 ∨ hash_broken alg init1 ds1 init2 ds2.
Proof.
  revert ds2. induction ds1 as [|d1 ds1 IH] using rev_ind; intros ds2 H1 H2 Heq.
  - destruct ds2 as [|d2 ds2 _] using rev_ind; [by left|].
    rewrite chain_snoc in Heq. right; right; right. exists (chain alg init2 ds2 ++ d2).
    rewrite hash_inputs_snoc. split; [by apply elem_of_app; right; left|]. by rewrite <- Heq.
  - apply Forall_app in H1 as [H1 Hd1%Forall_inv].
    destruct ds2 as [|d2 ds2 _] using rev_ind.
    + rewrite chain_snoc in Heq. right; right; left. exists (chain alg init1 ds1 ++ d1).
      rewrite hash_inputs_snoc. split; [by apply elem_of_app; right; left|]. done.
    + apply Forall_app in H2 as [H2 Hd2%Forall_inv]. rewrite !chain_snoc in Heq.
      destruct (decide (chain alg init1 ds1 ++ d1 = chain alg init2 ds2 ++ d2)) as [E|Hne].
      * apply app_inj_2 in E as [E ->]; [|cbn in Hd1, Hd2; unfold zlen in *; lia].
        destruct (IH ds2 H1 H2 E) as [[-> ->]|Hb]; [by left|right; by apply hash_broken_snoc].
      * right; left. exists (chain alg init1 ds1 ++ d1), (chain alg init2 ds2 ++ d2).
        rewrite !hash_inputs_snoc. split_and!; [by apply elem_of_app; right; left..|done|done].
Qed.

Lemma explains_lengths raw pcr ds :
  explains raw pcr ds → Forall (λ d, zlen d = zlen (pcr_Digest pcr)) ds.
Proof.
  intros [HF _]. apply Forall_forall. intros d [k Hk]%list_elem_of_lookup.
  destruct (Forall2_lookup_r _ _ _ _ _ HF Hk) as (e & _ & Hd). revert Hd.
  unfold pcr_digest_of. destruct (find_digest _ _); [|done]. cbn.
  case_bool_decide; [by intros [= <-]|done].
Qed.

(** What a caller may rewrite in a log without touching any digest: the type
    and data of the events that extend a PCR. *)
Definition same_digests (e e' : rawEvent) : Prop :=
  re_sequence e = re_sequence e' ∧ re_index e = re_index e' ∧ re_digests e = re_digests e' ∧
  (e = e' ∨ re_typ e ≠ eventTypeNoAction ∧ re_typ e' ≠ eventTypeNoAction).

Lemma same_digests_pcr_events i raw raw' :
  Forall2 same_digests raw raw' → Forall2 same_digests (pcr_events i raw) (pcr_events i raw').
Proof.
  induction 1 as [|e e' raw raw' He HF IH]; [constructor|].
  destruct He as (Hs & Hi & Hd & Ht).
  destruct (decide (extends_pcr i e)) as [[Hi1 Ht1]|Hn].
  - assert (re_typ e' ≠ eventTypeNoAction) by (destruct Ht as [->|[_ ?]]; done).
    rewrite !pcr_events_cons by congruence. by constructor.
  - assert (¬ extends_pcr i e') as Hn'.
    { intros [Hi1 Ht1]. apply Hn. destruct Ht as [->|[? _]]; split; congruence. }
    unfold pcr_events. by rewrite !filter_cons_False.
Qed.

Lemma same_digests_locality i raw raw' acc :
  Forall2 same_digests raw raw' → startup_locality i raw acc = startup_locality i raw' acc.
Proof.
  intros HF. revert acc. induction HF as [|e e' raw raw' He HF IH]; intros acc; [done|].
  destruct He as (Hs & Hi & Hd & Ht). cbn. rewrite <- Hi.
  destruct (negb _); [apply IH|]. destruct Ht as [->|[Ht Ht']].
  - destruct (_ =? _); [apply IH|done].
  - by rewrite !(proj2 (Z.eqb_neq _ _)).
Qed.

Lemma same_digests_explains raw raw' pcr ds :
  Forall2 same_digests raw raw' → explains raw pcr ds → explains raw' pcr ds.
Proof.
  intros HF [Hd Hc]. split.
  - pose proof (same_digests_pcr_events (pcr_Index pcr) _ _ HF) as HP. clear HF Hc.
    revert ds Hd. induction HP as [|e e' l l' (_ & _ & E & _) HP IH]; intros ds Hd.
    + by inversion Hd.
    + apply Forall2_cons_inv_l in Hd as (d & ds' & Hd1 & Hd & ->). constructor; [|by apply IH].
      unfold pcr_digest_of. by rewrite <- E.
  - unfold initial_value. by rewrite <- (same_digests_locality _ _ _ _ HF).
Qed.

Lemma same_digests_sym raw raw' : Forall2 same_digests raw raw' → Forall2 same_digests raw' raw.
Proof.
  intros HF. apply Forall2_flip. eapply Forall2_impl; [exact HF|].
  intros e e' (? & ? & ? & [->|[? ?]]); unfold flip, same_digests; auto 6.
Qed.

Lemma same_digests_explained raw raw' pcr :
  Forall2 same_digests raw raw' → explained_digests raw pcr = explained_digests raw' pcr.
Proof.
  intros HF. apply option_eq. intros ds. rewrite !explained_digests_Some.
  split; apply same_digests_explains; [done|by apply same_digests_sym].
Qed.

Lemma same_digests_bank raw raw' pcrs i :
  Forall2 same_digests raw raw' → bank raw pcrs i = bank raw' pcrs i.
Proof.
  intros HF. unfold bank. f_equal. apply list_filter_iff. intros p.
  by rewrite (same_digests_explained raw raw').
Qed.

Lemma same_digests_sequenced raw raw' :
  Forall2 same_digests raw raw' → sequenced raw → sequenced raw'.
Proof.
  unfold sequenced. induction 1 as [|e e' raw raw' He HF IH]; [done|]. intros Hs.
  inversion Hs as [|? ? Hs' Hf]; subst. constructor; [by apply IH|].
  destruct He as (<- & _). clear -HF Hf.
  induction HF as [|e1 e1' l l' He1 HF IH]; [constructor|].
  inversion Hf; subst. destruct He1 as (E & _). constructor; [by rewrite <- E|by apply IH].
Qed.

(** The same event, up to its type and data. *)
Definition same_extension (ev ev' : Event) : Prop :=
  ev_sequence ev = ev_sequence ev' ∧ ev_Index ev = ev_Index ev' ∧ ev_Digest ev = ev_Digest ev'.

Lemma same_digests_verified raw raw' pcrs :
  Forall2 same_digests raw raw' →
  Forall2 same_extension (omap (verified_event raw pcrs) raw) (omap (verified_event raw' pcrs) raw').
Proof.
  intros HF. enough (∀ r r', (∀ i, bank r pcrs i = bank r' pcrs i) →
    Forall2 same_extension (omap (verified_event r pcrs) raw) (omap (verified_event r' pcrs) raw'))
    as Hx by (apply Hx; intros; by apply same_digests_bank).
  intros r r' Hb.
  induction HF as [|e e' l l' (Hs & Hi & Hd & Ht) HF IH]; [constructor|]. cbn.
  assert (option_Forall2 same_extension (verified_event r pcrs e) (verified_event r' pcrs e')) as Hv.
  { unfold verified_event. rewrite <- Hi, <- Hb.
    assert ((re_typ e' =? eventTypeNoAction) = (re_typ e =? eventTypeNoAction)) as ->.
    { destruct Ht as [->|[? ?]]; [done|]. by rewrite !(proj2 (Z.eqb_neq _ _)). }
    destruct (_ =? _); [constructor|]. destruct (bank _ _ _) as [p|]; [|constructor]. cbn.
    unfold pcr_digest_of. rewrite <- Hd. destruct (find_digest _ _) as [d|]; [|constructor]. cbn.
    case_bool_decide; by constructor. }
  inversion Hv; subst; [by constructor|done].
Qed.
End Binding.

Lemma extend_unavailable `{GoCrypto} pcr replay e locality :
  hash_available (pcr_DigestAlg pcr) = false →
  match pcr_digest_of pcr e with
  | Some _ => ∃ msg, extend pcr replay e locality = Panic msg
  | None => ∃ err, extend pcr replay e locality = Err err
  end.
Proof.
  intros Ha. unfold extend, pcr_digest_of.
  induction (re_digests e) as [|d ds IH]; cbn; [by eexists|].
  rewrite (Z.eqb_sym (dg_hash d)). destruct (Z.eqb_spec (pcr_DigestAlg pcr) (dg_hash d)); cbn; [|done].
  destruct (Z.eqb_spec (zlen (dg_data d)) (zlen (pcr_Digest pcr))) as [E|E]; cbn.
  - rewrite bool_decide_eq_true_2 by done. unfold hash_New. rewrite Ha. by eexists.
  - rewrite bool_decide_eq_false_2 by done. by eexists.
Qed.

Lemma replay_loop_unavailable `{GoCrypto} raw pcr replay loc :
  hash_available (pcr_DigestAlg pcr) = false →
  match head (pcr_events (pcr_Index pcr) raw) with
  | Some e => match pcr_digest_of pcr e with
              | Some _ => ∃ msg, replay_loop raw pcr replay [] loc = Panic msg
              | None => replay_loop raw pcr replay [] loc = Ok None
              end
  | None => replay_loop raw pcr replay [] loc = Ok (Some (replay, []))
  end.
Proof.
  intros Ha. revert loc. induction raw as [|e raw IH]; intros loc; [done|]. cbn [replay_loop].
  destruct (Z.eqb_spec (re_index e) (pcr_Index pcr)) as [Hi|Hi]; cbn [negb].
  2: { rewrite pcr_events_cons_skip by done. apply IH. }
  destruct (Z.eqb_spec (re_typ e) eventTypeNoAction) as [Ht|Ht].
  { rewrite pcr_events_cons_noaction by done. apply IH. }
  rewrite pcr_events_cons by done. cbn [head].
  pose proof (extend_unavailable pcr replay e loc Ha) as Hx.
  destruct (pcr_digest_of pcr e); destruct Hx as [? ->]; [by eexists|done].
Qed.

(** ** Properties *)

Section Theorems.
Context `{GoCrypto, GoRuntime}.

(** C6: [replayEvents] succeeds exactly when every PCR index given has a PCR
    value the log explains, and then returns the events of these PCRs that
    are not EV_NO_ACTION, in log order, each with the digest that was
    extended.  In particular the result does not depend on the iteration
    order of the map or on how ties are sorted. *)
Theorem replayEvents_Ok raw pcrs out :
  good_pcrs pcrs → sequenced raw →
  replayEvents raw pcrs = Ok out ↔
    all_explained raw pcrs ∧ out = omap (verified_event raw pcrs) raw.
Proof.
  intros Hg Hs. destruct (decide (all_explained raw pcrs)) as [Hx|Hx].
  - rewrite replayEvents_explained by done. split; [by intros [= <-]|by intros [_ ->]].
  - destruct (replayEvents_unexplained raw pcrs Hg Hx) as (inv & -> & _). by split; [|intros []].
Qed.

(** Otherwise the error lists exactly the PCR indices that no PCR value
    given explains, and all events of the log, stripped of their digests. *)
Theorem replayEvents_invalid raw pcrs e :
  good_pcrs pcrs → sequenced raw → replayEvents raw pcrs = Err e →
  ∃ inv, e = VReplay (mkReplayError (unverified <$> raw) inv) ∧ inv ≠ [] ∧ NoDup inv ∧
    ∀ i, i ∈ inv ↔ i ∈ pcr_Index <$> pcrs ∧ ¬ index_explained raw pcrs i.
Proof.
  intros Hg Hs. destruct (decide (all_explained raw pcrs)) as [Hx|Hx];
    [by rewrite replayEvents_explained|].
  destruct (replayEvents_unexplained raw pcrs Hg Hx) as (inv & -> & Hnd & Hi).
  intros [= <-]. exists inv. split_and!; [done| |done|done]. intros ->.
  apply Hx, Forall_forall. intros p Hp.
  destruct (decide (index_explained raw pcrs (pcr_Index p))) as [|Hn]; [done|].
  exfalso. eapply not_elem_of_nil, Hi. split; [|exact Hn]. by apply list_elem_of_fmap_2.
Qed.

(** C20: A PCR value binds the digests extended into it: if [replayPCR]
    succeeds on two logs for the same register, with some events each, these
    have the same digests in the same order and start from the same value, or
    comparing them exhibits a collision of the hash function or a preimage
    of a start value. *)
Theorem pcr_binds_digests raw1 raw2 pcr evs1 evs2 :
  hash_available (pcr_DigestAlg pcr) = true →
  replayPCR raw1 pcr = Ok (evs1, true) → replayPCR raw2 pcr = Ok (evs2, true) → evs1 ≠ [] → evs2 ≠ [] →
  (ev_Digest <$> evs1 = ev_Digest <$> evs2 ∧ initial_value pcr raw1 = initial_value pcr raw2) ∨
  hash_broken (pcr_DigestAlg pcr) (initial_value pcr raw1) (ev_Digest <$> evs1)
    (initial_value pcr raw2) (ev_Digest <$> evs2).
Proof.
  intros Ha (ds1 & H1 & ->)%replayPCR_success (ds2 & H2 & ->)%replayPCR_success Hn1 Hn2; [|done..].
  rewrite !replayed_digests by done.
  assert (ds1 ≠ [] ∧ ds2 ≠ []) as [Hd1 Hd2].
  { split; intros ->; [destruct Hn1|destruct Hn2]; apply nil_length_inv; by rewrite length_replayed_events. }
  destruct (chain_binding (pcr_DigestAlg pcr) (zlen (pcr_Digest pcr))
    (initial_value pcr raw1) ds1 (initial_value pcr raw2) ds2) as [[? ?]|?].
  - by eapply explains_lengths.
  - by eapply explains_lengths.
  - rewrite (proj2 H1), (proj2 H2) by done. done.
  - by left.
  - by right.
Qed.

(** Nothing but the digests is bound: rewriting the type and the data of
    events that extend PCRs goes unnoticed, the replay succeeds on the
    rewritten log exactly when it did on the original one. *)
Theorem replay_ignores_type_and_data raw raw' pcrs out :
  good_pcrs pcrs → sequenced raw → Forall2 same_digests raw raw' →
  replayEvents raw pcrs = Ok out →
  ∃ out', replayEvents raw' pcrs = Ok out' ∧
    Forall2 same_extension out out'.
Proof.
  intros Hg Hs HF. intros Hok. exists (omap (verified_event raw' pcrs) raw').
  assert (∀ i, index_explained raw pcrs i → index_explained raw' pcrs i) as Hx.
  { intros i (p & ds & ? & ? & Hx). exists p, ds. split_and!; [done..|].
    by eapply same_digests_explains. }
  destruct (decide (all_explained raw pcrs)) as [Hall|Hn].
  - rewrite replayEvents_explained in Hok by done. injection Hok as <-. split.
    + apply replayEvents_explained; [done|by eapply same_digests_sequenced|].
      eapply Forall_impl; [exact Hall|]. auto.
    + by apply same_digests_verified.
  - destruct (replayEvents_unexplained raw pcrs Hg Hn) as (inv & E & _). congruence.
Qed.

(** A PCR whose hash function is not linked in crashes the replay as soon
    as its first event carries a digest of that hash with the length of the
    PCR value; it makes the replay fail in an orderly way otherwise. *)
Theorem replayPCR_panics raw pcr :
  hash_available (pcr_DigestAlg pcr) = false →
  (∃ msg, replayPCR raw pcr = Panic msg) ↔
    ∃ e d, head (pcr_events (pcr_Index pcr) raw) = Some e ∧ pcr_digest_of pcr e = Some d.
Proof.
  intros Ha. unfold replayPCR. pose proof (replay_loop_unavailable raw pcr [] Byte.x00 Ha) as Hl.
  destruct (head (pcr_events _ raw)) as [e|]; [destruct (pcr_digest_of pcr e) as [d|] eqn:E|].
  - destruct Hl as [msg ->]. cbn. split; [|by eexists]. intros _. by exists e, d.
  - rewrite Hl. cbn. split; [by intros [? [=]]|]. intros (? & d & [= <-] & ?). congruence.
  - rewrite Hl. cbn. split; [by intros [? [=]]|]. by intros (? & ? & [=] & _).
Qed.
End Theorems.

(** ** Witnesses: a log of two registers in two banks *)
Section Witnesses.
#[local] Existing Instance sha_crypto.
#[local] Existing Instance std_runtime.

Definition ex_digests (s : string) : list digest :=
  [mkDigest crypto_SHA1 (Sha.sha1 (str s)); mkDigest crypto_SHA256 (Sha.sha256 (str s))].
Definition ex_raw : list rawEvent := [
  mkRawEvent 1 0 eventTypeNoAction (str "StartupLocality" ++ [Byte.x00; Byte.x03]) [];
  mkRawEvent 2 0 4 (str "a") (ex_digests "a");
  mkRawEvent 3 7 4 (str "b") (ex_digests "b");
  mkRawEvent 4 0 4 (str "c") (ex_digests "c")].
Definition ex_raw' : list rawEvent := [
  mkRawEvent 1 0 eventTypeNoAction (str "StartupLocality" ++ [Byte.x00; Byte.x03]) [];
  mkRawEvent 2 0 5 (str "forged") (ex_digests "a");
  mkRawEvent 3 7 4 (str "b") (ex_digests "b");
  mkRawEvent 4 0 4 (str "c") (ex_digests "c")].
Definition ex_pcr0 : PCR := mkPCR 0
  (Sha.sha256 (Sha.sha256 (be_bytes 32 3 ++ Sha.sha256 (str "a")) ++ Sha.sha256 (str "c")))
  crypto_SHA256 false.
Definition ex_pcr7 : PCR := mkPCR 7 (Sha.sha1 (be_bytes 20 0 ++ Sha.sha1 (str "b"))) crypto_SHA1 false.
Definition ex_bad7 : PCR := mkPCR 7 (be_bytes 20 5) crypto_SHA1 false.
Definition ex_out : list Event := [
  mkEvent 2 0 4 (str "a") (Sha.sha256 (str "a"));
  mkEvent 3 7 4 (str "b") (Sha.sha1 (str "b"));
  mkEvent 4 0 4 (str "c") (Sha.sha256 (str "c"))].

Lemma ex_good : good_pcrs [ex_pcr7; ex_bad7; ex_pcr0].
Proof. repeat constructor. Defined.
Lemma ex_sequenced : sequenced ex_raw.
Proof. repeat constructor. Defined.

Example ex_replays : replayEvents ex_raw [ex_pcr7; ex_bad7; ex_pcr0] = Ok ex_out.
Proof. vm_compute. reflexivity. Qed.

Lemma replayEvents_Ok_witness :
  all_explained ex_raw [ex_pcr7; ex_bad7; ex_pcr0] ∧
  ex_out = omap (verified_event ex_raw [ex_pcr7; ex_bad7; ex_pcr0]) ex_raw.
Proof.
  apply (replayEvents_Ok ex_raw [ex_pcr7; ex_bad7; ex_pcr0] ex_out);
    [exact ex_good|exact ex_sequenced|exact ex_replays].
Defined.

Lemma replayEvents_invalid_witness :
  let e := VReplay (mkReplayError (unverified <$> ex_raw) [7]) in
  ∃ inv, e = VReplay (mkReplayError (unverified <$> ex_raw) inv) ∧ inv ≠ [] ∧ NoDup inv ∧
    ∀ i, i ∈ inv ↔ i ∈ pcr_Index <$> [ex_bad7; ex_pcr0] ∧
      ¬ index_explained ex_raw [ex_bad7; ex_pcr0] i.
Proof.
  intros e. apply (replayEvents_invalid ex_raw [ex_bad7; ex_pcr0] e);
    [repeat constructor|exact ex_sequenced|vm_compute; reflexivity].
Defined.

Lemma pcr_binds_digests_witness :
  let evs := [mkEvent 2 0 4 (str "a") (Sha.sha256 (str "a")); mkEvent 4 0 4 (str "c") (Sha.sha256 (str "c"))] in
  let evs' := [mkEvent 2 0 5 (str "forged") (Sha.sha256 (str "a")); mkEvent 4 0 4 (str "c") (Sha.sha256 (str "c"))] in
  (ev_Digest <$> evs = ev_Digest <$> evs' ∧ initial_value ex_pcr0 ex_raw = initial_value ex_pcr0 ex_raw') ∨
  hash_broken (pcr_DigestAlg ex_pcr0) (initial_value ex_pcr0 ex_raw) (ev_Digest <$> evs)
    (initial_value ex_pcr0 ex_raw') (ev_Digest <$> evs').
Proof.
  intros evs evs'. apply (pcr_binds_digests ex_raw ex_raw' ex_pcr0 evs evs').
  - reflexivity.
  - vm_compute. reflexivity.
  - vm_compute. reflexivity.
  - discriminate.
  - discriminate.
Defined.

Lemma replay_ignores_type_and_data_witness :
  ∃ out', replayEvents ex_raw' [ex_pcr7; ex_bad7; ex_pcr0] = Ok out' ∧
    Forall2 same_extension ex_out out'.
Proof.
  apply (replay_ignores_type_and_data ex_raw ex_raw' [ex_pcr7; ex_bad7; ex_pcr0] ex_out);
    [exact ex_good|exact ex_sequenced| |exact ex_replays].
  apply Forall2_cons; split; [split_and!; [reflexivity..|left; reflexivity]|].
  apply Forall2_cons; split; [split_and!; [reflexivity..|right; split; discriminate]|].
  apply Forall2_cons; split; [split_and!; [reflexivity..|left; reflexivity]|].
  apply Forall2_cons; split; [split_and!; [reflexivity..|left; reflexivity]|].
  apply Forall2_nil_2.
Defined.

Lemma replayPCR_panics_witness :
  ∃ msg, replayPCR [mkRawEvent 1 0 4 [] [mkDigest 0 (be_bytes 48 1)]] (mkPCR 0 (be_bytes 48 2) 0 false)
    = Panic msg.
Proof.
  apply (replayPCR_panics [mkRawEvent 1 0 4 [] [mkDigest 0 (be_bytes 48 1)]]
           (mkPCR 0 (be_bytes 48 2) 0 false)); [reflexivity|].
  eexists _, (be_bytes 48 1). split; reflexivity.
Defined.
End Witnesses.
