(* ===== verification/Verify.v ===== *)
(** * [EventLog.Verify] and its workarounds
    ([attest/eventlog.go], [attest/eventlog_workarounds.go])

    [verify], [Verify], [clone] and the injected Exit Boot Services events. *)
From S2P Require Import Prelude GoBytes GoCrypto GoRuntime Attest EventLog Replay.

(** [clone]: fresh slices with the same elements. *)
Definition clone (e : EventLog) : EventLog :=
  mkEventLog (Algs e) (rawEvents e)
    (match el_specIDEvent e with Some dupe => Some dupe | None => None end).

Section Workarounds.
Context `{GoCrypto}.

(** The digests of an injected event, one per algorithm of the log. *)
Fixpoint inject_digests (l : list Z) (data : bytes) : res error (list digest) :=
  match l with
  | [] => Ok []
  | alg :: l =>
      _ ← hash_New (cryptoHash alg);
      ds ← inject_digests l data;
      Ok (mkDigest (cryptoHash alg) (hash_sum (cryptoHash alg) data) :: ds)
  end.

Definition inject (e : EventLog) (pcr : Z) (data : bytes) : res error EventLog :=
  match last (rawEvents e) with
  | None => Panic "index out of range [-1]"
  | Some l =>
      ds ← inject_digests (Algs e) data;
      Ok (mkEventLog (Algs e)
            (rawEvents e ++ [mkRawEvent (re_sequence l + 1) pcr 0 data ds]) (el_specIDEvent e))
  end.

Definition inject2 (e : EventLog) (pcr : Z) (data1 data2 : bytes) : res error EventLog :=
  e ← inject e pcr data1; inject e pcr data2.
Definition inject3 (e : EventLog) (pcr : Z) (data1 data2 data3 : bytes) : res error EventLog :=
  e ← inject e pcr data1; e ← inject e pcr data2; inject e pcr data3.

Definition ebsInvocation : bytes := str "Exit Boot Services Invocation".
Definition ebsSuccess : bytes := str "Exit Boot Services Returned with Success".
Definition ebsFailure : bytes := str "Exit Boot Services Returned with Failure".

Record elWorkaround := mkWorkaround {
  wk_id : string;
  wk_affectedPCR : Z;
  wk_apply : EventLog → res error EventLog;
}.

Definition eventlogWorkarounds : list elWorkaround := [
  mkWorkaround "EBS Invocation + Success" 5 (λ e, inject2 e 5 ebsInvocation ebsSuccess);
  mkWorkaround "EBS Invocation + Failure" 5 (λ e, inject2 e 5 ebsInvocation ebsFailure);
  mkWorkaround "EBS Invocation + Failure + Success" 5
    (λ e, inject3 e 5 ebsInvocation ebsFailure ebsSuccess)].

Definition verify `{GoRuntime} (e : EventLog) (pcrs : list PCR) : res verifyError (list Event) :=
  match replayEvents (rawEvents e) pcrs with
  | Err (VError err) => Err (VError (Wrapf "pcrs failed to replay: %v" err))
  | r => r
  end.

(** The loop over [eventlogWorkarounds]; [None] when none of them helped. *)
Fixpoint try_workarounds `{GoRuntime} (ws : list elWorkaround) (e : EventLog)
    (rErr : ReplayError) (pcrs : list PCR) : res verifyError (option (list Event)) :=
  match ws with
  | [] => Ok None
  | wkrd :: ws =>
      if negb (affected rErr (wk_affectedPCR wkrd)) then try_workarounds ws e rErr pcrs
      else
        el ← lift_error (wrapf "failed applying workaround %q: %v" (wk_apply wkrd (clone e)));
        match verify el pcrs with
        | Ok events => Ok (Some events)
        | Err _ => try_workarounds ws e rErr pcrs
        | Panic s => Panic s
        | NoFuel => NoFuel
        end
  end.

Definition Verify `{GoRuntime} (e : EventLog) (pcrs : list PCR) : res verifyError (list Event) :=
  match verify e pcrs with
  | Err (VReplay rErr) =>
      o ← try_workarounds eventlogWorkarounds e rErr pcrs;
      match o with
      | Some events => Ok events
      | None => Err (VReplay rErr)
      end
  | r => r
  end.
End Workarounds.

(** ** The logs that [Verify] considers *)
Section Candidates.
Context `{GoCrypto, GoRuntime}.

(** The events a workaround appends, numbered from [n]. *)
Fixpoint injected_events (hashes : list Z) (n : Z) (datas : list bytes) : list rawEvent :=
  match datas with
  | [] => []
  | data :: datas =>
      mkRawEvent n 5 0 data
        ((λ a, mkDigest (cryptoHash a) (hash_sum (cryptoHash a) data)) <$> hashes)
      :: injected_events hashes (n + 1) datas
  end.

Definition next_sequence (raw : list rawEvent) : Z :=
  match last raw with Some e => re_sequence e + 1 | None => 0 end.

Definition with_injected (el : EventLog) (datas : list bytes) : list rawEvent :=
  rawEvents el ++ injected_events (Algs el) (next_sequence (rawEvents el)) datas.

(** What the firmware may have failed to log when Exit Boot Services ran. *)
Definition ebs_sequences : list (list bytes) :=
  [[ebsInvocation; ebsSuccess]; [ebsInvocation; ebsFailure]; [ebsInvocation; ebsFailure; ebsSuccess]].

(** The logs tried, in order: the log as it is, and, if it does not explain
    the value of PCR 5, the log with each of these sequences appended. *)
Definition candidates (el : EventLog) (pcrs : list PCR) : list (list rawEvent) :=
  rawEvents el ::
    (if decide (5 ∈ pcr_Index <$> pcrs ∧ ¬ index_explained (rawEvents el) pcrs 5)
     then with_injected el <$> ebs_sequences else []).

(** What [ParseEventLog] establishes of a log. *)
Definition wf_log (el : EventLog) : Prop :=
  Forall (λ a, hash_available (cryptoHash a) = true) (Algs el) ∧ sequenced (rawEvents el).

Lemma affected_elem raw inv i : affected (mkReplayError raw inv) i = bool_decide (i ∈ inv).
Proof.
  unfold affected. cbn. induction inv as [|j inv IH]; cbn; [done|].
  destruct (Z.eqb_spec j i) as [->|Hne].
  - rewrite bool_decide_eq_true_2; [done|by left].
  - rewrite IH. apply bool_decide_ext. rewrite elem_of_cons.
    split; [by right|by intros [->|?]].
Qed.

Lemma inject_digests_spec hashes data :
  Forall (λ a, hash_available (cryptoHash a) = true) hashes →
  inject_digests hashes data =
    Ok ((λ a, mkDigest (cryptoHash a) (hash_sum (cryptoHash a) data)) <$> hashes).
Proof. induction 1 as [|a l Ha Hl IH]; cbn; [done|]. rewrite hash_New_ok by done. cbn. by rewrite IH. Qed.

Lemma sequenced_app raw l e :
  sequenced raw → last raw = Some l → re_sequence e = re_sequence l + 1 → sequenced (raw ++ [e]).
Proof.
  intros Hs (raw' & ->)%last_Some He. unfold sequenced in *.
  apply StronglySorted_app in Hs as (Hlt & Hs1 & Hs2).
  apply StronglySorted_app. split; [|split; [|repeat constructor]].
  - intros x y Hx ->%list_elem_of_singleton. cbn.
    apply elem_of_app in Hx as [Hx| ->%list_elem_of_singleton]; [|lia].
    assert (re_sequence x < re_sequence l) by (apply Hlt; [done|by left]). lia.
  - apply StronglySorted_app. split; [done|split; [done|repeat constructor]].
Qed.

Definition inject_all (el : EventLog) (datas : list bytes) : EventLog :=
  mkEventLog (Algs el) (with_injected el datas) (el_specIDEvent el).

Lemma injected_events_snoc hashes n datas data :
  injected_events hashes n (datas ++ [data]) =
    injected_events hashes n datas ++ injected_events hashes (n + zlen datas) [data].
Proof.
  revert n. induction datas as [|d datas IH]; intros n; cbn [injected_events app].
  - by rewrite Z.add_0_r.
  - rewrite IH. rewrite zlen_cons, (Z.add_assoc n 1). done.
Qed.

Lemma with_injected_last el datas :
  rawEvents el ≠ [] → ∃ l, last (with_injected el datas) = Some l ∧
    re_sequence l + 1 = next_sequence (rawEvents el) + zlen datas.
Proof.
  intros Hne. unfold with_injected. destruct datas as [|data datas _] using rev_ind.
  - cbn [injected_events]. rewrite app_nil_r. unfold next_sequence, zlen.
    destruct (last (rawEvents el)) as [l|] eqn:E; [|by apply last_None in E].
    exists l. split; [done|]. cbn. lia.
  - rewrite injected_events_snoc, (assoc_L app), last_app. cbn. eexists. split; [done|].
    autorewrite with go. cbn. unfold zlen. cbn. lia.
Qed.

Lemma inject_step el datas data :
  wf_log (inject_all el datas) → rawEvents el ≠ [] →
  inject (inject_all el datas) 5 data = Ok (inject_all el (datas ++ [data])) ∧
  wf_log (inject_all el (datas ++ [data])).
Proof.
  intros [Ha Hs] Hne. destruct (with_injected_last el datas Hne) as (l & Hl & Hn).
  cbn in Ha, Hs. unfold inject, inject_all, wf_log. cbn [rawEvents Algs el_specIDEvent].
  rewrite Hl, inject_digests_spec by done. unfold with_injected.
  rewrite injected_events_snoc, (assoc_L app), <- Hn. cbn.
  split; [done|]. split; [done|]. by eapply sequenced_app.
Qed.

Lemma inject_all_nil el : inject_all el [] = clone el.
Proof. unfold inject_all, with_injected, clone. cbn. rewrite app_nil_r. by destruct (el_specIDEvent el). Qed.

Lemma wf_log_inject_all el datas : wf_log el → rawEvents el ≠ [] → wf_log (inject_all el datas).
Proof.
  intros Hw Hne. induction datas as [|data datas IH] using rev_ind.
  - rewrite inject_all_nil. exact Hw.
  - by apply inject_step.
Qed.

(** The three workarounds build the three logs. *)
Lemma workarounds_apply el :
  wf_log el → rawEvents el ≠ [] →
  (λ w, wk_apply w (clone el)) <$> eventlogWorkarounds =
    (λ datas, Ok (inject_all el datas)) <$> ebs_sequences.
Proof.
  intros Hw Hne. pose proof (λ ds d, proj1 (inject_step el ds d (wf_log_inject_all _ _ Hw Hne) Hne)) as Hi.
  unfold eventlogWorkarounds, ebs_sequences, inject2, inject3. rewrite <- inject_all_nil.
  cbn [fmap list_fmap wk_apply]. by repeat (rewrite Hi; cbn [mbind res_bind app]).
Qed.

Lemma verify_replayEvents el pcrs :
  good_pcrs pcrs → wf_log el → verify el pcrs = replayEvents (rawEvents el) pcrs.
Proof.
  intros Hg [_ Hs]. unfold verify.
  destruct (decide (all_explained (rawEvents el) pcrs)) as [Hx|Hx].
  - by rewrite replayEvents_explained.
  - by destruct (replayEvents_unexplained _ _ Hg Hx) as (inv & -> & _).
Qed.

(** The first of the candidate logs that explains all PCRs. *)
Definition first_explaining (logs : list (list rawEvent)) (pcrs : list PCR) : option (list rawEvent) :=
  head (filter (λ raw, all_explained raw pcrs) logs).

Lemma first_explaining_cons raw logs pcrs :
  first_explaining (raw :: logs) pcrs =
    if decide (all_explained raw pcrs) then Some raw else first_explaining logs pcrs.
Proof. unfold first_explaining. rewrite filter_cons. by destruct (decide _). Qed.

Lemma try_workarounds_spec ws dss el rErr pcrs :
  good_pcrs pcrs → wf_log el → rawEvents el ≠ [] → affected rErr 5 = true →
  Forall (λ w, wk_affectedPCR w = 5) ws →
  (λ w, wk_apply w (clone el)) <$> ws = (λ datas, Ok (inject_all el datas)) <$> dss →
  try_workarounds ws el rErr pcrs =
    Ok ((λ raw, omap (verified_event raw pcrs) raw) <$>
          first_explaining (with_injected el <$> dss) pcrs).
Proof.
  intros Hg Hw Hne Ha. revert dss. induction ws as [|w ws IH]; intros [|ds dss] Hp Heq; [done..|].
  inversion Hp as [|? ? Hw5 Hp']; subst. cbn in Heq. injection Heq as Hwk Heq.
  cbn [try_workarounds]. rewrite Hw5, Ha, Hwk. cbn [negb wrapf lift_error mbind res_bind].
  pose proof (wf_log_inject_all el ds Hw Hne) as Hwi.
  rewrite verify_replayEvents by done. cbn [inject_all rawEvents fmap list_fmap].
  rewrite first_explaining_cons.
  destruct (decide (all_explained (with_injected el ds) pcrs)) as [Hx|Hx].
  - rewrite replayEvents_explained; [done|done|apply Hwi|done].
  - destruct (replayEvents_unexplained _ _ Hg Hx) as (inv & -> & _). by apply IH.
Qed.

Lemma Verify_spec el pcrs :
  good_pcrs pcrs → wf_log el →
  match first_explaining (candidates el pcrs) pcrs with
  | Some raw => Verify el pcrs = Ok (omap (verified_event raw pcrs) raw)
  | None => ∃ inv, Verify el pcrs =
      Err (VReplay (mkReplayError (unverified <$> rawEvents el) inv)) ∧ NoDup inv ∧
      ∀ i, i ∈ inv ↔ i ∈ pcr_Index <$> pcrs ∧ ¬ index_explained (rawEvents el) pcrs i
  end.
Proof.
  intros Hg Hw. unfold candidates. rewrite first_explaining_cons. unfold Verify.
  rewrite verify_replayEvents by done.
  destruct (decide (all_explained (rawEvents el) pcrs)) as [Hx|Hx].
  { rewrite replayEvents_explained; [done|done|apply Hw|done]. }
  destruct (replayEvents_unexplained _ _ Hg Hx) as (inv & -> & Hnd & Hi).
  pose proof (affected_elem (unverified <$> rawEvents el) inv 5) as Ha.
  destruct (decide (5 ∈ pcr_Index <$> pcrs ∧ ¬ index_explained (rawEvents el) pcrs 5)) as [H5|H5].
  - rewrite bool_decide_eq_true_2 in Ha by by apply Hi.
    assert (rawEvents el ≠ []) as Hne.
    { intros E. destruct H5 as [(p & Hp5 & Hp)%list_elem_of_fmap Hn]. apply Hn.
      exists p, []. rewrite E. split_and!; [done|done|]. split; [constructor|done]. }
    rewrite (try_workarounds_spec _ ebs_sequences); [|done..|repeat constructor|by apply workarounds_apply].
    cbn [mbind res_bind]. destruct (first_explaining _ pcrs); cbn; [done|by exists inv].
  - rewrite bool_decide_eq_false_2 in Ha by (by rewrite Hi).
    assert (try_workarounds eventlogWorkarounds el
      (mkReplayError (unverified <$> rawEvents el) inv) pcrs = Ok None) as ->.
    { unfold eventlogWorkarounds. cbn [try_workarounds wk_affectedPCR]. by rewrite Ha. }
    cbn. by exists inv.
Qed.
End Candidates.

(** ** Where a returned event comes from *)
Section Provenance.
Context `{GoCrypto, GoRuntime}.

Lemma verified_event_inv raw pcrs e ev :
  e ∈ raw → verified_event raw pcrs e = Some ev →
  ∃ p ds, p ∈ pcrs ∧ explains raw p ds ∧ pcr_Index p = re_index e ∧
    pcr_digest_of p e = Some (ev_Digest ev) ∧ ev_Digest ev ∈ ds ∧
    ev = replayed_event p e (ev_Digest ev).
Proof.
  intros He. unfold verified_event. destruct (Z.eqb_spec (re_typ e) eventTypeNoAction); [done|].
  destruct (bank raw pcrs (re_index e)) as [p|] eqn:B; [|done]. cbn.
  destruct (pcr_digest_of p e) as [d|] eqn:D; [|done]. cbn. intros [= <-].
  apply bank_Some in B as (Hp & Hi & [ds Hds]). apply explained_digests_Some in Hds.
  exists p, ds. split_and!; [done..| |done]. cbn. destruct Hds as [HF _].
  assert (e ∈ pcr_events (pcr_Index p) raw) as Hin by by apply list_elem_of_filter.
  apply list_elem_of_lookup in Hin as [k Hk].
  destruct (Forall2_lookup_l _ _ _ _ _ HF Hk) as (d' & Hd' & E).
  apply list_elem_of_lookup. exists k. congruence.
Qed.

Lemma injected_events_elem hashes n datas e :
  e ∈ injected_events hashes n datas →
  re_index e = 5 ∧ re_typ e = 0 ∧ re_data e ∈ datas ∧
  re_digests e = (λ a, mkDigest (cryptoHash a) (hash_sum (cryptoHash a) (re_data e))) <$> hashes.
Proof.
  revert n. induction datas as [|d datas IH]; intros n; cbn; [by intros ?%elem_of_nil|].
  intros [->|Hin]%elem_of_cons; [split_and!; [done|done|by left|done]|].
  destruct (IH _ Hin) as (? & ? & ? & ?). split_and!; [done|done|by right|done].
Qed.

Lemma find_digest_injected h hashes data d :
  find_digest h ((λ a, mkDigest (cryptoHash a) (hash_sum (cryptoHash a) data)) <$> hashes) = Some d →
  d = hash_sum h data.
Proof.
  induction hashes as [|a l IH]; cbn; [done|].
  destruct (Z.eqb_spec h (cryptoHash a)) as [->|]; [by intros [= <-]|done].
Qed.

Lemma candidates_elem el pcrs raw e :
  raw ∈ candidates el pcrs → e ∈ raw →
  e ∈ rawEvents el ∨
  ∃ n datas, datas ∈ ebs_sequences ∧ e ∈ injected_events (Algs el) n datas ∧
    5 ∈ pcr_Index <$> pcrs ∧ ¬ index_explained (rawEvents el) pcrs 5.
Proof.
  intros [->|Hraw]%elem_of_cons He; [by left|]. destruct (decide _) as [[? ?]|]; [|by apply elem_of_nil in Hraw].
  apply list_elem_of_fmap in Hraw as (datas & -> & Hd).
  apply elem_of_app in He as [?|?]; [by left|right; eauto 8].
Qed.

Lemma first_explaining_Some logs pcrs raw :
  first_explaining logs pcrs = Some raw → raw ∈ logs ∧ all_explained raw pcrs.
Proof.
  unfold first_explaining. intros Hh. apply head_Some_elem_of in Hh.
  by apply list_elem_of_filter in Hh as [? ?].
Qed.

Lemma parsed_wf_log log el : ParseEventLog log = Ok el → wf_log el.
Proof.
  intros Hp. split; [|by eapply parsed_sequences].
  eapply Forall_impl; [by eapply parsed_Algs|]. cbn. intros a [-> | ->]; auto with go.
Qed.

Lemma Verify_returned el pcrs out ev :
  wf_log el → good_pcrs pcrs →
  Verify el pcrs = Ok out → ev ∈ out →
  ∃ raw p ds e, raw ∈ candidates el pcrs ∧ e ∈ raw ∧ p ∈ pcrs ∧
    explains raw p ds ∧ ev_Digest ev ∈ ds ∧ ev = replayed_event p e (ev_Digest ev) ∧
    (e ∈ rawEvents el ∨
     5 ∈ pcr_Index <$> pcrs ∧ ¬ index_explained (rawEvents el) pcrs 5 ∧
     ev_Index ev = 5 ∧ ev_Type ev = 0 ∧
     ev_Data ev ∈ [ebsInvocation; ebsSuccess; ebsFailure] ∧
     ev_Digest ev = hash_sum (pcr_DigestAlg p) (ev_Data ev)).
Proof.
  intros Hw Hg Hv Hev. pose proof (Verify_spec el pcrs Hg Hw) as Hs.
  destruct (first_explaining _ _) as [raw|] eqn:F; [|destruct Hs as (? & ? & _); congruence].
  rewrite Hs in Hv. injection Hv as <-. apply first_explaining_Some in F as [Hraw _].
  apply list_elem_of_omap in Hev as (e & He & Hve).
  destruct (verified_event_inv _ _ _ _ He Hve) as (p & ds & Hpp & Hx & Hi & Hd & Hin & Heq).
  exists raw, p, ds, e. split_and!; [done..|].
  destruct (candidates_elem _ _ _ _ Hraw He) as [|(n & datas & Hds & Hinj & H5 & Hn5)]; [by left|right].
  apply injected_events_elem in Hinj as (Hi5 & Ht & Hdata & Hdg).
  rewrite Heq. cbn. rewrite Hi, Hi5, Ht. split_and!; [done..| |].
  - revert Hdata. clear -Hds. unfold ebs_sequences in Hds.
    repeat (apply elem_of_cons in Hds as [->|Hds]); [..|by apply elem_of_nil in Hds];
      rewrite !elem_of_cons; tauto.
  - revert Hd. unfold pcr_digest_of. destruct (find_digest _ _) as [d|] eqn:E; [|done]. cbn.
    case_bool_decide; [|done]. intros [= <-]. rewrite Hdg in E.
    by eapply find_digest_injected.
Qed.
End Provenance.

(** ** Properties *)
Section Theorems.
Context `{GoCrypto, GoRuntime}.

(** C21: [Verify] succeeds exactly when the log, or, if it leaves PCR 5
    unexplained, the log with one of the three Exit Boot Services sequences
    appended, explains every PCR index given; it returns the events of the
    first of these logs that does. *)
Theorem Verify_Ok el pcrs out :
  good_pcrs pcrs → wf_log el →
  Verify el pcrs = Ok out ↔
    ∃ raw, first_explaining (candidates el pcrs) pcrs = Some raw ∧
      out = omap (verified_event raw pcrs) raw.
Proof.
  intros Hg Hw. pose proof (Verify_spec el pcrs Hg Hw) as Hv.
  destruct (first_explaining _ _) as [raw|].
  - rewrite Hv. split; [intros [= <-]; by exists raw|by intros (? & [= <-] & ->)].
  - destruct Hv as (inv & -> & _). split; [done|]. by intros (? & [=] & _).
Qed.

(** When [Verify] fails it does so with the replay error of the log as
    given: the workarounds tried leave no trace, and no other error and no
    crash is possible (an index out of range in [inject], for one). *)
Theorem Verify_error el pcrs :
  good_pcrs pcrs → wf_log el →
  (∃ out, Verify el pcrs = Ok out) ∨
  ∃ inv, Verify el pcrs = Err (VReplay (mkReplayError (unverified <$> rawEvents el) inv)) ∧
    NoDup inv ∧
    (∀ i, i ∈ inv ↔ i ∈ pcr_Index <$> pcrs ∧ ¬ index_explained (rawEvents el) pcrs i).
Proof.
  intros Hg Hw. pose proof (Verify_spec el pcrs Hg Hw) as Hv.
  destruct (first_explaining _ _) as [raw|]; [left; by eexists|by right].
Qed.

(** Every event returned for a parsed log extends a PCR that was given,
    with the digest returned, in a log that explains the PCR's value; it is
    an event of the log parsed, or one of the Exit Boot Services strings
    measured into PCR 5, whose digest is then the hash of the string. *)
Theorem Verify_provenance log el pcrs out ev :
  ParseEventLog log = Ok el → good_pcrs pcrs →
  Verify el pcrs = Ok out → ev ∈ out →
  ∃ raw p ds e, raw ∈ candidates el pcrs ∧ e ∈ raw ∧ p ∈ pcrs ∧
    explains raw p ds ∧ ev_Digest ev ∈ ds ∧ ev = replayed_event p e (ev_Digest ev) ∧
    (e ∈ rawEvents el ∨
     5 ∈ pcr_Index <$> pcrs ∧ ¬ index_explained (rawEvents el) pcrs 5 ∧
     ev_Index ev = 5 ∧ ev_Type ev = 0 ∧
     ev_Data ev ∈ [ebsInvocation; ebsSuccess; ebsFailure] ∧
     ev_Digest ev = hash_sum (pcr_DigestAlg p) (ev_Data ev)).
Proof. intros Hp. apply Verify_returned. by eapply parsed_wf_log. Qed.
End Theorems.

Section Witnesses.
#[local] Existing Instance sha_crypto.
#[local] Existing Instance std_runtime.

(** A TPM 1.2 log of one event, and a PCR 5 that also measured the Exit Boot
    Services strings of a failed call. *)
Definition ex_event5 : rawEvent :=
  mkRawEvent 0 5 4 (str "x") [mkDigest crypto_SHA1 (Sha.sha1 (str "x"))].
Definition ex_log : bytes := encode_rawEvent ex_event5.
Definition ex_el : EventLog := mkEventLog [HashSHA1] [ex_event5] None.
Definition ex_pcr5 : PCR :=
  mkPCR 5 (chain crypto_SHA1 (startup_block 20 Byte.x00)
    (Sha.sha1 <$> [str "x"; ebsInvocation; ebsFailure])) crypto_SHA1 false.
Definition ex_out5 : list Event := [
  mkEvent 0 5 4 (str "x") (Sha.sha1 (str "x"));
  mkEvent 1 5 0 ebsInvocation (Sha.sha1 ebsInvocation);
  mkEvent 2 5 0 ebsFailure (Sha.sha1 ebsFailure)].

Example ex_parses : ParseEventLog ex_log = Ok ex_el.
Proof. vm_compute. reflexivity. Qed.
Example ex_verifies : Verify ex_el [ex_pcr5] = Ok ex_out5.
Proof. vm_compute. reflexivity. Qed.
Lemma ex_wf : wf_log ex_el.
Proof. split; repeat constructor. Defined.

Lemma Verify_Ok_witness :
  ∃ raw, first_explaining (candidates ex_el [ex_pcr5]) [ex_pcr5] = Some raw ∧
    ex_out5 = omap (verified_event raw [ex_pcr5]) raw.
Proof.
  apply (Verify_Ok ex_el [ex_pcr5] ex_out5); [repeat constructor|exact ex_wf|exact ex_verifies].
Defined.

Definition ex_wrong5 : PCR := mkPCR 5 (be_bytes 20 1) crypto_SHA1 false.

Lemma Verify_error_witness :
  (∃ out, Verify ex_el [ex_wrong5] = Ok out) ∨
  ∃ inv, Verify ex_el [ex_wrong5] =
      Err (VReplay (mkReplayError (unverified <$> rawEvents ex_el) inv)) ∧
    NoDup inv ∧
    (∀ i, i ∈ inv ↔ i ∈ pcr_Index <$> [ex_wrong5] ∧
       ¬ index_explained (rawEvents ex_el) [ex_wrong5] i).
Proof. apply (Verify_error ex_el [ex_wrong5]); [repeat constructor|exact ex_wf]. Defined.

Lemma Verify_provenance_witness :
  let ev := mkEvent 2 5 0 ebsFailure (Sha.sha1 ebsFailure) in
  ∃ raw p ds e, raw ∈ candidates ex_el [ex_pcr5] ∧ e ∈ raw ∧ p ∈ [ex_pcr5] ∧
    explains raw p ds ∧ ev_Digest ev ∈ ds ∧ ev = replayed_event p e (ev_Digest ev) ∧
    (e ∈ rawEvents ex_el ∨
     5 ∈ pcr_Index <$> [ex_pcr5] ∧ ¬ index_explained (rawEvents ex_el) [ex_pcr5] 5 ∧
     ev_Index ev = 5 ∧ ev_Type ev = 0 ∧
     ev_Data ev ∈ [ebsInvocation; ebsSuccess; ebsFailure] ∧
     ev_Digest ev = hash_sum (pcr_DigestAlg p) (ev_Data ev)).
Proof.
  intros ev. apply (Verify_provenance ex_log ex_el [ex_pcr5] ex_out5 ev);
    [exact ex_parses|repeat constructor|exact ex_verifies|].
  right; right; left.
Defined.
End Witnesses.
