(* ===== verification/AppendEvents.v ===== *)
(** * Combining event logs ([attest/eventlog.go], [AppendEvents])

    The serialiser of crypto agile events and its round trip with the parser. *)
From S2P Require Import Prelude GoBytes GoCrypto Attest EventLog.

(** ** Serialisation *)

(** The [switch d.hash]. *)
Definition digest_algID (hash : Z) : option Z :=
  if hash =? crypto_SHA256 then Some HashSHA256
  else if hash =? crypto_SHA1 then Some HashSHA1
  else None.

Fixpoint serialize_digests (ds : list digest) : res error bytes :=
  match ds with
  | [] => Ok []
  | d :: ds =>
      match digest_algID (dg_hash d) with
      | None => Err (Errorf "log %d: event %d: unhandled hash function %v")
      | Some algID =>
          rest ← serialize_digests ds;
          Ok (le_bytes 2 algID ++ dg_data d ++ rest)
      end
  end.

Definition serialize_event (e : rawEvent) : res error bytes :=
  ds ← serialize_digests (re_digests e);
  Ok (le_bytes 4 (uint32 (re_index e)) ++ le_bytes 4 (uint32 (re_typ e))
        ++ le_bytes 4 (uint32 (zlen (re_digests e))) ++ ds
        ++ le_bytes 4 (uint32 (zlen (re_data e))) ++ re_data e).

Fixpoint serialize_events (evs : list rawEvent) : res error bytes :=
  match evs with
  | [] => Ok []
  | e :: evs => b ← serialize_event e; rest ← serialize_events evs; Ok (b ++ rest)
  end.

(** The [algCheck] loop: is [alg] one of the algorithms of the base log? *)
Definition alg_in (alg : specAlgSize) (base : list specAlgSize) : bool :=
  existsb (λ baseAlg, bool_decide (baseAlg = alg)) base.

(** The loop over [additional], writing to [out]. *)
Fixpoint append_logs (baseAlgs : list specAlgSize) (out : bytes) (additional : list bytes)
    : res error bytes :=
  match additional with
  | [] => Ok out
  | l :: additional =>
      log ← wrapf "log %d: %v" (ParseEventLog l);
      match el_specIDEvent log with
      | None => Err (Errorf "log %d: cannot use tpm 1.2 event log as a source")
      | Some spec =>
          if forallb (λ alg, alg_in alg baseAlgs) (algs spec) then
            b ← serialize_events (rawEvents log);
            append_logs baseAlgs (out ++ b) additional
          else Err (Errorf "log %d: cannot use digest (%+v) not present in base log")
      end
  end.

Definition AppendEvents (base : bytes) (additional : list bytes) : res error bytes :=
  baseLog ← wrapf "base: %v" (ParseEventLog base);
  match el_specIDEvent baseLog with
  | None => Err (Errorf "tpm 1.2 event logs cannot be combined")
  | Some spec => append_logs (algs spec) base additional
  end.

(** ** Specification *)

(** A log that can be appended to one with these algorithms. *)
Definition appendable (baseAlgs : list specAlgSize) (el : EventLog) : Prop :=
  ∃ spec, el_specIDEvent el = Some spec ∧ algs spec ⊆ baseAlgs ∧
    Forall (λ e, Forall (λ d, is_Some (digest_algID (dg_hash d))) (re_digests e)) (rawEvents el).

Definition event_ids (e : rawEvent) : list Z :=
  (λ d, default 0 (digest_algID (dg_hash d))) <$> re_digests e.

Definition serialized (el : EventLog) : bytes :=
  concat ((λ e, encode_rawEvent2 (event_ids e) e) <$> rawEvents el).

Lemma alg_in_elem alg base : alg_in alg base = true ↔ alg ∈ base.
Proof.
  unfold alg_in. rewrite existsb_exists. split.
  - intros (x & Hx & ->%bool_decide_eq_true). by apply list_elem_of_In.
  - intros Hin. exists alg. rewrite bool_decide_eq_true. split; [by apply list_elem_of_In|done].
Qed.

Lemma algs_in_subset l base : forallb (λ alg, alg_in alg base) l = true ↔ l ⊆ base.
Proof.
  rewrite forallb_forall. split.
  - intros Hf x Hx. apply alg_in_elem, Hf. by apply list_elem_of_In.
  - intros Hs x Hx. apply alg_in_elem, Hs. by apply list_elem_of_In.
Qed.

Lemma serialize_digests_spec ds :
  (Forall (λ d, is_Some (digest_algID (dg_hash d))) ds ∧
   serialize_digests ds =
     Ok (concat (zip_with encode_digest ((λ d, default 0 (digest_algID (dg_hash d))) <$> ds) ds))) ∨
  (¬ Forall (λ d, is_Some (digest_algID (dg_hash d))) ds ∧ ∃ e, serialize_digests ds = Err e).
Proof.
  induction ds as [|d ds IH]; [by left|]. cbn.
  destruct (digest_algID (dg_hash d)) as [id|] eqn:E.
  - destruct IH as [[Hf ->]|[Hf [e ->]]]; [left|right]; cbn.
    + split; [constructor; [by rewrite E|done]|]. unfold encode_digest. by rewrite <- (assoc_L app).
    + split; [by intros [_ ?]%Forall_cons|by eexists].
  - right. split; [|by eexists]. intros [[? Hx] _]%Forall_cons. congruence.
Qed.

(** What bounds a parsed event. *)
Definition wire_event (e : rawEvent) : Prop :=
  u32 (re_index e) ∧ u32 (re_typ e) ∧ u32 (zlen (re_data e)) ∧ u32 (zlen (re_digests e)).

Lemma serialize_event_spec e :
  wire_event e →
  (Forall (λ d, is_Some (digest_algID (dg_hash d))) (re_digests e) ∧
   serialize_event e = Ok (encode_rawEvent2 (event_ids e) e)) ∨
  (¬ Forall (λ d, is_Some (digest_algID (dg_hash d))) (re_digests e) ∧
   ∃ err, serialize_event e = Err err).
Proof.
  intros (Hi & Ht & Hd & Hn). unfold serialize_event.
  destruct (serialize_digests_spec (re_digests e)) as [[Hf ->]|[Hf [err ->]]]; cbn; [left|right; eauto].
  split; [done|]. unfold encode_rawEvent2, event_ids, u32 in *.
  unfold uint32. by rewrite !Z.mod_small by done.
Qed.

Lemma serialize_events_spec el :
  Forall wire_event (rawEvents el) →
  (Forall (λ e, Forall (λ d, is_Some (digest_algID (dg_hash d))) (re_digests e)) (rawEvents el) ∧
   serialize_events (rawEvents el) = Ok (serialized el)) ∨
  (¬ Forall (λ e, Forall (λ d, is_Some (digest_algID (dg_hash d))) (re_digests e)) (rawEvents el) ∧
   ∃ err, serialize_events (rawEvents el) = Err err).
Proof.
  unfold serialized. induction 1 as [|e evs He Hevs IH]; [by left|]. cbn.
  destruct (serialize_event_spec e He) as [[Hf ->]|[Hf [err ->]]]; cbn;
    [|right; split; [by intros [? _]%Forall_cons|by eexists]].
  destruct IH as [[Hr ->]|[Hr [err ->]]]; cbn; [left|right].
  - split; [by constructor|done].
  - split; [by intros [_ ?]%Forall_cons|by eexists].
Qed.

Lemma parsed20 log el spec :
  ParseEventLog log = Ok el → el_specIDEvent el = Some spec → is_log20 log el.
Proof. by intros [(? & ? & _ & _ & _ & ->)|]%parsed_format. Qed.

Lemma wf_rawEvent2_wire spec ids e : wf_rawEvent2 spec ids e → wire_event e.
Proof. by intros (? & ? & ? & ? & _). Qed.

Lemma number_Forall (P : rawEvent → Prop) n evs :
  (∀ m e, P e → P (set_sequence m e)) → Forall P evs → Forall P (number n evs).
Proof. intros HP HF. revert n. induction HF; intros n; cbn; constructor; auto. Qed.

(** Every event of a parsed TPM 2.0 log is well formed. *)
Lemma log20_events log el spec :
  is_log20 log el → el_specIDEvent el = Some spec →
  Forall (λ e, ∃ ids, wf_rawEvent2 spec ids e) (rawEvents el).
Proof.
  intros (e & spec' & evs & chunks & _ & _ & _ & _ & _ & HF & ->) [= ->]. cbn [rawEvents].
  apply number_Forall; [by intros m e' (ids & Hw); exists ids|].
  eapply Forall2_Forall_l; [exact HF|]. apply Forall_true. intros c ev (ids & Hw & _). by exists ids.
Qed.

Lemma append_logs_spec A out additional out' :
  append_logs A out additional = Ok out' ↔
    ∃ els, Forall2 (λ l el, ParseEventLog l = Ok el ∧ appendable A el) additional els ∧
      out' = out ++ concat (serialized <$> els).
Proof.
  revert out. induction additional as [|l add IH]; intros out.
  { cbn. split; [intros [= <-]; exists []; split; [constructor|by rewrite app_nil_r]|].
    intros (els & ->%Forall2_nil_inv_l & ->). cbn. by rewrite app_nil_r. }
  assert (∀ el, ParseEventLog l = Ok el →
    (append_logs A out (l :: add) = Ok out' ↔
     appendable A el ∧ append_logs A (out ++ serialized el) add = Ok out')) as Hstep.
  { intros el Hl. cbn [append_logs]. rewrite Hl. cbn [wrapf mbind res_bind].
    destruct (el_specIDEvent el) as [spec|] eqn:Es; [|split; [done|intros [(? & ? & _) _]; congruence]].
    destruct (forallb _ _) eqn:Ef.
    2: { split; [done|]. intros [(spec' & Es' & Hsub%algs_in_subset & _) _]. congruence. }
    apply algs_in_subset in Ef.
    pose proof (log20_events _ _ _ (parsed20 _ _ _ Hl Es) Es) as Hw.
    assert (Forall wire_event (rawEvents el)) as Hwire.
    { eapply Forall_impl; [exact Hw|]. cbn. intros e (ids & He). by eapply wf_rawEvent2_wire. }
    destruct (serialize_events_spec el Hwire) as [[Hh ->]|[Hh [err ->]]]; cbn.
    - split; [intros Hx; split; [by exists spec|done]|by intros [_ ?]].
    - split; [done|]. by intros [(? & _ & _ & ?) _]. }
  destruct (ParseEventLog l) as [el|e|m|] eqn:Hl;
    [|cbn [append_logs]; rewrite Hl; split; [done|]; intros (els & HF & _);
      apply Forall2_cons_inv_l in HF as (? & ? & [? _] & _); congruence ..].
  rewrite (Hstep el eq_refl), IH. split.
  - intros (Ha & els & HF & ->). exists (el :: els).
    split; [by constructor|]. cbn. by rewrite <- (assoc_L app).
  - intros (els & HF & ->). apply Forall2_cons_inv_l in HF as (el' & els' & [E Ha] & HF & ->).
    assert (el' = el) as -> by congruence.
    split; [done|]. exists els'. cbn. by rewrite <- (assoc_L app).
Qed.

(** ** Round trip *)

Lemma number_app_number n m l k : number n (number m l ++ k) = number n (l ++ k).
Proof.
  revert n m. induction l as [|e l IH]; intros n m; cbn; [done|].
  by rewrite set_sequence_twice, IH.
Qed.

Lemma digest_algID_small id :
  0 ≤ id < 2 ^ 8 → is_Some (digest_algID (cryptoHash (HashAlg_of id))) →
  digest_algID (cryptoHash (HashAlg_of id)) = Some id.
Proof.
  intros Hid. assert (HashAlg_of id = id) as -> by (apply Z.mod_small, Hid).
  destruct (cryptoHash_cases id) as [[-> ->]|[[-> ->]|(_ & _ & ->)]]; [done|done|by intros [? [=]]].
Qed.

(** An event of an appended log, rewritten for the header of the base log. *)
Lemma appended_event spec spec' ids e :
  Forall (λ a, sa_ID a < 2 ^ 8) (algs spec) → algs spec' ⊆ algs spec →
  Forall (λ d, is_Some (digest_algID (dg_hash d))) (re_digests e) →
  wf_rawEvent2 spec' ids e → wf_rawEvent2 spec (event_ids e) e.
Proof.
  intros Hsmall Hsub Hh (Hi & Ht & Hd & Hn & HF). split_and!; [done..|].
  unfold event_ids. induction HF as [|id d ids ds (Hid & Hz & Hin & Hc) HF IH]; [constructor|].
  apply Forall_cons in Hh as [Hh1 Hh]. cbn. constructor; [|apply IH; [done|]].
  - apply Hsub in Hin. rewrite Forall_forall in Hsmall. pose proof (Hsmall _ Hin) as Hlt. cbn in Hlt.
    rewrite Hc in Hh1 |- *. rewrite (digest_algID_small id) by (done || lia). cbn. done.
  - unfold u32 in *. rewrite zlen_cons in Hn. pose proof (zlen_nonneg ds). lia.
Qed.

Lemma appended_log spec l el :
  Forall (λ a, sa_ID a < 2 ^ 8) (algs spec) →
  ParseEventLog l = Ok el → appendable (algs spec) el →
  Forall (λ e, wf_rawEvent2 spec (event_ids e) e) (rawEvents el).
Proof.
  intros Hs Hl (spec' & Es & Hsub & Hh).
  pose proof (log20_events _ _ _ (parsed20 _ _ _ Hl Es) Es) as Hw.
  rewrite Forall_forall in Hw, Hh. apply Forall_forall. intros e He.
  destruct (Hw e He) as (ids & Hwe). apply (appended_event spec spec' ids); auto.
Qed.

Lemma is_log20_app log el spec evs :
  is_log20 log el → el_specIDEvent el = Some spec →
  Forall (λ e, wf_rawEvent2 spec (event_ids e) e) evs →
  is_log20 (log ++ concat ((λ e, encode_rawEvent2 (event_ids e) e) <$> evs))
    (mkEventLog (Algs el) (number 1 (rawEvents el ++ evs)) (Some spec)).
Proof.
  intros (e & spec' & evs0 & chunks & -> & He & Ht & Hs & Hh & HF & ->) [= ->] Hevs.
  exists e, spec, (evs0 ++ evs), (chunks ++ ((λ e, encode_rawEvent2 (event_ids e) e) <$> evs)).
  split_and!; [by rewrite concat_app, (assoc_L app)|done..| |by cbn; rewrite number_app_number].
  apply Forall2_app; [done|]. apply Forall2_fmap_r, Forall_Forall2_diag.
  eapply Forall_impl; [exact Hevs|]. cbn. intros ev Hev. by exists (event_ids ev).
Qed.

Lemma AppendEvents_run base additional out :
  AppendEvents base additional = Ok out ↔
    ∃ el spec els, ParseEventLog base = Ok el ∧ el_specIDEvent el = Some spec ∧
      Forall2 (λ l el, ParseEventLog l = Ok el ∧ appendable (algs spec) el) additional els ∧
      out = base ++ concat (serialized <$> els).
Proof.
  unfold AppendEvents. destruct (ParseEventLog base) as [el| | |] eqn:Hb;
    [|split; [done|]; by intros (? & ? & ? & [=] & _) ..].
  cbn [wrapf mbind res_bind]. destruct (el_specIDEvent el) as [spec|] eqn:Es.
  - rewrite append_logs_spec. split.
    + intros (els & HF & ->). by exists el, spec, els.
    + intros (el' & spec' & els & [= <-] & Es' & HF & ->). rewrite Es in Es'.
      injection Es' as <-. by exists els.
  - split; [done|]. intros (el' & ? & ? & [= <-] & ? & _). congruence.
Qed.

Lemma AppendEvents_returns base additional : no_crash (AppendEvents base additional).
Proof.
  unfold AppendEvents. pose proof (parsed_no_crash base) as Hb.
  destruct (ParseEventLog base) as [el| | |]; [|done..]. cbn.
  destruct (el_specIDEvent el) as [spec|]; [|done]. clear Hb el. generalize base as out.
  induction additional as [|l add IH]; intros out; [done|]. cbn [append_logs].
  pose proof (parsed_no_crash l) as Hb. destruct (ParseEventLog l) as [el| | |] eqn:Hl; [|done..].
  cbn [wrapf mbind res_bind]. destruct (el_specIDEvent el) as [spec'|] eqn:Es; [|done].
  destruct (forallb _ _); [|done].
  pose proof (log20_events _ _ _ (parsed20 _ _ _ Hl Es) Es) as Hw.
  destruct (serialize_events_spec el) as [[_ ->]|[_ [err ->]]]; [|apply IH|done].
  eapply Forall_impl; [exact Hw|]. cbn. intros e (ids & He). by eapply wf_rawEvent2_wire.
Qed.

(** ** Properties *)

(** [AppendEvents] returns on all inputs, and succeeds exactly when the base
    is a TPM 2.0 log, every further log is one whose algorithms all occur (with
    their sizes) in the base and whose digests are SHA-1 or SHA-256; it then
    returns the base log followed by the re-serialised events of the others. *)
Theorem AppendEvents_iff base additional :
  no_crash (AppendEvents base additional) ∧
  ∀ out, AppendEvents base additional = Ok out ↔
    ∃ el spec els, ParseEventLog base = Ok el ∧ el_specIDEvent el = Some spec ∧
      Forall2 (λ l el, ParseEventLog l = Ok el ∧ appendable (algs spec) el) additional els ∧
      out = base ++ concat (serialized <$> els).
Proof. split; [apply AppendEvents_returns|intros out; apply AppendEvents_run]. Qed.

(** C30: The combined log parses, and to the events of all the logs in order,
    renumbered, under the header of the base; provided it is below 4 GiB, the
    header lists each algorithm once, and no identifier is above 255. *)
Theorem AppendEvents_roundtrip base el spec additional els out :
  ParseEventLog base = Ok el → el_specIDEvent el = Some spec →
  NoDup (sa_ID <$> algs spec) → Forall (λ a, sa_ID a < 2 ^ 8) (algs spec) →
  Forall2 (λ l el, ParseEventLog l = Ok el) additional els →
  AppendEvents base additional = Ok out → zlen out < 2 ^ 32 →
  ParseEventLog out =
    Ok (mkEventLog (Algs el) (number 1 (rawEvents el ++ mjoin (rawEvents <$> els))) (Some spec)).
Proof.
  intros Hb Es Hnd Hsmall Hels Happ Hlen. unfold AppendEvents in Happ. rewrite Hb in Happ.
  cbn [wrapf mbind res_bind] in Happ. rewrite Es in Happ.
  apply append_logs_spec in Happ as (els' & HF & ->).
  assert (els' = els) as ->.
  { clear -HF Hels. revert els Hels. induction HF as [|l el add els' [E _] HF IH]; intros els Hels.
    - by apply Forall2_nil_inv_l in Hels.
    - apply Forall2_cons_inv_l in Hels as (el' & els0 & E' & Hels & ->).
      rewrite (IH els0 Hels). congruence. }
  assert (concat (serialized <$> els) =
    concat ((λ e, encode_rawEvent2 (event_ids e) e) <$> mjoin (rawEvents <$> els))) as E.
  { clear. induction els as [|el els IH]; [done|]. cbn. rewrite fmap_app, concat_app. by rewrite IH. }
  rewrite E in Hlen |- *. apply ParseEventLog_complete20; [done| |by intros ? [= <-]].
  apply is_log20_app; [by eapply parsed20|done|].
  clear -HF Hsmall. induction HF as [|l el add els [Hl Ha] HF IH]; [constructor|].
  cbn. apply Forall_app. split; [by eapply appended_log|done].
Qed.

(** ** A log with two algorithms, and one whose identifier is truncated *)
Definition ex_header (l : list specAlgSize) : bytes :=
  encode_rawEvent (mkRawEvent 0 0 eventTypeNoAction
    (encode_specIDEvent 0 0 2 [] (mkSpecID l)) [mkDigest crypto_SHA1 (be_bytes 20 0)]).
Definition ex_event2 (id hash : Z) (d : bytes) : rawEvent :=
  mkRawEvent 0 4 13 (str "data") [mkDigest hash d].
Definition ex_algs : list specAlgSize := [mkSpecAlg 4 20; mkSpecAlg 11 32].
Definition ex_base : bytes :=
  ex_header ex_algs ++ encode_rawEvent2 [11] (ex_event2 11 crypto_SHA256 (be_bytes 32 7)).
Definition ex_more : bytes :=
  ex_header [mkSpecAlg 4 20] ++ encode_rawEvent2 [4] (ex_event2 4 crypto_SHA1 (be_bytes 20 9)).
Definition ex_combined : bytes :=
  ex_base ++ encode_rawEvent2 [4] (ex_event2 4 crypto_SHA1 (be_bytes 20 9)).
Definition ex_base_log : EventLog :=
  mkEventLog [HashSHA1; HashSHA256]
    [set_sequence 1 (ex_event2 11 crypto_SHA256 (be_bytes 32 7))] (Some (mkSpecID ex_algs)).
Definition ex_more_log : EventLog :=
  mkEventLog [HashSHA1]
    [set_sequence 1 (ex_event2 4 crypto_SHA1 (be_bytes 20 9))] (Some (mkSpecID [mkSpecAlg 4 20])).

Lemma AppendEvents_roundtrip_witness :
  ParseEventLog ex_combined =
    Ok (mkEventLog [HashSHA1; HashSHA256]
          (number 1 (rawEvents ex_base_log ++ mjoin (rawEvents <$> [ex_more_log])))
          (Some (mkSpecID ex_algs))).
Proof.
  apply (AppendEvents_roundtrip ex_base ex_base_log (mkSpecID ex_algs) [ex_more] [ex_more_log] ex_combined).
  - vm_compute. reflexivity.
  - reflexivity.
  - apply (bool_decide_unpack _). vm_compute. exact I.
  - repeat constructor.
  - apply Forall2_cons. split; [vm_compute; reflexivity|apply Forall2_nil_2].
  - vm_compute. reflexivity.
  - vm_compute. reflexivity.
Defined.

(** Without that bound the round trip fails: the parser reads algorithm
    0x0104 as SHA-1 (the identifier is cut to 8 bits) and [AppendEvents] writes
    it back as 0x0004, which the header does not list; the result is a log
    that no longer parses. *)
Theorem AppendEvents_truncates_identifier :
  ∃ log out, (∃ el, ParseEventLog log = Ok el) ∧
    AppendEvents log [log] = Ok out ∧ ∃ e, ParseEventLog out = Err e.
Proof.
  exists (ex_header [mkSpecAlg 11 32; mkSpecAlg 0x0104 20]
       ++ encode_rawEvent2 [0x0104] (ex_event2 4 crypto_SHA1 (be_bytes 20 9))).
  eexists. split; [eexists; vm_compute; reflexivity|].
  split; [vm_compute; reflexivity|]. eexists. vm_compute. reflexivity.
Qed.
