(* ===== verification/Tpm2.v ===== *)
(** * What the code uses of go-tpm, go-tspi and crypto/rsa

    The structures of [go-tpm/legacy/tpm2] with the fields the code reads (a
    pointer is an [option]), the public keys, and the library calls as the
    operations of an interface: none of them is defined here, and every theorem
    holds for all implementations.  [GoTPMLaws] states the documented behaviour
    that some of the theorems rely on. *)
From S2P Require Import Prelude GoBytes GoCrypto Attest.

(** ** Public keys *)
Record rsa_PublicKey := mkRSA { rsa_N : Z; rsa_E : Z }.

(** The dynamic type of a [crypto.PublicKey]. *)
Inductive PublicKey :=
| PubRSA (k : rsa_PublicKey)
| PubECDSA (curve x y : Z)
| PubOther (type : string).

#[export] Instance rsa_PublicKey_eq_dec : EqDecision rsa_PublicKey.
Proof. solve_decision. Defined.
#[export] Instance PublicKey_eq_dec : EqDecision PublicKey.
Proof. solve_decision. Defined.

(** [pub.Size()]: the length of the modulus in bytes. *)
Definition rsa_Size (k : rsa_PublicKey) : Z :=
  if rsa_N k <=? 0 then 0 else (Z.log2 (rsa_N k) + 8) / 8.

(** ** Structures of TPM 2.0 *)
Record HashValue := mkHashValue { hv_Alg : Z; hv_Value : bytes }.
Record Name := mkName { name_Handle : option Z; name_Digest : option HashValue }.
Record PCRSelection := mkSelection { sel_Hash : Z; sel_PCRs : list Z }.
Record QuoteInfo := mkQuoteInfo { qi_PCRSelection : PCRSelection; qi_PCRDigest : bytes }.
Record CertifyInfo := mkCertifyInfo { cert_Name : Name }.
Record CreationInfo := mkCreationInfo { create_Name : Name; create_OpaqueDigest : bytes }.
Record AttestationData := mkAttestation {
  att_Magic : Z;
  att_Type : Z;
  att_ExtraData : bytes;
  att_AttestedQuoteInfo : option QuoteInfo;
  att_AttestedCertifyInfo : option CertifyInfo;
  att_AttestedCreationInfo : option CreationInfo;
}.

Record SigScheme := mkScheme { scheme_Alg : Z; scheme_Hash : Z }.
Record RSAParams := mkRSAParams {
  rp_Sign : option SigScheme; rp_KeyBits : Z; rp_Exponent : Z; rp_Modulus : Z;
}.
Record ECCParams := mkECCParams { ep_Sign : option SigScheme; ep_CurveID : Z }.
Record Public := mkPublic {
  pub_Type : Z;
  pub_NameAlg : Z;
  pub_Attributes : Z;
  pub_RSAParameters : option RSAParams;
  pub_ECCParameters : option ECCParams;
}.

Record SignatureRSA := mkSignatureRSA { srsa_HashAlg : Z; srsa_Signature : bytes }.
Record SignatureECC := mkSignatureECC { secc_R : Z; secc_S : Z }.
Record Signature := mkSignature {
  sig_Alg : Z; sig_RSA : option SignatureRSA; sig_ECC : option SignatureECC;
}.

(** ** Structures of TPM 1.2, unpacked by [tpmutil] *)
Record rawAttestationData := mkRawAttestation {
  ra_Version : bytes; ra_Fixed : bytes; ra_Digest : bytes; ra_Nonce : bytes;
}.
Record rawPCRComposite := mkComposite {
  rc_Size : Z; rc_PCRMask : list Z; rc_Values : bytes;
}.

(** The values its Go type can hold (with the code's size of 3 bytes). *)
Definition wf_composite (c : rawPCRComposite) : Prop :=
  rc_Size c = 3 ∧ length (rc_PCRMask c) = 3%nat ∧
  Forall (λ m, 0 ≤ m < 2 ^ 8) (rc_PCRMask c) ∧ zlen (rc_Values c) < 2 ^ 32.

(** ** Library calls *)
Class GoTPM := {
  tpm2_DecodePublic : bytes → res error Public;
  tpm2_DecodeCreationData : bytes → res error ();
  tpm2_DecodeAttestationData : bytes → res error AttestationData;
  tpm2_DecodeSignature : bytes → res error Signature;
  (** [Algorithm.Hash], [Public.Key], [Public.Name], [Name.MatchesPublic] *)
  Algorithm_Hash : Z → res error Z;
  Public_Key : Public → res error PublicKey;
  Public_Name : Public → res error Name;
  MatchesPublic : Name → Public → res error bool;
  (** [tpmutil.Unpack] and [tpmutil.Pack] at the two types used *)
  Unpack_rawAttestationData : bytes → res error rawAttestationData;
  Pack_rawPCRComposite : rawPCRComposite → res error bytes;
  tpm1_UnmarshalPubRSAPublicKey : bytes → res error rsa_PublicKey;
  (** Challenge generation; both use the system's randomness, so the bytes they
      draw are an argument. *)
  credactivation_Generate :
    bytes → option HashValue → PublicKey → Z → bytes → res error (bytes * bytes);
  verification_GenerateChallengeEx :
    bytes → rsa_PublicKey → bytes → bytes → res error (bytes * bytes);
  (** crypto/rsa *)
  rsa_VerifyPKCS1v15 : rsa_PublicKey → Z → bytes → bytes → res error ();
  rsa_EncryptOAEP : bytes → rsa_PublicKey → bytes → bytes → res error bytes;
  (** AES-CBC encryption of whole blocks, by key and initialisation vector *)
  aes_cbc_encrypt : bytes → bytes → bytes → bytes;
}.

(** Library calls return; a decoded structure has the part its type tag
    announces; a name algorithm or signature hash that [Hash] accepts is linked
    in. *)
Class GoTPMLaws `{GoCrypto, GoTPM} := {
  DecodePublic_returns b : no_crash (tpm2_DecodePublic b);
  DecodeCreationData_returns b : no_crash (tpm2_DecodeCreationData b);
  DecodeAttestationData_returns b : no_crash (tpm2_DecodeAttestationData b);
  DecodeSignature_returns b : no_crash (tpm2_DecodeSignature b);
  Algorithm_Hash_returns a : no_crash (Algorithm_Hash a);
  Public_Key_returns p : no_crash (Public_Key p);
  Public_Name_returns p : no_crash (Public_Name p);
  MatchesPublic_returns n p : no_crash (MatchesPublic n p);
  Unpack_returns b : no_crash (Unpack_rawAttestationData b);
  Pack_returns c : no_crash (Pack_rawPCRComposite c);
  UnmarshalPub_returns b : no_crash (tpm1_UnmarshalPubRSAPublicKey b);
  credactivation_returns r n k s b : no_crash (credactivation_Generate r (Some n) k s b);
  GenerateChallengeEx_returns r k a b : no_crash (verification_GenerateChallengeEx r k a b);
  VerifyPKCS1v15_returns k h d s : no_crash (rsa_VerifyPKCS1v15 k h d s);
  EncryptOAEP_returns r k m l : no_crash (rsa_EncryptOAEP r k m l);
  quote_info b att :
    tpm2_DecodeAttestationData b = Ok att → att_Type att = tpm2.TagAttestQuote →
    is_Some (att_AttestedQuoteInfo att);
  certify_info b att :
    tpm2_DecodeAttestationData b = Ok att → att_Type att = tpm2.TagAttestCertify →
    is_Some (att_AttestedCertifyInfo att);
  creation_info b att :
    tpm2_DecodeAttestationData b = Ok att → att_Type att = tpm2.TagAttestCreation →
    is_Some (att_AttestedCreationInfo att);
  rsa_parameters b pub :
    tpm2_DecodePublic b = Ok pub → pub_Type pub = tpm2.AlgRSA → is_Some (pub_RSAParameters pub);
  ecc_parameters b pub :
    tpm2_DecodePublic b = Ok pub → pub_Type pub = tpm2.AlgECC → is_Some (pub_ECCParameters pub);
  Algorithm_Hash_available a h : Algorithm_Hash a = Ok h → hash_available h = true;
  (** Packing is injective: equal encodings come from equal structures. *)
  Pack_inj c c' b :
    wf_composite c → wf_composite c' →
    Pack_rawPCRComposite c = Ok b → Pack_rawPCRComposite c' = Ok b → c = c';
}.

(** The packing tpmutil documents: big endian, with a 32-bit length. *)
Definition pack_composite (c : rawPCRComposite) : bytes :=
  be_bytes 2 (rc_Size c) ++ concat (be_bytes 1 <$> rc_PCRMask c)
    ++ be_bytes 4 (zlen (rc_Values c)) ++ rc_Values c.

(** An interface whose calls all return given values, for the witnesses. *)
Definition fixed_tpm (pub : Public) (att : AttestationData) (sg : Signature) (h : Z)
    (raw : rawAttestationData) (key : rsa_PublicKey) (valid : bytes → bytes → bool) : GoTPM := {|
  tpm2_DecodePublic _ := Ok pub;
  tpm2_DecodeCreationData _ := Ok tt;
  tpm2_DecodeAttestationData _ := Ok att;
  tpm2_DecodeSignature _ := Ok sg;
  Algorithm_Hash _ := Ok h;
  Public_Key _ := Ok (PubRSA key);
  Public_Name _ := Ok (mkName None (Some (mkHashValue (pub_NameAlg pub) [])));
  MatchesPublic _ _ := Ok true;
  Unpack_rawAttestationData _ := Ok raw;
  Pack_rawPCRComposite c := Ok (pack_composite c);
  tpm1_UnmarshalPubRSAPublicKey _ := Ok key;
  credactivation_Generate _ _ _ _ secret := Ok (secret, []);
  verification_GenerateChallengeEx _ _ _ secret := Ok (secret, []);
  rsa_VerifyPKCS1v15 _ _ d s := if valid d s then Ok tt else Err (LibErr "verification error");
  rsa_EncryptOAEP _ _ m _ := Ok m;
  aes_cbc_encrypt _ _ m := m;
|}.

#[local] Arguments be_bytes : simpl never.

Lemma be_bytes_inj n x y :
  0 ≤ x < 2 ^ (8 * Z.of_nat n) → 0 ≤ y < 2 ^ (8 * Z.of_nat n) →
  be_bytes n x = be_bytes n y → x = y.
Proof. intros Hx Hy E. rewrite <- (be_uint_be_bytes n x Hx), E. by apply be_uint_be_bytes. Qed.

Lemma mask_bytes_inj l k :
  length l = length k → Forall (λ m, 0 ≤ m < 2 ^ 8) l → Forall (λ m, 0 ≤ m < 2 ^ 8) k →
  concat (be_bytes 1 <$> l) = concat (be_bytes 1 <$> k) → l = k.
Proof.
  revert k. induction l as [|x l IH]; intros [|y k] Hlen; [done..|].
  intros [Hx Hl]%Forall_cons [Hy Hk]%Forall_cons E. cbn in E.
  apply app_inj_1 in E as [E1 E2]; [|by rewrite !length_be_bytes].
  f_equal; [by apply (be_bytes_inj 1)|]. apply IH; auto.
Qed.

Lemma pack_composite_inj c c' :
  wf_composite c → wf_composite c' → pack_composite c = pack_composite c' → c = c'.
Proof.
  intros (Hs & Hm & Hmb & Hv) (Hs' & Hm' & Hmb' & Hv'). unfold pack_composite. rewrite Hs, Hs'.
  intros E%app_inv_head. apply app_inj_1 in E as [E1 E2].
  - apply mask_bytes_inj in E1; [|congruence|done|done].
    apply app_inj_1 in E2 as [_ E2]; [|by rewrite !length_be_bytes].
    destruct c, c'. cbn in *. congruence.
  - assert (∀ l, length (concat (be_bytes 1 <$> l)) = length l) as Hc.
    { induction l as [|x l IH]; [done|]. cbn. rewrite length_app, length_be_bytes, IH. lia. }
    rewrite !Hc. congruence.
Qed.

Lemma fixed_tpm_laws `{GoCrypto} pub att sg h raw key valid :
  hash_available h = true →
  (att_Type att = tpm2.TagAttestQuote → is_Some (att_AttestedQuoteInfo att)) →
  (att_Type att = tpm2.TagAttestCertify → is_Some (att_AttestedCertifyInfo att)) →
  (att_Type att = tpm2.TagAttestCreation → is_Some (att_AttestedCreationInfo att)) →
  (pub_Type pub = tpm2.AlgRSA → is_Some (pub_RSAParameters pub)) →
  (pub_Type pub = tpm2.AlgECC → is_Some (pub_ECCParameters pub)) →
  @GoTPMLaws _ (fixed_tpm pub att sg h raw key valid).
Proof.
  intros Hh Hq Hce Hcr Hr He. constructor; cbn;
    try (intros; exact I); try (by intros ? ? [= <-]).
  - intros ? ? ? ?. by destruct (valid _ _).
  - intros c c' b Hw Hw' [= <-] E. apply pack_composite_inj; [done..|]. congruence.
Qed.
