(* ===== verification/Quote.v ===== *)
(** * Quote verification ([attest/eventlog.go], [attest/attest.go])

    [ParseAKPublic], [validate12Quote], [validate20Quote], [Verify] and
    [VerifyAll].  The slice of PCRs is shared with the caller: the functions
    sort it and set [quoteVerified] in place, so it is the state of the monad. *)
From S2P Require Import Prelude GoBytes GoCrypto GoRuntime Attest Tpm2.

(** ** [AKPublic] *)
Record AKPublic := mkAKPublic { ak_Public : PublicKey; ak_Hash : Z }.

Section Quote.
Context `{GoCrypto, GoTPM, GoRuntime}.

(** [pub.RSAParameters.Sign.Hash.Hash()] *)
Definition rsa_sign_hash (pub : Public) : res error Z :=
  match pub_RSAParameters pub with
  | None => Panic "nil pointer dereference"
  | Some rp =>
      match rp_Sign rp with
      | None => Panic "nil pointer dereference"
      | Some s => Algorithm_Hash (scheme_Hash s)
      end
  end.
Definition ecc_sign_hash (pub : Public) : res error Z :=
  match pub_ECCParameters pub with
  | None => Panic "nil pointer dereference"
  | Some ep =>
      match ep_Sign ep with
      | None => Panic "nil pointer dereference"
      | Some s => Algorithm_Hash (scheme_Hash s)
      end
  end.

(** The [switch] that rejects a missing signature scheme. *)
Definition missing_scheme (pub : Public) : option string :=
  match pub_RSAParameters pub, pub_ECCParameters pub with
  | None, None => Some "parsing public key: missing asymmetric parameters"%string
  | Some rp, ep =>
      if decide (rp_Sign rp = None) then Some "parsing public key: missing rsa signature scheme"%string
      else match ep with
           | Some ep => if decide (ep_Sign ep = None)
                        then Some "parsing public key: missing ecc signature scheme"%string else None
           | None => None
           end
  | None, Some ep =>
      if decide (ep_Sign ep = None)
      then Some "parsing public key: missing ecc signature scheme"%string else None
  end.

Definition ParseAKPublic (version : Z) (public : bytes) : res error AKPublic :=
  if version =? TPMVersion12 then
    rsaPub ← wrapf "parsing public key: %v" (tpm1_UnmarshalPubRSAPublicKey public);
    Ok (mkAKPublic (PubRSA rsaPub) crypto_SHA1)
  else if version =? TPMVersion20 then
    pub ← wrapf "parsing TPM public key structure: %v" (tpm2_DecodePublic public);
    match missing_scheme pub with
    | Some msg => Err (Errorf msg)
    | None =>
        pubKey ← wrapf "parsing public key: %v" (Public_Key pub);
        h ← (if pub_Type pub =? tpm2.AlgRSA then
               wrapf "invalid public key hash: %v" (rsa_sign_hash pub)
             else if pub_Type pub =? tpm2.AlgECC then
               wrapf "invalid public key hash: %v" (ecc_sign_hash pub)
             else Err (Errorf "unsupported public key type 0x%x"));
        Ok (mkAKPublic pubKey h)
    end
  else Err (Errorf "unknown tpm version 0x%x").

(** ** TPM 1.2 *)
Definition fixedQuote : bytes := str "QUOT".

(** [pcrMask[pcr.Index/8] |= 1 << uint(pcr.Index%8)] *)
Definition set_mask (mask : list Z) (index : Z) : list Z :=
  alter (λ m, Z.lor m (uint8 (Z.shiftl 1 (index mod 8)))) (Z.to_nat (index / 8)) mask.

Fixpoint pcr_composite (pcrs : list PCR) (mask : list Z) (values : bytes)
    : res error (list Z * bytes) :=
  match pcrs with
  | [] => Ok (mask, values)
  | pcr :: pcrs =>
      if (pcr_Index pcr <? 0) || (24 <=? pcr_Index pcr) then Err (Errorf "invalid PCR index: %d")
      else pcr_composite pcrs (set_mask mask (pcr_Index pcr)) (values ++ pcr_Digest pcr)
  end.

Definition validate12Quote (a : AKPublic) (quote : Quote) (nonce : bytes) : M (list PCR) () :=
  match ak_Public a with
  | PubRSA pub =>
      let qHash := sha1_Sum (q_Quote quote) in
      _ ← lift_res (wrapf "invalid quote signature: %v"
            (rsa_VerifyPKCS1v15 pub crypto_SHA1 qHash (q_Signature quote)));
      att ← lift_res (wrapf "parsing quote: %v" (Unpack_rawAttestationData (q_Quote quote)));
      _ ← reject_if (bool_decide (ra_Nonce att ≠ sha1_Sum nonce)) (Errorf "invalid nonce");
      _ ← reject_if (bool_decide (ra_Fixed att ≠ fixedQuote)) (Errorf "quote wasn't a QUOT object: %x");
      _ ← modify (sort_by pcr_Index);
      pcrs ← gets id;
      mv ← lift_res (pcr_composite pcrs [0; 0; 0] []);
      composite ← lift_res (wrapf "marshaling PCRs: %v"
            (Pack_rawPCRComposite (mkComposite 3 mv.1 mv.2)));
      _ ← reject_if (bool_decide (ra_Digest att ≠ sha1_Sum composite))
            (Errorf "PCRs passed didn't match quote: %v");
      modify (fmap set_quoteVerified)
  | _ => fail (Errorf "unsupported public key type: %T")
  end.

(** ** TPM 2.0 *)

(** [for _, pcr := range pcrs { if pcr.DigestAlg == alg { m[pcr.Index] = pcr.Digest } }] *)
Fixpoint pcrs_by_index (alg : Z) (pcrs : list PCR) (m : gmap Z bytes) : gmap Z bytes :=
  match pcrs with
  | [] => m
  | pcr :: pcrs =>
      pcrs_by_index alg pcrs
        (if pcr_DigestAlg pcr =? alg then <[pcr_Index pcr := pcr_Digest pcr]> m else m)
  end.

(** The loop over the selection, writing the digests to [sigHash] and
    collecting [quotePCRs]. *)
Fixpoint selected_digests (pcrByIndex : gmap Z bytes) (selection : list Z)
    (quotePCRs : gset Z) (written : bytes) : res error (gset Z * bytes) :=
  match selection with
  | [] => Ok (quotePCRs, written)
  | index :: selection =>
      match pcrByIndex !! index with
      | None => Err (Errorf "quote was over PCR %d which wasn't provided")
      | Some digest =>
          selected_digests pcrByIndex selection ({[index]} ∪ quotePCRs) (written ++ digest)
      end
  end.

Definition mark_quoted (quotePCRs : gset Z) (alg : Z) (pcr : PCR) : PCR :=
  if bool_decide (pcr_Index pcr ∈ quotePCRs) && (pcr_DigestAlg pcr =? alg)
  then set_quoteVerified pcr else pcr.

(** The signature check of [validate20Quote]. *)
Definition check_signature20 (a : AKPublic) (quote : Quote) (sig : Signature) : res error () :=
  _ ← hash_New (ak_Hash a);
  match ak_Public a with
  | PubRSA pub =>
      match sig_RSA sig with
      | None => Err (Errorf "rsa public key provided for ec signature")
      | Some sigRSA =>
          wrapf "invalid quote signature: %v"
            (rsa_VerifyPKCS1v15 pub (ak_Hash a) (hash_sum (ak_Hash a) (q_Quote quote))
               (srsa_Signature sigRSA))
      end
  | _ => Err (Errorf "unsupported public key type %T")
  end.

Definition validate20Quote (a : AKPublic) (quote : Quote) (nonce : bytes) : M (list PCR) () :=
  sig ← lift_res (wrapf "parse quote signature: %v" (tpm2_DecodeSignature (q_Signature quote)));
  _ ← lift_res (check_signature20 a quote sig);
  att ← lift_res (wrapf "parsing quote signature: %v" (tpm2_DecodeAttestationData (q_Quote quote)));
  _ ← reject_if (negb (att_Type att =? tpm2.TagAttestQuote))
        (Errorf "attestation isn't a quote, tag of type 0x%x");
  _ ← reject_if (bool_decide (att_ExtraData att ≠ nonce)) (Errorf "nonce = %#v, want %#v");
  match att_AttestedQuoteInfo att with
  | None => panic "nil pointer dereference"
  | Some info =>
      pcrs ← gets id;
      let pcrDigestAlg := cryptoHash (HashAlg_of (sel_Hash (qi_PCRSelection info))) in
      let pcrByIndex := pcrs_by_index pcrDigestAlg pcrs ∅ in
      s ← lift_res (selected_digests pcrByIndex (sel_PCRs (qi_PCRSelection info)) ∅ []);
      let quotePCRs := s.1 in
      _ ← reject_if (existsb (λ kv, negb (bool_decide (kv.1 ∈ quotePCRs))) (map_range pcrByIndex))
            (Errorf "provided PCR %d was not included in quote");
      _ ← reject_if (bool_decide (hash_sum (ak_Hash a) s.2 ≠ qi_PCRDigest info))
            (Errorf "quote digest didn't match pcrs provided");
      modify (fmap (mark_quoted quotePCRs pcrDigestAlg))
  end.

(** ** [Verify], [VerifyAll] *)
Definition Verify (a : AKPublic) (quote : Quote) (nonce : bytes) : M (list PCR) () :=
  if q_Version quote =? TPMVersion12 then validate12Quote a quote nonce
  else if q_Version quote =? TPMVersion20 then validate20Quote a quote nonce
  else fail (Errorf "quote used unknown tpm version 0x%x").

Fixpoint verify_quotes (a : AKPublic) (quotes : list Quote) (nonce : bytes) : M (list PCR) () :=
  match quotes with
  | [] => mret tt
  | quote :: quotes =>
      _ ← wrapM "quote %d: %v" (Verify a quote nonce);
      verify_quotes a quotes nonce
  end.

Definition VerifyAll (a : AKPublic) (quotes : list Quote) (nonce : bytes) : M (list PCR) () :=
  _ ← reject_if (zlen quotes =? 0) (Errorf "no quotes were provided");
  _ ← reject_if (zlen nonce =? 0) (Errorf "no nonce was provided");
  _ ← verify_quotes a quotes nonce;
  pcrs ← gets id;
  let errPCRs := filter (λ p, QuoteVerified p = false) pcrs in
  reject_if (0 <? zlen errPCRs) (Errorf "some PCRs were not covered by a quote: %s").
End Quote.

(** ** What a valid quote says *)
Section QuoteSpec.
Context `{GoCrypto, GoTPM}.

(** The digest used for index [i] of bank [alg]: the last one listed. *)
Definition last_digest (alg : Z) (pcrs : list PCR) (i : Z) : option bytes :=
  pcr_Digest <$> last (filter (λ p, pcr_Index p = i ∧ pcr_DigestAlg p = alg) pcrs).

(** [quote] is a quote by the key [a] with this nonce over the PCRs [sel] of
    bank [alg], and its digest is that of the PCRs provided, which include no
    further PCR of the bank. *)
Definition quote20_ok (a : AKPublic) (quote : Quote) (nonce : bytes) (pcrs : list PCR)
    (alg : Z) (sel : list Z) : Prop :=
  ∃ pub sig sigRSA att info ds,
    ak_Public a = PubRSA pub ∧
    tpm2_DecodeSignature (q_Signature quote) = Ok sig ∧ sig_RSA sig = Some sigRSA ∧
    rsa_VerifyPKCS1v15 pub (ak_Hash a) (hash_sum (ak_Hash a) (q_Quote quote))
      (srsa_Signature sigRSA) = Ok tt ∧
    tpm2_DecodeAttestationData (q_Quote quote) = Ok att ∧
    att_Type att = tpm2.TagAttestQuote ∧ att_ExtraData att = nonce ∧
    att_AttestedQuoteInfo att = Some info ∧
    alg = cryptoHash (HashAlg_of (sel_Hash (qi_PCRSelection info))) ∧
    sel = sel_PCRs (qi_PCRSelection info) ∧
    mapM (last_digest alg pcrs) sel = Some ds ∧
    Forall (λ p, pcr_DigestAlg p = alg → pcr_Index p ∈ sel) pcrs ∧
    hash_sum (ak_Hash a) (concat ds) = qi_PCRDigest info.

(** The TPM_PCR_COMPOSITE of TPM 1.2 over PCRs sorted by index. *)
Definition composite12 (pcrs : list PCR) : rawPCRComposite :=
  mkComposite 3 (foldl set_mask [0; 0; 0] (pcr_Index <$> pcrs)) (concat (pcr_Digest <$> pcrs)).

Definition quote12_ok (a : AKPublic) (quote : Quote) (nonce : bytes) (pcrs : list PCR) : Prop :=
  ∃ pub att composite,
    ak_Public a = PubRSA pub ∧
    rsa_VerifyPKCS1v15 pub crypto_SHA1 (sha1_Sum (q_Quote quote)) (q_Signature quote) = Ok tt ∧
    Unpack_rawAttestationData (q_Quote quote) = Ok att ∧
    ra_Nonce att = sha1_Sum nonce ∧ ra_Fixed att = fixedQuote ∧
    Forall (λ p, 0 ≤ pcr_Index p < 24) pcrs ∧
    Pack_rawPCRComposite (composite12 pcrs) = Ok composite ∧
    ra_Digest att = sha1_Sum composite.

Lemma last_digest_cons alg p pcrs i :
  last_digest alg (p :: pcrs) i =
    match last_digest alg pcrs i with
    | Some d => Some d
    | None => if decide (pcr_Index p = i ∧ pcr_DigestAlg p = alg) then Some (pcr_Digest p) else None
    end.
Proof.
  unfold last_digest. rewrite filter_cons. destruct (decide _) as [Hd|Hd]; cbn.
  - rewrite last_cons. by destruct (last _).
  - by destruct (last _).
Qed.

Lemma pcrs_by_index_lookup alg pcrs m i :
  pcrs_by_index alg pcrs m !! i =
    match last_digest alg pcrs i with Some d => Some d | None => m !! i end.
Proof.
  revert m. induction pcrs as [|p pcrs IH]; intros m; [done|]. cbn [pcrs_by_index].
  rewrite IH, last_digest_cons. destruct (last_digest alg pcrs i); [done|].
  destruct (Z.eqb_spec (pcr_DigestAlg p) alg) as [Ha|Ha]; destruct (decide _) as [[Hi Ha']|Hn];
    try done; subst; [by rewrite lookup_insert_eq|].
  rewrite lookup_insert_ne; [done|]. intros ?. by apply Hn.
Qed.

Lemma selected_digests_spec m sel qs w :
  match mapM (m !!.) sel with
  | Some ds => selected_digests m sel qs w = Ok (list_to_set sel ∪ qs, w ++ concat ds)
  | None => ∃ e, selected_digests m sel qs w = Err e
  end.
Proof.
  revert qs w. induction sel as [|i sel IH]; intros qs w; cbn [mapM selected_digests].
  - cbn. by rewrite app_nil_r, (left_id_L ∅ (∪)).
  - cbn. destruct (m !! i) as [d|]; cbn; [|by eexists].
    specialize (IH ({[i]} ∪ qs) (w ++ d)). destruct (mapM _ sel) as [ds|]; cbn; [|done].
    rewrite IH. rewrite <- (assoc_L app). do 2 f_equal.
    by rewrite (assoc_L (∪)), (comm_L (∪) (list_to_set sel) {[i]}).
Qed.

Lemma pcr_composite_spec pcrs mask values :
  (Forall (λ p, 0 ≤ pcr_Index p < 24) pcrs ∧
   pcr_composite pcrs mask values =
     Ok (foldl set_mask mask (pcr_Index <$> pcrs), values ++ concat (pcr_Digest <$> pcrs))) ∨
  (¬ Forall (λ p, 0 ≤ pcr_Index p < 24) pcrs ∧ ∃ e, pcr_composite pcrs mask values = Err e).
Proof.
  revert mask values. induction pcrs as [|p pcrs IH]; intros mask values; cbn.
  - left. by rewrite app_nil_r.
  - destruct (Z.ltb_spec (pcr_Index p) 0) as [|]; cbn;
      [right; split; [intros [? _]%Forall_cons; lia|by eexists]|].
    destruct (Z.leb_spec 24 (pcr_Index p)) as [|]; cbn;
      [right; split; [intros [? _]%Forall_cons; lia|by eexists]|].
    destruct (IH (set_mask mask (pcr_Index p)) (values ++ pcr_Digest p)) as [[Hf ->]|[Hf [e ->]]].
    + left. split; [by constructor|]. by rewrite <- (assoc_L app).
    + right. split; [by intros [_ ?]%Forall_cons|by eexists].
Qed.
End QuoteSpec.

Section QuoteFacts.
Context `{GoCrypto, GoTPM, !GoTPMLaws, GoRuntime}.

Lemma check_signature20_spec a quote sig :
  hash_available (ak_Hash a) = true →
  no_crash (check_signature20 a quote sig) ∧
  (check_signature20 a quote sig = Ok tt ↔
     ∃ pub sigRSA, ak_Public a = PubRSA pub ∧ sig_RSA sig = Some sigRSA ∧
       rsa_VerifyPKCS1v15 pub (ak_Hash a) (hash_sum (ak_Hash a) (q_Quote quote))
         (srsa_Signature sigRSA) = Ok tt).
Proof.
  intros Ha. unfold check_signature20. rewrite hash_New_ok by done. cbn.
  destruct (ak_Public a) as [pub| |]; [|split; [done|split; [done|by intros (? & ? & [=] & _)]] ..].
  destruct (sig_RSA sig) as [s|]; [|split; [done|split; [done|by intros (? & ? & _ & [=] & _)]]].
  pose proof (VerifyPKCS1v15_returns pub (ak_Hash a) (hash_sum (ak_Hash a) (q_Quote quote))
    (srsa_Signature s)) as Hr.
  destruct (rsa_VerifyPKCS1v15 _ _ _ _) as [[]|e| |] eqn:E; [..|done|done]; cbn.
  - split; [done|]. split; [intros _; by exists pub, s|done].
  - split; [done|]. split; [done|]. intros (? & ? & [= <-] & [= <-] & ?). congruence.
Qed.

Lemma mapM_ext_lookup {A B} (f g : A → option B) l :
  (∀ x, f x = g x) → mapM f l = mapM g l.
Proof. intros Hfg. induction l as [|x l IH]; [done|]. cbn. by rewrite Hfg, IH. Qed.

Lemma selected_lookup alg pcrs sel :
  mapM (pcrs_by_index alg pcrs ∅ !!.) sel = mapM (last_digest alg pcrs) sel.
Proof.
  apply mapM_ext_lookup. intros i. rewrite pcrs_by_index_lookup, lookup_empty.
  by destruct (last_digest alg pcrs i).
Qed.

Lemma unquoted_spec alg pcrs sel :
  existsb (λ kv, negb (bool_decide (kv.1 ∈ (list_to_set sel : gset Z))))
    (map_range (pcrs_by_index alg pcrs ∅)) = false ↔
  Forall (λ p, pcr_DigestAlg p = alg → pcr_Index p ∈ sel) pcrs.
Proof.
  assert (∀ i, is_Some (last_digest alg pcrs i) ↔
    ∃ p, p ∈ pcrs ∧ pcr_Index p = i ∧ pcr_DigestAlg p = alg) as Hl.
  { intros i. unfold last_digest. rewrite fmap_is_Some, last_is_Some. split.
    - intros Hne. destruct (filter _ pcrs) as [|p l] eqn:F; [done|].
      assert (p ∈ filter (λ p, pcr_Index p = i ∧ pcr_DigestAlg p = alg) pcrs) as Hp
        by (rewrite F; left).
      apply list_elem_of_filter in Hp as [? ?]. by exists p.
    - intros (p & Hp & Hi) F. by eapply (filter_nil_not_elem_of _ _ p F). }
  split.
  - intros Hf. apply Forall_forall. intros p Hp Ha.
    assert (is_Some (last_digest alg pcrs (pcr_Index p))) as [d Hd] by (apply Hl; eauto).
    assert ((pcr_Index p, d) ∈ map_range (pcrs_by_index alg pcrs ∅)) as Hin.
    { rewrite map_range_perm. apply elem_of_map_to_list.
      by rewrite pcrs_by_index_lookup, Hd. }
    destruct (decide (pcr_Index p ∈ sel)) as [|Hn]; [done|].
    apply not_true_iff_false in Hf. destruct Hf. apply existsb_exists.
    exists (pcr_Index p, d). split; [by apply list_elem_of_In|]. cbn.
    by rewrite bool_decide_eq_false_2 by by rewrite elem_of_list_to_set.
  - intros Hf. apply not_true_iff_false. intros (kv & Hkv & Hn)%existsb_exists.
    apply list_elem_of_In in Hkv. rewrite map_range_perm in Hkv. destruct kv as [i d].
    apply elem_of_map_to_list in Hkv. rewrite pcrs_by_index_lookup, lookup_empty in Hkv.
    assert (is_Some (last_digest alg pcrs i)) as Hs by (destruct (last_digest alg pcrs i); [by eexists|done]).
    apply Hl in Hs as (p & Hp & <- & Ha). rewrite Forall_forall in Hf. specialize (Hf p Hp Ha).
    cbn in Hn. rewrite bool_decide_eq_true_2 in Hn by by apply elem_of_list_to_set. done.
Qed.

(** [validate20Quote] returns, and leaves the PCRs alone when it fails. *)
Lemma validate20Quote_returns a quote nonce pcrs :
  hash_available (ak_Hash a) = true →
  spec (validate20Quote a quote nonce) pcrs (λ _ _, True) (λ _ pcrs', pcrs' = pcrs).
Proof.
  intros Ha. unfold validate20Quote.
  go_step. go_step; [apply wrapf_no_crash, DecodeSignature_returns| |done].
  go_step. go_step; [by apply check_signature20_spec| |done].
  go_step. go_step; [apply wrapf_no_crash, DecodeAttestationData_returns| |done].
  do 2 (go_step; go_step; [done|]).
  match goal with |- spec (match att_AttestedQuoteInfo ?x with _ => _ end) _ _ _ => rename x into att end.
  destruct (att_AttestedQuoteInfo att) as [info|] eqn:Ei.
  2: { destruct (quote_info (q_Quote quote) att) as [? ?]; [..|congruence];
       [by eapply wrapf_Ok_inv|]. by apply Z.eqb_eq, negb_false_iff. }
  go_step. go_step. unfold id.
  pose proof (selected_digests_spec (pcrs_by_index
    (cryptoHash (HashAlg_of (sel_Hash (qi_PCRSelection info)))) pcrs ∅)
    (sel_PCRs (qi_PCRSelection info)) ∅ []) as Hs.
  go_step. go_step; [|intros|done].
  { destruct (mapM _ _); [by rewrite Hs|by destruct Hs as [? ->]]. }
  do 2 (go_step; go_step; [done|]). by go_step.
Qed.

Lemma validate20Quote_Ok a quote nonce pcrs pcrs' :
  hash_available (ak_Hash a) = true →
  validate20Quote a quote nonce pcrs = (Ok tt, pcrs') ↔
    ∃ alg sel, quote20_ok a quote nonce pcrs alg sel ∧
      pcrs' = mark_quoted (list_to_set sel) alg <$> pcrs.
Proof.
  intros Ha. unfold validate20Quote. split.
  - intros Hv. inv_ok Hv.
    match goal with H : check_signature20 _ _ _ = Ok ?u |- _ => destruct u; rename H into Hsig end.
    apply check_signature20_spec in Hsig as (pub & sigRSA & Hpub & Hrsa & Hver); [|done].
    match goal with H : tpm2_DecodeAttestationData _ = Ok ?x |- _ => rename x into att, H into Hatt end.
    apply negb_false_iff, Z.eqb_eq in Hc. apply bool_decide_not_false_1 in Hc0; [|apply _].
    destruct (att_AttestedQuoteInfo att) as [info|] eqn:Ei; [|done].
    inv_ok Hv. unfold id in *.
    match goal with H : selected_digests ?m ?sel ∅ [] = Ok ?x |- _ =>
      destruct x as [qs w]; rename H into Hs; pose proof (selected_digests_spec m sel ∅ []) as Hs' end.
    rewrite selected_lookup in Hs'. destruct (mapM _ _) as [ds|] eqn:Em; [|destruct Hs'; congruence].
    rewrite Hs in Hs'. injection Hs' as -> ->. cbn [fst snd] in *. rewrite (right_id_L ∅ (∪)) in *.
    match goal with H : existsb _ _ = false |- _ => rename H into Hex end. apply -> unquoted_spec in Hex.
    match goal with H : bool_decide (hash_sum _ _ ≠ _) = false |- _ => rename H into Hd end.
    apply bool_decide_not_false_1 in Hd; [|apply _].
    eexists _, _. split; [|done]. by exists pub, a0, sigRSA, att, info, ds.
  - intros (alg & sel & (pub & sg & sigRSA & att & info & ds & Hpub & Hsig & Hrsa & Hver & Hatt &
      Ht & Hn & Hi & -> & -> & Hm & Hf & Hd) & ->).
    rewrite (bind_Ok _ _ _ sg pcrs) by (by rewrite Hsig).
    rewrite (bind_Ok _ _ _ tt pcrs)
      by (apply lift_res_Ok, check_signature20_spec; [done|by exists pub, sigRSA]).
    rewrite (bind_Ok _ _ _ att pcrs) by (by rewrite Hatt).
    rewrite (bind_Ok _ _ _ tt pcrs)
      by (apply reject_if_Ok; by rewrite Ht).
    rewrite (bind_Ok _ _ _ tt pcrs) by (by apply reject_if_Ok, bool_decide_not_false_2).
    rewrite Hi. rewrite (bind_Ok _ _ _ pcrs pcrs) by done.
    pose proof (selected_digests_spec (pcrs_by_index
      (cryptoHash (HashAlg_of (sel_Hash (qi_PCRSelection info)))) pcrs ∅)
      (sel_PCRs (qi_PCRSelection info)) ∅ []) as Hs.
    rewrite selected_lookup, Hm, (right_id_L ∅ (∪)) in Hs.
    rewrite (bind_Ok _ _ _ _ pcrs (lift_res_Ok _ _ _ Hs)). cbn [fst snd app].
    rewrite (bind_Ok _ _ _ tt pcrs) by (by apply reject_if_Ok, unquoted_spec).
    rewrite (bind_Ok _ _ _ tt pcrs) by (by apply reject_if_Ok, bool_decide_not_false_2). done.
Qed.
End QuoteFacts.

(** ** TPM 1.2 quotes, and several quotes *)
Section VerifyFacts.
Context `{GoCrypto, GoTPM, !GoTPMLaws, GoRuntime}.

Lemma validate12Quote_returns a quote nonce pcrs :
  spec (validate12Quote a quote nonce) pcrs (λ _ _, True) (λ _ pcrs', pcrs' ≡ₚ pcrs).
Proof.
  unfold validate12Quote. destruct (ak_Public a) as [pub| |]; [|by go_step..]. cbv zeta.
  go_step. go_step; [apply wrapf_no_crash, VerifyPKCS1v15_returns| |done].
  go_step. go_step; [apply wrapf_no_crash, Unpack_returns| |done].
  do 2 (go_step; go_step; [done|]). do 4 go_step. unfold id.
  pose proof (sort_by_perm _ pcr_Index pcrs) as Hp.
  go_step. go_step; [|intros|by rewrite Hp].
  { by destruct (pcr_composite_spec (sort_by pcr_Index pcrs) [0; 0; 0] []) as [[_ ->]|[_ [? ->]]]. }
  go_step. go_step; [apply wrapf_no_crash, Pack_returns| |by rewrite Hp].
  go_step. go_step; [by rewrite Hp|]. by go_step.
Qed.

Lemma validate12Quote_Ok a quote nonce pcrs pcrs' :
  validate12Quote a quote nonce pcrs = (Ok tt, pcrs') ↔
    quote12_ok a quote nonce (sort_by pcr_Index pcrs) ∧
    pcrs' = set_quoteVerified <$> sort_by pcr_Index pcrs.
Proof.
  unfold validate12Quote, quote12_ok. split.
  - destruct (ak_Public a) as [pub| |]; [|done..]. cbv zeta. intros Hv. inv_ok Hv. unfold id in *.
    match goal with H : rsa_VerifyPKCS1v15 _ _ _ _ = Ok ?u |- _ => destruct u; rename H into Hver end.
    apply bool_decide_not_false_1 in Hc, Hc0, Hc1; [|apply _..].
    match goal with H : pcr_composite (sort_by _ ?l) _ _ = Ok ?x |- _ =>
      destruct (pcr_composite_spec (sort_by pcr_Index l) [0; 0; 0] []) as [[Hf Hcomp]|[_ [e Hcomp]]];
        rewrite Hcomp in H; [injection H as <-|done] end.
    split; [|done]. eexists pub, _, _. split_and!; [done|exact Hver|done|done|done|done| |done]. done.
  - intros [(pub & att & composite & -> & Hver & Hatt & Hn & Hf & Hi & Hpack & Hd) ->]. cbv zeta.
    rewrite (bind_Ok _ _ _ tt pcrs) by (by rewrite Hver).
    rewrite (bind_Ok _ _ _ att pcrs) by (by rewrite Hatt).
    rewrite (bind_Ok _ _ _ tt pcrs) by (by apply reject_if_Ok, bool_decide_not_false_2).
    rewrite (bind_Ok _ _ _ tt pcrs) by (by apply reject_if_Ok, bool_decide_not_false_2).
    erewrite bind_Ok; [|done]. erewrite bind_Ok; [|done]. unfold id.
    destruct (pcr_composite_spec (sort_by pcr_Index pcrs) [0; 0; 0] []) as [[_ Hcomp]|[? _]]; [|done].
    erewrite bind_Ok; [|by apply lift_res_Ok]. cbn [fst snd app].
    erewrite bind_Ok; [|apply lift_res_Ok; unfold composite12 in Hpack; by rewrite Hpack].
    erewrite bind_Ok; [|by apply reject_if_Ok, bool_decide_not_false_2]. done.
Qed.

(** A PCR value, whatever has been verified of it. *)
Definition unflag (p : PCR) : PCR := mkPCR (pcr_Index p) (pcr_Digest p) (pcr_DigestAlg p) false.

(** [quote], valid for the PCRs [pcrs], is over the value of [p]. *)
Definition covers (a : AKPublic) (quote : Quote) (nonce : bytes) (pcrs : list PCR) (p : PCR) : Prop :=
  (q_Version quote = TPMVersion12 ∧ quote12_ok a quote nonce pcrs) ∨
  (q_Version quote = TPMVersion20 ∧
   ∃ sel, quote20_ok a quote nonce pcrs (pcr_DigestAlg p) sel ∧ pcr_Index p ∈ sel).

Lemma last_digest_unflag alg pcrs i : last_digest alg (unflag <$> pcrs) i = last_digest alg pcrs i.
Proof.
  induction pcrs as [|p pcrs IH]; [done|]. rewrite fmap_cons, !last_digest_cons, IH. done.
Qed.

Lemma covers_unflag a quote nonce pcrs p :
  covers a quote nonce pcrs p → covers a quote nonce (unflag <$> pcrs) p.
Proof.
  intros [[Hv (pub & att & c & Hp & Hver & Hatt & Hn & Hf & Hi & Hpack & Hd)]|[Hv (sel & Hq & Hin)]].
  - left. split; [done|]. exists pub, att, c. split_and!; [done..| | |done].
    + by apply Forall_fmap.
    + rewrite <- Hpack. unfold composite12. by rewrite <- !list_fmap_compose.
  - right. split; [done|]. exists sel. split; [|done].
    destruct Hq as (pub & sg & sr & att & info & ds & ? & ? & ? & ? & ? & ? & ? & ? & ? & ? & Hm & Hf & ?).
    exists pub, sg, sr, att, info, ds. split_and!; [done..| | |done].
    + rewrite <- Hm. apply mapM_ext_lookup. intros i. apply last_digest_unflag.
    + by apply Forall_fmap.
Qed.

(** What a call establishes of each PCR: its value is unchanged, and a flag
    that is set was set before or is justified by the quote. *)
Definition justified (a : AKPublic) (quote : Quote) (nonce : bytes) (pcrs : list PCR)
    (p p' : PCR) : Prop :=
  unflag p' = unflag p ∧
  (pcr_quoteVerified p' = true → pcr_quoteVerified p = true ∨ covers a quote nonce pcrs p).

Lemma quote_Verify_spec a quote nonce pcrs :
  hash_available (ak_Hash a) = true →
  spec (Verify a quote nonce) pcrs
    (λ _ pcrs', ∃ l, l ≡ₚ pcrs ∧ Forall2 (justified a quote nonce l) l pcrs')
    (λ _ pcrs', pcrs' ≡ₚ pcrs).
Proof.
  intros Ha. unfold Verify.
  destruct (Z.eqb_spec (q_Version quote) TPMVersion12) as [H12|H12];
    [|destruct (Z.eqb_spec (q_Version quote) TPMVersion20) as [H20|H20]; [|by go_step]].
  - pose proof (validate12Quote_returns a quote nonce pcrs) as Hr.
    pose proof (validate12Quote_Ok a quote nonce pcrs) as Hok.
    unfold spec in *. destruct (validate12Quote a quote nonce pcrs) as [[[]| | |] s]; [|done..].
    destruct (proj1 (Hok s) eq_refl) as [Hq ->].
    exists (sort_by pcr_Index pcrs). split; [apply sort_by_perm|].
    apply Forall2_fmap_r, Forall_Forall2_diag, Forall_true. intros p. unfold compose.
    split; [done|]. intros _. right. by left.
  - pose proof (validate20Quote_returns a quote nonce pcrs Ha) as Hr.
    pose proof (λ s, validate20Quote_Ok a quote nonce pcrs s Ha) as Hok.
    unfold spec in *. destruct (validate20Quote a quote nonce pcrs) as [[[]| | |] s];
      [|by rewrite Hr|done..].
    destruct (proj1 (Hok s) eq_refl) as (alg & sel & Hq & ->).
    exists pcrs. split; [done|].
    apply Forall2_fmap_r, Forall_Forall2_diag, Forall_true. intros p. unfold mark_quoted, compose.
    case_bool_decide as Hin; cbn; [|by split; [|left]].
    destruct (Z.eqb_spec (pcr_DigestAlg p) alg) as [<-|]; cbn; [|by split; [|left]].
    split; [done|]. intros _. right. right. split; [done|]. exists sel. split; [done|].
    by apply elem_of_list_to_set in Hin.
Qed.

(** The state between two quotes of [VerifyAll], started on [pcrs0]. *)
Definition verified_so_far (a : AKPublic) (quotes : list Quote) (nonce : bytes)
    (pcrs0 pcrs : list PCR) : Prop :=
  unflag <$> pcrs ≡ₚ unflag <$> pcrs0 ∧
  Forall (λ p, pcr_quoteVerified p = true →
    ∃ q l, q ∈ quotes ∧ l ≡ₚ unflag <$> pcrs0 ∧ covers a q nonce l p) pcrs.

Lemma covers_value a quote nonce pcrs p p' :
  unflag p = unflag p' → covers a quote nonce pcrs p → covers a quote nonce pcrs p'.
Proof. unfold covers. intros [= -> _ ->]. done. Qed.

Lemma justified_so_far a quotes quote nonce pcrs0 pcrs l pcrs' :
  quote ∈ quotes → verified_so_far a quotes nonce pcrs0 pcrs → l ≡ₚ pcrs →
  Forall2 (justified a quote nonce l) l pcrs' →
  verified_so_far a quotes nonce pcrs0 pcrs'.
Proof.
  intros Hq [Hp Hf] Hl HF. assert (unflag <$> pcrs' = unflag <$> l) as Hu.
  { clear -HF. remember l as l0 eqn:E in HF at 1. clear E.
    induction HF as [|p p' ? ? [? _] HF IH]; [done|]. cbn. by f_equal. }
  assert (unflag <$> l ≡ₚ unflag <$> pcrs0) as Hl0 by by rewrite Hl.
  split; [by rewrite Hu|]. apply Forall_forall. intros p' [k Hk]%list_elem_of_lookup Hv.
  destruct (Forall2_lookup_r _ _ _ _ _ HF Hk) as (p & Hkp & Hval & Hj).
  destruct (Hj Hv) as [Hvp|Hc].
  - rewrite Forall_forall in Hf. destruct (Hf p) as (q & l' & ? & ? & ?); [|done|].
    { rewrite <- Hl. by eapply list_elem_of_lookup_2. }
    exists q, l'. split_and!; [done..|]. by eapply covers_value.
  - exists quote, (unflag <$> l). split_and!; [done..|]. eapply covers_value; [done|].
    by apply covers_unflag.
Qed.

Lemma verify_quotes_spec a quotes nonce pcrs0 pcrs rest :
  hash_available (ak_Hash a) = true → rest ⊆ quotes →
  verified_so_far a quotes nonce pcrs0 pcrs →
  spec (verify_quotes a rest nonce) pcrs
    (λ _ pcrs', verified_so_far a quotes nonce pcrs0 pcrs')
    (λ _ pcrs', unflag <$> pcrs' ≡ₚ unflag <$> pcrs0).
Proof.
  intros Ha. revert pcrs. induction rest as [|q rest IH]; intros pcrs Hsub Hi; [by apply spec_ret|].
  cbn [verify_quotes]. go_step. go_step. eapply spec_mono; [by apply quote_Verify_spec| |].
  - intros _ pcrs' (l & Hl & HF). apply IH.
    + intros x Hx. apply Hsub. by right.
    + eapply justified_so_far; [|done..]. apply Hsub. by left.
  - cbn. intros _ pcrs' ->. apply Hi.
Qed.

Lemma VerifyAll_spec a quotes nonce pcrs :
  hash_available (ak_Hash a) = true → Forall (λ p, pcr_quoteVerified p = false) pcrs →
  spec (VerifyAll a quotes nonce) pcrs
    (λ _ pcrs', quotes ≠ [] ∧ nonce ≠ [] ∧
       Forall (λ p, pcr_quoteVerified p = true) pcrs' ∧
       verified_so_far a quotes nonce pcrs pcrs')
    (λ _ pcrs', unflag <$> pcrs' ≡ₚ unflag <$> pcrs).
Proof.
  intros Ha Hfresh. unfold VerifyAll.
  do 2 (go_step; go_step; [done|]). go_step.
  assert (verified_so_far a quotes nonce pcrs pcrs) as Hi.
  { split; [done|]. eapply Forall_impl; [exact Hfresh|]. cbn. congruence. }
  eapply spec_mono; [by apply (verify_quotes_spec a quotes nonce pcrs pcrs quotes)| |done].
  cbn beta. intros _ pcrs' Hv. go_step. go_step. unfold id. go_step; [by apply Hv|].
  split_and!; [..|done].
  - intros E. by subst quotes.
  - intros E. by subst nonce.
  - destruct (ltb_zlen (filter (λ p, QuoteVerified p = false) pcrs')) as [|F]; [done|].
    apply Forall_forall. intros p Hp. destruct (pcr_quoteVerified p) eqn:E; [done|].
    by destruct (filter_nil_not_elem_of _ _ p F E).
Qed.
End VerifyFacts.

(** ** Binding and duplicates *)
Section Binding.
Context `{GoCrypto, GoTPM}.

(** What the digest of a quote is computed over. *)
Definition quoted_bytes (alg : Z) (sel : list Z) (pcrs : list PCR) : bytes :=
  concat (omap (last_digest alg pcrs) sel).

Lemma mapM_omap {A B} (f : A → option B) l k : mapM f l = Some k → omap f l = k.
Proof.
  revert k. induction l as [|x l IH]; intros k; cbn; [by intros [= <-]|].
  destruct (f x) as [y|]; [|done]. cbn. destruct (mapM f l) as [k'|]; [|done].
  intros [= <-]. by rewrite (IH k').
Qed.

(** A list of PCRs names each register of a bank once. *)
Definition no_duplicates (pcrs : list PCR) : Prop :=
  NoDup ((λ p, (pcr_Index p, pcr_DigestAlg p)) <$> pcrs).

Lemma last_digest_unique pcrs p :
  no_duplicates pcrs → p ∈ pcrs →
  last_digest (pcr_DigestAlg p) pcrs (pcr_Index p) = Some (pcr_Digest p).
Proof.
  unfold no_duplicates. intros Hnd Hp. induction pcrs as [|q pcrs IH]; [by apply elem_of_nil in Hp|].
  cbn in Hnd. apply NoDup_cons in Hnd as [Hn Hnd]. rewrite last_digest_cons.
  apply elem_of_cons in Hp as [<-|Hp]; [|by rewrite IH].
  destruct (last_digest _ _ _) eqn:E; [|by rewrite decide_True].
  destruct Hn. unfold last_digest in E.
  destruct (last (filter _ pcrs)) as [q|] eqn:L; [|done]. apply last_Some_elem_of in L.
  apply list_elem_of_filter in L as [[Hi Ha] Hq]. rewrite <- Hi, <- Ha.
  apply (list_elem_of_fmap_2 (λ p, (pcr_Index p, pcr_DigestAlg p)) _ _ Hq).
Qed.

Lemma last_digest_app alg forged pcrs i :
  is_Some (last_digest alg pcrs i) → last_digest alg (forged ++ pcrs) i = last_digest alg pcrs i.
Proof.
  intros [d Hd]. induction forged as [|f forged IH]; [done|].
  cbn [app]. by rewrite last_digest_cons, IH, Hd.
Qed.

Lemma concat_inj_sizes (ds es : list bytes) sz :
  Forall (λ d, zlen d = sz) ds → Forall (λ d, zlen d = sz) es → length ds = length es →
  concat ds = concat es → ds = es.
Proof.
  intros Hd. revert es. induction Hd as [|d ds Hd1 Hd IH]; intros [|e es] He Hl; [done..|].
  apply Forall_cons in He as [He1 He]. cbn. intros E.
  apply app_inj_1 in E as [-> E]; [|unfold zlen in *; cbn in *; lia].
  f_equal. apply IH; auto.
Qed.

(** All digests of a bank have the size [sz] of the bank. *)
Definition sized (sz : Z → Z) (pcrs : list PCR) : Prop :=
  Forall (λ p, zlen (pcr_Digest p) = sz (pcr_DigestAlg p)) pcrs.

Lemma mapM_last_sizes alg pcrs sel ds sz :
  sized sz pcrs → mapM (last_digest alg pcrs) sel = Some ds → Forall (λ d, zlen d = sz alg) ds.
Proof.
  intros Hs Hm. apply mapM_Some in Hm. eapply Forall2_Forall_r; [exact Hm|].
  apply Forall_true. intros i d. unfold last_digest.
  destruct (last (filter _ pcrs)) as [p|] eqn:L; [|done]. intros [= <-].
  apply last_Some_elem_of, list_elem_of_filter in L as [[_ <-] Hp].
  unfold sized in Hs. rewrite Forall_forall in Hs. by apply Hs.
Qed.

(** The same quote over two lists of PCRs. *)
Lemma quote20_same a quote nonce nonce' pcrs pcrs' alg alg' sel sel' :
  quote20_ok a quote nonce pcrs alg sel → quote20_ok a quote nonce' pcrs' alg' sel' →
  alg = alg' ∧ sel = sel' ∧
  hash_sum (ak_Hash a) (quoted_bytes alg sel pcrs) =
    hash_sum (ak_Hash a) (quoted_bytes alg sel pcrs').
Proof.
  intros (?&?&?&att&info&ds&_&_&_&_&Ha&_&_&Hi&->&->&Hm&_&Hd)
    (?&?&?&att'&info'&ds'&_&_&_&_&Ha'&_&_&Hi'&->&->&Hm'&_&Hd').
  assert (att' = att) as -> by congruence. assert (info' = info) as -> by congruence.
  split_and!; [done..|]. unfold quoted_bytes. rewrite (mapM_omap _ _ _ Hm), (mapM_omap _ _ _ Hm'). congruence.
Qed.

Lemma quote20_binding a quote nonce nonce' pcrs pcrs' alg alg' sel sel' sz :
  quote20_ok a quote nonce pcrs alg sel → quote20_ok a quote nonce' pcrs' alg' sel' →
  sized sz pcrs → sized sz pcrs' →
  (∀ i, i ∈ sel → last_digest alg pcrs i = last_digest alg pcrs' i) ∨
  (quoted_bytes alg sel pcrs ≠ quoted_bytes alg sel pcrs' ∧
   hash_sum (ak_Hash a) (quoted_bytes alg sel pcrs) =
     hash_sum (ak_Hash a) (quoted_bytes alg sel pcrs')).
Proof.
  intros H1 H2 Hs Hs'. destruct (quote20_same _ _ _ _ _ _ _ _ _ _ H1 H2) as (<- & <- & Hh).
  destruct (decide (quoted_bytes alg sel pcrs = quoted_bytes alg sel pcrs')) as [E|Hne]; [left|by right].
  destruct H1 as (?&?&?&?&?&ds&_&_&_&_&_&_&_&_&_&_&Hm&_&_).
  destruct H2 as (?&?&?&?&?&ds'&_&_&_&_&_&_&_&_&_&_&Hm'&_&_).
  assert (ds = ds') as <-.
  { apply (concat_inj_sizes _ _ (sz alg)); [by apply (mapM_last_sizes _ _ _ _ _ Hs Hm)|by apply (mapM_last_sizes _ _ _ _ _ Hs' Hm')| |].
    - by rewrite <- (length_mapM _ _ _ Hm), <- (length_mapM _ _ _ Hm').
    - unfold quoted_bytes in E. by rewrite (mapM_omap _ _ _ Hm), (mapM_omap _ _ _ Hm') in E. }
  intros i [k Hk]%list_elem_of_lookup. apply mapM_Some in Hm, Hm'.
  destruct (Forall2_lookup_l _ _ _ _ _ Hm Hk) as (d & Hd & ->).
  destruct (Forall2_lookup_l _ _ _ _ _ Hm' Hk) as (d' & Hd' & ->). congruence.
Qed.

Lemma quote20_ok_duplicates a quote nonce pcrs alg sel forged :
  quote20_ok a quote nonce pcrs alg sel →
  Forall (λ f, ∃ p, p ∈ pcrs ∧ pcr_Index p = pcr_Index f ∧ pcr_DigestAlg p = pcr_DigestAlg f) forged →
  quote20_ok a quote nonce (forged ++ pcrs) alg sel.
Proof.
  intros (pub&sg&sr&att&info&ds&?&?&?&?&?&?&?&?&?&?&Hm&Hf&?) Hforged.
  exists pub, sg, sr, att, info, ds. split_and!; [done..| | |done].
  - apply mapM_Some. apply mapM_Some in Hm. eapply Forall2_impl; [exact Hm|].
    intros i d Hd. cbn in *. by rewrite last_digest_app by by rewrite Hd.
  - apply Forall_app. split; [|done]. eapply Forall_impl; [exact Hforged|]. cbn.
    intros f (p & Hp & <- & <-). rewrite Forall_forall in Hf. by apply Hf.
Qed.
End Binding.

(** The signature schemes that [missing_scheme] lets pass are there. *)
Lemma sign_hash_returns `{GoTPMLaws} pub :
  missing_scheme pub = None →
  (∀ rp, pub_RSAParameters pub = Some rp →
     no_crash (rsa_sign_hash pub) ∧ ∀ h, rsa_sign_hash pub = Ok h → hash_available h = true) ∧
  (∀ ep, pub_ECCParameters pub = Some ep →
     no_crash (ecc_sign_hash pub) ∧ ∀ h, ecc_sign_hash pub = Ok h → hash_available h = true).
Proof.
  unfold missing_scheme, rsa_sign_hash, ecc_sign_hash. intros Hm. split.
  - intros rp Hrp. rewrite Hrp in *. destruct (rp_Sign rp) as [s|]; [|done].
    split; [apply Algorithm_Hash_returns|]. apply Algorithm_Hash_available.
  - intros ep Hep. rewrite Hep in *. destruct (ep_Sign ep) as [s|]; [|].
    + split; [apply Algorithm_Hash_returns|]. apply Algorithm_Hash_available.
    + exfalso. by destruct (pub_RSAParameters pub) as [rp|]; [destruct (decide _)|].
Qed.

(** ** Properties *)
Section Theorems.
Context `{GoCrypto, GoTPM, !GoTPMLaws, GoRuntime}.

(** [ParseAKPublic] dereferences no nil parameters or scheme, whatever the
    blob decodes to, and the hash of a key it returns is linked in. *)
Theorem ParseAKPublic_returns version public :
  no_crash (ParseAKPublic version public) ∧
  ∀ a, ParseAKPublic version public = Ok a → hash_available (ak_Hash a) = true.
Proof.
  unfold ParseAKPublic. destruct (version =? TPMVersion12).
  { pose proof (UnmarshalPub_returns public) as Hr.
    destruct (tpm1_UnmarshalPubRSAPublicKey public); [|done..]. split; [done|].
    intros k [= <-]. apply sha1_available. }
  destruct (version =? TPMVersion20); [|done].
  pose proof (DecodePublic_returns public) as Hr.
  destruct (tpm2_DecodePublic public) as [pub| | |] eqn:Ed; [|done..].
  cbn [wrapf mbind res_bind]. destruct (missing_scheme pub) eqn:Em; [done|].
  pose proof (Public_Key_returns pub) as Hk. destruct (Public_Key pub) as [key| | |]; [|done..].
  cbn [wrapf mbind res_bind].
  destruct (Z.eqb_spec (pub_Type pub) tpm2.AlgRSA) as [Ht|];
    [|destruct (Z.eqb_spec (pub_Type pub) tpm2.AlgECC) as [Ht|]; [|done]].
  - destruct (rsa_parameters _ _ Ed Ht) as [rp Hrp].
    destruct (sign_hash_returns pub Em) as [Hs _]. specialize (Hs rp Hrp) as [Hc Ha].
    destruct (rsa_sign_hash pub); [|done..]. split; [done|]. intros k [= <-]. by apply Ha.
  - destruct (ecc_parameters _ _ Ed Ht) as [ep Hep].
    destruct (sign_hash_returns pub Em) as [_ Hs]. specialize (Hs ep Hep) as [Hc Ha].
    destruct (ecc_sign_hash pub); [|done..]. split; [done|]. intros k [= <-]. by apply Ha.
Qed.

(** C3: [Verify] accepts exactly the valid quotes of the two versions: signed
    by the key, of the right type, with the nonce, and whose digest is that
    of the PCRs provided.  For TPM 1.2 the PCRs come back sorted and all
    marked, for TPM 2.0 those of the quoted bank and selection are marked. *)
Theorem Verify_iff a quote nonce pcrs pcrs' :
  hash_available (ak_Hash a) = true →
  Verify a quote nonce pcrs = (Ok tt, pcrs') ↔
    (q_Version quote = TPMVersion12 ∧ quote12_ok a quote nonce (sort_by pcr_Index pcrs) ∧
     pcrs' = set_quoteVerified <$> sort_by pcr_Index pcrs) ∨
    (q_Version quote = TPMVersion20 ∧ ∃ alg sel, quote20_ok a quote nonce pcrs alg sel ∧
     pcrs' = mark_quoted (list_to_set sel) alg <$> pcrs).
Proof.
  intros Ha. unfold Verify. destruct (Z.eqb_spec (q_Version quote) TPMVersion12) as [->|H12].
  - rewrite validate12Quote_Ok. split; [by left|by intros [[_ ?]|[[=] _]]].
  - destruct (Z.eqb_spec (q_Version quote) TPMVersion20) as [->|H20].
    + rewrite validate20Quote_Ok by done. split; [by right|by intros [[[=] _]|[_ ?]]].
    + split; [done|by intros [[? _]|[? _]]].
Qed.

(** [VerifyAll] returns on all inputs (no nil dereference, no crash of a
    hash), and whatever its outcome the PCR values are those it was given. *)
Theorem VerifyAll_total a quotes nonce pcrs :
  hash_available (ak_Hash a) = true → Forall (λ p, pcr_quoteVerified p = false) pcrs →
  no_crash (VerifyAll a quotes nonce pcrs).1 ∧
  unflag <$> (VerifyAll a quotes nonce pcrs).2 ≡ₚ unflag <$> pcrs.
Proof.
  intros Ha Hf. pose proof (VerifyAll_spec a quotes nonce pcrs Ha Hf) as Hv. unfold spec in Hv.
  destruct (VerifyAll a quotes nonce pcrs) as [[]]; [|done..]. by destruct Hv as (_ & _ & _ & ? & _).
Qed.

(** C2: If [VerifyAll] accepts PCRs none of which was verified before, there
    is a quote and a nonce, and each PCR is covered by one of the quotes,
    valid under the key and the nonce for these very PCR values. *)
Theorem VerifyAll_sound a quotes nonce pcrs pcrs' :
  hash_available (ak_Hash a) = true → Forall (λ p, pcr_quoteVerified p = false) pcrs →
  VerifyAll a quotes nonce pcrs = (Ok tt, pcrs') →
  quotes ≠ [] ∧ nonce ≠ [] ∧ unflag <$> pcrs' ≡ₚ unflag <$> pcrs ∧
  Forall (λ p, ∃ q l, q ∈ quotes ∧ l ≡ₚ unflag <$> pcrs ∧ covers a q nonce l p) pcrs'.
Proof.
  intros Ha Hf E. pose proof (VerifyAll_spec a quotes nonce pcrs Ha Hf) as Hv.
  apply (spec_Ok _ _ _ _ _ _ Hv) in E as (Hq & Hn & Hall & Hp & Hj). split_and!; [done..|].
  rewrite Forall_forall in Hall, Hj |- *. intros p Hpp. by apply Hj, Hall.
Qed.

(** C4: A TPM 2.0 quote binds the PCR values: if it is accepted for two lists
    of PCRs that name each register of a bank once, and in which all digests of
    a bank have the same size, the values of the registers it covers agree, or
    the two strings hashed are a collision. *)
Theorem quote_binds_pcrs a quote nonce1 nonce2 pcrs1 pcrs2 s1 s2 sz :
  hash_available (ak_Hash a) = true →
  validate20Quote a quote nonce1 pcrs1 = (Ok tt, s1) →
  validate20Quote a quote nonce2 pcrs2 = (Ok tt, s2) →
  no_duplicates pcrs1 → no_duplicates pcrs2 →
  sized sz pcrs1 → sized sz pcrs2 →
  ∃ alg sel,
    s1 = mark_quoted (list_to_set sel) alg <$> pcrs1 ∧
    s2 = mark_quoted (list_to_set sel) alg <$> pcrs2 ∧
    ((∀ p1 p2, p1 ∈ pcrs1 → p2 ∈ pcrs2 → pcr_DigestAlg p1 = alg → pcr_DigestAlg p2 = alg →
        pcr_Index p1 = pcr_Index p2 → pcr_Digest p1 = pcr_Digest p2) ∨
     (quoted_bytes alg sel pcrs1 ≠ quoted_bytes alg sel pcrs2 ∧
      hash_sum (ak_Hash a) (quoted_bytes alg sel pcrs1) =
        hash_sum (ak_Hash a) (quoted_bytes alg sel pcrs2))).
Proof.
  intros Ha Hv1 Hv2 Hd1 Hd2 Hs1 Hs2. rewrite validate20Quote_Ok in Hv1, Hv2 by done.
  destruct Hv1 as (alg & sel & Hq1 & ->), Hv2 as (alg2 & sel2 & Hq2 & ->).
  destruct (quote20_same _ _ _ _ _ _ _ _ _ _ Hq1 Hq2) as (<- & <- & _).
  exists alg, sel. split; [done|]. split; [done|].
  destruct (quote20_binding _ _ _ _ _ _ _ _ _ _ _ Hq1 Hq2 Hs1 Hs2) as [Hl|Hc]; [left|by right].
  intros p1 p2 Hp1 Hp2 Ha1 Ha2 Hi. assert (pcr_Index p1 ∈ sel) as Hin.
  { destruct Hq1 as (?&?&?&?&?&ds&_&_&_&_&_&_&_&_&_&_&_&Hf&_).
    rewrite Forall_forall in Hf. by apply Hf. }
  specialize (Hl _ Hin). pose proof (last_digest_unique _ _ Hd1 Hp1) as L1.
  pose proof (last_digest_unique _ _ Hd2 Hp2) as L2. congruence.
Qed.

(** A register named twice escapes this: only the last value listed is
    checked against the quote, yet every entry is marked as verified.  Any
    values can be put in front of a list that a quote accepts, for registers
    the list already has, and they come back verified. *)
Theorem duplicate_pcrs_verified a quote nonce pcrs pcrs' forged :
  hash_available (ak_Hash a) = true →
  validate20Quote a quote nonce pcrs = (Ok tt, pcrs') →
  Forall (λ f, ∃ p, p ∈ pcrs ∧ pcr_Index p = pcr_Index f ∧ pcr_DigestAlg p = pcr_DigestAlg f) forged →
  ∃ alg sel, pcrs' = mark_quoted (list_to_set sel) alg <$> pcrs ∧
    validate20Quote a quote nonce (forged ++ pcrs) =
      (Ok tt, (mark_quoted (list_to_set sel) alg <$> forged) ++ pcrs').
Proof.
  intros Ha Hv1 Hf. rewrite validate20Quote_Ok in Hv1 by done.
  destruct Hv1 as (alg & sel & Hq & ->). exists alg, sel. split; [done|].
  apply validate20Quote_Ok; [done|]. exists alg, sel. rewrite fmap_app. split; [|done].
  by apply quote20_ok_duplicates.
Qed.
End Theorems.

(** ** Witnesses: a quote over PCRs 0 and 7 *)
Section Witnesses.
#[local] Existing Instance sha_crypto.
#[local] Existing Instance std_runtime.

Definition ex_nonce : bytes := str "nonce".
Definition ex_quote : Quote := mkQuote TPMVersion20 (str "quote") (str "signature").
Definition ex_p0 : PCR := mkPCR 0 (Sha.sha256 (str "boot")) crypto_SHA256 false.
Definition ex_p7 : PCR := mkPCR 7 (Sha.sha256 (str "secure boot")) crypto_SHA256 false.
Definition ex_att : AttestationData :=
  mkAttestation 0xff544347 tpm2.TagAttestQuote ex_nonce
    (Some (mkQuoteInfo (mkSelection tpm2.AlgSHA256 [0; 7])
       (Sha.sha256 (pcr_Digest ex_p0 ++ pcr_Digest ex_p7)))) None None.
Definition ex_key : rsa_PublicKey := mkRSA (2 ^ 2047 + 1) 65537.
Definition ex_ak : AKPublic := mkAKPublic (PubRSA ex_key) crypto_SHA256.
(** A signature "verifies" when it is the one of the quote, over its digest. *)
Definition ex_valid (d s : bytes) : bool :=
  bool_decide (d = Sha.sha256 (str "quote")) && bool_decide (s = str "signature").

#[local] Instance ex_tpm : GoTPM :=
  fixed_tpm (mkPublic tpm2.AlgRSA tpm2.AlgSHA256 0
               (Some (mkRSAParams (Some (mkScheme 0x14 tpm2.AlgSHA256)) 2048 65537 (rsa_N ex_key))) None)
    ex_att (mkSignature 0x14 (Some (mkSignatureRSA tpm2.AlgSHA256 (str "signature"))) None)
    crypto_SHA256 (mkRawAttestation [] [] [] []) ex_key ex_valid.
#[local] Instance ex_laws : GoTPMLaws.
Proof. apply fixed_tpm_laws; [reflexivity|by eexists|done|done|by eexists|done]. Qed.

Definition ex_verified : list PCR := set_quoteVerified <$> [ex_p7; ex_p0].

Lemma ParseAKPublic_returns_witness :
  no_crash (ParseAKPublic TPMVersion20 []) ∧
  ∀ a, ParseAKPublic TPMVersion20 [] = Ok a → hash_available (ak_Hash a) = true.
Proof. exact (ParseAKPublic_returns TPMVersion20 []). Defined.

Lemma Verify_iff_witness :
  Verify ex_ak ex_quote ex_nonce [ex_p7; ex_p0] = (Ok tt, ex_verified) ↔
    (q_Version ex_quote = TPMVersion12 ∧
     quote12_ok ex_ak ex_quote ex_nonce (sort_by pcr_Index [ex_p7; ex_p0]) ∧
     ex_verified = set_quoteVerified <$> sort_by pcr_Index [ex_p7; ex_p0]) ∨
    (q_Version ex_quote = TPMVersion20 ∧ ∃ alg sel,
     quote20_ok ex_ak ex_quote ex_nonce [ex_p7; ex_p0] alg sel ∧
     ex_verified = mark_quoted (list_to_set sel) alg <$> [ex_p7; ex_p0]).
Proof. apply Verify_iff. reflexivity. Defined.

Lemma VerifyAll_total_witness :
  no_crash (VerifyAll ex_ak [ex_quote] ex_nonce [ex_p7; ex_p0]).1 ∧
  unflag <$> (VerifyAll ex_ak [ex_quote] ex_nonce [ex_p7; ex_p0]).2 ≡ₚ unflag <$> [ex_p7; ex_p0].
Proof. apply VerifyAll_total; [reflexivity|repeat constructor]. Defined.

Lemma VerifyAll_sound_witness :
  [ex_quote] ≠ [] ∧ ex_nonce ≠ [] ∧ unflag <$> ex_verified ≡ₚ unflag <$> [ex_p7; ex_p0] ∧
  Forall (λ p, ∃ q l, q ∈ [ex_quote] ∧ l ≡ₚ unflag <$> [ex_p7; ex_p0] ∧
            covers ex_ak q ex_nonce l p) ex_verified.
Proof.
  apply VerifyAll_sound; [reflexivity|repeat constructor|vm_compute; reflexivity].
Defined.

Lemma quote_binds_pcrs_witness :
  ∃ alg sel,
    ex_verified = mark_quoted (list_to_set sel) alg <$> [ex_p7; ex_p0] ∧
    reverse ex_verified = mark_quoted (list_to_set sel) alg <$> [ex_p0; ex_p7] ∧
    ((∀ p1 p2, p1 ∈ [ex_p7; ex_p0] → p2 ∈ [ex_p0; ex_p7] →
        pcr_DigestAlg p1 = alg → pcr_DigestAlg p2 = alg →
        pcr_Index p1 = pcr_Index p2 → pcr_Digest p1 = pcr_Digest p2) ∨
     (quoted_bytes alg sel [ex_p7; ex_p0] ≠ quoted_bytes alg sel [ex_p0; ex_p7] ∧
      hash_sum (ak_Hash ex_ak) (quoted_bytes alg sel [ex_p7; ex_p0]) =
        hash_sum (ak_Hash ex_ak) (quoted_bytes alg sel [ex_p0; ex_p7]))).
Proof.
  apply (quote_binds_pcrs ex_ak ex_quote ex_nonce ex_nonce _ _ _ _ (λ _, 32)).
  - reflexivity.
  - vm_compute. reflexivity.
  - vm_compute. reflexivity.
  - apply (bool_decide_unpack _). vm_compute. exact I.
  - apply (bool_decide_unpack _). vm_compute. exact I.
  - repeat (apply Forall_cons; split; [vm_compute; reflexivity|]). apply Forall_nil_2.
  - repeat (apply Forall_cons; split; [vm_compute; reflexivity|]). apply Forall_nil_2.
Defined.

Definition ex_forged0 : PCR := mkPCR 0 (Sha.sha256 (str "evil")) crypto_SHA256 false.

Lemma duplicate_pcrs_verified_witness :
  ∃ alg sel, ex_verified = mark_quoted (list_to_set sel) alg <$> [ex_p7; ex_p0] ∧
    validate20Quote ex_ak ex_quote ex_nonce ([ex_forged0] ++ [ex_p7; ex_p0]) =
      (Ok tt, (mark_quoted (list_to_set sel) alg <$> [ex_forged0]) ++ ex_verified).
Proof.
  apply duplicate_pcrs_verified; [reflexivity|vm_compute; reflexivity|].
  apply Forall_cons; split; [|apply Forall_nil_2].
  exists ex_p0. split_and!; [by right; left|reflexivity|reflexivity].
Defined.

(** The forged value indeed comes back verified. *)
Example ex_forged_verified :
  QuoteVerified <$> (Verify ex_ak ex_quote ex_nonce [ex_forged0; ex_p7; ex_p0]).2 = [true; true; true].
Proof. vm_compute. reflexivity. Qed.
End Witnesses.
