(* ===== verification/Attestation.v ===== *)
(** * The attestation contract ([attest/attest.go], [PlatformParameters])

    The documentation of [PlatformParameters] says when the digests of an event
    log can be considered authentic: the quotes are verified under the AK, the
    log parses, and it verifies against the full set of PCRs.  Here these
    steps are put together, for honest and for doctored PCR lists. *)
From S2P Require Import Prelude GoBytes GoCrypto GoRuntime Attest EventLog Replay Verify.
From S2P Require Import AppendEvents Tpm2 Quote.

Section Contract.
Context `{GoCrypto, GoTPM, !GoTPMLaws, GoRuntime}.

(** What a verifier does with an attestation; [AttestPlatform] produces its
    inputs on the machine attested. *)
Definition check_attestation (a : AKPublic) (quotes : list Quote) (nonce log : bytes)
    (pcrs : list PCR) : res verifyError (list Event) :=
  match VerifyAll a quotes nonce pcrs with
  | (Ok _, pcrs) =>
      el ← lift_error (ParseEventLog log);
      Verify.Verify el pcrs
  | (Err e, _) => Err (VError e)
  | (Panic s, _) => Panic s
  | (NoFuel, _) => NoFuel
  end.





(** Neither the digest nor the index of a PCR value depends on its flag. *)
Lemma explains_value raw p p' ds : unflag p = unflag p' → explains raw p ds → explains raw p' ds.
Proof.
  unfold explains, initial_value, pcr_digest_of. intros [= Hi Hd Ha]. by rewrite Hi, Hd, Ha.
Qed.

Lemma good_pcrs_unflag pcrs pcrs' :
  unflag <$> pcrs' ≡ₚ unflag <$> pcrs → good_pcrs pcrs → good_pcrs pcrs'.
Proof.
  unfold good_pcrs. rewrite !Forall_forall. intros Hp Hg p Hin.
  assert (unflag p ∈ unflag <$> pcrs) as (q & E & Hq)%list_elem_of_fmap.
  { rewrite <- Hp. by apply list_elem_of_fmap_2. }
  injection E as _ _ ->. by apply Hg.
Qed.

(** The events a log reports for some registers. *)
Definition reported (el : EventLog) (indices : list Z) : list (Z * Z * bytes) :=
  (λ e, (re_index e, re_typ e, re_data e)) <$>
    filter (λ e, re_typ e ≠ eventTypeNoAction ∧ re_index e ∈ indices) (rawEvents el).

(** An event of an explained register is returned. *)
Lemma verified_event_Some raw pcrs e :
  e ∈ raw → re_typ e ≠ eventTypeNoAction → index_explained raw pcrs (re_index e) →
  ∃ ev, verified_event raw pcrs e = Some ev ∧
    (ev_Index ev, ev_Type ev, ev_Data ev) = (re_index e, re_typ e, re_data e).
Proof.
  intros He Ht Hx. unfold verified_event. destruct (Z.eqb_spec (re_typ e) eventTypeNoAction); [done|].
  apply bank_is_Some in Hx as [p Hp]. rewrite Hp. cbn.
  apply bank_Some in Hp as (_ & Hi & [ds Hds]). apply explained_digests_Some in Hds as [HF _].
  assert (e ∈ pcr_events (pcr_Index p) raw) as [k Hk]%list_elem_of_lookup
    by by apply list_elem_of_filter.
  destruct (Forall2_lookup_l _ _ _ _ _ HF Hk) as (d & _ & ->). cbn.
  eexists. split; [done|]. cbn. by rewrite Hi.
Qed.

Lemma reported_returned el pcrs indices :
  all_explained (rawEvents el) pcrs → (∀ i, i ∈ indices ↔ i ∈ pcr_Index <$> pcrs) →
  (λ ev, (ev_Index ev, ev_Type ev, ev_Data ev)) <$>
    omap (verified_event (rawEvents el) pcrs) (rawEvents el) = reported el indices.
Proof.
  intros Hall Hidx. unfold reported.
  enough (∀ l, (∀ e, e ∈ l → e ∈ rawEvents el) →
    (λ ev, (ev_Index ev, ev_Type ev, ev_Data ev)) <$> omap (verified_event (rawEvents el) pcrs) l =
    (λ e, (re_index e, re_typ e, re_data e)) <$>
      filter (λ e, re_typ e ≠ eventTypeNoAction ∧ re_index e ∈ indices) l) as Hl by auto.
  induction l as [|e l IH]; intros Hin; [done|].
  specialize (IH (λ e' He', Hin e' (list_elem_of_further _ _ _ He'))).
  destruct (decide (re_typ e ≠ eventTypeNoAction ∧ re_index e ∈ indices)) as [[Ht Hi]|Hn].
  - rewrite filter_cons_True by done. cbn. apply Hidx in Hi.
    destruct (verified_event_Some (rawEvents el) pcrs e) as (ev & -> & E); [by apply Hin; left|done| |].
    { apply list_elem_of_fmap in Hi as (p & -> & Hp). unfold all_explained in Hall.
      rewrite Forall_forall in Hall. by apply Hall. }
    cbn. by rewrite E, IH.
  - rewrite filter_cons_False by done. cbn.
    assert (verified_event (rawEvents el) pcrs e = None) as ->; [|done].
    unfold verified_event. destruct (Z.eqb_spec (re_typ e) eventTypeNoAction); [done|].
    destruct (bank _ _ _) as [p|] eqn:B; [|done]. exfalso. apply Hn. split; [done|].
    apply Hidx. apply bank_Some in B as (Hp & <- & _). by apply list_elem_of_fmap_2.
Qed.

Lemma VerifyAll_single a quote nonce pcrs pcrs' :
  hash_available (ak_Hash a) = true → q_Version quote = TPMVersion20 →
  VerifyAll a [quote] nonce pcrs = (Ok tt, pcrs') ↔
    nonce ≠ [] ∧ Forall (λ p, pcr_quoteVerified p = true) pcrs' ∧
    ∃ alg sel, quote20_ok a quote nonce pcrs alg sel ∧
      pcrs' = mark_quoted (list_to_set sel) alg <$> pcrs.
Proof.
  intros Ha Hv. rewrite <- (validate20Quote_Ok a quote nonce pcrs pcrs' Ha).
  unfold VerifyAll. cbn [verify_quotes]. unfold Quote.Verify. rewrite Hv. cbn [Z.eqb TPMVersion20 TPMVersion12].
  change (TPMVersion20 =? TPMVersion12) with false. change (TPMVersion20 =? TPMVersion20) with true.
  cbv iota. destruct nonce as [|b nonce]; [by split; [|intros [? _]]|].
  change (zlen [quote] =? 0) with false. change (zlen (b :: nonce) =? 0) with false.
  unfold mbind, M_bind, reject_if, wrapM, gets, id. cbn.
  destruct (validate20Quote a quote (b :: nonce) pcrs) as [[[]| | |] s]; cbn;
    [|by (split; [intros [=]|intros (_ & _ & [=])])..].
  destruct (ltb_zlen (filter (λ p, QuoteVerified p = false) s)) as [Hne|F].
  - split; [done|]. intros (_ & Hall & [= ->]). destruct Hne. apply elem_of_nil_inv.
    intros p [Hp Hin]%list_elem_of_filter. rewrite Forall_forall in Hall.
    specialize (Hall p Hin). unfold QuoteVerified in Hp. congruence.
  - split; [|by intros (_ & _ & [= ->])]. intros [= ->]. split_and!; [done| |done].
    apply Forall_forall. intros p Hp. destruct (pcr_quoteVerified p) eqn:E; [done|].
    by destruct (filter_nil_not_elem_of _ _ p F E).
Qed.

Lemma mark_quoted_all qs alg pcrs :
  Forall (λ p, pcr_quoteVerified p = false) pcrs →
  Forall (λ p, pcr_quoteVerified p = true) (mark_quoted qs alg <$> pcrs) ↔
    Forall (λ k, k.1 ∈ qs ∧ k.2 = alg) ((λ p, (pcr_Index p, pcr_DigestAlg p)) <$> pcrs).
Proof.
  intros Hf. rewrite !Forall_fmap. rewrite !Forall_forall in *.
  split; intros Hall p Hp; specialize (Hall p Hp); specialize (Hf p Hp); cbn in *;
    unfold mark_quoted in *.
  - case_bool_decide; cbn in *; [|congruence].
    destruct (Z.eqb_spec (pcr_DigestAlg p) alg); [done|congruence].
  - destruct Hall as [Hi ->]. by rewrite bool_decide_eq_true_2, Z.eqb_refl.
Qed.

(** One quote that covers the PCRs given covers every list with the same
    registers in front. *)
Lemma VerifyAll_forged a quote nonce pcrs pcrs' forged :
  hash_available (ak_Hash a) = true → q_Version quote = TPMVersion20 →
  Forall (λ p, pcr_quoteVerified p = false) (forged ++ pcrs) →
  (λ p, (pcr_Index p, pcr_DigestAlg p)) <$> forged = (λ p, (pcr_Index p, pcr_DigestAlg p)) <$> pcrs →
  VerifyAll a [quote] nonce pcrs = (Ok tt, pcrs') →
  ∃ s, VerifyAll a [quote] nonce (forged ++ pcrs) = (Ok tt, s) ∧ unflag <$> s = unflag <$> forged ++ pcrs.
Proof.
  intros Ha Hv Hf Heq Hok. apply VerifyAll_single in Hok as (Hn & Hall & alg & sel & Hq & ->); [|done..].
  exists (mark_quoted (list_to_set sel) alg <$> (forged ++ pcrs)). split.
  - apply VerifyAll_single; [done..|]. split; [done|]. split.
    + apply mark_quoted_all; [done|]. apply Forall_app in Hf as [_ Hf].
      apply mark_quoted_all in Hall; [|done]. rewrite fmap_app, Heq. by apply Forall_app.
    + exists alg, sel. split; [|done]. apply quote20_ok_duplicates; [done|].
      apply Forall_forall. intros f Hin.
      apply (list_elem_of_fmap_2 (λ p, (pcr_Index p, pcr_DigestAlg p))) in Hin.
      rewrite Heq in Hin. apply list_elem_of_fmap in Hin as (p & [= E1 E2] & Hp). by exists p.
  - rewrite <- list_fmap_compose. apply list_fmap_ext. intros _ p _. cbn. unfold mark_quoted.
    by destruct (_ && _).
Qed.
End Contract.

Section Theorems.
Context `{GoCrypto, GoTPM, !GoTPMLaws, GoRuntime}.


(** From PCR values that a log explains, in front of those a quote covers. *)
Lemma forged_values_accepted a quote nonce pcrs pcrs' log el forged :
  hash_available (ak_Hash a) = true → q_Version quote = TPMVersion20 →
  VerifyAll a [quote] nonce pcrs = (Ok tt, pcrs') →
  ParseEventLog log = Ok el → all_explained (rawEvents el) forged →
  (λ p, (pcr_Index p, pcr_DigestAlg p)) <$> forged = (λ p, (pcr_Index p, pcr_DigestAlg p)) <$> pcrs →
  good_pcrs pcrs → Forall (λ p, pcr_quoteVerified p = false) (forged ++ pcrs) →
  ∃ out, check_attestation a [quote] nonce log (forged ++ pcrs) = Ok out ∧
    (λ ev, (ev_Index ev, ev_Type ev, ev_Data ev)) <$> out = reported el (pcr_Index <$> pcrs).
Proof.
  intros Ha Hv Hok Hl Hx Heq Hg Hf.
  destruct (VerifyAll_forged _ _ _ _ _ _ Ha Hv Hf Heq Hok) as (s & Hs & Hu).
  assert (pcr_Index <$> forged = pcr_Index <$> pcrs) as Hi.
  { apply (f_equal (fmap fst)) in Heq. by rewrite <- !list_fmap_compose in Heq. }
  assert (pcr_Index <$> s = (pcr_Index <$> forged) ++ (pcr_Index <$> pcrs)) as Hsi.
  { apply (f_equal (fmap pcr_Index)) in Hu. by rewrite <- !list_fmap_compose, fmap_app in Hu. }
  assert (all_explained (rawEvents el) s) as Hall.
  { unfold all_explained in *. apply Forall_forall. intros p Hp.
    apply (list_elem_of_fmap_2 pcr_Index) in Hp.
    rewrite Hsi, <- Hi, elem_of_app in Hp.
    assert (pcr_Index p ∈ pcr_Index <$> forged) as (f & -> & Hfin)%list_elem_of_fmap by tauto.
    rewrite Forall_forall in Hx. destruct (Hx f Hfin) as (f' & ds & Hf' & <- & Hex).
    assert (unflag f' ∈ unflag <$> s) as (p' & E & Hp')%list_elem_of_fmap.
    { rewrite Hu. apply list_elem_of_fmap_2. rewrite elem_of_app. by left. }
    exists p', ds. split_and!; [done|by injection E|]. by eapply explains_value. }
  assert (good_pcrs s) as Hgs.
  { apply (good_pcrs_unflag (forged ++ pcrs)); [by rewrite Hu|]. apply Forall_app. split; [|done].
    unfold good_pcrs in *. rewrite Forall_forall in Hg |- *. intros f Hin.
    apply (list_elem_of_fmap_2 (λ p, (pcr_Index p, pcr_DigestAlg p))) in Hin.
    rewrite Heq in Hin. apply list_elem_of_fmap in Hin as (p & [= _ ->] & Hp). by apply Hg. }
  exists (omap (verified_event (rawEvents el) s) (rawEvents el)). split.
  - unfold check_attestation. rewrite Hs, Hl. cbn [lift_error mbind res_bind].
    pose proof (Verify.Verify_spec el s Hgs (parsed_wf_log _ _ Hl)) as Hspec.
    unfold candidates in Hspec. rewrite first_explaining_cons, decide_True in Hspec by done. exact Hspec.
  - apply reported_returned; [done|]. intros i. rewrite Hsi, Hi, elem_of_app. tauto.
Qed.

(** The PCR values that the log replays to, for the registers of [pcrs] *)
Definition forged_pcrs (el : EventLog) (pcrs : list PCR) : list PCR :=
  (λ p, replayed_pcr (rawEvents el) (pcr_Index p) (pcr_DigestAlg p)) <$> pcrs.

(** C5: With registers named twice this is worthless: from one genuine TPM 2.0
    quote and the PCRs it covers, any log is accepted whose events carry
    digests of the bank that is quoted, by putting in front the values that
    this log replays to; and all its events in these registers are returned. *)
Theorem forged_log_accepted a quote nonce pcrs pcrs' log el :
  hash_available (ak_Hash a) = true → q_Version quote = TPMVersion20 →
  VerifyAll a [quote] nonce pcrs = (Ok tt, pcrs') →
  good_pcrs pcrs → Forall (λ p, pcr_quoteVerified p = false) pcrs →
  ParseEventLog log = Ok el →
  Forall (λ p, has_bank (rawEvents el) (pcr_Index p) (pcr_DigestAlg p)) pcrs →
  ∃ out, check_attestation a [quote] nonce log (forged_pcrs el pcrs ++ pcrs) = Ok out ∧
    (λ ev, (ev_Index ev, ev_Type ev, ev_Data ev)) <$> out = reported el (pcr_Index <$> pcrs).
Proof.
  intros Ha Hv Hok Hg Hf Hl Hb. apply (forged_values_accepted _ _ _ _ pcrs'); try done.
  - unfold forged_pcrs, all_explained. apply Forall_fmap, Forall_forall. intros p Hp.
    unfold good_pcrs in Hg. rewrite Forall_forall in Hg, Hb.
    destruct (replayed_pcr_explained (rawEvents el) (pcr_Index p) (pcr_DigestAlg p)) as [ds Hds]; [by apply Hg|by apply Hb|].
    exists (replayed_pcr (rawEvents el) (pcr_Index p) (pcr_DigestAlg p)), ds. split_and!; [|done|done].
    by apply (list_elem_of_fmap_2 (λ p, replayed_pcr (rawEvents el) (pcr_Index p) (pcr_DigestAlg p))).
  - unfold forged_pcrs. by rewrite <- list_fmap_compose.
  - apply Forall_app. split; [|done]. unfold forged_pcrs. by apply Forall_fmap, Forall_true.
Qed.
End Theorems.

(** ** Witnesses: an honest log, and an evil one accepted with the same quote *)
Section Witnesses.
#[local] Existing Instance sha_crypto.
#[local] Existing Instance std_runtime.

Definition ex_log_of (s : string) : bytes :=
  ex_header [mkSpecAlg 11 32] ++
  encode_rawEvent2 [11] (mkRawEvent 0 0 4 (str s) [mkDigest crypto_SHA256 (Sha.sha256 (str s))]).
Definition ex_log_el (s : string) : EventLog :=
  mkEventLog [HashSHA256]
    [mkRawEvent 1 0 4 (str s) [mkDigest crypto_SHA256 (Sha.sha256 (str s))]]
    (Some (mkSpecID [mkSpecAlg 11 32])).
Definition ex_pcr_of (s : string) : PCR :=
  mkPCR 0 (chain crypto_SHA256 (startup_block 32 Byte.x00) [Sha.sha256 (str s)]) crypto_SHA256 false.

Definition ex_boot_att : AttestationData :=
  mkAttestation 0xff544347 tpm2.TagAttestQuote ex_nonce
    (Some (mkQuoteInfo (mkSelection tpm2.AlgSHA256 [0; 7])
       (Sha.sha256 (pcr_Digest (ex_pcr_of "boot") ++ pcr_Digest ex_p7)))) None None.
#[local] Instance ex_boot_tpm : GoTPM :=
  fixed_tpm (mkPublic 0 0 0 None None) ex_boot_att
    (mkSignature 0x14 (Some (mkSignatureRSA tpm2.AlgSHA256 (str "signature"))) None)
    crypto_SHA256 (mkRawAttestation [] [] [] []) ex_key ex_valid.
#[local] Instance ex_boot_laws : GoTPMLaws.
Proof. apply fixed_tpm_laws; [reflexivity|by eexists|done|done|done|done]. Qed.



(** A log with another event, accepted for the genuine quote *)
Lemma forged_log_accepted_witness :
  forged_pcrs (ex_log_el "evil") [ex_pcr_of "boot"; ex_p7] ≠ [ex_pcr_of "boot"; ex_p7] ∧
  ∃ out, check_attestation ex_ak [ex_quote] ex_nonce (ex_log_of "evil")
      (forged_pcrs (ex_log_el "evil") [ex_pcr_of "boot"; ex_p7] ++ [ex_pcr_of "boot"; ex_p7]) = Ok out ∧
    (λ ev, (ev_Index ev, ev_Type ev, ev_Data ev)) <$> out = reported (ex_log_el "evil") [0; 7].
Proof.
  split; [intros E; vm_compute in E; discriminate E|].
  apply (forged_log_accepted ex_ak ex_quote ex_nonce [ex_pcr_of "boot"; ex_p7]
           (set_quoteVerified <$> [ex_pcr_of "boot"; ex_p7])).
  - reflexivity.
  - reflexivity.
  - vm_compute. reflexivity.
  - repeat (apply Forall_cons; split; [reflexivity|]). apply Forall_nil_2.
  - repeat (apply Forall_cons; split; [reflexivity|]). apply Forall_nil_2.
  - vm_compute. reflexivity.
  - apply Forall_cons; split; [|apply Forall_cons; split; [|apply Forall_nil_2]].
    + apply Forall_cons; split; [|apply Forall_nil_2]. exists (Sha.sha256 (str "evil")). split; reflexivity.
    + apply Forall_nil_2.
Defined.
End Witnesses.
