(* ===== verification/UefiEvents.v ===== *)
(** * UEFI event data ([attest/internal/events.go])

    Event types, tagged events, UEFI variables, signature databases, image
    loads and device paths: the data of the events that the secure boot and
    Windows analyses read. *)
From S2P Require Import Prelude GoBytes.

Definition maxNameLen : Z := 2048.
Definition maxDataLen : Z := 1024 * 1024.

(** ** Event types *)
Definition NoAction : Z := 0x00000003.
Definition Separator : Z := 0x00000004.
Definition EventTag : Z := 0x00000006.
Definition EFIVariableDriverConfig : Z := 0x80000001.
Definition EFIBootServicesDriver : Z := 0x80000004.
Definition EFIAction : Z := 0x80000007.
Definition EFIVariableAuthority : Z := 0x800000e0.

Definition eventTypeNames : list (Z * string) := [
  (0x00000000, "Preboot Cert");
  (0x00000001, "POST Code");
  (0x00000002, "Unused");
  (0x00000003, "No Action");
  (0x00000004, "Separator");
  (0x00000005, "Action");
  (0x00000006, "Event Tag");
  (0x00000007, "S-CRTM Contents");
  (0x00000008, "S-CRTM Version");
  (0x00000009, "CPU Microcode");
  (0x0000000A, "Platform Config Flags");
  (0x0000000B, "Table of Devices");
  (0x0000000C, "Compact Hash");
  (0x0000000D, "IPL");
  (0x0000000E, "IPL Partition Data");
  (0x0000000F, "Non-Host Code");
  (0x00000010, "Non-HostConfig");
  (0x00000011, "Non-Host Info");
  (0x00000012, "Omit Boot Device Events");
  (0x80000000, "EFI Event Base");
  (0x80000001, "EFI Variable Driver Config");
  (0x80000002, "EFI Variable Boot");
  (0x80000003, "EFI Boot Services Application");
  (0x80000004, "EFI Boot Services Driver");
  (0x80000005, "EFI Runtime Services Driver");
  (0x80000006, "EFI GPT Event");
  (0x80000007, "EFI Action");
  (0x80000008, "EFI Platform Firmware Blob");
  (0x800000e0, "EFI Variable Authority");
  (0x80000009, "EFI Handoff Tables");
  (0x80000010, "EFI H-CRTM Event")
]%string.

Definition EventType_String (e : Z) : string :=
  match assoc e eventTypeNames with
  | Some s => s
  | None => ("EventType(0x" +:+ hex_trim 8 e +:+ ")")%string
  end.

Definition UntrustedParseEventType (et : Z) : res error Z :=
  if ((et <? 0x80000000) && (0x800000FF <? et)) || ((et <=? 0x0) && (0x12 <? et)) then
    Err (Errorf "event type not between [0x0, 0x12] or [0x80000000, 0x800000FF]: got %#x")
  else match assoc et eventTypeNames with
       | None => Err (Errorf "unknown event type %#x")
       | Some _ => Ok et
       end.

(** ** Tagged events *)
Record TaggedEventData := mkTagged { te_ID : Z; te_Data : bytes }.

Definition ParseTaggedEventData_body (d : bytes) : M reader TaggedEventData :=
  h ← wrapM "reading header: %w" (ReadFull 8);
  let dataLen := le_uint (field 4 4 h) in
  _ ← reject_if (zlen d <? dataLen)
        (Errorf "tagged event len (%d bytes) larger than data length (%d bytes)");
  data ← ReadFull dataLen;
  mret (mkTagged (le_uint (field 0 4 h)) data).

Definition ParseTaggedEventData (d : bytes) : res error TaggedEventData :=
  (ParseTaggedEventData_body d (NewReader d)).1.

(** ** GUIDs *)
Record efiGUID := mkGUID { g_Data1 : Z; g_Data2 : Z; g_Data3 : Z; g_Data4 : bytes }.

#[export] Instance efiGUID_eq_dec : EqDecision efiGUID.
Proof. solve_decision. Defined.

Definition decode_GUID (b : bytes) : efiGUID :=
  mkGUID (le_uint (field 0 4 b)) (le_uint (field 4 2 b)) (le_uint (field 6 2 b)) (field 8 8 b).
Definition encode_GUID (g : efiGUID) : bytes :=
  le_bytes 4 (g_Data1 g) ++ le_bytes 2 (g_Data2 g) ++ le_bytes 2 (g_Data3 g) ++ g_Data4 g.
Definition wf_GUID (g : efiGUID) : Prop :=
  0 ≤ g_Data1 g < 2 ^ 32 ∧ 0 ≤ g_Data2 g < 2 ^ 16 ∧ 0 ≤ g_Data3 g < 2 ^ 16 ∧
  length (g_Data4 g) = 8%nat.

Definition efiGUID_String (d : efiGUID) : string :=
  (hex_pad 8 (g_Data1 d) +:+ "-" +:+ hex_pad 4 (g_Data2 d) +:+ "-" +:+ hex_pad 4 (g_Data3 d)
     +:+ "-" +:+ hex_EncodeToString (take 2 (g_Data4 d)) +:+ "-"
     +:+ hex_EncodeToString (drop 2 (g_Data4 d)))%string.

Definition read_GUID : M reader efiGUID := b ← ReadFull 16; mret (decode_GUID b).

(** A GUID literal: the last eight bytes as one big endian number. *)
Definition guid (d1 d2 d3 d4 : Z) : efiGUID := mkGUID d1 d2 d3 (be_bytes 8 d4).

Definition hashSHA256SigGUID := guid 0xc1c41626 0x504c 0x4092 0xaca941f936934328.
Definition hashSHA1SigGUID := guid 0x826ca512 0xcf10 0x4ac9 0xb187be01496631bd.
Definition hashSHA224SigGUID := guid 0x0b6e5233 0xa65c 0x44c9 0x9407d9ab83bfc8bd.
Definition hashSHA384SigGUID := guid 0xff3e5307 0x9fd0 0x48c9 0x85f18ad56c701e01.
Definition hashSHA512SigGUID := guid 0x093e0fae 0xa6c4 0x4f50 0x9f1bd41e2b89c19a.
Definition keyRSA2048SigGUID := guid 0x3c5766e8 0x269c 0x4e34 0xaa14ed776e85b3b6.
Definition certRSA2048SHA256SigGUID := guid 0xe2b36190 0x879b 0x4a3d 0xad8df2e7bba32784.
Definition certRSA2048SHA1SigGUID := guid 0x67f8444f 0x8743 0x48f1 0xa3281eaab8736080.
Definition certX509SigGUID := guid 0xa5c059a1 0x94e4 0x4aa7 0x87b5ab155c2bf072.
Definition certHashSHA256SigGUID := guid 0x3bd2a492 0x96c0 0x4079 0xb420fcf98ef103ed.
Definition certHashSHA384SigGUID := guid 0x7076876e 0x80c2 0x4ee6 0xaad228b349a6865b.
Definition certHashSHA512SigGUID := guid 0x446dbf63 0x2502 0x4cda 0xbcfa2465d2b0fe9d.
Definition shimLockGUID := guid 0x605dab50 0xe046 0x4300 0xabb63dd810dd8b23.

(** ** UEFI variables *)
Record UEFIVariableDataHeader := mkVarHeader {
  vh_VariableName : efiGUID; vh_UnicodeNameLength : Z; vh_VariableDataLength : Z;
}.
Record UEFIVariableData := mkVariable {
  uv_Header : UEFIVariableDataHeader; uv_UnicodeName : list Z; uv_VariableData : bytes;
}.

(** [for i := 0; uint64(i) < n; i++ { binary.Read(r, ..., &name[i]) }] *)
Fixpoint read_uint16s (n : nat) : M reader (list Z) :=
  match n with
  | O => mret []
  | S n => x ← read_le 2; l ← read_uint16s n; mret (x :: l)
  end.

Definition ParseUEFIVariableData : M reader UEFIVariableData :=
  b ← ReadFull 32;
  let h := mkVarHeader (decode_GUID (field 0 16 b)) (le_uint (field 16 8 b)) (le_uint (field 24 8 b)) in
  _ ← reject_if (maxNameLen <? vh_UnicodeNameLength h) (Errorf "unicode name too long: %d > %d");
  name ← read_uint16s (Z.to_nat (vh_UnicodeNameLength h));
  _ ← reject_if (maxDataLen <? vh_VariableDataLength h) (Errorf "variable data too long: %d > %d");
  data ← ReadFull (vh_VariableDataLength h);
  mret (mkVariable h name data).

(** [ParseUEFIVariableData(bytes.NewReader(b))] *)
Definition parse_variable (b : bytes) : res error UEFIVariableData :=
  (ParseUEFIVariableData (NewReader b)).1.

Definition VarName (v : UEFIVariableData) : list Z := utf16_Decode (uv_UnicodeName v).

Fixpoint names_equal (name comp : list Z) : bool :=
  match name, comp with
  | v :: name, c :: comp => if negb (v =? c) then false else names_equal name comp
  | _, _ => true
  end.
Definition unicodeNameEquals (v : UEFIVariableData) (comp : list Z) : bool :=
  if negb (zlen (uv_UnicodeName v) =? zlen comp) then false else names_equal (uv_UnicodeName v) comp.

Definition shimSbatVarName : list Z := [0x53; 0x62; 0x61; 0x74; 0x4c; 0x65; 0x76; 0x65; 0x6c].
Definition shimMokListTrustedVarName : list Z :=
  [0x4d; 0x6f; 0x6b; 0x4c; 0x69; 0x73; 0x74; 0x54; 0x72; 0x75; 0x73; 0x74; 0x65; 0x64].

(** ** Signatures

    Certificates and their parser belong to crypto/x509: an interface. *)
Class X509 := {
  Certificate : Type;
  ParseCertificate : bytes → res error Certificate;
  ParseCertificate_returns b : no_crash (ParseCertificate b);
}.

Record efiSignatureListHeader := mkSigListHeader {
  slh_SignatureType : efiGUID; slh_SignatureListSize : Z;
  slh_SignatureHeaderSize : Z; slh_SignatureSize : Z;
}.
Definition decode_sigListHeader (b : bytes) : efiSignatureListHeader :=
  mkSigListHeader (decode_GUID (field 0 16 b)) (le_uint (field 16 4 b))
    (le_uint (field 20 4 b)) (le_uint (field 24 4 b)).

Section Signatures.
Context `{X509}.

(** The loops over the signatures of a list; [f] is what is done with the
    signature data.  Sizes are [uint32], the offset is an [int]. *)
Fixpoint read_signatures {A} (fuel : nat) (f : bytes → res error A)
    (h : efiSignatureListHeader) (sigOffset : Z) : M reader (list A) :=
  if uint32 sigOffset <? uint32 (slh_SignatureListSize h - 28) then
    match fuel with
    | O => nofuel
    | S fuel =>
        owner ← read_GUID;
        data ← ReadFull (uint32 (slh_SignatureSize h - 16));
        a ← lift_res (f data);
        l ← read_signatures fuel f h (sigOffset + slh_SignatureSize h);
        mret (a :: l)
    end
  else mret [].

(** The [switch signatureType]: what a list adds to certificates and hashes. *)
Definition read_list_body (h : efiSignatureListHeader) : M reader (list Certificate * list bytes) :=
  n ← gets rd_len;
  let fuel := S (Z.to_nat n) in
  let t := slh_SignatureType h in
  if decide (t = certX509SigGUID) then
    certs ← read_signatures fuel ParseCertificate h 0; mret (certs, [])
  else if decide (t = hashSHA256SigGUID) then
    hashes ← read_signatures fuel Ok h 0; mret ([], hashes)
  else if decide (t = keyRSA2048SigGUID) then fail (Errorf "unhandled RSA2048 key")
  else if decide (t = certRSA2048SHA256SigGUID) then fail (Errorf "unhandled RSA2048-SHA256 key")
  else if decide (t = hashSHA1SigGUID) then fail (Errorf "unhandled SHA1 hash")
  else if decide (t = certRSA2048SHA1SigGUID) then fail (Errorf "unhandled RSA2048-SHA1 key")
  else if decide (t = hashSHA224SigGUID) then fail (Errorf "unhandled SHA224 hash")
  else if decide (t = hashSHA384SigGUID) then fail (Errorf "unhandled SHA384 hash")
  else if decide (t = hashSHA512SigGUID) then fail (Errorf "unhandled SHA512 hash")
  else if decide (t = certHashSHA256SigGUID) then fail (Errorf "unhandled X509-SHA256 hash metadata")
  else if decide (t = certHashSHA384SigGUID) then fail (Errorf "unhandled X509-SHA384 hash metadata")
  else if decide (t = certHashSHA512SigGUID) then fail (Errorf "unhandled X509-SHA512 hash metadata")
  else fail (Errorf "unhandled signature type %s").

(** [for buf.Len() > 0 { ... }] *)
Fixpoint read_lists (fuel : nat) : M reader (list Certificate * list bytes) :=
  n ← gets rd_len;
  if 0 <? n then
    match fuel with
    | O => nofuel
    | S fuel =>
        b ← ReadFull 28;
        let h := decode_sigListHeader b in
        _ ← reject_if (maxDataLen <? slh_SignatureHeaderSize h)
              (Errorf "signature header too large: %d > %d");
        _ ← reject_if (maxDataLen <? slh_SignatureListSize h)
              (Errorf "signature list too large: %d > %d");
        r ← read_list_body h;
        rs ← read_lists fuel;
        mret (r.1 ++ rs.1, r.2 ++ rs.2)
    end
  else mret ([], []).

Definition parseEfiSignatureList (b : bytes) : res error (list Certificate * list bytes) :=
  if zlen b <? 28 then Ok ([], [])
  else (read_lists (S (length b)) (NewReader b)).1.

Definition SignatureData (v : UEFIVariableData) : res error (list Certificate * list bytes) :=
  parseEfiSignatureList (uv_VariableData v).

(** Returns certificates together with an error (or [None] for [nil]). *)
Definition parseEfiSignature (b : bytes) : res error (list Certificate * option error) :=
  if zlen b <? 16 then
    Ok ([], Some (Errorf "invalid signature: buffer smaller than header (%d < %d)"))
  else
    match (owner ← read_GUID; ReadFull (zlen b - 16)) (NewReader b) with
    | (Ok data, _) =>
        match ParseCertificate data with
        | Ok cert => Ok ([cert], None)
        | Err err =>
            match ParseCertificate b with
            | Ok cert => Ok ([cert], Some ErrSigMissingGUID)
            | Err _ => Ok ([], Some err)
            | Panic s => Panic s
            | NoFuel => NoFuel
            end
        | Panic s => Panic s
        | NoFuel => NoFuel
        end
    | (Err err, _) => Ok ([], Some err)
    | (Panic s, _) => Panic s
    | (NoFuel, _) => NoFuel
    end.

Definition ParseUEFIVariableAuthority (v : UEFIVariableData)
    : res error (list Certificate * option error) :=
  if bool_decide (vh_VariableName (uv_Header v) = shimLockGUID) &&
     (unicodeNameEquals v shimSbatVarName || unicodeNameEquals v shimMokListTrustedVarName)
  then Ok ([], None)
  else parseEfiSignature (uv_VariableData v).
End Signatures.

(** ** Device paths and image loads *)
Definition HardwareDevice : Z := 0x01.
Definition MediaDevice : Z := 0x04.
Definition EndDeviceArrayMarker : Z := 0x7f.

Record EFIDevicePathElement := mkElement { dp_Type : Z; dp_Subtype : Z; dp_Data : bytes }.
Record EFIImageLoad := mkImageLoad {
  il_LoadAddr : Z; il_Length : Z; il_LinkAddr : Z; il_DevicePathLen : Z; il_DevPathData : bytes;
}.

Definition parseDevicePathElement : M reader EFIDevicePathElement :=
  t ← wrapM "reading type: %v" (read_le 1);
  st ← wrapM "reading subtype: %v" (read_le 1);
  dataLen ← wrapM "reading data len: %v" (read_le 2);
  _ ← reject_if (maxNameLen <? dataLen) (Errorf "device path data too long: %d > %d");
  _ ← reject_if (dataLen <? 4) (Errorf "device path data too short: %d < %d");
  data ← wrapM "reading data: %v" (ReadFull (dataLen - 4));
  mret (mkElement t st data).

Fixpoint device_path (fuel : nat) : M reader (list EFIDevicePathElement) :=
  n ← gets rd_len;
  if 0 <? n then
    match fuel with
    | O => nofuel
    | S fuel =>
        e ← parseDevicePathElement;
        if dp_Type e =? EndDeviceArrayMarker then mret []
        else l ← device_path fuel; mret (e :: l)
    end
  else mret [].

Definition DevicePath (h : EFIImageLoad) : res error (list EFIDevicePathElement) :=
  (device_path (S (length (il_DevPathData h))) (NewReader (il_DevPathData h))).1.

Definition ParseEFIImageLoad : M reader EFIImageLoad :=
  b ← ReadFull 32;
  let len := le_uint (field 24 8 b) in
  _ ← reject_if (maxNameLen <? len) (Errorf "device path structure too long: %d > %d");
  data ← ReadFull len;
  mret (mkImageLoad (le_uint (field 0 8 b)) (le_uint (field 8 8 b)) (le_uint (field 16 8 b)) len data).

(** [ParseEFIImageLoad(bytes.NewReader(b))] *)
Definition parse_image_load (b : bytes) : res error EFIImageLoad :=
  (ParseEFIImageLoad (NewReader b)).1.

(** ** Formats *)

Lemma decode_encode_GUID g : wf_GUID g → decode_GUID (encode_GUID g) = g.
Proof.
  intros (H1 & H2 & H3 & H4). unfold decode_GUID, encode_GUID.
  destruct g as [d1 d2 d3 d4]. cbn in *. f_equal; field_eval; by rewrite ?le_uint_le_bytes.
Qed.

Lemma length_encode_GUID g : wf_GUID g → length (encode_GUID g) = 16%nat.
Proof. intros (_ & _ & _ & H). unfold encode_GUID. autorewrite with go. rewrite !length_app, !length_le_bytes. lia. Qed.

Lemma encode_decode_GUID b :
  length b = 16%nat → wf_GUID (decode_GUID b) ∧ b = encode_GUID (decode_GUID b).
Proof.
  intros Hl. split.
  - refine (conj (le_field_bound 0 4 b _) (conj (le_field_bound 4 2 b _)
      (conj (le_field_bound 6 2 b _) _))); [lia..|]. cbn. apply length_field. lia.
  - unfold encode_GUID, decode_GUID; cbn. rewrite !le_field by lia.
    rewrite <- (field_split 6 2 8), <- (field_split 4 2 10), <- (field_split 0 4 12).
    by rewrite field_all.
Qed.

Lemma read_GUID_format : format read_GUID encode_GUID wf_GUID.
Proof.
  split.
  - intros s. eapply reads_mono; [by apply reads_struct|].
    intros g used rest _ [-> Hl]. apply encode_decode_GUID. unfold zlen in Hl. lia.
  - intros g rest Hw. unfold read_GUID. erewrite bind_Ok; [|apply ReadFull_app].
    + by rewrite decode_encode_GUID.
    + unfold zlen. rewrite length_encode_GUID by done. done.
Qed.

(** *** Variables *)
Definition encode_uint16s (l : list Z) : bytes := concat (le_bytes 2 <$> l).

Definition encode_variable (v : UEFIVariableData) : bytes :=
  encode_GUID (vh_VariableName (uv_Header v)) ++ le_bytes 8 (vh_UnicodeNameLength (uv_Header v))
    ++ le_bytes 8 (vh_VariableDataLength (uv_Header v))
    ++ encode_uint16s (uv_UnicodeName v) ++ uv_VariableData v.

Definition wf_variable (v : UEFIVariableData) : Prop :=
  wf_GUID (vh_VariableName (uv_Header v)) ∧
  vh_UnicodeNameLength (uv_Header v) = zlen (uv_UnicodeName v) ∧ zlen (uv_UnicodeName v) ≤ maxNameLen ∧
  vh_VariableDataLength (uv_Header v) = zlen (uv_VariableData v) ∧ zlen (uv_VariableData v) ≤ maxDataLen ∧
  Forall (λ x, 0 ≤ x < 2 ^ 16) (uv_UnicodeName v).

Lemma read_uint16s_reads n s :
  reads (read_uint16s n) s
    (λ l used, length l = n ∧ Forall (λ x, 0 ≤ x < 2 ^ 16) l ∧ used = encode_uint16s l).
Proof.
  revert s. induction n as [|n IH]; intros s; cbn [read_uint16s]; [by apply reads_ret|].
  eapply reads_bind; [by apply reads_le|]. intros x used rest -> [-> Hx].
  eapply reads_bind; [apply IH|]. intros l used rest' -> (Hl & Hf & ->).
  apply reads_ret. rewrite app_nil_r. split_and!; [by cbn; rewrite Hl|by constructor|done].
Qed.

Lemma read_uint16s_encode l rest :
  Forall (λ x, 0 ≤ x < 2 ^ 16) l →
  read_uint16s (length l) (NewReader (encode_uint16s l ++ rest)) = (Ok l, NewReader rest).
Proof.
  induction 1 as [|x l Hx Hl IH]; [done|]. cbn [read_uint16s length].
  unfold encode_uint16s. cbn [fmap list_fmap concat]. rewrite <- (assoc_L app).
  erewrite bind_Ok; [|by apply read_le_app]. erewrite bind_Ok; [|exact IH]. done.
Qed.

Lemma ParseUEFIVariableData_format : format ParseUEFIVariableData encode_variable wf_variable.
Proof.
  split.
  - intros s. unfold ParseUEFIVariableData. eapply reads_bind; [by apply reads_ReadFull|].
    intros b used rest -> [-> Hl]. cbv zeta. apply reads_reject_if. intros Hn%Z.ltb_ge. cbn in Hn |- *.
    assert (length b = 32%nat) as Hb by (unfold zlen in Hl; lia).
    eapply reads_bind; [apply read_uint16s_reads|]. intros name used rest' -> (Hnl & Hnf & ->).
    apply reads_reject_if. intros Hd%Z.ltb_ge.
    pose proof (le_field_bound 16 8 b ltac:(lia)). pose proof (le_field_bound 24 8 b ltac:(lia)).
    eapply reads_bind; [apply reads_ReadFull; lia|]. intros data used rest2 -> [-> Hdl].
    apply reads_ret. rewrite app_nil_r.
    destruct (encode_decode_GUID (field 0 16 b)) as [Hg Eg]; [by apply length_field; lia|].
    split.
    + split_and!; cbn; [done|unfold zlen; lia|unfold zlen; lia|lia|lia|done].
    + unfold encode_variable; cbn. rewrite <- Eg, !le_field by lia.
      rewrite (assoc_L app (field 0 16 b)), <- (field_split 0 16 8).
      rewrite (assoc_L app (field 0 24 b)), <- (field_split 0 24 8). by rewrite (field_all b).
  - intros v rest (Hg & Hn & Hnm & Hd & Hdm & Hf). unfold ParseUEFIVariableData, encode_variable.
    set (hdr := encode_GUID (vh_VariableName (uv_Header v)) ++
      le_bytes 8 (vh_UnicodeNameLength (uv_Header v)) ++ le_bytes 8 (vh_VariableDataLength (uv_Header v))).
    replace (_ ++ rest) with (hdr ++ encode_uint16s (uv_UnicodeName v) ++ uv_VariableData v ++ rest)
      by (unfold hdr; by rewrite <- !(assoc_L app)).
    pose proof (length_encode_GUID _ Hg) as HgL.
    pose proof (zlen_nonneg (uv_UnicodeName v)). pose proof (zlen_nonneg (uv_VariableData v)).
    unfold maxNameLen, maxDataLen in *.
    assert (decode_GUID (field 0 16 hdr) = vh_VariableName (uv_Header v)) as E1.
    { unfold hdr. field_eval. by apply decode_encode_GUID. }
    assert (le_uint (field 16 8 hdr) = zlen (uv_UnicodeName v)) as E2.
    { unfold hdr. field_eval. rewrite le_uint_le_bytes; [done|]. rewrite Hn. lia. }
    assert (le_uint (field 24 8 hdr) = zlen (uv_VariableData v)) as E3.
    { unfold hdr. field_eval. rewrite le_uint_le_bytes; [done|]. rewrite Hd. lia. }
    erewrite bind_Ok; [|apply ReadFull_app; unfold hdr; autorewrite with go; unfold zlen; rewrite HgL; lia].
    cbv zeta. cbn [vh_UnicodeNameLength vh_VariableDataLength]. rewrite E1, E2, E3.
    erewrite bind_Ok; [|apply reject_if_Ok; by apply Z.ltb_ge].
    replace (Z.to_nat (zlen (uv_UnicodeName v))) with (length (uv_UnicodeName v)) by (unfold zlen; lia).
    erewrite bind_Ok; [|by apply read_uint16s_encode].
    erewrite bind_Ok; [|apply reject_if_Ok; by apply Z.ltb_ge].
    erewrite bind_Ok; [|by apply ReadFull_app].
    rewrite <- Hn, <- Hd. by destruct v as [[]].
Qed.

(** *** Tagged events *)
Definition encode_tagged (t : TaggedEventData) : bytes :=
  le_bytes 4 (te_ID t) ++ le_bytes 4 (zlen (te_Data t)) ++ te_Data t.
Definition wf_tagged (t : TaggedEventData) : Prop :=
  0 ≤ te_ID t < 2 ^ 32 ∧ zlen (te_Data t) < 2 ^ 32.

Lemma ParseTaggedEventData_reads d s :
  reads (ParseTaggedEventData_body d) s (λ t used, wf_tagged t ∧ used = encode_tagged t).
Proof.
  unfold ParseTaggedEventData_body. eapply reads_bind; [by apply reads_wrapM, reads_ReadFull|].
  intros h used rest -> [-> Hl]. cbv zeta. apply reads_reject_if. intros _.
  assert (length h = 8%nat) as Hh by (unfold zlen in Hl; lia).
  pose proof (le_field_bound 0 4 h ltac:(lia)). pose proof (le_field_bound 4 4 h ltac:(lia)).
  eapply reads_bind; [apply reads_ReadFull; lia|]. intros data used rest2 -> [-> Hdl].
  apply reads_ret. rewrite app_nil_r. split; [split; cbn; lia|].
  unfold encode_tagged; cbn. rewrite Hdl, !le_field by lia.
  by rewrite (assoc_L app), <- (field_split 0 4 4), (field_all h).
Qed.

Lemma ParseTaggedEventData_encode d t rest :
  wf_tagged t → zlen (te_Data t) ≤ zlen d →
  ParseTaggedEventData_body d (NewReader (encode_tagged t ++ rest)) = (Ok t, NewReader rest).
Proof.
  intros [Hi Hs] Hd. unfold ParseTaggedEventData_body, encode_tagged.
  set (hdr := le_bytes 4 (te_ID t) ++ le_bytes 4 (zlen (te_Data t))).
  replace (_ ++ rest) with (hdr ++ te_Data t ++ rest) by (unfold hdr; by rewrite <- !(assoc_L app)).
  pose proof (zlen_nonneg (te_Data t)).
  assert (le_uint (field 0 4 hdr) = te_ID t) as E1
    by (unfold hdr; field_eval; by rewrite le_uint_le_bytes).
  assert (le_uint (field 4 4 hdr) = zlen (te_Data t)) as E2
    by (unfold hdr; field_eval; by rewrite le_uint_le_bytes).
  erewrite bind_Ok; [|apply wrapM_Ok, ReadFull_app; unfold hdr; by autorewrite with go].
  cbv zeta. rewrite E1, E2. erewrite bind_Ok; [|apply reject_if_Ok; by apply Z.ltb_ge].
  erewrite bind_Ok; [|by apply ReadFull_app]. by destruct t.
Qed.

(** *** Signature lists *)

Lemma zlen_encode_GUID g : wf_GUID g → zlen (encode_GUID g) = 16.
Proof. intros. unfold zlen. by rewrite length_encode_GUID. Qed.

(** A signature list: its header and the owners and data of its signatures. *)
Record sigList := mkSigList { sl_Header : efiSignatureListHeader; sl_Signatures : list (efiGUID * bytes) }.

Definition encode_signature (s : efiGUID * bytes) : bytes := encode_GUID s.1 ++ s.2.
Definition encode_signatures (l : list (efiGUID * bytes)) : bytes := concat (encode_signature <$> l).
Definition encode_sigListHeader (h : efiSignatureListHeader) : bytes :=
  encode_GUID (slh_SignatureType h) ++ le_bytes 4 (slh_SignatureListSize h)
    ++ le_bytes 4 (slh_SignatureHeaderSize h) ++ le_bytes 4 (slh_SignatureSize h).
Definition encode_sigList (l : sigList) : bytes :=
  encode_sigListHeader (sl_Header l) ++ encode_signatures (sl_Signatures l).

Definition wf_sigListHeader (h : efiSignatureListHeader) : Prop :=
  wf_GUID (slh_SignatureType h) ∧ 0 ≤ slh_SignatureListSize h < 2 ^ 32 ∧
  0 ≤ slh_SignatureHeaderSize h < 2 ^ 32 ∧ 0 ≤ slh_SignatureSize h < 2 ^ 32.

(** [n] signatures fill a list whose header has sizes [ListSize] and [Size]. *)
Definition fills (h : efiSignatureListHeader) (n : Z) : Prop :=
  (0 < n → (n - 1) * slh_SignatureSize h < slh_SignatureListSize h - 28) ∧
  slh_SignatureListSize h - 28 ≤ n * slh_SignatureSize h.

Definition wf_signature (h : efiSignatureListHeader) (s : efiGUID * bytes) : Prop :=
  wf_GUID s.1 ∧ zlen s.2 + 16 = slh_SignatureSize h.

Definition wf_sigList (l : sigList) : Prop :=
  let h := sl_Header l in
  wf_sigListHeader h ∧ slh_SignatureHeaderSize h ≤ maxDataLen ∧
  28 ≤ slh_SignatureListSize h ≤ maxDataLen ∧
  fills h (zlen (sl_Signatures l)) ∧ Forall (wf_signature h) (sl_Signatures l).

Section SigLists.
Context `{X509}.

(** What a list contributes. *)
Definition list_result (l : sigList) (r : list Certificate * list bytes) : Prop :=
  (slh_SignatureType (sl_Header l) = certX509SigGUID ∧ r.2 = [] ∧
     Forall2 (λ s c, ParseCertificate s.2 = Ok c) (sl_Signatures l) r.1) ∨
  (slh_SignatureType (sl_Header l) = hashSHA256SigGUID ∧ r = ([], snd <$> sl_Signatures l)).

Lemma zlen_encode_signatures h l :
  Forall (wf_signature h) l → zlen (encode_signatures l) = zlen l * slh_SignatureSize h.
Proof.
  induction 1 as [|[o d] l [Ho Hd] Hl IH]; [done|]. unfold encode_signatures, encode_signature.
  cbn [fmap list_fmap concat fst snd] in *. autorewrite with go.
  rewrite zlen_encode_GUID by done.
  unfold encode_signatures in IH. unfold encode_signature in IH. rewrite IH. lia.
Qed.

(** A signature that is read cannot have a size that wraps around, if the
    input is below 2 GiB. *)
Lemma read_signatures_reads {A} fuel (f : bytes → res error A) h off s :
  wf_sigListHeader h → (∀ b, no_crash (f b)) →
  zlen s < Z.of_nat fuel → 0 ≤ off → off + zlen s < 2 ^ 31 →
  reads (read_signatures fuel f h off) s
    (λ l used, ∃ sigs, used = encode_signatures sigs ∧ Forall (wf_signature h) sigs ∧
       Forall2 (λ s a, f s.2 = Ok a) sigs l ∧
       let size := slh_SignatureSize h in
       let limit := uint32 (slh_SignatureListSize h - 28) in
       limit ≤ off + zlen sigs * size ∧ (sigs ≠ [] → off + (zlen sigs - 1) * size < limit)).
Proof.
  intros (Hg & Hls & Hhs & Hss) Hf. revert off s.
  induction fuel as [|fuel IH]; intros off s Hfuel Hoff Hlen; [pose proof (zlen_nonneg s); lia|].
  cbn [read_signatures]. cbv zeta. assert (uint32 off = off) as ->.
  { unfold uint32. apply Z.mod_small. pose proof (zlen_nonneg s). lia. }
  destruct (Z.ltb_spec off (uint32 (slh_SignatureListSize h - 28))) as [Hlt|Hge].
  2: { apply reads_ret. exists []. split_and!; [done|constructor..|unfold zlen; cbn; lia|done]. }
  eapply reads_bind; [apply read_GUID_format|]. intros o used rest -> [Ho ->].
  eapply reads_bind; [apply reads_ReadFull; apply Z.mod_pos_bound; lia|].
  intros d used rest' -> [-> Hd]. apply reads_lift_res; [apply Hf|]. intros a Ha.
  autorewrite with go in Hlen, Hfuel.
  rewrite zlen_encode_GUID in Hlen, Hfuel by done.
  pose proof (zlen_nonneg d). pose proof (zlen_nonneg rest').
  assert (zlen d + 16 = slh_SignatureSize h) as Hsz.
  { unfold uint32 in Hd. destruct (Z.ltb_spec (slh_SignatureSize h) 16) as [Hlt'|].
    - rewrite <- (Z.mod_add _ 1), Z.mod_small in Hd by lia. lia.
    - rewrite Z.mod_small in Hd by lia. lia. }
  eapply reads_bind; [apply IH; lia|].
  intros l used rest2 -> (sigs & -> & Hsig & HF & Hend & Hstart). cbv zeta in *.
  apply reads_ret. rewrite app_nil_r. exists ((o, d) :: sigs). autorewrite with go.
  split_and!; [by unfold encode_signatures, encode_signature; cbn; rewrite <- (assoc_L app)
    |by constructor|by constructor|lia|].
  intros _. destruct sigs as [|s sigs]; [unfold zlen; cbn; lia|].
  specialize (Hstart ltac:(done)). lia.
Qed.

Lemma read_signatures_encode {A} fuel (f : bytes → res error A) h sigs l off rest :
  wf_sigListHeader h → Forall (wf_signature h) sigs → Forall2 (λ s a, f s.2 = Ok a) sigs l →
  (length sigs < fuel)%nat → 0 ≤ off → 28 ≤ slh_SignatureListSize h →
  off + zlen sigs * slh_SignatureSize h < 2 ^ 32 →
  slh_SignatureListSize h - 28 ≤ off + zlen sigs * slh_SignatureSize h →
  (sigs ≠ [] → off + (zlen sigs - 1) * slh_SignatureSize h < slh_SignatureListSize h - 28) →
  read_signatures fuel f h off (NewReader (encode_signatures sigs ++ rest)) =
    (Ok l, NewReader rest).
Proof.
  intros (Hg & Hls & Hhs & Hss) Hw HF. revert fuel off.
  induction HF as [|[o d] a sigs l Ha HF IH]; intros fuel off Hfuel Hoff Hge Hov Hend Hstart.
  - assert (uint32 off = off) as Eo by (unfold uint32; apply Z.mod_small; unfold zlen in Hov; cbn in Hov; lia).
    assert (uint32 (slh_SignatureListSize h - 28) = slh_SignatureListSize h - 28) as El
      by (apply Z.mod_small; lia).
    destruct fuel as [|fuel]; [lia|]. cbn [read_signatures]. rewrite Eo, El.
    destruct (Z.ltb_spec off (slh_SignatureListSize h - 28)); [unfold zlen in Hend; cbn in Hend; lia|done].
  - apply Forall_cons in Hw as [[Ho Hd] Hw]. cbn in Ho, Hd, Ha.
    destruct fuel as [|fuel]; [cbn in Hfuel; lia|]. cbn [read_signatures].
    autorewrite with go in Hov, Hend, Hstart. specialize (Hstart ltac:(done)).
    pose proof (zlen_nonneg sigs). pose proof (zlen_nonneg d).
    assert (0 ≤ zlen sigs * slh_SignatureSize h) by (apply Z.mul_nonneg_nonneg; lia).
    assert (uint32 off = off) as -> by (apply Z.mod_small; lia).
    assert (uint32 (slh_SignatureListSize h - 28) = slh_SignatureListSize h - 28) as ->
      by (apply Z.mod_small; lia).
    destruct (Z.ltb_spec off (slh_SignatureListSize h - 28)); [|lia].
    unfold encode_signatures. cbn [fmap list_fmap concat]. unfold encode_signature at 1. cbn [fst snd].
    rewrite <- !(assoc_L app).
    erewrite bind_Ok; [|by apply read_GUID_format].
    erewrite bind_Ok; [|apply ReadFull_app; unfold uint32; rewrite Z.mod_small; lia].
    erewrite bind_Ok; [|by apply lift_res_Ok].
    erewrite bind_Ok; [|apply IH; [done|cbn in Hfuel; lia|lia|done|lia|lia|]]; [done|].
    intros Hne. lia.
Qed.

Lemma decode_encode_sigListHeader h :
  wf_sigListHeader h → decode_sigListHeader (encode_sigListHeader h) = h.
Proof.
  intros (Hg & Hls & Hhs & Hss). pose proof (length_encode_GUID _ Hg) as HgL.
  unfold decode_sigListHeader, encode_sigListHeader. destruct h as [t ls hs ss]. cbn in *.
  f_equal; field_eval; [by apply decode_encode_GUID|by apply le_uint_le_bytes..].
Qed.

Lemma encode_decode_sigListHeader b :
  length b = 28%nat →
  wf_sigListHeader (decode_sigListHeader b) ∧ b = encode_sigListHeader (decode_sigListHeader b).
Proof.
  intros Hl. destruct (encode_decode_GUID (field 0 16 b)) as [Hg Eg]; [by apply length_field; lia|].
  split.
  - refine (conj Hg (conj (le_field_bound 16 4 b _) (conj (le_field_bound 20 4 b _)
      (le_field_bound 24 4 b _)))); lia.
  - unfold encode_sigListHeader, decode_sigListHeader; cbn.
    rewrite <- Eg, !le_field by lia.
    rewrite <- (field_split 20 4 4), <- (field_split 16 4 8), <- (field_split 0 16 12).
    by rewrite field_all.
Qed.
End SigLists.

Section Databases.
Context `{X509}.

Lemma GUIDs_distinct : certX509SigGUID ≠ hashSHA256SigGUID.
Proof. done. Qed.

Lemma read_list_body_reads h s :
  wf_sigListHeader h → zlen s < 2 ^ 31 →
  slh_SignatureHeaderSize h ≤ maxDataLen → slh_SignatureListSize h ≤ maxDataLen →
  reads (read_list_body h) s
    (λ r used, ∃ sigs, used = encode_signatures sigs ∧
       wf_sigList (mkSigList h sigs) ∧ list_result (mkSigList h sigs) r).
Proof.
  intros Hw Hlen Hhs Hls. unfold read_list_body. apply reads_gets.
  assert (∀ {A} (f : bytes → res error A) (Q : list A → bytes → Prop),
    (∀ b, no_crash (f b)) →
    (∀ l used sigs, used = encode_signatures sigs → wf_sigList (mkSigList h sigs) →
       Forall2 (λ s a, f s.2 = Ok a) sigs l → Q l used) →
    reads (read_signatures (S (Z.to_nat (rd_len (NewReader s)))) f h 0) s Q) as Hread.
  { intros A f Q Hf HQ. eapply reads_mono.
    - apply read_signatures_reads; [done|done|unfold rd_len; cbn; pose proof (zlen_nonneg s); lia|lia|lia].
    - cbv zeta. intros l used rest -> (sigs & -> & Hsig & HF & Hend & Hstart). eapply HQ; [done| |done].
      destruct Hw as (Hg & Hl & Hh & Hs). unfold maxDataLen in *.
      pose proof (zlen_encode_signatures h sigs Hsig) as Hz. autorewrite with go in Hlen.
      pose proof (zlen_nonneg rest). rewrite Hz in Hlen.
      unfold uint32 in Hend, Hstart. destruct (Z.ltb_spec (slh_SignatureListSize h) 28) as [Hlt|Hge].
      { exfalso. rewrite <- (Z.mod_add _ 1), Z.mod_small in Hend by lia. lia. }
      rewrite Z.mod_small in Hend, Hstart by lia.
      split; [done|]. cbn. split; [unfold maxDataLen; lia|]. split; [unfold maxDataLen; lia|].
      split; [|done]. unfold fills. split; [|lia].
      destruct sigs as [|s' sigs]; [by intros ?|]. intros _. by apply Hstart. }
  cbv zeta. destruct (decide (slh_SignatureType h = certX509SigGUID)) as [Ht|Ht].
  { eapply reads_bind; [apply (Hread _ _ (λ l used, ∃ sigs, used = encode_signatures sigs ∧
      wf_sigList (mkSigList h sigs) ∧ Forall2 (λ s a, ParseCertificate s.2 = Ok a) sigs l));
      [apply ParseCertificate_returns|eauto]|].
    intros l used rest -> (sigs & -> & Hwl & HF). apply reads_ret. rewrite app_nil_r.
    exists sigs. split_and!; [done..|]. by left. }
  destruct (decide (slh_SignatureType h = hashSHA256SigGUID)) as [Ht'|Ht'].
  { eapply reads_bind; [apply (Hread _ _ (λ l used, ∃ sigs, used = encode_signatures sigs ∧
      wf_sigList (mkSigList h sigs) ∧ Forall2 (λ s a, (Ok s.2 : res error bytes) = Ok a) sigs l)); [done|eauto]|].
    intros l used rest -> (sigs & -> & Hwl & HF). apply reads_ret. rewrite app_nil_r.
    exists sigs. split_and!; [done..|]. right. split; [done|]. cbn. f_equal.
    clear -HF. induction HF as [|s a sigs l [= <-] HF IH]; cbn; congruence. }
  repeat (destruct (decide _); [apply reads_fail|]). apply reads_fail.
Qed.

Lemma read_list_body_encode l r rest :
  wf_sigList l → list_result l r →
  read_list_body (sl_Header l) (NewReader (encode_signatures (sl_Signatures l) ++ rest)) =
    (Ok r, NewReader rest).
Proof.
  intros (Hw & Hhs & [Hl1 Hl2] & [Hf1 Hf2] & Hsig) Hr. unfold read_list_body.
  erewrite bind_Ok; [|done]. unfold rd_len; cbn [rd_buf NewReader]. cbv zeta.
  destruct l as [h sigs]. cbn [sl_Header sl_Signatures] in *.
  pose proof (zlen_encode_signatures h sigs Hsig) as Hz. unfold maxDataLen in *.
  assert (zlen sigs ≤ zlen (encode_signatures sigs)) as Hle.
  { rewrite Hz. destruct sigs as [|s sigs]; [done|].
    apply Forall_cons in Hsig as [[_ Hs] _]. pose proof (zlen_nonneg s.2).
    pose proof (zlen_nonneg (s :: sigs)). nia. }
  assert (length sigs < S (Z.to_nat (zlen (encode_signatures sigs ++ rest))))%nat as Hfuel.
  { autorewrite with go. unfold zlen in *. lia. }
  assert (0 + zlen sigs * slh_SignatureSize h < 2 ^ 32) as Hov.
  { destruct sigs as [|s sigs]; [unfold zlen; cbn; lia|].
    destruct Hw as (_ & _ & _ & Hss). apply Forall_cons in Hsig as [[_ Hs] Hsig].
    autorewrite with go in *. pose proof (zlen_nonneg sigs).
    (* one signature may overshoot the list *)
    assert (slh_SignatureSize h < 2 ^ 31 ∨ 2 ^ 31 ≤ slh_SignatureSize h) as [|] by lia; [lia|].
    assert (zlen sigs = 0) as -> by nia. lia. }
  assert (sigs ≠ [] → 0 + (zlen sigs - 1) * slh_SignatureSize h < slh_SignatureListSize h - 28) as Hst.
  { intros Hne. apply Hf1. destruct sigs; [done|]. autorewrite with go. pose proof (zlen_nonneg sigs). lia. }
  destruct Hr as [(Ht & Hr2 & HF)|(Ht & ->)]; cbn in Ht.
  - rewrite decide_True by done. erewrite bind_Ok.
    2: { by apply read_signatures_encode. }
    destruct r as [certs hashes]. cbn in *. by subst.
  - rewrite decide_False by (rewrite Ht; intros E; by apply GUIDs_distinct).
    rewrite decide_True by done. erewrite bind_Ok.
    2: { apply (read_signatures_encode _ _ _ sigs (snd <$> sigs)); [done|done| |done..].
         apply Forall2_fmap_r, Forall_Forall2_diag, Forall_true. done. }
    done.
Qed.

Lemma zlen_encode_sigListHeader h : wf_sigListHeader h → zlen (encode_sigListHeader h) = 28.
Proof.
  intros (Hg & _). unfold encode_sigListHeader. autorewrite with go.
  by rewrite zlen_encode_GUID.
Qed.

(** The contents of a signature database: all of its lists, in order. *)
Definition database (ls : list sigList) (rs : list (list Certificate * list bytes)) (b : bytes)
    (r : list Certificate * list bytes) : Prop :=
  b = concat (encode_sigList <$> ls) ∧ Forall wf_sigList ls ∧ Forall2 list_result ls rs ∧
  r = (concat (fst <$> rs), concat (snd <$> rs)).

Lemma read_lists_reads fuel s :
  zlen s < Z.of_nat fuel → zlen s < 2 ^ 31 →
  reads (read_lists fuel) s (λ r used, used = s ∧ ∃ ls rs, database ls rs used r).
Proof.
  revert s. induction fuel as [|fuel IH]; intros s Hf Hlen; [pose proof (zlen_nonneg s); lia|].
  cbn [read_lists]. apply reads_gets. unfold rd_len; cbn [rd_buf NewReader].
  destruct (Z.ltb_spec 0 (zlen s)) as [Hpos|Hz].
  2: { assert (s = []) as -> by (apply zlen_0; pose proof (zlen_nonneg s); lia).
       apply reads_ret. split; [done|]. exists [], []. split_and!; [done|constructor..|done]. }
  eapply reads_bind; [by apply reads_ReadFull|]. intros b used rest -> [-> Hb]. cbv zeta.
  destruct (encode_decode_sigListHeader b) as [Hw Eb]; [unfold zlen in Hb; lia|].
  apply reads_reject_if. intros Hhs%Z.ltb_ge. apply reads_reject_if. intros Hls%Z.ltb_ge.
  autorewrite with go in Hf, Hlen.
  eapply reads_bind; [apply read_list_body_reads; [done|lia|done|done]|].
  intros r used rest' -> (sigs & -> & Hwl & Hr).
  autorewrite with go in Hf, Hlen. pose proof (zlen_nonneg (encode_signatures sigs)).
  eapply reads_bind; [apply IH; lia|]. intros r' used rest2 -> (Eu & ls & rs & (E & Hls' & Hrs & ->)).
  apply reads_ret. rewrite app_nil_r. split; [by rewrite <- Eu|].
  exists (mkSigList (decode_sigListHeader b) sigs :: ls), (r :: rs).
  split_and!; [|by constructor|by constructor|done].
  cbn. unfold encode_sigList at 1. cbn [sl_Header sl_Signatures].
  rewrite <- Eb. by rewrite <- !(assoc_L app), <- E.
Qed.

Lemma read_lists_encode fuel ls rs b r :
  database ls rs b r → (length ls < fuel)%nat → read_lists fuel (NewReader b) = (Ok r, NewReader []).
Proof.
  intros (-> & Hw & HF & ->). revert fuel. induction HF as [|l r ls rs Hr HF IH]; intros fuel Hfuel.
  - destruct fuel; [lia|]. done.
  - apply Forall_cons in Hw as [Hwl Hw]. destruct fuel as [|fuel]; [lia|]. cbn [read_lists].
    cbn [fmap list_fmap concat]. unfold encode_sigList at 1. rewrite <- (assoc_L app).
    destruct Hwl as (Hh & Hhs & Hls & Hrest).
    erewrite bind_Ok; [|done]. unfold rd_len; cbn [rd_buf NewReader].
    autorewrite with go. rewrite zlen_encode_sigListHeader by done.
    pose proof (zlen_nonneg (encode_signatures (sl_Signatures l))).
    pose proof (zlen_nonneg (concat (encode_sigList <$> ls))).
    destruct (Z.ltb_spec 0 (28 + (zlen (encode_signatures (sl_Signatures l)) +
      zlen (concat (encode_sigList <$> ls))))); [|lia].
    erewrite bind_Ok; [|apply ReadFull_app; by apply zlen_encode_sigListHeader]. cbv zeta.
    rewrite decode_encode_sigListHeader by done.
    erewrite bind_Ok; [|apply reject_if_Ok; by apply Z.ltb_ge].
    erewrite bind_Ok; [|apply reject_if_Ok; apply Z.ltb_ge; lia].
    erewrite bind_Ok; [|apply read_list_body_encode; [exact (conj Hh (conj Hhs (conj Hls Hrest)))|done]].
    erewrite bind_Ok; [|apply IH; [done|cbn in Hfuel; lia]]. done.
Qed.

Lemma database_length ls rs b r : database ls rs b r → (length ls ≤ length b)%nat.
Proof.
  intros (-> & Hw & _). induction Hw as [|l ls (Hh & _) Hw IH]; [done|]. cbn.
  rewrite length_app. unfold encode_sigList at 1. rewrite length_app.
  pose proof (zlen_encode_sigListHeader _ Hh) as Hz. unfold zlen in Hz. lia.
Qed.

Lemma parseEfiSignatureList_format b r :
  zlen b < 2 ^ 31 →
  no_crash (parseEfiSignatureList b) ∧
  (parseEfiSignatureList b = Ok r ↔
     (zlen b < 28 ∧ r = ([], [])) ∨ (28 ≤ zlen b ∧ ∃ ls rs, database ls rs b r)).
Proof.
  intros Hlen. unfold parseEfiSignatureList. destruct (Z.ltb_spec (zlen b) 28) as [Hs|Hs].
  { split; [done|]. split; [intros [= <-]; by left|by intros [[_ ->]|[? _]]; [|lia]]. }
  assert (zlen b < Z.of_nat (S (length b))) as Hf by (unfold zlen; lia).
  pose proof (read_lists_reads _ b Hf Hlen) as Hr. split; [by eapply reads_no_crash|].
  split.
  - destruct (read_lists _ _) as [x r'] eqn:E. cbn. intros ->.
    destruct (reads_Ok _ _ _ _ _ Hr E) as (u & rest & _ & -> & (Hu & ls & rs & Hd)).
    right. split; [done|]. exists ls, rs. by rewrite <- Hu.
  - intros [[? _]|(_ & ls & rs & Hd)]; [lia|]. rewrite (read_lists_encode _ ls rs b r); [done|done|].
    apply database_length in Hd. lia.
Qed.
End Databases.

(** *** Device paths *)
Definition encode_element (e : EFIDevicePathElement) : bytes :=
  le_bytes 1 (dp_Type e) ++ le_bytes 1 (dp_Subtype e) ++ le_bytes 2 (zlen (dp_Data e) + 4) ++ dp_Data e.
Definition wf_element (e : EFIDevicePathElement) : Prop :=
  0 ≤ dp_Type e < 2 ^ 8 ∧ 0 ≤ dp_Subtype e < 2 ^ 8 ∧ zlen (dp_Data e) + 4 ≤ maxNameLen.

Lemma parseDevicePathElement_format : format parseDevicePathElement encode_element wf_element.
Proof.
  split.
  - intros s. unfold parseDevicePathElement.
    eapply reads_bind; [by apply reads_wrapM, reads_le|]. intros t used rest -> [-> Ht].
    eapply reads_bind; [by apply reads_wrapM, reads_le|]. intros st used rest' -> [-> Hst].
    eapply reads_bind; [by apply reads_wrapM, reads_le|]. intros n used rest2 -> [-> Hn].
    apply reads_reject_if. intros Hmax%Z.ltb_ge. apply reads_reject_if. intros Hmin%Z.ltb_ge.
    eapply reads_bind; [apply reads_wrapM, reads_ReadFull; lia|]. intros d used rest3 -> [-> Hd].
    apply reads_ret. rewrite app_nil_r. split; [split_and!; cbn; lia|].
    unfold encode_element; cbn [dp_Type dp_Subtype dp_Data]. replace (zlen d + 4) with n by lia. done.
  - intros e rest (Ht & Hs & Hd). unfold parseDevicePathElement, encode_element, maxNameLen in *.
    pose proof (zlen_nonneg (dp_Data e)). rewrite <- !(assoc_L app).
    erewrite bind_Ok; [|by apply wrapM_Ok, read_le_app].
    erewrite bind_Ok; [|by apply wrapM_Ok, read_le_app].
    erewrite bind_Ok; [|apply wrapM_Ok, read_le_app; [done|lia]].
    erewrite bind_Ok; [|apply reject_if_Ok; by apply Z.ltb_ge].
    erewrite bind_Ok; [|apply reject_if_Ok; apply Z.ltb_ge; lia].
    erewrite bind_Ok; [|apply wrapM_Ok, ReadFull_app; lia]. by destruct e.
Qed.

Lemma zlen_encode_element e : zlen (encode_element e) = 4 + zlen (dp_Data e).
Proof. unfold encode_element. autorewrite with go. lia. Qed.

(** A device path: elements up to the end of the data or an end marker, after
    which anything may follow. *)
Definition is_device_path (b : bytes) (l : list EFIDevicePathElement) : Prop :=
  Forall (λ e, wf_element e ∧ dp_Type e ≠ EndDeviceArrayMarker) l ∧
  (b = concat (encode_element <$> l) ∨
   ∃ e rest, wf_element e ∧ dp_Type e = EndDeviceArrayMarker ∧
     b = concat (encode_element <$> l ++ [e]) ++ rest).

Lemma device_path_reads fuel s :
  zlen s < Z.of_nat fuel →
  reads (device_path fuel) s (λ l used, ∀ rest, s = used ++ rest → is_device_path s l).
Proof.
  revert s. induction fuel as [|fuel IH]; intros s Hf; [pose proof (zlen_nonneg s); lia|].
  cbn [device_path]. apply reads_gets. unfold rd_len; cbn [rd_buf NewReader].
  destruct (Z.ltb_spec 0 (zlen s)) as [Hpos|Hz].
  2: { assert (s = []) as -> by (apply zlen_0; pose proof (zlen_nonneg s); lia).
       apply reads_ret. intros _ _. split; [constructor|by left]. }
  eapply reads_bind; [apply parseDevicePathElement_format|]. intros e used rest -> [He ->].
  destruct (Z.eqb_spec (dp_Type e) EndDeviceArrayMarker) as [Hm|Hm].
  - apply reads_ret. intros rest' _. split; [constructor|]. right. exists e, rest.
    split_and!; [done|done|]. cbn. by rewrite app_nil_r.
  - autorewrite with go in Hf. rewrite zlen_encode_element in Hf. pose proof (zlen_nonneg (dp_Data e)).
    eapply reads_bind; [apply IH; lia|]. intros l used rest' -> Hl. apply reads_ret.
    intros _ _. destruct (Hl rest' eq_refl) as [Hall Hb]. split; [by constructor|].
    destruct Hb as [E|(m & rest2 & Hwm & Hmm & E)].
    + left. cbn. by rewrite E.
    + right. exists m, rest2. split_and!; [done|done|]. rewrite E. cbn. by rewrite <- (assoc_L app).
Qed.

Lemma device_path_encode fuel b l :
  is_device_path b l → (length l < fuel)%nat → ∃ r, device_path fuel (NewReader b) = (Ok l, r).
Proof.
  intros [Hall Hb]. revert fuel b Hb. induction Hall as [|e l [He Hm] Hall IH]; intros fuel b Hb Hf.
  - destruct fuel as [|fuel]; [lia|]. destruct Hb as [->|(m & rest & Hwm & Hmm & ->)]; [by eexists|].
    cbn [device_path]. erewrite bind_Ok; [|done]. unfold rd_len; cbn [rd_buf NewReader].
    cbn [app fmap list_fmap concat]. rewrite app_nil_r. autorewrite with go. rewrite zlen_encode_element.
    pose proof (zlen_nonneg (dp_Data m)). pose proof (zlen_nonneg rest).
    destruct (Z.ltb_spec 0 (4 + zlen (dp_Data m) + zlen rest)); [|lia].
    erewrite bind_Ok; [|by apply parseDevicePathElement_format].
    rewrite Hmm, Z.eqb_refl. by eexists.
  - destruct fuel as [|fuel]; [lia|]. cbn [device_path]. erewrite bind_Ok; [|done].
    assert (∃ b', b = encode_element e ++ b' ∧ is_device_path b' l) as (b' & -> & Hb').
    { destruct Hb as [->|(m & rest & Hwm & Hmm & ->)].
      - eexists. split; [done|]. split; [done|by left].
      - eexists. split; [cbn; by rewrite <- (assoc_L app)|]. split; [done|]. right. by exists m, rest. }
    unfold rd_len; cbn [rd_buf NewReader]. autorewrite with go. rewrite zlen_encode_element.
    pose proof (zlen_nonneg (dp_Data e)). pose proof (zlen_nonneg b').
    destruct (Z.ltb_spec 0 (4 + zlen (dp_Data e) + zlen b')); [|lia].
    erewrite bind_Ok; [|by apply parseDevicePathElement_format].
    rewrite (proj2 (Z.eqb_neq _ _)) by done.
    destruct (IH fuel b' (proj2 Hb') ltac:(cbn in Hf; lia)) as [r Hr].
    erewrite bind_Ok; [|exact Hr]. by eexists.
Qed.

Lemma is_device_path_length b l : is_device_path b l → (length l ≤ length b)%nat.
Proof.
  assert (∀ l : list EFIDevicePathElement, (length l ≤ length (concat (encode_element <$> l)))%nat) as Hc.
  { clear. induction l as [|e l IH]; [done|]. cbn. rewrite length_app.
    pose proof (zlen_encode_element e) as Hz. pose proof (zlen_nonneg (dp_Data e)).
    unfold zlen in *. lia. }
  intros [_ [->|(m & rest & _ & _ & ->)]]; [done|].
  specialize (Hc (l ++ [m])). rewrite !length_app in *. lia.
Qed.

(** *** Image loads *)
Definition encode_image_load (l : EFIImageLoad) : bytes :=
  le_bytes 8 (il_LoadAddr l) ++ le_bytes 8 (il_Length l) ++ le_bytes 8 (il_LinkAddr l)
    ++ le_bytes 8 (il_DevicePathLen l) ++ il_DevPathData l.
Definition wf_image_load (l : EFIImageLoad) : Prop :=
  0 ≤ il_LoadAddr l < 2 ^ 64 ∧ 0 ≤ il_Length l < 2 ^ 64 ∧ 0 ≤ il_LinkAddr l < 2 ^ 64 ∧
  il_DevicePathLen l = zlen (il_DevPathData l) ∧ zlen (il_DevPathData l) ≤ maxNameLen.

Lemma ParseEFIImageLoad_format : format ParseEFIImageLoad encode_image_load wf_image_load.
Proof.
  split.
  - intros s. unfold ParseEFIImageLoad. eapply reads_bind; [by apply reads_ReadFull|].
    intros b used rest -> [-> Hl]. cbv zeta. apply reads_reject_if. intros Hn%Z.ltb_ge.
    assert (length b = 32%nat) as Hb by (unfold zlen in Hl; lia).
    pose proof (le_field_bound 24 8 b ltac:(lia)).
    eapply reads_bind; [apply reads_ReadFull; lia|]. intros d used rest' -> [-> Hd].
    apply reads_ret. rewrite app_nil_r. split.
    + refine (conj (le_field_bound 0 8 b _) (conj (le_field_bound 8 8 b _)
        (conj (le_field_bound 16 8 b _) _))); [lia..|]. cbn. lia.
    + unfold encode_image_load; cbn. rewrite !le_field by lia.
      rewrite (assoc_L app (field 0 8 b)), <- (field_split 0 8 8).
      rewrite (assoc_L app (field 0 16 b)), <- (field_split 0 16 8).
      rewrite (assoc_L app (field 0 24 b)), <- (field_split 0 24 8). by rewrite (field_all b).
  - intros l rest (H1 & H2 & H3 & H4 & H5). unfold ParseEFIImageLoad, encode_image_load.
    set (hdr := le_bytes 8 (il_LoadAddr l) ++ le_bytes 8 (il_Length l) ++ le_bytes 8 (il_LinkAddr l)
      ++ le_bytes 8 (il_DevicePathLen l)).
    replace (_ ++ rest) with (hdr ++ il_DevPathData l ++ rest)
      by (unfold hdr; by rewrite <- !(assoc_L app)).
    pose proof (zlen_nonneg (il_DevPathData l)). unfold maxNameLen in *.
    assert (le_uint (field 0 8 hdr) = il_LoadAddr l) as E1
      by (unfold hdr; field_eval; by rewrite le_uint_le_bytes).
    assert (le_uint (field 8 8 hdr) = il_Length l) as E2
      by (unfold hdr; field_eval; by rewrite le_uint_le_bytes).
    assert (le_uint (field 16 8 hdr) = il_LinkAddr l) as E3
      by (unfold hdr; field_eval; by rewrite le_uint_le_bytes).
    assert (le_uint (field 24 8 hdr) = zlen (il_DevPathData l)) as E4.
    { unfold hdr. field_eval. rewrite le_uint_le_bytes; [done|]. rewrite H4. lia. }
    erewrite bind_Ok; [|apply ReadFull_app; unfold hdr; by autorewrite with go].
    cbv zeta. rewrite E1, E2, E3, E4. erewrite bind_Ok; [|apply reject_if_Ok; by apply Z.ltb_ge].
    erewrite bind_Ok; [|by apply ReadFull_app]. rewrite <- H4. by destruct l.
Qed.

(** *** Totality *)
Section Returns.
Context `{X509}.

Lemma parse_variable_returns b : no_crash (parse_variable b).
Proof. by eapply format_no_crash, ParseUEFIVariableData_format. Qed.
Lemma parse_image_load_returns b : no_crash (parse_image_load b).
Proof. by eapply format_no_crash, ParseEFIImageLoad_format. Qed.
Lemma ParseTaggedEventData_returns d : no_crash (ParseTaggedEventData d).
Proof. eapply reads_no_crash, ParseTaggedEventData_reads. Qed.

Lemma DevicePath_format h :
  no_crash (DevicePath h) ∧
  ∀ l, DevicePath h = Ok l ↔ is_device_path (il_DevPathData h) l.
Proof.
  unfold DevicePath. set (b := il_DevPathData h).
  assert (zlen b < Z.of_nat (S (length b))) as Hf by (unfold zlen; lia).
  pose proof (device_path_reads _ b Hf) as Hr. split; [by eapply reads_no_crash|].
  intros l. split.
  - destruct (device_path _ _) as [x r'] eqn:E. cbn. intros ->.
    destruct (reads_Ok _ _ _ _ _ Hr E) as (u & rest & _ & Eb & Hd). by eapply Hd.
  - intros Hd. destruct (device_path_encode (S (length b)) b l Hd) as [r Hr'].
    { apply is_device_path_length in Hd. lia. }
    by rewrite Hr'.
Qed.

Lemma DevicePath_returns h : no_crash (DevicePath h).
Proof. apply DevicePath_format. Qed.

(** An authority event's signature: a GUID and a certificate, or, from a
    faulty shim, the certificate alone. *)
Lemma parseEfiSignature_returns b : no_crash (parseEfiSignature b).
Proof.
  unfold parseEfiSignature. destruct (Z.ltb_spec (zlen b) 16); [done|].
  pose proof (reads_bind read_GUID (λ _, ReadFull (zlen b - 16)) b _ (λ _ _, True)
    (proj1 read_GUID_format b)) as Hr.
  assert (reads (owner ← read_GUID; ReadFull (zlen b - 16)) b (λ _ _, True)) as Hrd.
  { apply Hr. intros g used rest _ _. eapply reads_mono; [apply reads_ReadFull; lia|done]. }
  apply reads_no_crash in Hrd. destruct ((owner ← read_GUID; ReadFull (zlen b - 16)) (NewReader b)) as [[] ?];
    try done.
  pose proof (ParseCertificate_returns a) as Hc. destruct (ParseCertificate a); try done.
  pose proof (ParseCertificate_returns b) as Hc'. by destruct (ParseCertificate b).
Qed.

Lemma ParseUEFIVariableAuthority_returns v : no_crash (ParseUEFIVariableAuthority v).
Proof. unfold ParseUEFIVariableAuthority. destruct (_ && _); [done|]. apply parseEfiSignature_returns. Qed.
End Returns.

Lemma UntrustedParseEventType_table et t :
  UntrustedParseEventType et = Ok t ↔ t = et ∧ et ∈ fst <$> eventTypeNames.
Proof.
  assert (((et <? 0x80000000) && (0x800000FF <? et)) || ((et <=? 0x0) && (0x12 <? et)) = false) as Hr.
  { destruct (Z.ltb_spec et 0x80000000), (Z.ltb_spec 0x800000FF et), (Z.leb_spec et 0x0),
      (Z.ltb_spec 0x12 et); done || lia. }
  unfold UntrustedParseEventType. rewrite Hr.
  destruct (assoc et eventTypeNames) as [s|] eqn:E.
  - apply assoc_Some_In in E. split.
    + intros [= <-]. split; [done|]. by apply (list_elem_of_fmap_2 fst) in E.
    + by intros [-> _].
  - split; [done|]. intros [_ ([k s] & -> & Hin)%list_elem_of_fmap]. exfalso. clear -E Hin.
    induction eventTypeNames as [|[k' s'] l IH]; [by apply elem_of_nil in Hin|]. cbn in E.
    destruct (Z.eqb_spec k k') as [|Hne]; [done|].
    apply elem_of_cons in Hin as [[= ? ?]|Hin]; [done|]. by apply IH.
Qed.

(** ** Properties *)

(** A UEFI variable parses exactly when its data starts with the encoding of
    the variable: GUID, name and value with their lengths, within the limits.
    The result is determined by these bytes, what follows them is not read. *)
Theorem parse_variable_iff b v :
  parse_variable b = Ok v ↔ wf_variable v ∧ ∃ rest, b = encode_variable v ++ rest.
Proof. apply format_iff, ParseUEFIVariableData_format. Qed.

(** C31: The signature database parser returns on every input below 2 GiB, and
    accepts exactly the sequences of signature lists of X.509 certificates and
    SHA-256 hashes (or fewer than 28 bytes, an empty database), collecting all
    of them in order.  In particular the 32-bit size computations never wrap
    around into an accepted list. *)
Theorem parseEfiSignatureList_iff `{X509} b r :
  zlen b < 2 ^ 31 →
  no_crash (parseEfiSignatureList b) ∧
  (parseEfiSignatureList b = Ok r ↔
     (zlen b < 28 ∧ r = ([], [])) ∨ (28 ≤ zlen b ∧ ∃ ls rs, database ls rs b r)).
Proof. apply parseEfiSignatureList_format. Qed.

(** [DevicePath] returns the elements up to the end marker or the end of the
    data, and accepts exactly well-formed elements there. *)
Theorem DevicePath_iff h l :
  no_crash (DevicePath h) ∧ (DevicePath h = Ok l ↔ is_device_path (il_DevPathData h) l).
Proof. split; [apply DevicePath_returns|apply DevicePath_format]. Qed.

(** [UntrustedParseEventType] accepts the types of its table and nothing
    else; its check of the ranges the specification reserves never fires. *)
Theorem UntrustedParseEventType_spec et :
  ((et <? 0x80000000) && (0x800000FF <? et)) || ((et <=? 0x0) && (0x12 <? et)) = false ∧
  (∀ t, UntrustedParseEventType et = Ok t ↔ t = et ∧ et ∈ fst <$> eventTypeNames).
Proof.
  split; [|intros t; apply UntrustedParseEventType_table].
  destruct (Z.ltb_spec et 0x80000000), (Z.ltb_spec 0x800000FF et), (Z.leb_spec et 0x0),
    (Z.ltb_spec 0x12 et); done || lia.
Qed.

Section Witnesses.
(** A certificate "parses" when it starts with an ASN.1 sequence tag. *)
Program Definition tag_x509 : X509 := {|
  Certificate := bytes;
  ParseCertificate b :=
    if decide (head b = Some Byte.x30) then Ok b else Err (LibErr "x509: malformed certificate");
|}.
Next Obligation. intros b. cbn. by destruct (decide _). Qed.
#[local] Existing Instance tag_x509.

Definition ex_owner : efiGUID := guid 1 2 3 4.
Definition ex_cert : bytes := [Byte.x30; Byte.x01; Byte.x02; Byte.x03].
Definition ex_db : list sigList := [
  mkSigList (mkSigListHeader certX509SigGUID 48 0 20) [(ex_owner, ex_cert)];
  mkSigList (mkSigListHeader hashSHA256SigGUID 124 0 48)
    [(ex_owner, be_bytes 32 7); (ex_owner, be_bytes 32 8)]].

Definition ex_db_bytes : bytes := concat (encode_sigList <$> ex_db).

Lemma parseEfiSignatureList_iff_witness :
  let r : list Certificate * list bytes := ([ex_cert], [be_bytes 32 7; be_bytes 32 8]) in
  no_crash (parseEfiSignatureList ex_db_bytes) ∧
  (parseEfiSignatureList ex_db_bytes = Ok r ↔
     (zlen ex_db_bytes < 28 ∧ r = ([], [])) ∨
     (28 ≤ zlen ex_db_bytes ∧ ∃ ls rs, database ls rs ex_db_bytes r)).
Proof. intros r. apply (parseEfiSignatureList_iff ex_db_bytes r). vm_compute. reflexivity. Defined.

Example ex_db_parses :
  parseEfiSignatureList ex_db_bytes = Ok ([ex_cert], [be_bytes 32 7; be_bytes 32 8]).
Proof. vm_compute. reflexivity. Qed.
End Witnesses.
