(* ===== verification/SecureBoot.v ===== *)
(** * The secure boot state ([attest/secureboot.go])

    [ParseSecurebootState]: the events of PCR 7 (secure boot policy) and PCR 2
    (drivers) of a replayed log, and what they say of the configuration. *)
From S2P Require Import Prelude GoBytes GoCrypto Attest EventLog UefiEvents.

(** ** [DriverLoadSource] *)
Inductive DriverLoadSource := UnknownSource | PciMmioSource.

Section SecureBoot.
Context `{GoCrypto, X509}.

Record SecurebootState := mkSecureboot {
  Enabled : bool;
  PlatformKeys : list Certificate;
  PlatformKeyHashes : list bytes;
  ExchangeKeys : list Certificate;
  ExchangeKeyHashes : list bytes;
  PermittedKeys : list Certificate;
  PermittedHashes : list bytes;
  ForbiddenKeys : list Certificate;
  ForbiddenHashes : list bytes;
  PreSeparatorAuthority : list Certificate;
  PostSeparatorAuthority : list Certificate;
  DriverLoadSourceHints : list DriverLoadSource;
  DMAProtectionDisabled : bool;
}.

(** The variables of the function. *)
Record sb_vars := mkVars {
  sv_out : SecurebootState;
  seenSeparator7 : bool;
  seenSeparator2 : bool;
  seenAuthority : bool;
  seenVars : gset (list Z);
  driverSources : list (list EFIDevicePathElement);
}.

Definition sb_init : sb_vars :=
  mkVars (mkSecureboot false [] [] [] [] [] [] [] [] [] [] [] false) false false false ∅ [].

(** Assignments. *)
Definition set_out (f : SecurebootState → SecurebootState) (st : sb_vars) : sb_vars :=
  mkVars (f (sv_out st)) (seenSeparator7 st) (seenSeparator2 st) (seenAuthority st) (seenVars st)
    (driverSources st).
Definition set_Enabled (b : bool) (o : SecurebootState) : SecurebootState :=
  mkSecureboot b (PlatformKeys o) (PlatformKeyHashes o) (ExchangeKeys o) (ExchangeKeyHashes o)
    (PermittedKeys o) (PermittedHashes o) (ForbiddenKeys o) (ForbiddenHashes o)
    (PreSeparatorAuthority o) (PostSeparatorAuthority o) (DriverLoadSourceHints o)
    (DMAProtectionDisabled o).
Definition set_Platform (r : list Certificate * list bytes) (o : SecurebootState) : SecurebootState :=
  mkSecureboot (Enabled o) r.1 r.2 (ExchangeKeys o) (ExchangeKeyHashes o)
    (PermittedKeys o) (PermittedHashes o) (ForbiddenKeys o) (ForbiddenHashes o)
    (PreSeparatorAuthority o) (PostSeparatorAuthority o) (DriverLoadSourceHints o)
    (DMAProtectionDisabled o).
Definition set_Exchange (r : list Certificate * list bytes) (o : SecurebootState) : SecurebootState :=
  mkSecureboot (Enabled o) (PlatformKeys o) (PlatformKeyHashes o) r.1 r.2
    (PermittedKeys o) (PermittedHashes o) (ForbiddenKeys o) (ForbiddenHashes o)
    (PreSeparatorAuthority o) (PostSeparatorAuthority o) (DriverLoadSourceHints o)
    (DMAProtectionDisabled o).
Definition set_Permitted (r : list Certificate * list bytes) (o : SecurebootState) : SecurebootState :=
  mkSecureboot (Enabled o) (PlatformKeys o) (PlatformKeyHashes o) (ExchangeKeys o) (ExchangeKeyHashes o)
    r.1 r.2 (ForbiddenKeys o) (ForbiddenHashes o)
    (PreSeparatorAuthority o) (PostSeparatorAuthority o) (DriverLoadSourceHints o)
    (DMAProtectionDisabled o).
Definition set_Forbidden (r : list Certificate * list bytes) (o : SecurebootState) : SecurebootState :=
  mkSecureboot (Enabled o) (PlatformKeys o) (PlatformKeyHashes o) (ExchangeKeys o) (ExchangeKeyHashes o)
    (PermittedKeys o) (PermittedHashes o) r.1 r.2
    (PreSeparatorAuthority o) (PostSeparatorAuthority o) (DriverLoadSourceHints o)
    (DMAProtectionDisabled o).
Definition add_PreAuthority (c : list Certificate) (o : SecurebootState) : SecurebootState :=
  mkSecureboot (Enabled o) (PlatformKeys o) (PlatformKeyHashes o) (ExchangeKeys o) (ExchangeKeyHashes o)
    (PermittedKeys o) (PermittedHashes o) (ForbiddenKeys o) (ForbiddenHashes o)
    (PreSeparatorAuthority o ++ c) (PostSeparatorAuthority o) (DriverLoadSourceHints o)
    (DMAProtectionDisabled o).
Definition add_PostAuthority (c : list Certificate) (o : SecurebootState) : SecurebootState :=
  mkSecureboot (Enabled o) (PlatformKeys o) (PlatformKeyHashes o) (ExchangeKeys o) (ExchangeKeyHashes o)
    (PermittedKeys o) (PermittedHashes o) (ForbiddenKeys o) (ForbiddenHashes o)
    (PreSeparatorAuthority o) (PostSeparatorAuthority o ++ c) (DriverLoadSourceHints o)
    (DMAProtectionDisabled o).
Definition add_Hint (s : DriverLoadSource) (o : SecurebootState) : SecurebootState :=
  mkSecureboot (Enabled o) (PlatformKeys o) (PlatformKeyHashes o) (ExchangeKeys o) (ExchangeKeyHashes o)
    (PermittedKeys o) (PermittedHashes o) (ForbiddenKeys o) (ForbiddenHashes o)
    (PreSeparatorAuthority o) (PostSeparatorAuthority o) (DriverLoadSourceHints o ++ [s])
    (DMAProtectionDisabled o).
Definition set_DMA (o : SecurebootState) : SecurebootState :=
  mkSecureboot (Enabled o) (PlatformKeys o) (PlatformKeyHashes o) (ExchangeKeys o) (ExchangeKeyHashes o)
    (PermittedKeys o) (PermittedHashes o) (ForbiddenKeys o) (ForbiddenHashes o)
    (PreSeparatorAuthority o) (PostSeparatorAuthority o) (DriverLoadSourceHints o) true.

Definition set_seenSeparator7 (st : sb_vars) : sb_vars :=
  mkVars (sv_out st) true (seenSeparator2 st) (seenAuthority st) (seenVars st) (driverSources st).
Definition set_seenSeparator2 (st : sb_vars) : sb_vars :=
  mkVars (sv_out st) (seenSeparator7 st) true (seenAuthority st) (seenVars st) (driverSources st).
Definition set_seenAuthority (st : sb_vars) : sb_vars :=
  mkVars (sv_out st) (seenSeparator7 st) (seenSeparator2 st) true (seenVars st) (driverSources st).
Definition add_seenVar (n : list Z) (st : sb_vars) : sb_vars :=
  mkVars (sv_out st) (seenSeparator7 st) (seenSeparator2 st) (seenAuthority st)
    ({[n]} ∪ seenVars st) (driverSources st).
Definition add_driverSource (dp : list EFIDevicePathElement) (st : sb_vars) : sb_vars :=
  mkVars (sv_out st) (seenSeparator7 st) (seenSeparator2 st) (seenAuthority st) (seenVars st)
    (driverSources st ++ [dp]).


Definition zero4 : bytes := [Byte.x00; Byte.x00; Byte.x00; Byte.x00].

(** ** PCR 7.  [digestVerify] is the outcome of [e.digestEquals(e.Data)]; the
    last check of each case is [if digestVerify != nil { return ... }]. *)
Definition separator7 (st : sb_vars) (e : Event) (digestVerify : res error ()) : res error sb_vars :=
  _ ← reject (seenSeparator7 st) (Errorf "duplicate separator at event %d");
  let st := set_seenSeparator7 st in
  _ ← reject (bool_decide (ev_Data e ≠ zero4)) (Errorf "invalid separator data at event %d: %v");
  _ ← wrapf "invalid separator digest at event %d: %v" digestVerify;
  Ok st.

Definition efi_action (st : sb_vars) (e : Event) (digestVerify : res error ()) : res error sb_vars :=
  if decide (ev_Data e = str "UEFI Debug Mode") then
    Err (Errorf "a UEFI debugger was present during boot")
  else if decide (ev_Data e = str "DMA Protection Disabled") then
    _ ← wrapf "invalid digest for EFI Action 'DMA Protection Disabled' on event %d: %v" digestVerify;
    Ok (set_out set_DMA st)
  else Err (Errorf "event %d: unexpected EFI action event").

(** The [switch v.VarName()]. *)
Definition assign_variable (st : sb_vars) (v : UEFIVariableData) : res error sb_vars :=
  if decide (VarName v = runes "SecureBoot") then
    match uv_VariableData v with
    | [b] => Ok (set_out (set_Enabled (bool_decide (b = Byte.x01))) st)
    | _ => Err (Errorf "event %d: SecureBoot data len is %d, expected 1")
    end
  else if decide (VarName v = runes "PK") then
    r ← wrapf "event %d: failed parsing platform keys: %v" (SignatureData v);
    Ok (set_out (set_Platform r) st)
  else if decide (VarName v = runes "KEK") then
    r ← wrapf "event %d: failed parsing key exchange keys: %v" (SignatureData v);
    Ok (set_out (set_Exchange r) st)
  else if decide (VarName v = runes "db") then
    r ← wrapf "event %d: failed parsing signature database: %v" (SignatureData v);
    Ok (set_out (set_Permitted r) st)
  else if decide (VarName v = runes "dbx") then
    r ← wrapf "event %d: failed parsing forbidden signature database: %v" (SignatureData v);
    Ok (set_out (set_Forbidden r) st)
  else Ok st.

Definition variable_config (st : sb_vars) (e : Event) (digestVerify : res error ())
    : res error sb_vars :=
  v ← wrapf "failed parsing EFI variable at event %d: %v" (parse_variable (ev_Data e));
  _ ← reject (bool_decide (VarName v ∈ seenVars st)) (Errorf "duplicate EFI variable %q at event %d");
  let st := add_seenVar (VarName v) st in
  _ ← reject (seenSeparator7 st) (Errorf "event %d: variable %q specified after separator");
  _ ← wrapf "invalid digest for variable %q on event %d: %v" digestVerify;
  assign_variable st v.

(** [e.Data[:len(e.Data)-1]] *)
Definition chop (b : bytes) : bytes := take (length b - 1) b.

Definition variable_authority (st : sb_vars) (e : Event) (digestVerify : res error ())
    : res error sb_vars :=
  v ← wrapf "failed parsing UEFI variable data: %v" (parse_variable (ev_Data e));
  a ← ParseUEFIVariableAuthority v;
  digestVerify ← (match a.2 with
    | None => Ok digestVerify
    | Some ErrSigMissingGUID =>
        match digestVerify with
        | Err _ => if 0 <? zlen (ev_Data e) then Ok (digestEquals e (chop (ev_Data e)))
                   else Ok digestVerify
        | _ => Ok digestVerify
        end
    | Some err => Err (Wrapf "failed parsing EFI variable authority at event %d: %v" err)
    end);
  let st := set_seenAuthority st in
  _ ← wrapf "invalid digest for authority on event %d: %v" digestVerify;
  Ok (if negb (seenSeparator7 st) then set_out (add_PreAuthority a.1) st
      else set_out (add_PostAuthority a.1) st).

Definition event7 (st : sb_vars) (e : Event) (et : Z) (digestVerify : res error ())
    : res error sb_vars :=
  if et =? Separator then separator7 st e digestVerify
  else if et =? EFIAction then efi_action st e digestVerify
  else if et =? EFIVariableDriverConfig then variable_config st e digestVerify
  else if et =? EFIVariableAuthority then variable_authority st e digestVerify
  else Err (Errorf "unexpected event type in PCR7: %v").

(** ** PCR 2 *)
Definition separator2 (st : sb_vars) (e : Event) (digestVerify : res error ()) : res error sb_vars :=
  _ ← reject (seenSeparator2 st) (Errorf "duplicate separator at event %d");
  let st := set_seenSeparator2 st in
  _ ← reject (bool_decide (ev_Data e ≠ zero4)) (Errorf "invalid separator data at event %d: %v");
  _ ← wrapf "invalid separator digest at event %d: %v" digestVerify;
  Ok st.

Definition services_driver (st : sb_vars) (e : Event) : res error sb_vars :=
  if negb (seenSeparator2 st) then
    imgLoad ← wrapf "failed parsing EFI image load at boot services driver event %d: %v"
                (parse_image_load (ev_Data e));
    dp ← wrapf "failed to parse device path for driver load event %d: %v" (DevicePath imgLoad);
    Ok (add_driverSource dp st)
  else Ok st.

Definition event2 (st : sb_vars) (e : Event) (et : Z) (digestVerify : res error ())
    : res error sb_vars :=
  if et =? Separator then separator2 st e digestVerify
  else if et =? EFIBootServicesDriver then services_driver st e
  else Ok st.

(** ** The loop over the events *)
Definition sb_event (st : sb_vars) (e : Event) : res error sb_vars :=
  if negb (ev_Index e =? 7) && negb (ev_Index e =? 2) then Ok st
  else
    et ← wrapf "unrecognised event type: %v" (UntrustedParseEventType (uint32 (ev_Type e)));
    let digestVerify := digestEquals e (ev_Data e) in
    if ev_Index e =? 7 then event7 st e et digestVerify else event2 st e et digestVerify.

Fixpoint sb_events (st : sb_vars) (events : list Event) : res error sb_vars :=
  match events with
  | [] => Ok st
  | e :: events => st ← sb_event st e; sb_events st events
  end.

(** The inner loop of [sourceLoop]. *)
Fixpoint driver_hint (seenPCI : bool) (source : list EFIDevicePathElement) : DriverLoadSource :=
  match source with
  | [] => UnknownSource
  | e :: source =>
      let seenPCI := seenPCI || ((dp_Type e =? HardwareDevice) && (dp_Subtype e =? 0x1)) in
      if seenPCI && (dp_Type e =? MediaDevice) && (dp_Subtype e =? 0x8) then PciMmioSource
      else driver_hint seenPCI source
  end.

Fixpoint source_loop (sources : list (list EFIDevicePathElement)) (o : SecurebootState)
    : SecurebootState :=
  match sources with
  | [] => o
  | source :: sources => source_loop sources (add_Hint (driver_hint false source) o)
  end.

Definition ParseSecurebootState (events : list Event) : res error SecurebootState :=
  st ← sb_events sb_init events;
  let out := source_loop (driverSources st) (sv_out st) in
  if negb (Enabled out) then Ok out
  else
    _ ← reject (negb (seenAuthority st)) (Errorf "secure boot was enabled but no key was used");
    _ ← reject ((zlen (PlatformKeys out) =? 0) && (zlen (PlatformKeyHashes out) =? 0))
          (Errorf "secure boot was enabled but no platform keys were known");
    _ ← reject ((zlen (ExchangeKeys out) =? 0) && (zlen (ExchangeKeyHashes out) =? 0))
          (Errorf "secure boot was enabled but no key exchange keys were known");
    _ ← reject ((zlen (PermittedKeys out) =? 0) && (zlen (PermittedHashes out) =? 0))
          (Errorf "secure boot was enabled but no keys or hashes were permitted");
    Ok out.
End SecureBoot.

(** ** The loop as a state machine

    [sb_accept st e st']: event [e] is accepted in state [st] and leads to
    [st'], one constructor per kind of event that the code accepts. *)
Section StateMachine.
Context `{GoCrypto, X509}.

Definition known_type (e : Event) : Prop := etype e ∈ fst <$> eventTypeNames.


(** An authority event from a shim that adds a byte to the data and leaves
    out the owner of the signature has the digest of the data without it. *)
Definition authority_digest (e : Event) (err : option error) : Prop :=
  match err with
  | None => data_digest e
  | Some err => err = ErrSigMissingGUID ∧
      (data_digest e ∨ ev_Data e ≠ [] ∧ digestEquals e (chop (ev_Data e)) = Ok tt)
  end.

Inductive sb_accept (st : sb_vars) (e : Event) : sb_vars → Prop :=
| acc_other_pcr : ev_Index e ≠ 7 → ev_Index e ≠ 2 → sb_accept st e st
| acc_separator7 :
    ev_Index e = 7 → etype e = Separator → seenSeparator7 st = false →
    ev_Data e = zero4 → data_digest e → sb_accept st e (set_seenSeparator7 st)
| acc_dma :
    ev_Index e = 7 → etype e = EFIAction → ev_Data e = str "DMA Protection Disabled" →
    data_digest e → sb_accept st e (set_out set_DMA st)
| acc_variable v st' :
    ev_Index e = 7 → etype e = EFIVariableDriverConfig → parse_variable (ev_Data e) = Ok v →
    VarName v ∉ seenVars st → seenSeparator7 st = false → data_digest e →
    assign_variable (add_seenVar (VarName v) st) v = Ok st' → sb_accept st e st'
| acc_authority v certs err :
    ev_Index e = 7 → etype e = EFIVariableAuthority → parse_variable (ev_Data e) = Ok v →
    ParseUEFIVariableAuthority v = Ok (certs, err) → authority_digest e err →
    sb_accept st e (set_out (if seenSeparator7 st then add_PostAuthority certs
                             else add_PreAuthority certs) (set_seenAuthority st))
| acc_separator2 :
    ev_Index e = 2 → etype e = Separator → seenSeparator2 st = false →
    ev_Data e = zero4 → data_digest e → sb_accept st e (set_seenSeparator2 st)
| acc_driver img dp :
    ev_Index e = 2 → etype e = EFIBootServicesDriver → seenSeparator2 st = false →
    parse_image_load (ev_Data e) = Ok img → DevicePath img = Ok dp →
    sb_accept st e (add_driverSource dp st)
| acc_late_driver :
    ev_Index e = 2 → etype e = EFIBootServicesDriver → seenSeparator2 st = true →
    sb_accept st e st
| acc_other_event2 :
    ev_Index e = 2 → known_type e → etype e ≠ Separator → etype e ≠ EFIBootServicesDriver →
    sb_accept st e st.

Lemma known_type_spec e t :
  UntrustedParseEventType (etype e) = Ok t ↔ t = etype e ∧ known_type e.
Proof. apply UntrustedParseEventType_table. Qed.

Lemma separator7_Ok st e dv st' :
  separator7 st e dv = Ok st' ↔
    seenSeparator7 st = false ∧ ev_Data e = zero4 ∧ dv = Ok tt ∧ st' = set_seenSeparator7 st.
Proof.
  unfold separator7. rewrite !res_bind_unit_Ok, !reject_Ok, wrapf_Ok. split.
  - intros (? & Hd & ? & [= <-]). apply bool_decide_not_false_1 in Hd; [done|apply _].
  - intros (? & ? & ? & ->). split_and!; [done|by apply bool_decide_not_false_2|done|done].
Qed.

Lemma separator2_Ok st e dv st' :
  separator2 st e dv = Ok st' ↔
    seenSeparator2 st = false ∧ ev_Data e = zero4 ∧ dv = Ok tt ∧ st' = set_seenSeparator2 st.
Proof.
  unfold separator2. rewrite !res_bind_unit_Ok, !reject_Ok, wrapf_Ok. split.
  - intros (? & Hd & ? & [= <-]). apply bool_decide_not_false_1 in Hd; [done|apply _].
  - intros (? & ? & ? & ->). split_and!; [done|by apply bool_decide_not_false_2|done|done].
Qed.

Lemma efi_action_Ok st e dv st' :
  efi_action st e dv = Ok st' ↔
    ev_Data e = str "DMA Protection Disabled" ∧ dv = Ok tt ∧ st' = set_out set_DMA st.
Proof.
  unfold efi_action. destruct (decide _) as [E|_].
  { split; [done|]. intros [E' _]. rewrite E in E'. done. }
  destruct (decide _) as [E|E]; [|by split; [|intros [? _]]].
  rewrite res_bind_unit_Ok, wrapf_Ok. split; [by intros [? [= <-]]|by intros (_ & ? & ->)].
Qed.

Lemma variable_config_Ok st e dv st' :
  variable_config st e dv = Ok st' ↔
    ∃ v, parse_variable (ev_Data e) = Ok v ∧ (VarName v ∉ seenVars st) ∧ seenSeparator7 st = false ∧
      dv = Ok tt ∧ assign_variable (add_seenVar (VarName v) st) v = Ok st'.
Proof.
  unfold variable_config. destruct (parse_variable (ev_Data e)) as [v| | |]; cbn [wrapf mbind res_bind];
    [|by split; [|intros (? & [=] & _)]..].
  rewrite !res_bind_unit_Ok, !reject_Ok, wrapf_Ok, bool_decide_eq_false.
  split; [intros (? & ? & ? & ?); by exists v|by intros (? & [= <-] & ?)].
Qed.

Lemma variable_authority_Ok st e st' :
  variable_authority st e (digestEquals e (ev_Data e)) = Ok st' ↔
    ∃ v certs err, parse_variable (ev_Data e) = Ok v ∧
      ParseUEFIVariableAuthority v = Ok (certs, err) ∧ authority_digest e err ∧
      st' = set_out (if seenSeparator7 st then add_PostAuthority certs else add_PreAuthority certs)
              (set_seenAuthority st).
Proof.
  unfold variable_authority, authority_digest, data_digest.
  destruct (parse_variable (ev_Data e)) as [v| | |]; cbn [wrapf mbind res_bind];
    [|by split; [|intros (? & ? & ? & [=] & _)]..].
  destruct (ParseUEFIVariableAuthority v) as [[certs err]| | |] eqn:Ea; cbn [mbind res_bind fst snd];
    [|by split; [|intros (? & ? & ? & [= <-] & ? & _); congruence]..].
  assert (∀ d, (_ ← wrapf "invalid digest for authority on event %d: %v" d;
    Ok (if negb (seenSeparator7 (set_seenAuthority st))
        then set_out (add_PreAuthority certs) (set_seenAuthority st)
        else set_out (add_PostAuthority certs) (set_seenAuthority st))) = Ok st' ↔
    d = Ok tt ∧ st' = set_out (if seenSeparator7 st then add_PostAuthority certs
      else add_PreAuthority certs) (set_seenAuthority st)) as Hend.
  { intros d. rewrite res_bind_unit_Ok, wrapf_Ok. cbn [seenSeparator7 set_seenAuthority].
    destruct (seenSeparator7 st); cbn; (split; [by intros [? [= <-]]|by intros [? ->]]). }
  transitivity (authority_digest e err ∧ st' = set_out (if seenSeparator7 st then
    add_PostAuthority certs else add_PreAuthority certs) (set_seenAuthority st)).
  2: { split; [intros [? ?]; by exists v, certs, err|].
       intros (? & ? & ? & [= <-] & Ea' & ? & ->). rewrite Ea in Ea'. by injection Ea' as <- <-. }
  unfold authority_digest, data_digest. destruct err as [err|]; [|cbn [mbind res_bind]; apply Hend].
  destruct (decide (err = ErrSigMissingGUID)) as [->|Hne].
  2: { split; [by destruct err|by intros [[? _] _]]. }
  destruct (digestEquals e (ev_Data e)) as [[]| | |] eqn:Ed; cbn [mbind res_bind].
  - rewrite Hend. split; [intros [? ?]; split; [split; [done|by left]|done]|by intros [_ ->]].
  - destruct (ltb_zlen (ev_Data e)) as [Hn|Hn]; cbn [mbind res_bind]; rewrite Hend.
    + split; [intros [? ->]; split; [split; [done|by right]|done]|].
      by intros [[_ [?|[_ ?]]] ->].
    + split; [by intros [? _]|]. by intros [[_ [?|[? _]]] _].
  - split; [done|]. intros _. pose proof (digestEquals_no_crash e (ev_Data e)) as Hc. by rewrite Ed in Hc.
  - split; [done|]. intros _. pose proof (digestEquals_no_crash e (ev_Data e)) as Hc. by rewrite Ed in Hc.
Qed.

(** An accepted event that the code looks at has a known type. *)
Lemma sb_accept_known st e st' :
  sb_accept st e st' → ev_Index e = 7 ∨ ev_Index e = 2 → known_type e.
Proof.
  intros Hacc Hi. inversion Hacc; subst; try done; try lia; unfold known_type;
    match goal with E : etype e = _ |- _ => rewrite E end; by apply (bool_decide_unpack _).
Qed.

Lemma event7_accept st e st' :
  ev_Index e = 7 → known_type e → event7 st e (etype e) (digestEquals e (ev_Data e)) = Ok st' ↔ sb_accept st e st'.
Proof.
  intros H7 Hk. unfold event7. split.
  - intros E. destruct (Z.eqb_spec (etype e) Separator);
      [apply separator7_Ok in E as (? & ? & ? & ->); by constructor|].
    destruct (Z.eqb_spec (etype e) EFIAction);
      [apply efi_action_Ok in E as (? & ? & ->); by constructor|].
    destruct (Z.eqb_spec (etype e) EFIVariableDriverConfig);
      [apply variable_config_Ok in E as (v & ? & ? & ? & ? & ?); by econstructor|].
    destruct (Z.eqb_spec (etype e) EFIVariableAuthority); [|done].
    apply variable_authority_Ok in E as (v & certs & err & ? & ? & ? & ->). by econstructor.
  - intros Hacc. inversion Hacc; subst; try congruence;
      match goal with E : etype e = _ |- _ => rewrite E end; cbn.
    + by apply separator7_Ok.
    + by apply efi_action_Ok.
    + apply variable_config_Ok. by eexists.
    + apply variable_authority_Ok. by eexists _, _, _.
Qed.

Lemma event2_accept st e st' :
  ev_Index e = 2 → known_type e → event2 st e (etype e) (digestEquals e (ev_Data e)) = Ok st' ↔ sb_accept st e st'.
Proof.
  intros H2 Hk. unfold event2. split.
  - intros E. destruct (Z.eqb_spec (etype e) Separator);
      [apply separator2_Ok in E as (? & ? & ? & ->); by constructor|].
    destruct (Z.eqb_spec (etype e) EFIBootServicesDriver);
      [|injection E as <-; by apply acc_other_event2].
    unfold services_driver in E. destruct (seenSeparator2 st) eqn:Es; cbn in E.
    + injection E as <-. by apply acc_late_driver.
    + inv_ok E. by econstructor.
  - intros Hacc. inversion Hacc; subst; try congruence;
      try (match goal with E : etype e = _ |- _ => rewrite E end; cbn).
    + by apply separator2_Ok.
    + unfold services_driver.
      match goal with E : seenSeparator2 st = _ |- _ => rewrite E end. cbn.
      match goal with E : parse_image_load _ = _ |- _ => rewrite E end. cbn.
      by match goal with E : DevicePath _ = _ |- _ => rewrite E end.
    + unfold services_driver. by match goal with E : seenSeparator2 _ = _ |- _ => rewrite E end.
    + by rewrite !(proj2 (Z.eqb_neq _ _)).
Qed.

(** The code and the state machine agree. *)
Lemma sb_event_accept st e st' : sb_event st e = Ok st' ↔ sb_accept st e st'.
Proof.
  unfold sb_event. destruct (Z.eqb_spec (ev_Index e) 7) as [H7|H7]; cbn [negb andb].
  2: destruct (Z.eqb_spec (ev_Index e) 2) as [H2|H2]; cbn [negb].
  3: { split; [intros [= <-]; by constructor|]. intros Hacc. by inversion Hacc; subst. }
  all: split;
    [ intros E; apply res_bind_Ok_inv in E as (et & Et%wrapf_Ok_inv & E);
      apply known_type_spec in Et as [-> Hk]
    | intros Hacc; pose proof (sb_accept_known _ _ _ Hacc ltac:(auto)) as Hk; fold (etype e);
      rewrite (proj2 (known_type_spec e (etype e))) by done; cbn [wrapf mbind res_bind] ].
  - by apply event7_accept.
  - by apply event7_accept.
  - by apply event2_accept.
  - by apply event2_accept.
Qed.
End StateMachine.

(** ** What a state says of the events *)
Section Facts.
Context `{GoCrypto, X509}.

Definition is_separator (pcr : Z) (e : Event) : bool := (ev_Index e =? pcr) && (etype e =? Separator).
Definition is_authority (e : Event) : bool := (ev_Index e =? 7) && (etype e =? EFIVariableAuthority).
Definition is_dma (e : Event) : bool := (ev_Index e =? 7) && (etype e =? EFIAction).

(** The variable an event of PCR 7 measures. *)
Definition variable_of (e : Event) : option UEFIVariableData :=
  if (ev_Index e =? 7) && (etype e =? EFIVariableDriverConfig) then
    match parse_variable (ev_Data e) with Ok v => Some v | _ => None end
  else None.
Definition variables (events : list Event) : list UEFIVariableData := omap variable_of events.
Definition the_variable (name : string) (events : list Event) : option UEFIVariableData :=
  head (filter (λ v, VarName v = runes name) (variables events)).

Definition is_enabled (events : list Event) : bool :=
  match the_variable "SecureBoot" events with
  | Some v => bool_decide (uv_VariableData v = [Byte.x01])
  | None => false
  end.
Definition database_in (name : string) (events : list Event) : list Certificate * list bytes :=
  match the_variable name events with
  | Some v => match SignatureData v with Ok r => r | _ => ([], []) end
  | None => ([], [])
  end.

(** The certificates of an authority event. *)
Definition authority_of (e : Event) : list Certificate :=
  if is_authority e then
    match parse_variable (ev_Data e) with
    | Ok v => match ParseUEFIVariableAuthority v with Ok r => r.1 | _ => [] end
    | _ => []
    end
  else [].

(** The device path of a driver event. *)
Definition driver_of (e : Event) : option (list EFIDevicePathElement) :=
  if (ev_Index e =? 2) && (etype e =? EFIBootServicesDriver) then
    match parse_image_load (ev_Data e) with
    | Ok img => match DevicePath img with Ok dp => Some dp | _ => None end
    | _ => None
    end
  else None.

(** The events up to the first separator of a PCR, and those from it on. *)
Fixpoint before_separator (pcr : Z) (events : list Event) : list Event :=
  match events with
  | [] => []
  | e :: events => if is_separator pcr e then [] else e :: before_separator pcr events
  end.
Fixpoint from_separator (pcr : Z) (events : list Event) : list Event :=
  match events with
  | [] => []
  | e :: events => if is_separator pcr e then e :: events else from_separator pcr events
  end.

(** What an accepted event of PCR 7 looks like. *)
Definition legal7 (e : Event) : Prop :=
  ev_Index e = 7 →
  (etype e = Separator ∧ ev_Data e = zero4 ∧ data_digest e) ∨
  (etype e = EFIAction ∧ ev_Data e = str "DMA Protection Disabled" ∧ data_digest e) ∨
  (etype e = EFIVariableDriverConfig ∧ data_digest e ∧ ∃ v, parse_variable (ev_Data e) = Ok v) ∨
  (etype e = EFIVariableAuthority ∧ ∃ v certs err, parse_variable (ev_Data e) = Ok v ∧
     ParseUEFIVariableAuthority v = Ok (certs, err) ∧ authority_digest e err).

(** What an accepted event of PCR 2 looks like: only separators are checked. *)
Definition legal2 (e : Event) : Prop :=
  ev_Index e = 2 → known_type e ∧ (etype e = Separator → ev_Data e = zero4 ∧ data_digest e).

(** The same event, or one of PCR 2 other than a separator with another digest *)
Definition same_but_digest2 (e e' : Event) : Prop :=
  e' = e ∨ ev_Index e = 2 ∧ etype e ≠ Separator ∧
    e' = mkEvent (ev_sequence e) (ev_Index e) (ev_Type e) (ev_Data e) (ev_Digest e').

(** The loop invariant, after the events [done]. *)
Record sb_inv (done : list Event) (st : sb_vars) : Prop := {
  inv_legal : Forall legal7 done;
  inv_names : NoDup (VarName <$> variables done);
  inv_seen n : n ∈ seenVars st ↔ n ∈ VarName <$> variables done;
  inv_sep_policy : seenSeparator7 st = existsb (is_separator 7) done;
  inv_sep_driver : seenSeparator2 st = existsb (is_separator 2) done;
  inv_one_policy : (length (filter (λ e, is_separator 7 e = true) done) ≤ 1)%nat;
  inv_one_driver : (length (filter (λ e, is_separator 2 e = true) done) ≤ 1)%nat;
  inv_order : variables (from_separator 7 done) = [];
  inv_authority : seenAuthority st = existsb is_authority done;
  inv_enabled : Enabled (sv_out st) = is_enabled done;
  inv_PK : (PlatformKeys (sv_out st), PlatformKeyHashes (sv_out st)) = database_in "PK" done;
  inv_KEK : (ExchangeKeys (sv_out st), ExchangeKeyHashes (sv_out st)) = database_in "KEK" done;
  inv_db : (PermittedKeys (sv_out st), PermittedHashes (sv_out st)) = database_in "db" done;
  inv_dbx : (ForbiddenKeys (sv_out st), ForbiddenHashes (sv_out st)) = database_in "dbx" done;
  inv_pre : PreSeparatorAuthority (sv_out st) = concat (authority_of <$> before_separator 7 done);
  inv_post : PostSeparatorAuthority (sv_out st) = concat (authority_of <$> from_separator 7 done);
  inv_DMA : DMAProtectionDisabled (sv_out st) = existsb is_dma done;
  inv_hints : DriverLoadSourceHints (sv_out st) = [];
  inv_drivers : driverSources st = omap driver_of (before_separator 2 done);
}.

Lemma sb_inv_init : sb_inv [] sb_init.
Proof. constructor; cbn; try done; try lia; try apply NoDup_nil_2; try apply Forall_nil_2. intros n. by rewrite elem_of_nil, elem_of_empty. Qed.

Lemma before_separator_snoc pcr l e :
  before_separator pcr (l ++ [e]) =
    if existsb (is_separator pcr) l || is_separator pcr e then before_separator pcr l
    else before_separator pcr l ++ [e].
Proof.
  induction l as [|x l IH]; cbn; [by destruct (is_separator pcr e)|].
  destruct (is_separator pcr x); cbn; [done|]. rewrite IH. by destruct (_ || _).
Qed.

Lemma from_separator_snoc pcr l e :
  from_separator pcr (l ++ [e]) =
    if existsb (is_separator pcr) l then from_separator pcr l ++ [e]
    else if is_separator pcr e then [e] else [].
Proof.
  induction l as [|x l IH]; cbn; [by destruct (is_separator pcr e)|].
  by destruct (is_separator pcr x).
Qed.

Lemma from_separator_none pcr l : existsb (is_separator pcr) l = false → from_separator pcr l = [].
Proof. induction l as [|x l IH]; cbn; [done|]. by destruct (is_separator pcr x). Qed.

Lemma existsb_snoc {A} (f : A → bool) l x : existsb f (l ++ [x]) = existsb f l || f x.
Proof. rewrite existsb_app. cbn. by rewrite orb_false_r. Qed.

Lemma variables_snoc l e :
  variables (l ++ [e]) = variables l ++ match variable_of e with Some v => [v] | None => [] end.
Proof. unfold variables. rewrite omap_app. cbn. by destruct (variable_of e). Qed.

Lemma the_variable_snoc_None name l e : variable_of e = None → the_variable name (l ++ [e]) = the_variable name l.
Proof. intros Hv. unfold the_variable. by rewrite variables_snoc, Hv, app_nil_r. Qed.

Lemma the_variable_snoc name l e v :
  variable_of e = Some v → VarName v ∉ VarName <$> variables l →
  the_variable name (l ++ [e]) =
    if decide (VarName v = runes name) then Some v else the_variable name l.
Proof.
  intros Hv Hn. unfold the_variable. rewrite variables_snoc, Hv, filter_app.
  destruct (decide (VarName v = runes name)) as [E|E].
  - rewrite (filter_cons_True _ v) by done.
    assert (filter (λ v, VarName v = runes name) (variables l) = []) as ->; [|done].
    apply elem_of_nil_inv. intros w [Hw Hin]%list_elem_of_filter. apply Hn. rewrite E, <- Hw.
    by apply list_elem_of_fmap_2.
  - rewrite (filter_cons_False _ v) by done. by rewrite app_nil_r.
Qed.

(** The field a variable of that name assigns. *)
Definition assigned {A} (name : string) (e : Event) (f : UEFIVariableData → A) (old : A) : A :=
  match variable_of e with
  | Some v => if decide (VarName v = runes name) then f v else old
  | None => old
  end.
Definition keys_of (v : UEFIVariableData) : list Certificate * list bytes :=
  match SignatureData v with Ok r => r | _ => ([], []) end.

(** What one event does to the state, field by field. *)
Record sb_effect (st : sb_vars) (e : Event) (st' : sb_vars) : Prop := {
  eff_legal : legal7 e;
  eff_once_policy : is_separator 7 e = true → seenSeparator7 st = false;
  eff_once_driver : is_separator 2 e = true → seenSeparator2 st = false;
  eff_fresh v : variable_of e = Some v → (VarName v ∉ seenVars st) ∧ seenSeparator7 st = false;
  eff_seen : seenVars st' =
    match variable_of e with Some v => {[VarName v]} ∪ seenVars st | None => seenVars st end;
  eff_sep_policy : seenSeparator7 st' = seenSeparator7 st || is_separator 7 e;
  eff_sep_driver : seenSeparator2 st' = seenSeparator2 st || is_separator 2 e;
  eff_authority : seenAuthority st' = seenAuthority st || is_authority e;
  eff_enabled : Enabled (sv_out st') = assigned "SecureBoot" e
    (λ v, bool_decide (uv_VariableData v = [Byte.x01])) (Enabled (sv_out st));
  eff_PK : (PlatformKeys (sv_out st'), PlatformKeyHashes (sv_out st')) =
    assigned "PK" e keys_of (PlatformKeys (sv_out st), PlatformKeyHashes (sv_out st));
  eff_KEK : (ExchangeKeys (sv_out st'), ExchangeKeyHashes (sv_out st')) =
    assigned "KEK" e keys_of (ExchangeKeys (sv_out st), ExchangeKeyHashes (sv_out st));
  eff_db : (PermittedKeys (sv_out st'), PermittedHashes (sv_out st')) =
    assigned "db" e keys_of (PermittedKeys (sv_out st), PermittedHashes (sv_out st));
  eff_dbx : (ForbiddenKeys (sv_out st'), ForbiddenHashes (sv_out st')) =
    assigned "dbx" e keys_of (ForbiddenKeys (sv_out st), ForbiddenHashes (sv_out st));
  eff_pre : PreSeparatorAuthority (sv_out st') = PreSeparatorAuthority (sv_out st) ++
    (if seenSeparator7 st then [] else authority_of e);
  eff_post : PostSeparatorAuthority (sv_out st') = PostSeparatorAuthority (sv_out st) ++
    (if seenSeparator7 st then authority_of e else []);
  eff_DMA : DMAProtectionDisabled (sv_out st') = DMAProtectionDisabled (sv_out st) || is_dma e;
  eff_hints : DriverLoadSourceHints (sv_out st') = DriverLoadSourceHints (sv_out st);
  eff_drivers : driverSources st' = driverSources st ++
    (if seenSeparator2 st then [] else match driver_of e with Some dp => [dp] | None => [] end);
}.

Lemma assigned_the_variable {A} name done e (f : UEFIVariableData → A) (d old new : A) :
  old = match the_variable name done with Some v => f v | None => d end →
  (∀ v, variable_of e = Some v → VarName v ∉ VarName <$> variables done) →
  new = assigned name e f old →
  new = match the_variable name (done ++ [e]) with Some v => f v | None => d end.
Proof.
  intros Ho Hv ->. unfold assigned. destruct (variable_of e) as [v|] eqn:E.
  - rewrite (the_variable_snoc _ _ _ v E) by by apply Hv. by destruct (decide _).
  - by rewrite the_variable_snoc_None.
Qed.

Lemma authority_of_separator e : is_separator 7 e = true → authority_of e = [].
Proof.
  unfold is_separator, authority_of, is_authority. intros [_ ->%Z.eqb_eq]%andb_true_iff.
  by rewrite andb_false_r.
Qed.
Lemma variable_of_separator e : is_separator 7 e = true → variable_of e = None.
Proof.
  unfold is_separator, variable_of. intros [_ ->%Z.eqb_eq]%andb_true_iff. by rewrite andb_false_r.
Qed.
Lemma driver_of_separator e : is_separator 2 e = true → driver_of e = None.
Proof.
  unfold is_separator, driver_of. intros [_ ->%Z.eqb_eq]%andb_true_iff. by rewrite andb_false_r.
Qed.

Lemma separators_snoc pcr done e seen :
  seen = existsb (is_separator pcr) done → (is_separator pcr e = true → seen = false) →
  (length (filter (λ e, is_separator pcr e = true) done) ≤ 1)%nat →
  (length (filter (λ e, is_separator pcr e = true) (done ++ [e])) ≤ 1)%nat.
Proof.
  intros -> Hone Hle. rewrite filter_app, length_app.
  destruct (is_separator pcr e) eqn:E.
  - rewrite (filter_cons_True _ e) by done. cbn.
    assert (filter (λ e, is_separator pcr e = true) done = []) as ->; [|cbn; lia].
    apply elem_of_nil_inv. intros x [Hx Hin]%list_elem_of_filter.
    specialize (Hone eq_refl). apply not_true_iff_false in Hone. apply Hone, existsb_exists.
    exists x. split; [by apply list_elem_of_In|done].
  - rewrite (filter_cons_False _ e) by (by rewrite E). cbn. lia.
Qed.

(** The invariant is kept. *)
Lemma sb_inv_step done st e st' : sb_inv done st → sb_effect st e st' → sb_inv (done ++ [e]) st'.
Proof.
  intros [] []. assert (∀ v, variable_of e = Some v → VarName v ∉ VarName <$> variables done) as Hfresh.
  { intros v Hv. rewrite <- inv_seen0. by apply eff_fresh0. }
  constructor.
  - apply Forall_app. by split; [|constructor].
  - rewrite variables_snoc, fmap_app. destruct (variable_of e) as [v|]; [|by rewrite app_nil_r].
    apply NoDup_app. split_and!; [done| |apply NoDup_singleton].
    intros n Hn ->%list_elem_of_singleton. by apply (Hfresh v).
  - intros n. rewrite eff_seen0, variables_snoc, fmap_app, elem_of_app.
    destruct (variable_of e) as [v|]; cbn.
    + rewrite elem_of_union, elem_of_singleton, list_elem_of_singleton, inv_seen0. tauto.
    + rewrite elem_of_nil, inv_seen0. tauto.
  - by rewrite eff_sep_policy0, existsb_snoc, inv_sep_policy0.
  - by rewrite eff_sep_driver0, existsb_snoc, inv_sep_driver0.
  - by eapply separators_snoc.
  - by eapply separators_snoc.
  - rewrite from_separator_snoc, <- inv_sep_policy0. destruct (seenSeparator7 st) eqn:E.
    + rewrite variables_snoc, inv_order0. destruct (variable_of e) as [v|] eqn:Ev; [|done].
      destruct (eff_fresh0 v eq_refl). congruence.
    + destruct (is_separator 7 e) eqn:Es; [|done]. unfold variables. cbn. by rewrite variable_of_separator.
  - by rewrite eff_authority0, existsb_snoc, inv_authority0.
  - eapply assigned_the_variable; [exact inv_enabled0|done|done].
  - eapply assigned_the_variable; [exact inv_PK0|done|done].
  - eapply assigned_the_variable; [exact inv_KEK0|done|done].
  - eapply assigned_the_variable; [exact inv_db0|done|done].
  - eapply assigned_the_variable; [exact inv_dbx0|done|done].
  - rewrite eff_pre0, before_separator_snoc, <- inv_sep_policy0, inv_pre0.
    destruct (seenSeparator7 st); cbn [orb]; [by rewrite app_nil_r|].
    destruct (is_separator 7 e) eqn:Es; [by rewrite authority_of_separator, app_nil_r|].
    rewrite fmap_app, concat_app. cbn. by rewrite app_nil_r.
  - rewrite eff_post0, from_separator_snoc, <- inv_sep_policy0, inv_post0.
    destruct (seenSeparator7 st) eqn:E.
    + rewrite fmap_app, concat_app. cbn. by rewrite app_nil_r.
    + rewrite from_separator_none by done. destruct (is_separator 7 e) eqn:Es; [|done].
      cbn. by rewrite authority_of_separator.
  - by rewrite eff_DMA0, existsb_snoc, inv_DMA0.
  - by rewrite eff_hints0.
  - rewrite eff_drivers0, before_separator_snoc, <- inv_sep_driver0, inv_drivers0.
    destruct (seenSeparator2 st); cbn [orb]; [by rewrite app_nil_r|].
    destruct (is_separator 2 e) eqn:Es; [by rewrite driver_of_separator, app_nil_r|].
    rewrite omap_app. cbn. by destruct (driver_of e).
Qed.
End Facts.

Section Runs.
Context `{GoCrypto, X509}.

(** Evaluates the descriptions of an event at a known PCR and type. *)
Ltac classify Hi Ht :=
  unfold is_separator, is_authority, is_dma, variable_of, authority_of, driver_of, assigned,
    is_authority, variable_of; rewrite ?Hi, ?Ht; cbn.

(** An event with none of the roles has no effect. *)
Lemma sb_effect_none st e :
  legal7 e → is_separator 7 e = false → is_separator 2 e = false → is_authority e = false →
  is_dma e = false → variable_of e = None → (seenSeparator2 st = true ∨ driver_of e = None) →
  sb_effect st e st.
Proof.
  intros Hl H7 H2 Ha Hd Hv Hdr. assert (authority_of e = []) as Hae by (unfold authority_of; by rewrite Ha).
  constructor; unfold assigned; rewrite ?H7, ?H2, ?Ha, ?Hd, ?Hv, ?Hae, ?orb_false_r; try done.
  - by destruct (seenSeparator7 st); rewrite app_nil_r.
  - by destruct (seenSeparator7 st); rewrite app_nil_r.
  - destruct Hdr as [-> | ->]; [by rewrite app_nil_r|]. by destruct (seenSeparator2 st); rewrite app_nil_r.
Qed.

Lemma assign_variable_effect st v st' :
  assign_variable st v = Ok st' →
  seenVars st' = seenVars st ∧ seenSeparator7 st' = seenSeparator7 st ∧
  seenSeparator2 st' = seenSeparator2 st ∧ seenAuthority st' = seenAuthority st ∧
  driverSources st' = driverSources st ∧
  let pick {A} name (f : UEFIVariableData → A) old :=
    if decide (VarName v = runes name) then f v else old in
  let o := sv_out st in let o' := sv_out st' in
  Enabled o' = pick "SecureBoot"%string (λ v, bool_decide (uv_VariableData v = [Byte.x01])) (Enabled o) ∧
  (PlatformKeys o', PlatformKeyHashes o') = pick "PK"%string keys_of (PlatformKeys o, PlatformKeyHashes o) ∧
  (ExchangeKeys o', ExchangeKeyHashes o') = pick "KEK"%string keys_of (ExchangeKeys o, ExchangeKeyHashes o) ∧
  (PermittedKeys o', PermittedHashes o') = pick "db"%string keys_of (PermittedKeys o, PermittedHashes o) ∧
  (ForbiddenKeys o', ForbiddenHashes o') = pick "dbx"%string keys_of (ForbiddenKeys o, ForbiddenHashes o) ∧
  PreSeparatorAuthority o' = PreSeparatorAuthority o ∧
  PostSeparatorAuthority o' = PostSeparatorAuthority o ∧
  DMAProtectionDisabled o' = DMAProtectionDisabled o ∧
  DriverLoadSourceHints o' = DriverLoadSourceHints o.
Proof.
  cbv zeta. unfold assign_variable, keys_of.
  destruct (decide (VarName v = runes "SecureBoot")) as [E|E1].
  { destruct (uv_VariableData v) as [|b [|]]; [done| |done]. intros [= <-].
    rewrite !decide_False by (rewrite E; done). split_and!; try done. cbn.
    by apply bool_decide_ext; split; [intros ->|intros [=]]. }
  destruct (decide (VarName v = runes "PK")) as [E|E2].
  { intros Hr. inv_ok Hr. rewrite !decide_False by (rewrite E; done).
    rewrite Hm. split_and!; try done. by destruct a. }
  destruct (decide (VarName v = runes "KEK")) as [E|E3].
  { intros Hr. inv_ok Hr. rewrite !decide_False by (rewrite E; done).
    rewrite Hm. split_and!; try done. by destruct a. }
  destruct (decide (VarName v = runes "db")) as [E|E4].
  { intros Hr. inv_ok Hr. rewrite !decide_False by (rewrite E; done).
    rewrite Hm. split_and!; try done. by destruct a. }
  destruct (decide (VarName v = runes "dbx")) as [E|E5].
  { intros Hr. inv_ok Hr. rewrite Hm. split_and!; try done. by destruct a. }
  by intros [= <-].
Qed.

(** What an event adds to one of the lists depends on the separators seen. *)
Ltac before_or_after st :=
  destruct (seenSeparator7 st), (seenSeparator2 st); cbn; rewrite ?app_nil_r.

Lemma sb_accept_effect st e st' : sb_accept st e st' → sb_effect st e st'.
Proof.
  intros Hacc. destruct Hacc as [H7 H2|Hi Ht Hs Hd Hg|Hi Ht Hd Hg|v st' Hi Ht Hp Hn Hs Hg Ha
    |v certs err Hi Ht Hp Ha Hg|Hi Ht Hs Hd Hg|img dp Hi Ht Hs Hp Hd|Hi Ht Hs|Hi Hk Hns Hnd].
  - apply Z.eqb_neq in H7 as H7'. apply Z.eqb_neq in H2 as H2'. apply sb_effect_none; classify H7' H2'; try done.
    + by intros ?.
    + by right.
  - constructor; classify Hi Ht; rewrite ?orb_true_r, ?orb_false_r, ?Hs; try done; try by before_or_after st.
    intros _. by left.
  - constructor; classify Hi Ht; rewrite ?orb_true_r, ?orb_false_r; try done; try by before_or_after st.
    intros _. right; by left.
  - apply assign_variable_effect in Ha as (Es & E7 & E2 & Ea & Ed & Een & Epk & Ekek & Edb & Edbx &
      Epre & Epost & Edma & Eh).
    constructor; classify Hi Ht; rewrite ?Hp, ?orb_false_r, ?Epre, ?Epost, ?Ed, ?Hs; try done;
      try by before_or_after st.
    + intros _. right; right; left. split_and!; [done..|by exists v].
    + by intros v' [= <-].
    + rewrite E7. exact Hs.
  - constructor; classify Hi Ht; rewrite ?Hp, ?Ha, ?orb_true_r, ?orb_false_r; cbn; try done;
      try by before_or_after st.
    intros _. right; right; right. split; [done|]. by exists v, certs, err.
  - constructor; classify Hi Ht; rewrite ?orb_true_r, ?orb_false_r, ?Hs; try done; try by before_or_after st.
    unfold legal7. rewrite Hi. done.
  - constructor; classify Hi Ht; rewrite ?orb_true_r, ?orb_false_r, ?Hs; try done; try by before_or_after st.
    + unfold legal7. rewrite Hi. done.
    + by rewrite Hp, Hd.
  - apply sb_effect_none; classify Hi Ht; try done; [unfold legal7; by rewrite Hi|by left].
  - apply Z.eqb_neq in Hns, Hnd. apply sb_effect_none; classify Hi Hns; try done.
    + unfold legal7. by rewrite Hi.
    + rewrite Hnd. by right.
Qed.

(** Runs of the state machine, and the loop. *)
Inductive sb_run (st : sb_vars) : list Event → sb_vars → Prop :=
| run_nil : sb_run st [] st
| run_snoc events e st' st'' :
    sb_run st events st' → sb_accept st' e st'' → sb_run st (events ++ [e]) st''.

Lemma sb_run_cons st e st1 events st2 :
  sb_accept st e st1 → sb_run st1 events st2 → sb_run st (e :: events) st2.
Proof.
  intros Ha Hr. induction Hr as [|events e' st' st'' Hr IH Ha'].
  - apply (run_snoc st [] e st st1); [constructor|done].
  - rewrite app_comm_cons. by econstructor.
Qed.

Lemma sb_events_run st events st' : sb_events st events = Ok st' ↔ sb_run st events st'.
Proof.
  split.
  - revert st. induction events as [|e events IH]; intros st; cbn [sb_events].
    + intros [= <-]. constructor.
    + intros E. apply res_bind_Ok_inv in E as (st1 & Hst1 & E).
      apply sb_event_accept in Hst1. eapply sb_run_cons; [done|by apply IH].
  - induction 1 as [|events e st' st'' Hr IH Ha]; [done|].
    assert (∀ st0 l st1, sb_events st0 l = Ok st1 →
      sb_events st0 (l ++ [e]) = sb_event st1 e) as Happ.
    { clear. intros st0 l. revert st0. induction l as [|x l IH]; intros st0 st1; cbn.
      - intros [= <-]. by destruct (sb_event st0 e).
      - destruct (sb_event st0 x); [apply IH|done..]. }
    rewrite (Happ _ _ _ IH). by apply sb_event_accept.
Qed.

(** Rule induction: every reachable state satisfies the invariant. *)
Lemma sb_run_legal2 st events st' : sb_run st events st' → Forall legal2 events.
Proof.
  induction 1 as [|events e st' st'' _ IH Ha]; [constructor|]. apply Forall_app. split; [done|].
  apply Forall_singleton. intros H2. split; [apply (sb_accept_known _ _ _ Ha); by right|].
  intros Ht. inversion Ha; subst; try (by split); try congruence; by rewrite Ht in *.
Qed.

(** The digests of these events are not looked at. *)
Lemma sb_event_digest2 st e e' : same_but_digest2 e e' → sb_event st e' = sb_event st e.
Proof.
  intros [->|(Hi & Ht & ->)]; [done|]. unfold sb_event. cbn [ev_Index ev_Type]. rewrite Hi.
  change (2 =? 7) with false. change (2 =? 2) with true. cbn [negb andb].
  fold (etype e). destruct (UntrustedParseEventType (etype e)) as [et| | |] eqn:E; [|done..].
  apply known_type_spec in E as [-> _]. cbn [wrapf mbind res_bind]. cbv zeta. unfold event2.
  by rewrite !(proj2 (Z.eqb_neq _ _) Ht).
Qed.
Lemma ParseSecurebootState_digest2 events events' :
  Forall2 same_but_digest2 events events' → ParseSecurebootState events' = ParseSecurebootState events.
Proof.
  intros HF. unfold ParseSecurebootState. f_equal. generalize sb_init as st.
  induction HF as [|e e' events events' He _ IH]; intros st; [done|]. cbn [sb_events].
  rewrite (sb_event_digest2 _ _ _ He). by destruct (sb_event st e); cbn.
Qed.

Lemma sb_run_inv events st : sb_run sb_init events st → sb_inv events st.
Proof.
  induction 1 as [|events e st' st'' Hr IH Ha]; [apply sb_inv_init|].
  eapply sb_inv_step; [done|]. by apply sb_accept_effect.
Qed.

(** *** Totality *)
Lemma SignatureData_returns v : wf_variable v → no_crash (SignatureData v).
Proof.
  intros (_ & _ & _ & _ & Hm & _). apply (parseEfiSignatureList_format _ ([], [])).
  unfold maxDataLen in Hm. lia.
Qed.

Lemma assign_variable_returns st v : wf_variable v → no_crash (assign_variable st v).
Proof.
  intros Hw. pose proof (SignatureData_returns v Hw). unfold assign_variable.
  destruct (decide _); [by destruct (uv_VariableData v) as [|? [|]]|].
  do 4 (destruct (decide _); [by destruct (SignatureData v)|]). done.
Qed.

Lemma separator7_returns st e dv : no_crash dv → no_crash (separator7 st e dv).
Proof.
  intros. unfold separator7, reject. destruct (seenSeparator7 st); [done|]. cbn.
  destruct (bool_decide _); [done|]. by destruct dv.
Qed.
Lemma separator2_returns st e dv : no_crash dv → no_crash (separator2 st e dv).
Proof.
  intros. unfold separator2, reject. destruct (seenSeparator2 st); [done|]. cbn.
  destruct (bool_decide _); [done|]. by destruct dv.
Qed.

Lemma variable_config_returns st e dv : no_crash dv → no_crash (variable_config st e dv).
Proof.
  intros Hdv. unfold variable_config, reject. pose proof (parse_variable_returns (ev_Data e)) as Hp.
  destruct (parse_variable (ev_Data e)) as [v| | |] eqn:Ep; [|done..]. cbn.
  destruct (bool_decide _); [done|]. cbn. destruct (seenSeparator7 st); [done|]. cbn.
  destruct dv; [|done..]. cbn. apply assign_variable_returns.
  unfold parse_variable in Ep. by apply (format_iff _ _ _ _ _ ParseUEFIVariableData_format) in Ep as [? _].
Qed.

Lemma variable_authority_returns st e dv : no_crash dv → no_crash (variable_authority st e dv).
Proof.
  intros Hdv. unfold variable_authority. pose proof (parse_variable_returns (ev_Data e)) as Hp.
  destruct (parse_variable (ev_Data e)) as [v| | |]; [|done..]. cbn [wrapf mbind res_bind].
  pose proof (ParseUEFIVariableAuthority_returns v) as Ha.
  destruct (ParseUEFIVariableAuthority v) as [[certs err]| | |]; [|done..]. cbn [mbind res_bind fst snd].
  assert (∀ d : res error (), no_crash d → no_crash (
    _ ← wrapf "invalid digest for authority on event %d: %v" d;
    Ok (if negb (seenSeparator7 (set_seenAuthority st))
        then set_out (add_PreAuthority certs) (set_seenAuthority st)
        else set_out (add_PostAuthority certs) (set_seenAuthority st)))) as Hend by (by intros []).
  destruct err as [[]|]; try done; [|by apply Hend].
  destruct dv as [[]|err| |]; [by apply Hend| |done..].
  destruct (0 <? _); apply Hend; [apply digestEquals_no_crash|done].
Qed.

Lemma sb_event_returns st e : no_crash (sb_event st e).
Proof.
  unfold sb_event. destruct (_ && _); [done|].
  destruct (UntrustedParseEventType (uint32 (ev_Type e))) as [et|err| |] eqn:Ee; [|done| |].
  2, 3: exfalso; revert Ee; unfold UntrustedParseEventType; by repeat case_match.
  cbn [wrapf mbind res_bind]. pose proof (digestEquals_no_crash e (ev_Data e)) as Hdv.
  cbv zeta. destruct (ev_Index e =? 7).
  - unfold event7. destruct (et =? Separator); [by apply separator7_returns|].
    destruct (et =? EFIAction).
    { unfold efi_action. destruct (decide _); [done|]. destruct (decide _); [|done].
      by destruct (digestEquals e (ev_Data e)). }
    destruct (et =? EFIVariableDriverConfig); [by apply variable_config_returns|].
    destruct (et =? EFIVariableAuthority); [by apply variable_authority_returns|done].
  - unfold event2. destruct (et =? Separator); [by apply separator2_returns|].
    destruct (et =? EFIBootServicesDriver); [|done].
    unfold services_driver. destruct (negb _); [|done].
    pose proof (parse_image_load_returns (ev_Data e)) as Hp.
    destruct (parse_image_load (ev_Data e)) as [img| | |]; [|done..]. cbn.
    pose proof (DevicePath_returns img) as Hd. by destruct (DevicePath img).
Qed.

Lemma sb_events_returns st events : no_crash (sb_events st events).
Proof.
  revert st. induction events as [|e events IH]; intros st; [done|]. cbn [sb_events].
  pose proof (sb_event_returns st e) as He. destruct (sb_event st e); [apply IH|done..].
Qed.
End Runs.

(** ** The result *)
Section Result.
Context `{GoCrypto, X509}.

Lemma source_loop_spec sources o :
  source_loop sources o =
    mkSecureboot (Enabled o) (PlatformKeys o) (PlatformKeyHashes o) (ExchangeKeys o)
      (ExchangeKeyHashes o) (PermittedKeys o) (PermittedHashes o) (ForbiddenKeys o)
      (ForbiddenHashes o) (PreSeparatorAuthority o) (PostSeparatorAuthority o)
      (DriverLoadSourceHints o ++ (driver_hint false <$> sources)) (DMAProtectionDisabled o).
Proof.
  revert o. induction sources as [|s sources IH]; intros o; cbn.
  - rewrite app_nil_r. by destruct o.
  - rewrite IH. cbn. by rewrite <- (assoc_L app).
Qed.

(** What the events say of the configuration. *)
Definition secureboot_of (events : list Event) : SecurebootState :=
  mkSecureboot (is_enabled events)
    (database_in "PK" events).1 (database_in "PK" events).2
    (database_in "KEK" events).1 (database_in "KEK" events).2
    (database_in "db" events).1 (database_in "db" events).2
    (database_in "dbx" events).1 (database_in "dbx" events).2
    (concat (authority_of <$> before_separator 7 events))
    (concat (authority_of <$> from_separator 7 events))
    (driver_hint false <$> omap driver_of (before_separator 2 events))
    (existsb is_dma events).

Lemma sb_inv_out events st :
  sb_inv events st → source_loop (driverSources st) (sv_out st) = secureboot_of events.
Proof.
  intros []. rewrite source_loop_spec. unfold secureboot_of.
  rewrite <- inv_PK0, <- inv_KEK0, <- inv_db0, <- inv_dbx0, <- inv_enabled0, <- inv_pre0,
    <- inv_post0, <- inv_DMA0, <- inv_drivers0, inv_hints0. done.
Qed.

(** What secure boot needs to mean anything. *)
Definition enforced (events : list Event) (o : SecurebootState) : Prop :=
  existsb is_authority events = true ∧
  (PlatformKeys o ≠ [] ∨ PlatformKeyHashes o ≠ []) ∧
  (ExchangeKeys o ≠ [] ∨ ExchangeKeyHashes o ≠ []) ∧
  (PermittedKeys o ≠ [] ∨ PermittedHashes o ≠ []).

Lemma both_empty {A B} (l : list A) (k : list B) :
  (zlen l =? 0) && (zlen k =? 0) = false ↔ l ≠ [] ∨ k ≠ [].
Proof.
  destruct l, k; cbn; try (split; [auto|done]); [|by split; [left|]..].
  split; [done|by intros [?|?]].
Qed.

Lemma ParseSecurebootState_run events o :
  ParseSecurebootState events = Ok o ↔
    (∃ st, sb_run sb_init events st) ∧ o = secureboot_of events ∧
    (Enabled o = true → enforced events o).
Proof.
  unfold ParseSecurebootState. split.
  - intros E. apply res_bind_Ok_inv in E as (st & Hst & E). apply sb_events_run in Hst as Hr.
    pose proof (sb_run_inv _ _ Hr) as Hi. cbv zeta in E. rewrite (sb_inv_out _ _ Hi) in E.
    split; [by exists st|].
    destruct (Enabled (secureboot_of events)) eqn:En; cbn [negb] in E; [|injection E as <-; by rewrite En].
    rewrite !res_bind_unit_Ok, !reject_Ok, !both_empty, negb_false_iff in E.
    destruct E as (Ha & Hp & Hk & Hd & [= <-]). split; [done|]. intros _.
    rewrite (inv_authority _ _ Hi) in Ha. done.
  - intros ([st Hr] & -> & Henf). rewrite (proj2 (sb_events_run _ _ _) Hr). cbn [mbind res_bind].
    pose proof (sb_run_inv _ _ Hr) as Hi. cbv zeta. rewrite (sb_inv_out _ _ Hi).
    destruct (Enabled (secureboot_of events)) eqn:En; cbn [negb]; [|done].
    destruct (Henf eq_refl) as (Ha & Hp & Hk & Hd).
    rewrite !res_bind_unit_Ok, !reject_Ok, !both_empty, negb_false_iff.
    by rewrite (inv_authority _ _ Hi).
Qed.

(** An enabled secure boot goes back to a measured variable. *)
Lemma is_enabled_variable events :
  is_enabled events = true →
  ∃ e v, e ∈ events ∧ variable_of e = Some v ∧ VarName v = runes "SecureBoot" ∧
    uv_VariableData v = [Byte.x01].
Proof.
  unfold is_enabled, the_variable. destruct (head _) as [v|] eqn:Hh; [|done].
  intros Hb%bool_decide_eq_true. apply head_Some_elem_of, list_elem_of_filter in Hh as [Hn Hv].
  apply list_elem_of_omap in Hv as (e & He & Hve). by exists e, v.
Qed.
End Result.

(** ** Properties *)
Section Theorems.
Context `{GoCrypto, X509}.

Lemma ParseSecurebootState_returns events : no_crash (ParseSecurebootState events).
Proof.
  unfold ParseSecurebootState. pose proof (sb_events_returns sb_init events) as Hr.
  destruct (sb_events sb_init events) as [st| | |]; [|done..]. cbn [mbind res_bind]. cbv zeta.
  destruct (negb _); [done|].
  by repeat (apply no_crash_bind; [apply reject_no_crash|intros _ _]).
Qed.

(** C24: [ParseSecurebootState] returns on every list of events, and is the
    state machine [sb_accept] run over them: it succeeds exactly when every
    event is accepted in turn and, if secure boot is enabled, a key was used
    and platform, exchange and signature databases were seen; and the state
    it returns is the function [secureboot_of] of the events, whatever the
    order the code collected it in. *)
Theorem ParseSecurebootState_iff events :
  no_crash (ParseSecurebootState events) ∧
  ∀ o, ParseSecurebootState events = Ok o ↔
    (∃ st, sb_run sb_init events st) ∧ o = secureboot_of events ∧
    (Enabled o = true → enforced events o).
Proof. split; [apply ParseSecurebootState_returns|intros o; apply ParseSecurebootState_run]. Qed.

(** C25: What an accepted log guarantees: every event of PCR 7 is a separator,
    the DMA protection action, a variable or an authority, with the digest of
    its data (up to the byte a faulty shim adds to an authority); there is
    one separator at most in PCR 7 and in PCR 2, variables come before it and
    no two have the same name; and if secure boot is reported as enabled, a
    SecureBoot variable with the value 1 was measured, and a key was used.
    Of PCR 2 only separators are checked: the digests of its other events, the
    drivers among them, do not matter for the result. *)
Theorem secureboot_guarantees events o :
  ParseSecurebootState events = Ok o →
  Forall legal7 events ∧ Forall legal2 events ∧
  (length (filter (λ e, is_separator 7 e = true) events) ≤ 1)%nat ∧
  (length (filter (λ e, is_separator 2 e = true) events) ≤ 1)%nat ∧
  variables (from_separator 7 events) = [] ∧
  NoDup (VarName <$> variables events) ∧
  (Enabled o = true →
     (∃ e v, e ∈ events ∧ variable_of e = Some v ∧ data_digest e ∧
        VarName v = runes "SecureBoot" ∧ uv_VariableData v = [Byte.x01]) ∧
     ∃ e, e ∈ events ∧ is_authority e = true) ∧
  (∀ events', Forall2 same_but_digest2 events events' → ParseSecurebootState events' = Ok o).
Proof.
  intros Hp. pose proof Hp as Hp'. apply ParseSecurebootState_run in Hp as ([st Hr] & -> & Henf).
  pose proof (sb_run_legal2 _ _ _ Hr) as Hl2.
  pose proof (sb_run_inv _ _ Hr) as [].
  split_and!; try done; [|by intros events' ->%ParseSecurebootState_digest2]. intros En. destruct (Henf En) as (Ha & _). split.
  - destruct (is_enabled_variable events En) as (e & v & He & Hv & Hn & Hd).
    exists e, v. split_and!; try done. rewrite Forall_forall in inv_legal0.
    specialize (inv_legal0 e He). unfold variable_of in Hv.
    destruct (Z.eqb_spec (ev_Index e) 7) as [H7|]; [|done]. cbn in Hv.
    destruct (Z.eqb_spec (etype e) EFIVariableDriverConfig) as [Ht|]; [|done].
    destruct (inv_legal0 H7) as [(Ht' & _)|[(Ht' & _)|[(_ & Hdd & _)|(Ht' & _)]]];
      try done; by rewrite Ht in Ht'.
  - apply existsb_exists in Ha as (e & He & ?). exists e. split; [by apply list_elem_of_In|done].
Qed.
End Theorems.

Section Witnesses.
#[local] Existing Instance sha_crypto.
#[local] Existing Instance tag_x509.

Definition ex_variable (name : string) (data : bytes) : bytes :=
  encode_variable (mkVariable (mkVarHeader ex_owner (zlen (runes name)) (zlen data)) (runes name) data).
Definition ex_measured (index typ : Z) (data : bytes) : Event :=
  mkEvent 0 index typ data (Sha.sha256 data).
Definition ex_boot : list Event := [
  ex_measured 7 EFIVariableDriverConfig (ex_variable "SecureBoot" [Byte.x01]);
  ex_measured 7 EFIVariableDriverConfig (ex_variable "PK" ex_db_bytes);
  ex_measured 7 EFIVariableDriverConfig (ex_variable "KEK" ex_db_bytes);
  ex_measured 7 EFIVariableDriverConfig (ex_variable "db" ex_db_bytes);
  ex_measured 7 EFIVariableDriverConfig (ex_variable "dbx" []);
  ex_measured 7 Separator zero4;
  ex_measured 7 EFIVariableAuthority (ex_variable "db" (encode_signature (ex_owner, ex_cert)))].

Example ex_boot_enabled :
  ParseSecurebootState ex_boot = Ok (secureboot_of ex_boot) ∧ Enabled (secureboot_of ex_boot) = true.
Proof. vm_compute. done. Qed.

(** With an event of PCR 2, also when its digest is that of nothing *)
Lemma secureboot_guarantees_witness :
  let events d := ex_boot ++ [mkEvent 8 2 EFIAction (str "driver") d] in
  let o := secureboot_of ex_boot in
  ParseSecurebootState (events (Sha.sha256 (str "driver"))) = Ok o ∧
  ParseSecurebootState (events []) = Ok o ∧
  ∃ e v, e ∈ events [] ∧ variable_of e = Some v ∧ data_digest e ∧
    VarName v = runes "SecureBoot" ∧ uv_VariableData v = [Byte.x01].
Proof.
  intros events o.
  assert (ParseSecurebootState (events (Sha.sha256 (str "driver"))) = Ok o) as Hok by (vm_compute; reflexivity).
  assert (ParseSecurebootState (events []) = Ok o) as Hok'.
  { destruct (secureboot_guarantees _ _ Hok) as (_ & _ & _ & _ & _ & _ & _ & Hd). apply Hd.
    apply Forall2_app; [apply Forall_Forall2_diag, Forall_true; by left|].
    apply Forall2_cons; split; [|apply Forall2_nil_2]. right. split; [reflexivity|]. split; [discriminate|reflexivity]. }
  split; [exact Hok|]. split; [exact Hok'|].
  destruct (secureboot_guarantees _ _ Hok') as (_ & _ & _ & _ & _ & _ & He & _). apply He. vm_compute. reflexivity.
Defined.
End Witnesses.
