(* ===== verification/Challenge.v ===== *)
(** * The TPM 1.2 activation challenge ([attest/challenge.go])

    [generateChallenge12] encrypts a fresh AES key, bound to an AK by its
    digest, to the EK, and the secret under that key.  The structures it writes
    are those of the TPM 1.2 specification, part 2; the decoders of the
    receiving side ([tpm12_activate], [open_challenge]) are the specification
    it is proved against. *)
From S2P Require Import Prelude GoBytes GoCrypto Attest Tpm2.

#[local] Arguments be_bytes : simpl never.
#[local] Arguments be_uint : simpl never.

(** ** The code *)
Definition ekBlobTag : Z := 0x000c.
Definition ekBlobActivateTag : Z := 0x002b.
Definition ekTypeActivate : Z := 0x0001.
Definition algXOR : Z := 0x0000000a.
Definition schemeESNone : Z := 0x0001.

Record symKeyHeader := mkSymKeyHeader { skh_Alg : Z; skh_Scheme : Z; skh_KeySize : Z }.
Record activationBlobHeader := mkActivationHeader { abh_Tag : Z; abh_KeyHeader : symKeyHeader }.
Record ekBlobHeader := mkEkHeader { ekh_Tag : Z; ekh_EkType : Z; ekh_BlobLen : Z }.

(** [binary.Write(_, binary.BigEndian, _)] of the headers. *)
Definition write_activationBlobHeader (h : activationBlobHeader) : bytes :=
  be_bytes 2 (abh_Tag h) ++ be_bytes 4 (skh_Alg (abh_KeyHeader h))
    ++ be_bytes 2 (skh_Scheme (abh_KeyHeader h)) ++ be_bytes 2 (skh_KeySize (abh_KeyHeader h)).
Definition write_ekBlobHeader (h : ekBlobHeader) : bytes :=
  be_bytes 2 (ekh_Tag h) ++ be_bytes 2 (ekh_EkType h) ++ be_bytes 4 (ekh_BlobLen h).

Definition makeEmptyPCRInfo : bytes :=
  be_bytes 2 3 ++ [Byte.x00; Byte.x00; Byte.x00] ++ [Byte.x01] ++ repeat Byte.x00 20.

Definition makeEkBlob (activationBlob : bytes) : bytes :=
  write_ekBlobHeader (mkEkHeader ekBlobTag ekTypeActivate (uint32 (zlen activationBlob)))
    ++ activationBlob.

(** [pad]: at least one byte, each holding the number of bytes added; [%] and
    the conversion to [byte] as in Go ([bsize] is positive in every call). *)
Definition pad (plaintext : bytes) (bsize : Z) : bytes :=
  let n := bsize - Z.rem (zlen plaintext) bsize in
  let n := if n =? 0 then bsize else n in
  plaintext ++ repeat (byte.of_Z n) (Z.to_nat n).

(** [aes.NewCipher] accepts three key lengths. *)
Definition aes_NewCipher (key : bytes) : res error () :=
  if bool_decide (zlen key ∈ [16; 24; 32]) then Ok tt else Err (LibErr "crypto/aes: invalid key size").

Section Challenge.
Context `{GoCrypto, GoTPM}.

Definition makeActivationBlob (symKey akpub : bytes) : res error bytes :=
  let akHash := sha1_Sum akpub in
  let header := mkActivationHeader ekBlobActivateTag
                  (mkSymKeyHeader algXOR schemeESNone (uint16 (zlen symKey))) in
  Ok (write_activationBlobHeader header ++ symKey ++ akHash ++ makeEmptyPCRInfo).

(** [cipher.NewCBCEncrypter(block, iv)] and [CryptBlocks], with their panics. *)
Definition cbc_CryptBlocks (key iv plaintext : bytes) : res error bytes :=
  if negb (zlen iv =? 16) then Panic "cipher.NewCBCEncrypter: IV length must equal block size"
  else if negb (zlen plaintext mod 16 =? 0) then Panic "crypto/cipher: input not full blocks"
  else Ok (aes_cbc_encrypt key iv plaintext).

(** The state is the source of randomness [rand]. *)
Definition generateChallenge12 (pubkey : rsa_PublicKey) (akpub secret : bytes)
    : M reader (bytes * bytes) :=
  aeskey ← ReadFull 16;
  iv ← ReadFull 16;
  activationBlob ← lift_res (makeActivationBlob aeskey akpub);
  let label := str "TCPA" in
  rand ← gets rd_buf;
  asymenc ← lift_res (wrapf "EncryptOAEP() failed: %v"
              (rsa_EncryptOAEP rand pubkey (makeEkBlob activationBlob) label));
  _ ← lift_res (aes_NewCipher aeskey);
  symenc ← lift_res (cbc_CryptBlocks aeskey iv (pad secret (zlen iv)));
  mret (asymenc, be_bytes 4 2 ++ iv ++ symenc).
End Challenge.

(** ** The receiving side *)

(** TPM_EK_BLOB: the type and the blob of the size it announces. *)
Definition parse_ek_blob : M reader (Z * bytes) :=
  tag ← read_be 2;
  _ ← reject_if (negb (tag =? ekBlobTag)) (Errorf "not an EK blob");
  ty ← read_be 2;
  len ← read_be 4;
  blob ← ReadFull len;
  mret (ty, blob).

(** TPM_EK_BLOB_ACTIVATE: session key, AK digest, PCR information. *)
Record EKBlobActivate := mkEKBlobActivate {
  eba_alg : Z; eba_scheme : Z; eba_key : bytes; eba_idDigest : bytes;
  eba_pcrSelection : bytes; eba_locality : bytes; eba_digestAtRelease : bytes;
}.
Definition parse_activation : M reader EKBlobActivate :=
  tag ← read_be 2;
  _ ← reject_if (negb (tag =? ekBlobActivateTag)) (Errorf "not an activation blob");
  alg ← read_be 4;
  scheme ← read_be 2;
  size ← read_be 2;
  key ← ReadFull size;
  digest ← ReadFull 20;
  select ← read_be 2;
  selection ← ReadFull select;
  locality ← ReadFull 1;
  release ← ReadFull 20;
  mret (mkEKBlobActivate alg scheme key digest selection locality release).

Definition unpad (b : bytes) : option bytes :=
  n ← byte.unsigned <$> last b;
  if (1 <=? n) && (n <=? zlen b) then
    let k := (length b - Z.to_nat n)%nat in
    if bool_decide (drop k b = repeat (byte.of_Z n) (Z.to_nat n)) then Some (take k b) else None
  else None.

Section Receiver.
Context `{GoCrypto}.
(** Decryption with the private EK, and AES-CBC decryption. *)
Variable decrypt : bytes → option bytes.
Variable cbc_decrypt : bytes → bytes → bytes → bytes.

(** TPM_ActivateIdentity for the AK with public part [akpub]: the session key. *)
Definition tpm12_activate (akpub asymenc : bytes) : option bytes :=
  m ← decrypt asymenc;
  match (parse_ek_blob (NewReader m)).1 with
  | Ok (ty, blob) =>
      match (parse_activation (NewReader blob)).1 with
      | Ok a => if (ty =? ekTypeActivate) && bool_decide (eba_idDigest a = sha1_Sum akpub)
                then Some (eba_key a) else None
      | _ => None
      end
  | _ => None
  end.

(** The client decrypts the secret with the session key. *)
Definition open_challenge (key symenc : bytes) : option bytes :=
  if be_uint (take 4 symenc) =? 2
  then unpad (cbc_decrypt key (field 4 16 symenc) (drop 20 symenc))
  else None.
End Receiver.

(** ** Lemmas *)

(** Padding adds between one and [bsize] bytes, up to whole blocks; so the
    test [pad == 0] of the code never holds. *)
Lemma pad_eq m bsize :
  0 < bsize →
  ∃ n, pad m bsize = m ++ repeat (byte.of_Z n) (Z.to_nat n) ∧ 1 ≤ n ≤ bsize ∧
    zlen (pad m bsize) mod bsize = 0.
Proof.
  intros Hb. pose proof (zlen_nonneg m). unfold pad. rewrite Z.rem_mod_nonneg by lia.
  pose proof (Z.mod_pos_bound (zlen m) bsize Hb).
  destruct (Z.eqb_spec (bsize - zlen m mod bsize) 0) as [?|?]; [lia|].
  exists (bsize - zlen m mod bsize). split_and!; [done|lia|lia|].
  rewrite zlen_app. unfold zlen at 2. rewrite repeat_length, Z2Nat.id by lia.
  pose proof (Z.div_mod (zlen m) bsize). 
  replace (zlen m + (bsize - zlen m mod bsize)) with ((zlen m / bsize + 1) * bsize) by lia.
  by rewrite Z.mod_mul by lia.
Qed.

Lemma last_repeat {A} (x : A) n : last (repeat x (S n)) = Some x.
Proof. induction n as [|n IH]; [done|]. cbn [repeat] in *. by rewrite last_cons, IH. Qed.

Lemma unpad_pad m bsize : 0 < bsize < 256 → unpad (pad m bsize) = Some m.
Proof.
  intros Hb. destruct (pad_eq m bsize) as (n & -> & Hn & _); [lia|]. unfold unpad.
  replace (Z.to_nat n) with (S (Z.to_nat n - 1)) at 1 by lia.
  rewrite last_app, last_repeat. cbn [fmap option_fmap option_map mbind option_bind].
  rewrite byte.unsigned_of_Z. unfold byte.wrap. rewrite Z.mod_small by lia.
  rewrite zlen_app, length_app. unfold zlen at 2. rewrite repeat_length.
  pose proof (zlen_nonneg m).
  destruct (Z.leb_spec 1 n); [|lia]. destruct (Z.leb_spec n (zlen m + Z.of_nat (Z.to_nat n))); [|lia].
  cbn [andb]. rewrite Nat.add_sub. rewrite drop_app_length, take_app_length.
  by rewrite bool_decide_eq_true_2.
Qed.

Lemma parse_ek_blob_makeEkBlob blob :
  zlen blob < 2 ^ 32 → (parse_ek_blob (NewReader (makeEkBlob blob))).1 = Ok (ekTypeActivate, blob).
Proof.
  intros Hb. pose proof (zlen_nonneg blob). unfold makeEkBlob, write_ekBlobHeader, parse_ek_blob.
  cbn [ekh_Tag ekh_EkType ekh_BlobLen].
  rewrite <- !(assoc_L app). unfold uint32. rewrite Z.mod_small by lia.
  erewrite bind_Ok; [|by apply read_be_app].
  erewrite bind_Ok; [|by apply reject_if_Ok].
  erewrite bind_Ok; [|by apply read_be_app].
  erewrite bind_Ok; [|apply read_be_app; lia].
  rewrite <- (app_nil_r blob) at 2. erewrite bind_Ok; [|by apply ReadFull_app]. done.
Qed.

Section Lemmas.
Context `{GoCrypto, GoTPM}.

Lemma parse_makeActivationBlob key akpub blob :
  zlen key < 2 ^ 16 → makeActivationBlob key akpub = Ok blob →
  zlen blob = zlen key + 56 ∧
  (parse_activation (NewReader blob)).1 =
    Ok (mkEKBlobActivate algXOR schemeESNone key (sha1_Sum akpub)
          (repeat Byte.x00 3) [Byte.x01] (repeat Byte.x00 20)).
Proof.
  unfold makeActivationBlob. cbv zeta. intros Hk E. apply Ok_inj in E as <-. pose proof (zlen_nonneg key). split.
  { unfold write_activationBlobHeader, makeEmptyPCRInfo.
    pose proof (zlen_sha1 akpub). unfold zlen in *.
    rewrite !length_app, !length_be_bytes, repeat_length. cbn [length]. lia. }
  unfold write_activationBlobHeader, parse_activation. cbn [abh_Tag abh_KeyHeader skh_Alg skh_Scheme skh_KeySize]. rewrite <- !(assoc_L app).
  unfold uint16. rewrite Z.mod_small by lia.
  erewrite bind_Ok; [|by apply read_be_app].
  erewrite bind_Ok; [|by apply reject_if_Ok].
  erewrite bind_Ok; [|by apply read_be_app].
  erewrite bind_Ok; [|by apply read_be_app].
  erewrite bind_Ok; [|apply read_be_app; lia].
  erewrite bind_Ok; [|by apply ReadFull_app].
  erewrite bind_Ok; [|apply ReadFull_app, zlen_sha1].
  unfold makeEmptyPCRInfo.
  erewrite bind_Ok; [|by apply read_be_app].
  erewrite bind_Ok; [|by apply ReadFull_app].
  erewrite bind_Ok; [|by apply ReadFull_app].
  rewrite <- (app_nil_r (repeat _ 20)).
  erewrite bind_Ok; [|by apply ReadFull_app]. done.
Qed.

(** What a challenge is made of: 32 random bytes, the rest of the randomness
    being that of the encryption. *)
Lemma generateChallenge12_Ok pubkey akpub secret s asym sym :
  (generateChallenge12 pubkey akpub secret (NewReader s)).1 = Ok (asym, sym) ↔
  ∃ key iv rest blob, s = key ++ iv ++ rest ∧ zlen key = 16 ∧ zlen iv = 16 ∧
    makeActivationBlob key akpub = Ok blob ∧
    rsa_EncryptOAEP rest pubkey (makeEkBlob blob) (str "TCPA") = Ok asym ∧
    sym = be_bytes 4 2 ++ iv ++ aes_cbc_encrypt key iv (pad secret 16).
Proof.
  destruct (pad_eq secret 16 ltac:(lia)) as (_ & _ & _ & Hpad). split.
  - destruct (generateChallenge12 _ _ _ _) as [r r'] eqn:E. cbn. intros ->.
    unfold generateChallenge12 in E. inv_ok E.
    apply ReadFull_Ok_inv in Hm as (s1 & -> & Hk & ->); [|done].
    apply ReadFull_Ok_inv in Hm0 as (s2 & -> & Hiv & ->); [|done].
    rewrite Hiv in Hr2. unfold cbc_CryptBlocks in Hr2. rewrite Hiv, Hpad in Hr2.
    injection Hr2 as <-. by eauto 10.
  - intros (key & iv & rest & blob & -> & Hk & Hiv & Hblob & He & ->).
    unfold generateChallenge12. erewrite bind_Ok; [|by apply ReadFull_app].
    erewrite bind_Ok; [|by apply ReadFull_app].
    erewrite bind_Ok; [|by apply lift_res_Ok].
    erewrite bind_Ok; [|done]. cbn [rd_buf NewReader].
    erewrite bind_Ok; [|apply lift_res_Ok; by rewrite He].
    erewrite bind_Ok; [|apply lift_res_Ok; unfold aes_NewCipher; by rewrite Hk].
    erewrite bind_Ok; [done|]. apply lift_res_Ok. unfold cbc_CryptBlocks. by rewrite !Hiv, Hpad.
Qed.
End Lemmas.

Section RoundTrip.
Context `{GoCrypto, GoTPM}.
Variable decrypt : bytes → option bytes.
Variable cbc_decrypt : bytes → bytes → bytes → bytes.
Variable pubkey : rsa_PublicKey.
(** The EK's private key decrypts what was encrypted to it; AES-CBC
    decryption inverts encryption on whole blocks. *)
Hypothesis decrypt_spec : ∀ r m c,
  rsa_EncryptOAEP r pubkey m (str "TCPA") = Ok c → decrypt c = Some m.
Hypothesis cbc_spec : ∀ key iv m,
  zlen m mod 16 = 0 → cbc_decrypt key iv (aes_cbc_encrypt key iv m) = m.

(** What the TPM and the client receive of a generated challenge. *)
Lemma generated_activates akpub secret s asym sym :
  (generateChallenge12 pubkey akpub secret (NewReader s)).1 = Ok (asym, sym) →
  ∃ key iv, zlen key = 16 ∧ zlen iv = 16 ∧ tpm12_activate decrypt akpub asym = Some key ∧
    (∀ other, sha1_Sum other ≠ sha1_Sum akpub → tpm12_activate decrypt other asym = None) ∧
    sym = be_bytes 4 2 ++ iv ++ aes_cbc_encrypt key iv (pad secret 16).
Proof using decrypt_spec.
  intros (key & iv & rest & blob & -> & Hk & Hiv & Hblob & He & ->)%generateChallenge12_Ok.
  destruct (parse_makeActivationBlob key akpub blob ltac:(lia) Hblob) as [Hlen Hparse].
  apply decrypt_spec in He. exists key, iv. split; [done|]. split; [done|].
  unfold tpm12_activate. rewrite He. cbn [mbind option_bind].
  rewrite parse_ek_blob_makeEkBlob by lia. rewrite Hparse. cbn.
  split_and!; [by rewrite bool_decide_eq_true_2| |done].
  intros other Ho. by rewrite bool_decide_eq_false_2 by congruence.
Qed.

(** A TPM 1.2 challenge does its work: the TPM that holds the EK's private
    key, asked to activate the AK of the challenge, finds the session key,
    and the secret is what decrypts under it; asked for any AK with another
    digest, it finds nothing. *)
Theorem challenge12_roundtrip akpub secret s asym sym :
  (generateChallenge12 pubkey akpub secret (NewReader s)).1 = Ok (asym, sym) →
  (∃ key, tpm12_activate decrypt akpub asym = Some key ∧
     open_challenge cbc_decrypt key sym = Some secret) ∧
  (∀ other, sha1_Sum other ≠ sha1_Sum akpub → tpm12_activate decrypt other asym = None).
Proof.
  intros (key & iv & _ & Hiv & Hact & Hother & ->)%generated_activates. split; [|done].
  exists key. split; [done|].
  unfold open_challenge. rewrite (take_app_len _ _ 4) by done.
  rewrite be_uint_be_bytes by done. cbn [Z.eqb Pos.eqb].
  rewrite (field_app (be_bytes 4 2) iv) by (unfold zlen in *; rewrite ?length_be_bytes; lia).
  rewrite (assoc_L app), (drop_app_len (_ ++ _)).
  - destruct (pad_eq secret 16 ltac:(lia)) as (_ & _ & _ & Hpad).
    rewrite cbc_spec by done. by apply unpad_pad.
  - rewrite length_app, length_be_bytes. unfold zlen in Hiv. lia.
Qed.
End RoundTrip.

Section Witnesses.
#[local] Existing Instance sha_crypto.
Definition ex_challenge_key : rsa_PublicKey := mkRSA 3233 17.
Definition ex_challenge_tpm : GoTPM :=
  fixed_tpm (mkPublic 0 0 0 None None) (mkAttestation 0 0 [] None None None) (mkSignature 0 None None)
    crypto_SHA1 (mkRawAttestation [] [] [] []) ex_challenge_key (λ _ _, true).
#[local] Existing Instance ex_challenge_tpm.

Definition ex_random : bytes := repeat Byte.x11 16 ++ repeat Byte.x22 16 ++ repeat Byte.x33 20.
Definition ex_challenge : bytes * bytes :=
  match (generateChallenge12 ex_challenge_key (str "ak") (str "secret") (NewReader ex_random)).1 with
  | Ok c => c
  | _ => ([], [])
  end.

Lemma challenge12_roundtrip_witness :
  (∃ key, tpm12_activate Some (str "ak") ex_challenge.1 = Some key ∧
     open_challenge (λ _ _ m, m) key ex_challenge.2 = Some (str "secret")) ∧
  (∀ other, sha1_Sum other ≠ sha1_Sum (str "ak") → tpm12_activate Some other ex_challenge.1 = None).
Proof.
  apply (challenge12_roundtrip Some (λ _ _ m, m) ex_challenge_key) with (s := ex_random).
  - intros r m c [= <-]. reflexivity.
  - intros key iv m _. reflexivity.
  - vm_compute. reflexivity.
Defined.
End Witnesses.
