(* ===== verification/Activation.v ===== *)
(** * Credential activation ([attest/activation.go])

    [ActivationParameters]: the checks on an AK and its creation attestation,
    and the challenge that only a TPM holding both EK and AK can answer. *)
From S2P Require Import Prelude GoBytes GoCrypto Attest Tpm2 Challenge.

(** ** Data *)
Definition minRSABits : Z := 2048.
Definition activationSecretLen : Z := 32.
Definition symBlockSize : Z := 16.
Definition tpm20GeneratedMagic : Z := 0xff544347.

Record AttestationParameters := mkAKParameters {
  ap_Public : bytes;
  ap_UseTCSDActivationFormat : bool;
  ap_CreateData : bytes;
  ap_CreateAttestation : bytes;
  ap_CreateSignature : bytes;
}.
Record EncryptedCredential := mkCredential { ec_Credential : bytes; ec_Secret : bytes }.

(** [Rand] is in the state of [Generate]: see [randomness]. *)
Record ActivationParameters := mkActivation {
  act_TPMVersion : Z;
  act_EK : option PublicKey;
  act_AK : AttestationParameters;
}.

(** The source passed as [Rand], if any, and the system's [rand.Reader]. *)
Record randomness := mkRandomness { rnd_given : option reader; rnd_system : reader }.

(** [if rnd == nil { rnd = rand.Reader }], then reads from [rnd]. *)
Definition from_rnd {A} (m : M reader A) : M randomness A := λ s,
  match rnd_given s with
  | Some r => let '(x, r') := m r in (x, mkRandomness (Some r') (rnd_system s))
  | None => let '(x, r') := m (rnd_system s) in (x, mkRandomness None r')
  end.
Definition rnd_source (s : randomness) : reader := default (rnd_system s) (rnd_given s).

(** [(attributes & flag) == 0] *)
Definition lacks (attributes flag : Z) : bool := Z.land attributes flag =? 0.

(** A field of a pointer that may be nil. *)
Definition deref {A} (o : option A) : res error A :=
  match o with Some x => Ok x | None => Panic "nil pointer dereference" end.

(** ** The code *)
Section Activation.
Context `{GoCrypto, GoTPM}.

Definition checkTPM12AKParameters (p : ActivationParameters) : res error () :=
  pub ← wrapf "unmarshalling public key: %v" (tpm1_UnmarshalPubRSAPublicKey (ap_Public (act_AK p)));
  let bits := rsa_Size pub * 8 in
  reject (bits <? minRSABits)
    (Errorf "attestation key too small: must be at least %d bits but was %d bits").

(** [checkTPM20AKParameters], up to the comparison of names. *)
Definition check_creation20 (ak : AttestationParameters) : res error (Public * AttestationData) :=
  _ ← reject (zlen (ap_CreateSignature ak) <? 8) (Errorf "signature is too short to be valid: only %d bytes");
  pub ← wrapf "DecodePublic() failed: %v" (tpm2_DecodePublic (ap_Public ak));
  _ ← wrapf "DecodeCreationData() failed: %v" (tpm2_DecodeCreationData (ap_CreateData ak));
  att ← wrapf "DecodeAttestationData() failed: %v" (tpm2_DecodeAttestationData (ap_CreateAttestation ak));
  _ ← reject (negb (att_Type att =? tpm2.TagAttestCreation))
        (Errorf "attestation does not apply to creation data, got tag %x");
  _ ← (if pub_Type pub =? tpm2.AlgRSA then
         rp ← deref (pub_RSAParameters pub);
         reject (rp_KeyBits rp <? minRSABits)
           (Errorf "attestation key too small: must be at least %d bits but was %d bits")
       else Err (Errorf "public key of alg 0x%x not supported"));
  nameHash ← wrapf "HashConstructor() failed: %v" (Algorithm_Hash (pub_NameAlg pub));
  _ ← hash_New nameHash;
  info ← deref (att_AttestedCreationInfo att);
  _ ← reject (bool_decide (create_OpaqueDigest info ≠ hash_sum nameHash (ap_CreateData ak)))
        (Errorf "attestation refers to different public key");
  _ ← reject (negb (att_Magic att =? tpm20GeneratedMagic))
        (Errorf "creation attestation was not produced by a TPM");
  _ ← reject (lacks (pub_Attributes pub) tpm2.FlagFixedTPM) (Errorf "AK is exportable");
  _ ← reject (lacks (pub_Attributes pub) tpm2.FlagRestricted
              || lacks (pub_Attributes pub) tpm2.FlagFixedParent
              || lacks (pub_Attributes pub) tpm2.FlagSensitiveDataOrigin)
        (Errorf "provided key is not limited to attestation");
  matches ← MatchesPublic (create_Name info) pub;
  _ ← reject (negb matches) (Errorf "creation attestation refers to a different key");
  Ok (pub, att).

(** [checkTPM20AKParameters], the signature over the attestation. *)
Definition check_signature20 (ak : AttestationParameters) (pub : Public) : res error () :=
  rp ← deref (pub_RSAParameters pub);
  let pk := mkRSA (rp_Modulus rp) (rp_Exponent rp) in
  sign ← deref (rp_Sign rp);
  signHash ← Algorithm_Hash (scheme_Hash sign);
  _ ← hash_New signHash;
  verifyHash ← Algorithm_Hash (scheme_Hash sign);
  _ ← reject (zlen (ap_CreateSignature ak) <? 8)
        (Errorf "signature invalid: length of %d is shorter than 8");
  sig ← wrapf "DecodeSignature() failed: %v" (tpm2_DecodeSignature (ap_CreateSignature ak));
  sigRSA ← deref (sig_RSA sig);
  wrapf "could not verify attestation: %v"
    (rsa_VerifyPKCS1v15 pk verifyHash (hash_sum signHash (ap_CreateAttestation ak))
       (srsa_Signature sigRSA)).

Definition checkTPM20AKParameters (p : ActivationParameters) : res error () :=
  c ← check_creation20 (act_AK p);
  check_signature20 (act_AK p) c.1.

Definition checkAKParameters (p : ActivationParameters) : res error () :=
  if act_TPMVersion p =? TPMVersion12 then checkTPM12AKParameters p
  else if act_TPMVersion p =? TPMVersion20 then checkTPM20AKParameters p
  else Err (Errorf "TPM version %d not supported").

Definition generateChallengeTPM20 (p : ActivationParameters) (ek : PublicKey) (secret : bytes)
    : M randomness EncryptedCredential :=
  att ← lift_res (wrapf "DecodeAttestationData() failed: %v"
          (tpm2_DecodeAttestationData (ap_CreateAttestation (act_AK p))));
  match att_AttestedCreationInfo att with
  | None => fail (Errorf "attestation was not for a creation event")
  | Some info =>
      match name_Digest (create_Name info) with
      | None => fail (Errorf "attestation creation info name has no digest")
      | Some digest =>
          system ← gets (λ s, rd_buf (rnd_system s));
          c ← lift_res (wrapf "credactivation.Generate() failed: %v"
                (credactivation_Generate system (Some digest) ek symBlockSize secret));
          mret (mkCredential c.1 c.2)
      end
  end.

Definition generateChallengeTPM12 (p : ActivationParameters) (ek : PublicKey) (secret : bytes)
    : M randomness EncryptedCredential :=
  match ek with
  | PubRSA pk =>
      c ← wrapM "challenge generation failed: %v"
            (if ap_UseTCSDActivationFormat (act_AK p) then
               system ← gets (λ s, rd_buf (rnd_system s));
               lift_res (verification_GenerateChallengeEx system pk (ap_Public (act_AK p)) secret)
             else from_rnd (generateChallenge12 pk (ap_Public (act_AK p)) secret));
      mret (mkCredential c.1 c.2)
  | _ => fail (Errorf "got EK of type %T, want an RSA key")
  end.

Definition Generate (p : ActivationParameters) : M randomness (bytes * EncryptedCredential) :=
  _ ← lift_res (checkAKParameters p);
  match act_EK p with
  | None => fail (Errorf "no EK provided")
  | Some ek =>
      secret ← wrapM "error generating activation secret: %v" (from_rnd (ReadFull activationSecretLen));
      ec ← (if act_TPMVersion p =? TPMVersion12 then generateChallengeTPM12 p ek secret
            else if act_TPMVersion p =? TPMVersion20 then generateChallengeTPM20 p ek secret
            else fail (Errorf "unrecognised TPM version: %v"));
      mret (secret, ec)
  end.
End Activation.

(** ** What the checks establish *)

(** One bit of an attribute word. *)
Lemma lacks_testbit a k : 0 ≤ k → lacks a (2 ^ k) = negb (Z.testbit a k).
Proof.
  intros Hk. unfold lacks. destruct (Z.testbit a k) eqn:E; cbn.
  - apply Z.eqb_neq. intros E0. apply (f_equal (λ z, Z.testbit z k)) in E0.
    rewrite Z.land_spec, E, Z.bits_0, Z.pow2_bits_true in E0 by done. done.
  - apply Z.eqb_eq, Z.bits_inj'. intros n Hn. rewrite Z.land_spec, Z.bits_0.
    destruct (Z.eq_dec n k) as [->|]; [by rewrite E|].
    rewrite Z.pow2_bits_false by done. apply andb_false_r.
Qed.
Lemma lacks_Ok a flag k : flag = 2 ^ k → 0 ≤ k → lacks a flag = false ↔ Z.testbit a k = true.
Proof. intros -> Hk. rewrite lacks_testbit by done. by rewrite negb_false_iff. Qed.

Lemma deref_Ok {A} (o : option A) x : deref o = Ok x ↔ o = Some x.
Proof. destruct o; cbn; [|done]. split; intros [= ->]; done. Qed.

(** Bits of TPMA_OBJECT. *)
Definition fixedTPM (pub : Public) : Prop := Z.testbit (pub_Attributes pub) 1 = true.
Definition fixedParent (pub : Public) : Prop := Z.testbit (pub_Attributes pub) 4 = true.
Definition sensitiveDataOrigin (pub : Public) : Prop := Z.testbit (pub_Attributes pub) 5 = true.
Definition restricted (pub : Public) : Prop := Z.testbit (pub_Attributes pub) 16 = true.

Section Spec.
Context `{GoCrypto, GoTPM}.

(** The AK is a restricted RSA key of sufficient size, generated by and bound
    to a TPM, and the attestation is a TPM's statement about the creation of
    this key with this creation data. *)
Record created_ak (ak : AttestationParameters) (pub : Public) (att : AttestationData) : Prop := {
  ca_sig_length : 8 ≤ zlen (ap_CreateSignature ak);
  ca_public : tpm2_DecodePublic (ap_Public ak) = Ok pub;
  ca_data : tpm2_DecodeCreationData (ap_CreateData ak) = Ok tt;
  ca_attestation : tpm2_DecodeAttestationData (ap_CreateAttestation ak) = Ok att;
  ca_type : att_Type att = tpm2.TagAttestCreation;
  ca_rsa : pub_Type pub = tpm2.AlgRSA;
  ca_size : ∃ rp, pub_RSAParameters pub = Some rp ∧ 2048 ≤ rp_KeyBits rp;
  ca_info : ∃ info h, att_AttestedCreationInfo att = Some info ∧
    Algorithm_Hash (pub_NameAlg pub) = Ok h ∧ hash_available h = true ∧
    create_OpaqueDigest info = hash_sum h (ap_CreateData ak) ∧
    MatchesPublic (create_Name info) pub = Ok true;
  ca_magic : att_Magic att = tpm20GeneratedMagic;
  ca_attributes : fixedTPM pub ∧ restricted pub ∧ fixedParent pub ∧ sensitiveDataOrigin pub;
}.

(** The key signed the attestation itself, with the hash of its scheme. *)
Definition self_signed (ak : AttestationParameters) (pub : Public) : Prop :=
  ∃ rp sign h sig sigRSA, pub_RSAParameters pub = Some rp ∧ rp_Sign rp = Some sign ∧
    Algorithm_Hash (scheme_Hash sign) = Ok h ∧ hash_available h = true ∧
    8 ≤ zlen (ap_CreateSignature ak) ∧
    tpm2_DecodeSignature (ap_CreateSignature ak) = Ok sig ∧ sig_RSA sig = Some sigRSA ∧
    rsa_VerifyPKCS1v15 (mkRSA (rp_Modulus rp) (rp_Exponent rp)) h
      (hash_sum h (ap_CreateAttestation ak)) (srsa_Signature sigRSA) = Ok tt.

Lemma hash_New_Ok h : hash_New h = Ok tt ↔ hash_available h = true.
Proof. unfold hash_New. by destruct (hash_available h). Qed.

Lemma check_key20_Ok pub :
  (if pub_Type pub =? tpm2.AlgRSA then
     rp ← deref (pub_RSAParameters pub);
     reject (rp_KeyBits rp <? minRSABits)
       (Errorf "attestation key too small: must be at least %d bits but was %d bits")
   else Err (Errorf "public key of alg 0x%x not supported")) = Ok tt ↔
  pub_Type pub = tpm2.AlgRSA ∧ ∃ rp, pub_RSAParameters pub = Some rp ∧ 2048 ≤ rp_KeyBits rp.
Proof.
  destruct (Z.eqb_spec (pub_Type pub) tpm2.AlgRSA) as [->|]; [|by split; [|intros [? _]]].
  rewrite res_bind_Ok. setoid_rewrite deref_Ok. setoid_rewrite reject_Ok.
  setoid_rewrite Z.ltb_ge. by split; [|intros [_ ?]].
Qed.

Lemma check_attributes_Ok pub :
  lacks (pub_Attributes pub) tpm2.FlagFixedTPM = false ∧
  (lacks (pub_Attributes pub) tpm2.FlagRestricted
     || lacks (pub_Attributes pub) tpm2.FlagFixedParent
     || lacks (pub_Attributes pub) tpm2.FlagSensitiveDataOrigin) = false ↔
  fixedTPM pub ∧ restricted pub ∧ fixedParent pub ∧ sensitiveDataOrigin pub.
Proof.
  rewrite !orb_false_iff, (lacks_Ok _ tpm2.FlagFixedTPM 1), (lacks_Ok _ tpm2.FlagRestricted 16),
    (lacks_Ok _ tpm2.FlagFixedParent 4), (lacks_Ok _ tpm2.FlagSensitiveDataOrigin 5) by done.
  unfold fixedTPM, restricted, fixedParent, sensitiveDataOrigin. tauto.
Qed.

Lemma check_creation20_Ok ak pub att :
  check_creation20 ak = Ok (pub, att) ↔ created_ak ak pub att.
Proof.
  unfold check_creation20. split.
  - intros (Hlen & E)%res_bind_unit_Ok.
    apply res_bind_Ok in E as (pub' & Hpub%wrapf_Ok & E).
    apply res_bind_unit_Ok in E as [Hdata%wrapf_Ok E].
    apply res_bind_Ok in E as (att' & Hatt%wrapf_Ok & E).
    apply res_bind_unit_Ok in E as [Htype E].
    apply res_bind_unit_Ok in E as [[Hrsa Hsize]%check_key20_Ok E].
    apply res_bind_Ok in E as (h & Hh%wrapf_Ok & E).
    apply res_bind_unit_Ok in E as [Hav%hash_New_Ok E].
    apply res_bind_Ok in E as (info & Hinfo%deref_Ok & E).
    apply res_bind_unit_Ok in E as [Hdig E].
    apply res_bind_unit_Ok in E as [Hmagic E].
    apply res_bind_unit_Ok in E as [Hf1 E].
    apply res_bind_unit_Ok in E as [Hf2 E].
    apply res_bind_Ok in E as (m & Hm & E).
    apply res_bind_unit_Ok in E as [Hmm E]. apply Ok_inj in E. injection E as -> ->.
    rewrite reject_Ok in Hlen, Htype, Hdig, Hmagic, Hf1, Hf2, Hmm.
    rewrite negb_false_iff in Htype, Hmagic, Hmm. rewrite Z.eqb_eq in Htype, Hmagic.
    apply Z.ltb_ge in Hlen. apply bool_decide_not_false_1 in Hdig; [|apply _]. subst m.
    pose proof (proj1 (check_attributes_Ok _) (conj Hf1 Hf2)).
    constructor; try done. by exists info, h.
  - intros [Hlen Hpub Hdata Hatt Htype Hrsa Hsize (info & h & Hinfo & Hh & Hav & Hdig & Hm) Hmagic
      [Hf1 Hf2]%check_attributes_Ok].
    rewrite res_bind_unit_Ok, reject_Ok, Z.ltb_ge. split; [done|]. rewrite Hpub.
    cbn [wrapf mbind res_bind]. rewrite Hdata. cbn [wrapf mbind res_bind]. rewrite Hatt.
    cbn [wrapf mbind res_bind]. rewrite Htype. rewrite (proj2 (check_key20_Ok pub)) by done.
    rewrite Hh. cbn -[deref reject hash_New]. rewrite hash_New_ok by done. rewrite Hinfo.
    cbn -[reject]. rewrite bool_decide_not_false_2 by done. rewrite Hmagic, Hf1, Hf2. cbn -[reject].
    by rewrite Hm.
Qed.

Lemma check_signature20_Ok ak pub : check_signature20 ak pub = Ok tt ↔ self_signed ak pub.
Proof.
  unfold check_signature20. split.
  - intros (rp & Hrp%deref_Ok & E)%res_bind_Ok.
    apply res_bind_Ok in E as (sign & Hs%deref_Ok & E).
    apply res_bind_Ok in E as (h & Hh & E).
    apply res_bind_unit_Ok in E as [Hav%hash_New_Ok E].
    apply res_bind_Ok in E as (h' & Hh' & E).
    apply res_bind_unit_Ok in E as [Hlen E].
    apply res_bind_Ok in E as (sg & Hsig%wrapf_Ok & E).
    apply res_bind_Ok in E as (sr & Hsr%deref_Ok & E%wrapf_Ok).
    rewrite Hh in Hh'. apply Ok_inj in Hh' as <-. rewrite reject_Ok, Z.ltb_ge in Hlen.
    by exists rp, sign, h, sg, sr.
  - intros (rp & sign & h & sg & sr & -> & Hs & Hh & Hav & Hlen & Hsig & Hsr & Hv).
    cbn [deref mbind res_bind]. rewrite Hs. cbn [deref mbind res_bind]. rewrite Hh.
    cbn [mbind res_bind]. rewrite hash_New_ok by done. cbn [mbind res_bind].
    rewrite res_bind_unit_Ok, reject_Ok, Z.ltb_ge. split; [done|]. rewrite Hsig.
    cbn [wrapf mbind res_bind]. rewrite Hsr. cbn [deref mbind res_bind]. by rewrite wrapf_Ok.
Qed.

(** What [checkAKParameters] accepts. *)
Definition acceptable_ak (p : ActivationParameters) : Prop :=
  (act_TPMVersion p = TPMVersion12 ∧
   ∃ pub, tpm1_UnmarshalPubRSAPublicKey (ap_Public (act_AK p)) = Ok pub ∧ 2048 ≤ rsa_Size pub * 8) ∨
  (act_TPMVersion p = TPMVersion20 ∧
   ∃ pub att, created_ak (act_AK p) pub att ∧ self_signed (act_AK p) pub).

Lemma checkAKParameters_Ok p : checkAKParameters p = Ok tt ↔ acceptable_ak p.
Proof.
  unfold checkAKParameters, acceptable_ak.
  destruct (Z.eqb_spec (act_TPMVersion p) TPMVersion12) as [->|Hn].
  - transitivity (∃ pub, tpm1_UnmarshalPubRSAPublicKey (ap_Public (act_AK p)) = Ok pub ∧
      2048 ≤ rsa_Size pub * 8); [|split; [auto|by intros [[_ ?]|[? _]]]].
    unfold checkTPM12AKParameters. rewrite res_bind_Ok. setoid_rewrite wrapf_Ok.
    cbv zeta. setoid_rewrite reject_Ok. by setoid_rewrite Z.ltb_ge.
  - destruct (Z.eqb_spec (act_TPMVersion p) TPMVersion20) as [->|Hn']; [|by split; [|intros [[? _]|[? _]]]].
    transitivity (∃ pub att, created_ak (act_AK p) pub att ∧ self_signed (act_AK p) pub);
      [|split; [auto|by intros [[? _]|[_ ?]]]].
    unfold checkTPM20AKParameters. rewrite res_bind_Ok. setoid_rewrite check_signature20_Ok. split.
    + intros ([pub att] & E%check_creation20_Ok & ?). by exists pub, att.
    + intros (pub & att & E & ?). exists (pub, att). by rewrite check_creation20_Ok.
Qed.
End Spec.

(** ** The challenge *)
Section GenerateSpec.
Context `{GoCrypto, GoTPM}.

(** Sources that have not been read yet. *)
Definition fresh (given : option bytes) (system : bytes) : randomness :=
  mkRandomness (NewReader <$> given) (NewReader system).

(** The challenge for [secret], made with the randomness [system] for the
    libraries and [rest] for the code's own draws. *)
Definition challenge (p : ActivationParameters) (ek : PublicKey) (secret system rest : bytes)
    (ec : EncryptedCredential) : Prop :=
  (act_TPMVersion p = TPMVersion12 ∧ ∃ k, ek = PubRSA k ∧
     if ap_UseTCSDActivationFormat (act_AK p)
     then verification_GenerateChallengeEx system k (ap_Public (act_AK p)) secret
            = Ok (ec_Credential ec, ec_Secret ec)
     else (generateChallenge12 k (ap_Public (act_AK p)) secret (NewReader rest)).1
            = Ok (ec_Credential ec, ec_Secret ec)) ∨
  (act_TPMVersion p = TPMVersion20 ∧ ∃ att info digest,
     tpm2_DecodeAttestationData (ap_CreateAttestation (act_AK p)) = Ok att ∧
     att_AttestedCreationInfo att = Some info ∧ name_Digest (create_Name info) = Some digest ∧
     credactivation_Generate system (Some digest) ek symBlockSize secret
       = Ok (ec_Credential ec, ec_Secret ec)).

(** [from_rnd] runs on the source in use and leaves the other one alone. *)
Lemma from_rnd_fresh {A} (m : M reader A) given system :
  from_rnd m (fresh given system) =
    let '(x, r') := m (NewReader (default system given)) in
    (x, match given with
        | Some _ => mkRandomness (Some r') (NewReader system)
        | None => mkRandomness None r'
        end).
Proof. by destruct given. Qed.

Lemma from_rnd_ReadFull given system secret s' :
  from_rnd (ReadFull 32) (fresh given system) = (Ok secret, s') ↔
  ∃ rest, default system given = secret ++ rest ∧ zlen secret = 32 ∧
    s' = fresh ((λ _, rest) <$> given) (match given with Some _ => system | None => rest end).
Proof.
  rewrite from_rnd_fresh. split.
  - destruct (ReadFull 32 _) as [x r'] eqn:E. intros [= -> <-].
    apply ReadFull_Ok_inv in E as (rest & Hd & Hl & ->); [|done]. exists rest. split_and!; [done..|].
    by destruct given.
  - intros (rest & -> & Hl & ->). rewrite ReadFull_app by done. by destruct given.
Qed.

Lemma lift_res_1 {S A} (r : res error A) (s : S) : (lift_res r s).1 = r.
Proof. done. Qed.

Lemma generateChallengeTPM20_Ok p ek secret given system ec :
  act_TPMVersion p = TPMVersion20 →
  (generateChallengeTPM20 p ek secret (fresh given system)).1 = Ok ec ↔
  challenge p ek secret system (default system given) ec.
Proof.
  intros Hv. unfold challenge. rewrite Hv.
  transitivity (∃ att info digest,
     tpm2_DecodeAttestationData (ap_CreateAttestation (act_AK p)) = Ok att ∧
     att_AttestedCreationInfo att = Some info ∧ name_Digest (create_Name info) = Some digest ∧
     credactivation_Generate system (Some digest) ek symBlockSize secret
       = Ok (ec_Credential ec, ec_Secret ec)); [|split; [auto|by intros [[? _]|[_ ?]]]].
  split.
  - destruct (generateChallengeTPM20 _ _ _ _) as [r s'] eqn:E. cbn. intros ->.
    unfold generateChallengeTPM20 in E. inv_ok E.
    rename Hr into Hatt. destruct (att_AttestedCreationInfo a) as [info|] eqn:Hi; [|done].
    destruct (name_Digest (create_Name info)) as [d|] eqn:Hd; [|done]. inv_ok E.
    exists a, info, d. by destruct a1.
  - intros (att & info & d & Hatt & Hi & Hd & Hg). unfold generateChallengeTPM20.
    erewrite bind_Ok; [|apply lift_res_Ok; by rewrite Hatt]. rewrite Hi, Hd.
    erewrite bind_Ok; [|done]. cbn [rd_buf NewReader rnd_system fresh].
    erewrite bind_Ok; [|apply lift_res_Ok; by rewrite Hg]. by destruct ec.
Qed.

Lemma generateChallengeTPM12_Ok p ek secret given system ec :
  act_TPMVersion p = TPMVersion12 →
  (generateChallengeTPM12 p ek secret (fresh given system)).1 = Ok ec ↔
  challenge p ek secret system (default system given) ec.
Proof.
  intros Hv. unfold challenge. rewrite Hv.
  transitivity (∃ k, ek = PubRSA k ∧
     if ap_UseTCSDActivationFormat (act_AK p)
     then verification_GenerateChallengeEx system k (ap_Public (act_AK p)) secret
            = Ok (ec_Credential ec, ec_Secret ec)
     else (generateChallenge12 k (ap_Public (act_AK p)) secret (NewReader (default system given))).1
            = Ok (ec_Credential ec, ec_Secret ec)); [|split; [auto|by intros [[_ ?]|[? _]]]].
  split.
  - destruct (generateChallengeTPM12 _ _ _ _) as [r s'] eqn:E. cbn. intros ->.
    unfold generateChallengeTPM12 in E. destruct ek as [k| |]; [|done..]. exists k. split; [done|].
    apply bind_Ok_inv in E as (c & s1 & Hm%wrapM_Ok_inv & E). injection E as <- _. cbn.
    destruct (ap_UseTCSDActivationFormat (act_AK p)); [inv_ok Hm; by destruct c|].
    rewrite from_rnd_fresh in Hm. destruct (generateChallenge12 _ _ _ _) as [x r'].
    injection Hm as -> _. by destruct c.
  - intros (k & -> & Hg). unfold generateChallengeTPM12.
    destruct (ap_UseTCSDActivationFormat (act_AK p)).
    + erewrite bind_Ok; [|apply wrapM_Ok; erewrite bind_Ok by done;
        cbn [rd_buf NewReader rnd_system fresh]; apply lift_res_Ok, Hg]. by destruct ec.
    + destruct (generateChallenge12 _ _ _ _) as [x r'] eqn:E. cbn in Hg.
      subst x. erewrite bind_Ok; [|apply wrapM_Ok; rewrite from_rnd_fresh, E; done]. by destruct ec.
Qed.

Lemma activation_Generate_run p given system secret ec :
  (Generate p (fresh given system)).1 = Ok (secret, ec) ↔
  acceptable_ak p ∧ ∃ ek rest, act_EK p = Some ek ∧
    default system given = secret ++ rest ∧ zlen secret = 32 ∧
    challenge p ek secret (match given with Some _ => system | None => rest end) rest ec.
Proof.
  split.
  - destruct (Generate _ _) as [r s'] eqn:E. cbn. intros ->. unfold Generate in E.
    apply bind_Ok_inv in E as ([] & s1 & Hc & E). apply lift_res_Ok_inv in Hc as [Hc ->].
    apply checkAKParameters_Ok in Hc as Ha. split; [done|].
    destruct (act_EK p) as [ek|]; [|done]. apply bind_Ok_inv in E as (sec & s1 & Hs & E).
    apply wrapM_Ok_inv, from_rnd_ReadFull in Hs as (rest & Hd & Hl & ->).
    apply bind_Ok_inv in E as (ec' & s1 & Hg & E). injection E as -> -> <-.
    exists ek, rest. split_and!; [done..|].
    apply (f_equal fst) in Hg. cbn [fst] in Hg.
    assert (default (match given with Some _ => system | None => rest end) ((λ _, rest) <$> given) = rest) as Hrest
      by by destruct given.
    destruct (Z.eqb_spec (act_TPMVersion p) TPMVersion12) as [Hv|].
    + apply generateChallengeTPM12_Ok in Hg; [|done]. by rewrite Hrest in Hg.
    + destruct (Z.eqb_spec (act_TPMVersion p) TPMVersion20) as [Hv|]; [|done].
      apply generateChallengeTPM20_Ok in Hg; [|done]. by rewrite Hrest in Hg.
  - intros (Ha & ek & rest & Hek & Hd & Hl & Hg). unfold Generate.
    erewrite bind_Ok; [|apply lift_res_Ok; by apply checkAKParameters_Ok]. rewrite Hek.
    erewrite bind_Ok; [|apply wrapM_Ok; apply from_rnd_ReadFull; by exists rest].
    assert (default (match given with Some _ => system | None => rest end) ((λ _, rest) <$> given) = rest) as Hrest
      by by destruct given.
    set (sys := match given with Some _ => system | None => rest end) in *.
    rewrite <- Hrest in Hg.
    unfold mbind, M_bind.
    destruct (Z.eqb_spec (act_TPMVersion p) TPMVersion12) as [Hv|].
    + apply generateChallengeTPM12_Ok in Hg; [|done]. by destruct (generateChallengeTPM12 _ _ _ _) as [x ?]; cbn in Hg; subst x.
    + destruct (Z.eqb_spec (act_TPMVersion p) TPMVersion20) as [Hv|].
      * apply generateChallengeTPM20_Ok in Hg; [|done]. by destruct (generateChallengeTPM20 _ _ _ _) as [x ?]; cbn in Hg; subst x.
      * by destruct Hg as [[? _]|[? _]].
Qed.
End GenerateSpec.

(** ** Panics *)
Section Panics.
Context `{GoCrypto, GoTPM, !GoTPMLaws}.

(** The decoded key has no signature scheme, or the decoded signature is not
    an RSA signature: the code reads a field of the nil pointer. *)
Definition nil_signature (ak : AttestationParameters) (pub : Public) : Prop :=
  ∃ rp, pub_RSAParameters pub = Some rp ∧
    (rp_Sign rp = None ∨
     ∃ sign h sig, rp_Sign rp = Some sign ∧ Algorithm_Hash (scheme_Hash sign) = Ok h ∧
       tpm2_DecodeSignature (ap_CreateSignature ak) = Ok sig ∧ sig_RSA sig = None).

Lemma check_creation20_returns ak : no_crash (check_creation20 ak).
Proof using All.
  unfold check_creation20.
  apply no_crash_bind; [auto with go|intros _ _].
  apply no_crash_bind; [apply wrapf_no_crash, DecodePublic_returns|intros pub Hpub%wrapf_Ok].
  apply no_crash_bind; [apply wrapf_no_crash, DecodeCreationData_returns|intros _ _].
  apply no_crash_bind; [apply wrapf_no_crash, DecodeAttestationData_returns|intros att Hatt%wrapf_Ok].
  apply no_crash_bind; [auto with go|intros [] Ht%reject_Ok].
  apply no_crash_bind.
  { destruct (Z.eqb_spec (pub_Type pub) tpm2.AlgRSA) as [Hr|]; [|done].
    destruct (rsa_parameters _ _ Hpub Hr) as [rp ->]. apply reject_no_crash. }
  intros _ _.
  apply no_crash_bind; [apply wrapf_no_crash, Algorithm_Hash_returns|intros h Hh%wrapf_Ok].
  rewrite (hash_New_ok h) by by eapply Algorithm_Hash_available. cbn [mbind res_bind].
  apply negb_false_iff, Z.eqb_eq in Ht. destruct (creation_info _ _ Hatt Ht) as [info ->].
  cbn [deref mbind res_bind].
  do 4 (apply no_crash_bind; [auto with go|intros _ _]).
  apply no_crash_bind; [apply MatchesPublic_returns|intros m _].
  apply no_crash_bind; [auto with go|done].
Qed.

Lemma check_signature20_crash ak pub att :
  created_ak ak pub att → ¬ no_crash (check_signature20 ak pub) ↔ nil_signature ak pub.
Proof using All.
  intros Hc. destruct (ca_size _ _ _ Hc) as (rp & Hrp & _). unfold check_signature20, nil_signature.
  pose proof (ca_sig_length _ _ _ Hc) as Hlen. rewrite Hrp. cbn [deref mbind res_bind].
  destruct (rp_Sign rp) as [sign|] eqn:Hs; cbn [deref mbind res_bind]; [|split; [eauto|intros _ []]].
  pose proof (Algorithm_Hash_returns (scheme_Hash sign)).
  destruct (Algorithm_Hash (scheme_Hash sign)) as [h|e| |] eqn:Hh; try done.
  2: { cbn. split; [done|]. intros (? & [= <-] & [?|(s & h & sg & Hs' & Hh' & _)]); congruence. }
  cbn [mbind res_bind]. rewrite (hash_New_ok h) by by eapply Algorithm_Hash_available.
  rewrite (proj2 (reject_Ok (zlen _ <? 8) _)) by by apply Z.ltb_ge. cbn [mbind res_bind].
  pose proof (DecodeSignature_returns (ap_CreateSignature ak)).
  destruct (tpm2_DecodeSignature (ap_CreateSignature ak)) as [sg|e| |]; try done; cbn.
  2: { split; [done|]. intros (? & [= <-] & [?|(s & h' & sg & _ & _ & ? & _)]); congruence. }
  destruct (sig_RSA sg) as [sr|] eqn:Hr; cbn.
  - split.
    + intros Hn. exfalso. apply Hn, wrapf_no_crash, VerifyPKCS1v15_returns.
    + intros (? & [= <-] & [?|(s & h' & sg' & _ & _ & [= <-] & ?)]); congruence.
  - split; [|intros _ []]. intros _. exists rp. split; [done|]. right. by exists sign, h, sg.
Qed.

Lemma checkAKParameters_crash p :
  ¬ no_crash (checkAKParameters p) ↔
    act_TPMVersion p = TPMVersion20 ∧
    ∃ pub att, created_ak (act_AK p) pub att ∧ nil_signature (act_AK p) pub.
Proof using All.
  unfold checkAKParameters. destruct (Z.eqb_spec (act_TPMVersion p) TPMVersion12) as [->|].
  { split; [|by intros [? _]]. intros Hn. exfalso. apply Hn. unfold checkTPM12AKParameters.
    apply no_crash_bind; [apply wrapf_no_crash, UnmarshalPub_returns|intros; apply reject_no_crash]. }
  destruct (Z.eqb_spec (act_TPMVersion p) TPMVersion20) as [->|]; [|by split; [|intros [? _]]].
  unfold checkTPM20AKParameters. pose proof (check_creation20_returns (act_AK p)).
  destruct (check_creation20 (act_AK p)) as [[pub att]|e| |] eqn:Hc; try done; cbn.
  - apply check_creation20_Ok in Hc as Hca. rewrite (check_signature20_crash _ _ _ Hca). split; [eauto|].
    intros (_ & pub' & att' & Hc' & ?). apply check_creation20_Ok in Hc'.
    rewrite Hc in Hc'. by injection Hc' as -> ->.
  - split; [done|]. intros (_ & pub & att & Hc'%check_creation20_Ok & _). congruence.
Qed.

Lemma generateChallenge12_returns k akpub secret s :
  no_crash (generateChallenge12 k akpub secret (NewReader s)).1.
Proof using All.
  destruct (pad_eq secret 16 ltac:(lia)) as (_ & _ & _ & Hpad).
  apply (reads_no_crash _ s (λ _ _, True)).
  eapply reads_bind; [by apply reads_ReadFull|]. intros key used s1 -> [-> Hk].
  eapply reads_bind; [by apply reads_ReadFull|]. intros iv used s2 -> [-> Hiv].
  apply reads_lift_res; [done|]. intros blob _. apply reads_gets.
  apply reads_lift_res; [apply wrapf_no_crash, EncryptOAEP_returns|]. intros asym _.
  apply reads_lift_res; [unfold aes_NewCipher; by case_bool_decide|]. intros _ _.
  apply reads_lift_res; [unfold cbc_CryptBlocks; by rewrite !Hiv, Hpad|]. intros sym _.
  by apply reads_ret.
Qed.

Lemma bind_no_crash {S A B} (m : M S A) (f : A → M S B) s :
  no_crash (m s).1 → (∀ a s', m s = (Ok a, s') → no_crash (f a s').1) → no_crash ((m ≫= f) s).1.
Proof using Type. unfold mbind, M_bind. destruct (m s) as [[] s']; cbn; auto. Qed.

Lemma wrapM_no_crash {S A} fmt (m : M S A) s : no_crash (m s).1 → no_crash (wrapM fmt m s).1.
Proof using Type. unfold wrapM. destruct (m s) as [r s']. apply wrapf_no_crash. Qed.

Lemma generateChallenge_returns p ek secret given system :
  no_crash (generateChallengeTPM12 p ek secret (fresh given system)).1 ∧
  no_crash (generateChallengeTPM20 p ek secret (fresh given system)).1.
Proof using All.
  split.
  - unfold generateChallengeTPM12. destruct ek as [k| |]; [|done..].
    apply bind_no_crash; [|done]. apply wrapM_no_crash.
    destruct (ap_UseTCSDActivationFormat (act_AK p)).
    + apply bind_no_crash; [done|]. intros sys s' _. apply GenerateChallengeEx_returns.
    + rewrite from_rnd_fresh.
      pose proof (generateChallenge12_returns k (ap_Public (act_AK p)) secret (default system given)) as Hr.
      by destruct (generateChallenge12 _ _ _ _).
  - unfold generateChallengeTPM20. apply bind_no_crash.
    { apply wrapf_no_crash, DecodeAttestationData_returns. }
    intros att s' _. destruct (att_AttestedCreationInfo att) as [info|]; [|done].
    destruct (name_Digest (create_Name info)) as [d|]; [|done].
    apply bind_no_crash; [done|]. intros sys s1 _.
    apply bind_no_crash; [|done]. apply wrapf_no_crash, credactivation_returns.
Qed.

Lemma Generate_crash p given system :
  ¬ no_crash (Generate p (fresh given system)).1 ↔ ¬ no_crash (checkAKParameters p).
Proof using All.
  unfold Generate. destruct (checkAKParameters p) as [[]|e|msg|] eqn:Hc; try done.
  split; [|intros Hn; exfalso; by apply Hn]. intros Hn. exfalso. apply Hn. clear Hn Hc.
  erewrite bind_Ok by done. destruct (act_EK p) as [ek|]; [|done]. apply bind_no_crash.
  { apply wrapM_no_crash. rewrite from_rnd_fresh.
    pose proof (reads_no_crash _ _ _ (reads_ReadFull 32 (default system given) ltac:(done))) as Hr.
    unfold activationSecretLen. by destruct (ReadFull _ _). }
  intros secret s1 (rest & _ & _ & ->)%wrapM_Ok_inv%from_rnd_ReadFull.
  apply bind_no_crash; [|done]. case_match; [apply generateChallenge_returns|].
  case_match; [apply generateChallenge_returns|done].
Qed.
End Panics.

(** ** Properties *)
Section Theorems.
Context `{GoCrypto, GoTPM}.

(** C26: [checkAKParameters] accepts exactly the acceptable AKs: on TPM 1.2 an
    RSA key of at least 2048 bits; on TPM 2.0 such a key which is fixed to
    its TPM, restricted and TPM-generated, whose creation attestation is of
    the right type and magic, covers the creation data and names this key,
    and is signed by it. *)
Theorem checkAKParameters_iff p : checkAKParameters p = Ok tt ↔ acceptable_ak p.
Proof. apply checkAKParameters_Ok. Qed.

(** C27: [Generate] succeeds exactly for an acceptable AK and a given EK, when
    the source of randomness has 32 bytes for the secret and the challenge
    for that secret can be made: of the name digest in the creation
    attestation on TPM 2.0, of the AK's public blob on TPM 1.2. *)
Theorem Generate_iff p given system secret ec :
  (Generate p (fresh given system)).1 = Ok (secret, ec) ↔
  acceptable_ak p ∧ ∃ ek rest, act_EK p = Some ek ∧
    default system given = secret ++ rest ∧ zlen secret = 32 ∧
    challenge p ek secret (match given with Some _ => system | None => rest end) rest ec.
Proof. apply activation_Generate_run. Qed.

(** C32: Neither function runs into a panic, except that both do on a TPM 2.0
    key that passes every check on its creation and then has no signature
    scheme, or comes with a signature that is not RSA. *)
Theorem activation_panics_iff `{!GoTPMLaws} p given system :
  (¬ no_crash (checkAKParameters p) ↔
    act_TPMVersion p = TPMVersion20 ∧
    ∃ pub att, created_ak (act_AK p) pub att ∧ nil_signature (act_AK p) pub) ∧
  (¬ no_crash (Generate p (fresh given system)).1 ↔ ¬ no_crash (checkAKParameters p)).
Proof. split; [apply checkAKParameters_crash|apply Generate_crash]. Qed.
End Theorems.

Section Witnesses.
#[local] Existing Instance sha_crypto.

Definition ex_ak_public : Public :=
  mkPublic tpm2.AlgRSA tpm2.AlgSHA256 0x00010072
    (Some (mkRSAParams (Some (mkScheme 0x0014 tpm2.AlgSHA256)) 2048 65537 (2 ^ 2047))) None.
Definition ex_create_data : bytes := str "creation data".
Definition ex_ak_creation : AttestationData :=
  mkAttestation tpm20GeneratedMagic tpm2.TagAttestCreation [] None None
    (Some (mkCreationInfo (mkName None (Some (mkHashValue tpm2.AlgSHA256 [])))
             (Sha.sha256 ex_create_data))).
(** The signature decodes to one that is not RSA. *)
Definition ex_ak_tpm (sg : Signature) : GoTPM :=
  fixed_tpm ex_ak_public ex_ak_creation sg crypto_SHA256 (mkRawAttestation [] [] [] [])
    (mkRSA 0 0) (λ _ _, true).
Definition ex_ecdsa : Signature := mkSignature 0x0018 None (Some (mkSignatureECC 1 1)).
Definition ex_rsa : Signature := mkSignature 0x0014 (Some (mkSignatureRSA tpm2.AlgSHA256 [])) None.
Definition ex_activation : ActivationParameters :=
  mkActivation TPMVersion20 (Some (PubRSA (mkRSA 3233 17)))
    (mkAKParameters [] false ex_create_data (str "attestation") (repeat Byte.x00 8)).

Example ex_activation_accepted :
  @checkAKParameters _ (ex_ak_tpm ex_rsa) ex_activation = Ok tt.
Proof. vm_compute. reflexivity. Qed.
Example ex_activation_ecdsa_panics :
  @checkAKParameters _ (ex_ak_tpm ex_ecdsa) ex_activation = Panic "nil pointer dereference".
Proof. vm_compute. reflexivity. Qed.

Lemma activation_panics_iff_witness :
  (¬ no_crash (@checkAKParameters _ (ex_ak_tpm ex_ecdsa) ex_activation) ↔
    act_TPMVersion ex_activation = TPMVersion20 ∧
    ∃ pub att, @created_ak _ (ex_ak_tpm ex_ecdsa) (act_AK ex_activation) pub att ∧
      @nil_signature (ex_ak_tpm ex_ecdsa) (act_AK ex_activation) pub) ∧
  (¬ no_crash (@Generate _ (ex_ak_tpm ex_ecdsa) ex_activation (fresh None (repeat Byte.x07 64))).1 ↔
   ¬ no_crash (@checkAKParameters _ (ex_ak_tpm ex_ecdsa) ex_activation)).
Proof.
  apply (@activation_panics_iff _ (ex_ak_tpm ex_ecdsa)). unfold ex_ak_tpm.
  apply fixed_tpm_laws; try done; try by eexists.
Defined.
End Witnesses.
