(* ===== verification/Certification.v ===== *)
(** * Key certification ([attest/certification.go])

    [CertificationParameters.Verify] checks an application key that an AK
    certified, [Generate] makes an activation challenge for it. *)
From S2P Require Import Prelude GoBytes GoCrypto Attest Tpm2 Activation.

(** ** Data *)
Definition secureCurves : list (Z * bool) :=
  [(tpm2.CurveNISTP256, true); (tpm2.CurveNISTP384, true); (tpm2.CurveNISTP521, true);
   (tpm2.CurveBNP256, true); (tpm2.CurveBNP638, true)].

Record CertificationParameters := mkCertification {
  cp_Public : bytes;
  cp_CreateData : bytes;
  cp_CreateAttestation : bytes;
  cp_CreateSignature : bytes;
}.
Record VerifyOpts := mkVerifyOpts { vo_Public : option PublicKey; vo_Hash : Z }.
Record ActivateOpts := mkActivateOpts {
  ao_EK : option PublicKey;
  ao_VerifierKeyNameDigest : option HashValue;
}.

(** ** The code *)
Section Certification.
Context `{GoCrypto, GoTPM}.

Definition NewActivateOpts (verifierPubKey : Public) (ek : option PublicKey)
    : res error ActivateOpts :=
  pubName ← wrapf "unable to resolve a tpm2.Public Name struct from the given public key struct: %v"
              (Public_Name verifierPubKey);
  Ok (mkActivateOpts ek (name_Digest pubName)).

(** [switch pub.Type] *)
Definition check_key (pub : Public) : res error () :=
  if pub_Type pub =? tpm2.AlgRSA then
    rp ← deref (pub_RSAParameters pub);
    reject (rp_KeyBits rp <? minRSABits)
      (Errorf "attested key too small: must be at least %d bits but was %d bits")
  else if pub_Type pub =? tpm2.AlgECC then
    ep ← deref (pub_ECCParameters pub);
    reject (negb (default false (assoc (ep_CurveID ep) secureCurves)))
      (Errorf "attested key uses insecure curve")
  else Err (Errorf "public key of alg 0x%x not supported").

(** [Verify], up to the comparison of names. *)
Definition check_certified (p : CertificationParameters) : res error (Public * AttestationData) :=
  pub ← wrapf "DecodePublic() failed: %v" (tpm2_DecodePublic (cp_Public p));
  att ← wrapf "DecodeAttestationData() failed: %v" (tpm2_DecodeAttestationData (cp_CreateAttestation p));
  _ ← reject (negb (att_Type att =? tpm2.TagAttestCertify))
        (Errorf "attestation does not apply to certification data, got tag %x");
  _ ← check_key pub;
  _ ← reject (negb (att_Magic att =? tpm20GeneratedMagic))
        (Errorf "creation attestation was not produced by a TPM");
  _ ← reject (lacks (pub_Attributes pub) tpm2.FlagFixedTPM) (Errorf "provided key is exportable");
  _ ← reject (negb (lacks (pub_Attributes pub) tpm2.FlagRestricted)) (Errorf "provided key is restricted");
  _ ← reject (lacks (pub_Attributes pub) tpm2.FlagFixedParent)
        (Errorf "provided key can be duplicated to a different parent");
  _ ← reject (lacks (pub_Attributes pub) tpm2.FlagSensitiveDataOrigin)
        (Errorf "provided key is not created by TPM");
  info ← deref (att_AttestedCertifyInfo att);
  matches ← MatchesPublic (cert_Name info) pub;
  _ ← reject (negb matches) (Errorf "certification refers to a different key");
  Ok (pub, att).

(** [Verify], the signature over the attestation. *)
Definition check_certification (p : CertificationParameters) (opts : VerifyOpts) : res error () :=
  match vo_Public opts with
  | Some (PubRSA pk) =>
      _ ← reject (negb (hash_available (vo_Hash opts))) (Errorf "hash function is unavailable");
      _ ← hash_New (vo_Hash opts);
      _ ← reject (zlen (cp_CreateSignature p) <? 8)
            (Errorf "signature invalid: length of %d is shorter than 8");
      sig ← wrapf "DecodeSignature() failed: %v" (tpm2_DecodeSignature (cp_CreateSignature p));
      sigRSA ← deref (sig_RSA sig);
      wrapf "could not verify attestation: %v"
        (rsa_VerifyPKCS1v15 pk (vo_Hash opts) (hash_sum (vo_Hash opts) (cp_CreateAttestation p))
           (srsa_Signature sigRSA))
  | _ => Err (Errorf "only RSA verification keys are supported")
  end.

Definition Verify (p : CertificationParameters) (opts : VerifyOpts) : res error () :=
  _ ← check_certified p;
  check_certification p opts.

Definition Generate (p : CertificationParameters) (verifyOpts : VerifyOpts)
    (activateOpts : ActivateOpts) : M randomness (bytes * EncryptedCredential) :=
  _ ← lift_res (Verify p verifyOpts);
  match ao_EK activateOpts with
  | None => fail (Errorf "no EK provided")
  | Some ek =>
      secret ← wrapM "error generating activation secret: %v" (from_rnd (ReadFull activationSecretLen));
      att ← lift_res (wrapf "DecodeAttestationData() failed: %v"
              (tpm2_DecodeAttestationData (cp_CreateAttestation p)));
      _ ← reject_if (negb (att_Type att =? tpm2.TagAttestCertify))
            (Errorf "attestation does not apply to certify data, got %x");
      system ← gets (λ s, rd_buf (rnd_system s));
      c ← lift_res (wrapf "credactivation.Generate() failed: %v"
            (credactivation_Generate system (ao_VerifierKeyNameDigest activateOpts) ek symBlockSize secret));
      mret (secret, mkCredential c.1 c.2)
  end.
End Certification.

(** ** What they establish *)
Section Spec.
Context `{GoCrypto, GoTPM}.

(** An RSA key of 2048 bits or a key on one of the five curves. *)
Definition strong_key (pub : Public) : Prop :=
  (pub_Type pub = tpm2.AlgRSA ∧ ∃ rp, pub_RSAParameters pub = Some rp ∧ 2048 ≤ rp_KeyBits rp) ∨
  (pub_Type pub = tpm2.AlgECC ∧ ∃ ep, pub_ECCParameters pub = Some ep ∧
     ep_CurveID ep ∈ [0x3; 0x4; 0x5; 0x10; 0x11]).

(** An unrestricted key, generated by and bound to a TPM, and a TPM's
    statement that certifies this key. *)
Record certified_key (p : CertificationParameters) (pub : Public) (att : AttestationData) : Prop := {
  ck_public : tpm2_DecodePublic (cp_Public p) = Ok pub;
  ck_attestation : tpm2_DecodeAttestationData (cp_CreateAttestation p) = Ok att;
  ck_type : att_Type att = tpm2.TagAttestCertify;
  ck_strong : strong_key pub;
  ck_magic : att_Magic att = tpm20GeneratedMagic;
  ck_attributes : fixedTPM pub ∧ ¬ restricted pub ∧ fixedParent pub ∧ sensitiveDataOrigin pub;
  ck_name : ∃ info, att_AttestedCertifyInfo att = Some info ∧
    MatchesPublic (cert_Name info) pub = Ok true;
}.

(** The statement is signed by the verifier's key. *)
Definition certified_by (p : CertificationParameters) (opts : VerifyOpts) : Prop :=
  ∃ pk sig sigRSA, vo_Public opts = Some (PubRSA pk) ∧ hash_available (vo_Hash opts) = true ∧
    8 ≤ zlen (cp_CreateSignature p) ∧
    tpm2_DecodeSignature (cp_CreateSignature p) = Ok sig ∧ sig_RSA sig = Some sigRSA ∧
    rsa_VerifyPKCS1v15 pk (vo_Hash opts) (hash_sum (vo_Hash opts) (cp_CreateAttestation p))
      (srsa_Signature sigRSA) = Ok tt.

Lemma secureCurves_spec c :
  default false (assoc c secureCurves) = true ↔ c ∈ [0x3; 0x4; 0x5; 0x10; 0x11].
Proof.
  unfold secureCurves, tpm2.CurveNISTP256, tpm2.CurveNISTP384, tpm2.CurveNISTP521,
    tpm2.CurveBNP256, tpm2.CurveBNP638.
  rewrite !elem_of_cons, elem_of_nil. cbn [assoc].
  repeat (match goal with |- context [c =? ?k] => destruct (Z.eqb_spec c k) end;
          [cbn; split; [tauto|done]|]).
  cbn. split; [done|lia].
Qed.

Lemma check_key_Ok pub : check_key pub = Ok tt ↔ strong_key pub.
Proof.
  unfold check_key, strong_key. destruct (Z.eqb_spec (pub_Type pub) tpm2.AlgRSA) as [->|].
  - rewrite res_bind_Ok. setoid_rewrite deref_Ok. setoid_rewrite reject_Ok. setoid_rewrite Z.ltb_ge.
    split; [auto|by intros [[_ ?]|[? _]]].
  - destruct (Z.eqb_spec (pub_Type pub) tpm2.AlgECC) as [->|]; [|by split; [|intros [[? _]|[? _]]]].
    rewrite res_bind_Ok. setoid_rewrite deref_Ok. setoid_rewrite reject_Ok.
    setoid_rewrite negb_false_iff. setoid_rewrite secureCurves_spec.
    split; [auto|by intros [[? _]|[_ ?]]].
Qed.

Lemma check_certified_attributes pub :
  lacks (pub_Attributes pub) tpm2.FlagFixedTPM = false ∧
  negb (lacks (pub_Attributes pub) tpm2.FlagRestricted) = false ∧
  lacks (pub_Attributes pub) tpm2.FlagFixedParent = false ∧
  lacks (pub_Attributes pub) tpm2.FlagSensitiveDataOrigin = false ↔
  fixedTPM pub ∧ ¬ restricted pub ∧ fixedParent pub ∧ sensitiveDataOrigin pub.
Proof.
  rewrite negb_false_iff, <- not_false_iff_true.
  rewrite (lacks_Ok _ tpm2.FlagFixedTPM 1), (lacks_Ok _ tpm2.FlagRestricted 16),
    (lacks_Ok _ tpm2.FlagFixedParent 4), (lacks_Ok _ tpm2.FlagSensitiveDataOrigin 5) by done.
  done.
Qed.

Lemma check_certified_Ok p pub att : check_certified p = Ok (pub, att) ↔ certified_key p pub att.
Proof.
  unfold check_certified. split.
  - intros (pub' & Hpub%wrapf_Ok & E)%res_bind_Ok.
    apply res_bind_Ok in E as (att' & Hatt%wrapf_Ok & E).
    apply res_bind_unit_Ok in E as [Htype E].
    apply res_bind_unit_Ok in E as [Hkey%check_key_Ok E].
    apply res_bind_unit_Ok in E as [Hmagic E].
    apply res_bind_unit_Ok in E as [Hf1%reject_Ok E].
    apply res_bind_unit_Ok in E as [Hf2%reject_Ok E].
    apply res_bind_unit_Ok in E as [Hf3%reject_Ok E].
    apply res_bind_unit_Ok in E as [Hf4%reject_Ok E].
    apply res_bind_Ok in E as (info & Hinfo%deref_Ok & E).
    apply res_bind_Ok in E as (m & Hm & E).
    apply res_bind_unit_Ok in E as [Hmm E]. apply Ok_inj in E. injection E as -> ->.
    rewrite reject_Ok, negb_false_iff in Htype, Hmagic, Hmm. rewrite Z.eqb_eq in Htype, Hmagic.
    subst m. pose proof (proj1 (check_certified_attributes pub) ltac:(done)).
    constructor; try done. by exists info.
  - intros [Hpub Hatt Htype Hkey%check_key_Ok Hmagic Hattr%check_certified_attributes (info & Hinfo & Hm)].
    destruct Hattr as (Hf1 & Hf2 & Hf3 & Hf4). rewrite Hpub. cbn [wrapf mbind res_bind]. rewrite Hatt.
    cbn [wrapf mbind res_bind]. rewrite Htype, Hkey, Hmagic, Hf1, Hf2, Hf3, Hf4, Hinfo. cbn.
    by rewrite Hm.
Qed.

Lemma check_certification_Ok p opts : check_certification p opts = Ok tt ↔ certified_by p opts.
Proof.
  unfold check_certification, certified_by. split.
  - destruct (vo_Public opts) as [[pk| |]|]; [|done..].
    intros [Hav%reject_Ok%negb_false_iff E]%res_bind_unit_Ok.
    apply res_bind_unit_Ok in E as [_ E]. apply res_bind_unit_Ok in E as [Hlen%reject_Ok%Z.ltb_ge E].
    apply res_bind_Ok in E as (sg & Hsig%wrapf_Ok & E).
    apply res_bind_Ok in E as (sr & Hsr%deref_Ok & E%wrapf_Ok). by exists pk, sg, sr.
  - intros (pk & sg & sr & -> & Hav & Hlen & Hsig & Hsr & Hv). rewrite Hav. cbn [negb].
    rewrite hash_New_ok by done. cbn [reject mbind res_bind].
    rewrite res_bind_unit_Ok, reject_Ok, Z.ltb_ge. split; [done|]. rewrite Hsig.
    cbn [wrapf mbind res_bind]. rewrite Hsr. cbn [deref mbind res_bind]. by rewrite wrapf_Ok.
Qed.

Lemma certified_Verify_Ok p opts :
  Verify p opts = Ok tt ↔ (∃ pub att, certified_key p pub att) ∧ certified_by p opts.
Proof.
  unfold Verify. rewrite res_bind_Ok. setoid_rewrite check_certification_Ok. split.
  - intros ([pub att] & Hc%check_certified_Ok & ?). split; [by exists pub, att|done].
  - intros ((pub & att & Hc%check_certified_Ok) & ?). by exists (pub, att).
Qed.
End Spec.

Section GenerateSpec.
Context `{GoCrypto, GoTPM}.

Lemma certified_Generate_run p vo ao given system secret ec :
  (Generate p vo ao (fresh given system)).1 = Ok (secret, ec) ↔
  Verify p vo = Ok tt ∧ ∃ ek rest, ao_EK ao = Some ek ∧
    default system given = secret ++ rest ∧ zlen secret = 32 ∧
    credactivation_Generate (match given with Some _ => system | None => rest end)
      (ao_VerifierKeyNameDigest ao) ek symBlockSize secret = Ok (ec_Credential ec, ec_Secret ec).
Proof.
  assert (∀ rest, rd_buf (rnd_system (fresh ((λ _, rest) <$> given)
    (match given with Some _ => system | None => rest end))) =
    match given with Some _ => system | None => rest end) as Hsys by by destruct given.
  split.
  - destruct (Generate _ _ _ _) as [r s'] eqn:E. cbn. intros ->. unfold Generate in E.
    apply bind_Ok_inv in E as ([] & s1 & [Hv ->]%lift_res_Ok_inv & E). split; [done|].
    destruct (ao_EK ao) as [ek|]; [|done].
    apply bind_Ok_inv in E as (sec & s1 & Hs & E).
    apply wrapM_Ok_inv, from_rnd_ReadFull in Hs as (rest & Hd & Hl & ->).
    inv_ok E. exists ek, rest. by destruct a1.
  - intros (Hv & ek & rest & Hek & Hd & Hl & Hg). unfold Generate.
    erewrite bind_Ok; [|by apply lift_res_Ok]. rewrite Hek.
    erewrite bind_Ok; [|apply wrapM_Ok, from_rnd_ReadFull; by exists rest].
    apply certified_Verify_Ok in Hv as ((pub & att & Hc) & _).
    erewrite bind_Ok; [|apply lift_res_Ok; by rewrite (ck_attestation _ _ _ Hc)].
    erewrite bind_Ok; [|apply reject_if_Ok; by rewrite (ck_type _ _ _ Hc)].
    erewrite bind_Ok; [|done]. rewrite Hsys.
    erewrite bind_Ok; [|apply lift_res_Ok; by rewrite Hg]. by destruct ec.
Qed.
End GenerateSpec.

(** ** Panics *)
Section Panics.
Context `{GoCrypto, GoTPM, !GoTPMLaws}.

Lemma check_certified_returns p : no_crash (check_certified p).
Proof using All.
  unfold check_certified.
  apply no_crash_bind; [apply wrapf_no_crash, DecodePublic_returns|intros pub Hpub%wrapf_Ok].
  apply no_crash_bind; [apply wrapf_no_crash, DecodeAttestationData_returns|intros att Hatt%wrapf_Ok].
  apply no_crash_bind; [auto with go|intros [] Ht%reject_Ok%negb_false_iff%Z.eqb_eq].
  apply no_crash_bind.
  { unfold check_key. destruct (Z.eqb_spec (pub_Type pub) tpm2.AlgRSA) as [Hr|].
    { destruct (rsa_parameters _ _ Hpub Hr) as [rp ->]. apply reject_no_crash. }
    destruct (Z.eqb_spec (pub_Type pub) tpm2.AlgECC) as [He|]; [|done].
    destruct (ecc_parameters _ _ Hpub He) as [ep ->]. apply reject_no_crash. }
  intros _ _. destruct (certify_info _ _ Hatt Ht) as [info ->].
  do 5 (apply no_crash_bind; [auto with go|intros _ _]). cbn [deref mbind res_bind].
  apply no_crash_bind; [apply MatchesPublic_returns|intros m _].
  apply no_crash_bind; [auto with go|done].
Qed.

(** The verifier's key is RSA and the signature decodes to one that is not. *)
Definition mismatched_signature (p : CertificationParameters) (opts : VerifyOpts) : Prop :=
  ∃ pk sig, vo_Public opts = Some (PubRSA pk) ∧ hash_available (vo_Hash opts) = true ∧
    8 ≤ zlen (cp_CreateSignature p) ∧
    tpm2_DecodeSignature (cp_CreateSignature p) = Ok sig ∧ sig_RSA sig = None.

Lemma check_certification_crash p opts :
  ¬ no_crash (check_certification p opts) ↔ mismatched_signature p opts.
Proof using All.
  unfold check_certification, mismatched_signature.
  destruct (vo_Public opts) as [[pk| |]|];
    [|split; [intros []; exact I|intros (? & ? & ? & _); discriminate]..].
  destruct (hash_available (vo_Hash opts)) eqn:Hav; cbn [negb reject mbind res_bind];
    [|split; [intros []; exact I|intros (? & ? & _ & ? & _); discriminate]].
  rewrite hash_New_ok by done. cbn [mbind res_bind]. unfold reject.
  destruct (Z.ltb_spec (zlen (cp_CreateSignature p)) 8) as [|Hlen]; cbn [mbind res_bind];
    [split; [intros []; exact I|intros (? & ? & _ & _ & ? & _); lia]|].
  pose proof (DecodeSignature_returns (cp_CreateSignature p)).
  destruct (tpm2_DecodeSignature (cp_CreateSignature p)) as [sg|e| |]; try done; cbn.
  2: { split; [intros []; exact I|intros (? & ? & _ & _ & _ & ? & _); discriminate]. }
  destruct (sig_RSA sg) as [sr|] eqn:Hr; cbn.
  - split; [|intros (? & ? & _ & _ & _ & [= <-] & ?); congruence].
    intros []. apply wrapf_no_crash, VerifyPKCS1v15_returns.
  - split; [|intros _ []]. intros _. by exists pk, sg.
Qed.

Lemma Verify_crash p opts :
  ¬ no_crash (Verify p opts) ↔
    (∃ pub att, certified_key p pub att) ∧ mismatched_signature p opts.
Proof using All.
  unfold Verify. pose proof (check_certified_returns p).
  destruct (check_certified p) as [[pub att]|e| |] eqn:Hc; try done; cbn [mbind res_bind].
  - rewrite check_certification_crash. apply check_certified_Ok in Hc. split; [eauto|by intros [_ ?]].
  - split; [intros []; exact I|]. intros ((pub & att & Hc'%check_certified_Ok) & _). congruence.
Qed.
End Panics.

(** ** Properties *)
Section Theorems.
Context `{GoCrypto, GoTPM}.

(** C28: [Verify] accepts exactly the keys that are strong, unrestricted and
    generated by and fixed to a TPM, together with a TPM's certification of
    this very key, signed by the verifier's RSA key. *)
Theorem certification_Verify_iff p opts :
  Verify p opts = Ok tt ↔ (∃ pub att, certified_key p pub att) ∧ certified_by p opts.
Proof. apply certified_Verify_Ok. Qed.

(** [Generate] succeeds exactly for a verified key and a given EK, with a
    fresh secret of 32 bytes and a challenge bound to the verifier key's
    name. *)
Theorem certification_Generate_iff p vo ao given system secret ec :
  (Generate p vo ao (fresh given system)).1 = Ok (secret, ec) ↔
  Verify p vo = Ok tt ∧ ∃ ek rest, ao_EK ao = Some ek ∧
    default system given = secret ++ rest ∧ zlen secret = 32 ∧
    credactivation_Generate (match given with Some _ => system | None => rest end)
      (ao_VerifierKeyNameDigest ao) ek symBlockSize secret = Ok (ec_Credential ec, ec_Secret ec).
Proof. apply certified_Generate_run. Qed.

(** [Verify] panics exactly when everything else is in order and an RSA
    verification key meets a signature of another kind. *)
Theorem certification_panics_iff `{!GoTPMLaws} p opts :
  ¬ no_crash (Verify p opts) ↔
    (∃ pub att, certified_key p pub att) ∧ mismatched_signature p opts.
Proof. apply Verify_crash. Qed.

(** Activation and certification never accept the same key: an AK is
    restricted, a certified key is not. *)
Theorem ak_never_certified act p opts :
  act_TPMVersion act = TPMVersion20 → cp_Public p = ap_Public (act_AK act) →
  checkAKParameters act = Ok tt → Verify p opts ≠ Ok tt.
Proof.
  intros Hv Hp Hc ((pub & att & Hk) & _)%certified_Verify_Ok.
  apply checkAKParameters_Ok in Hc as [[E12 _]|(_ & pub1 & att1 & Hak & _)]; [by rewrite Hv in E12|].
  pose proof (ca_public _ _ _ Hak) as E. pose proof (ck_public _ _ _ Hk) as E'.
  rewrite Hp, E in E'. apply Ok_inj in E' as ->.
  destruct (ca_attributes _ _ _ Hak) as (_ & Hr & _). by destruct (ck_attributes _ _ _ Hk) as (_ & Hn & _).
Qed.
End Theorems.

Section Witnesses.
#[local] Existing Instance sha_crypto.

(** An unrestricted P-256 key, certified with an ECDSA signature. *)
Definition ex_app_public : Public :=
  mkPublic tpm2.AlgECC tpm2.AlgSHA256 0x00000072 None
    (Some (mkECCParams None tpm2.CurveNISTP256)).
Definition ex_certify : AttestationData :=
  mkAttestation tpm20GeneratedMagic tpm2.TagAttestCertify [] None
    (Some (mkCertifyInfo (mkName None (Some (mkHashValue tpm2.AlgSHA256 []))))) None.
Definition ex_certify_tpm (sg : Signature) : GoTPM :=
  fixed_tpm ex_app_public ex_certify sg crypto_SHA256 (mkRawAttestation [] [] [] [])
    (mkRSA 0 0) (λ _ _, true).
Definition ex_certification : CertificationParameters :=
  mkCertification [] [] (str "attestation") (repeat Byte.x00 8).
Definition ex_verify_opts : VerifyOpts := mkVerifyOpts (Some (PubRSA (mkRSA 3233 17))) crypto_SHA256.

Example ex_certification_accepted :
  @Verify _ (ex_certify_tpm ex_rsa) ex_certification ex_verify_opts = Ok tt.
Proof. vm_compute. reflexivity. Qed.
Example ex_certification_ecdsa_panics :
  @Verify _ (ex_certify_tpm ex_ecdsa) ex_certification ex_verify_opts = Panic "nil pointer dereference".
Proof. vm_compute. reflexivity. Qed.

Lemma certification_panics_iff_witness :
  ¬ no_crash (@Verify _ (ex_certify_tpm ex_ecdsa) ex_certification ex_verify_opts) ↔
    (∃ pub att, @certified_key (ex_certify_tpm ex_ecdsa) ex_certification pub att) ∧
    @mismatched_signature _ (ex_certify_tpm ex_ecdsa) ex_certification ex_verify_opts.
Proof.
  apply (@certification_panics_iff _ (ex_certify_tpm ex_ecdsa)). unfold ex_certify_tpm.
  apply fixed_tpm_laws; try done; try by eexists.
Defined.

Lemma ak_never_certified_witness :
  @Verify _ (ex_ak_tpm ex_rsa) ex_certification ex_verify_opts ≠ Ok tt.
Proof.
  apply (@ak_never_certified _ (ex_ak_tpm ex_rsa) ex_activation); vm_compute; reflexivity.
Defined.
End Witnesses.
