(* ===== verification/WinEvents.v ===== *)
(** * Windows boot events ([attest/win_events.go])

    [ParseWinEvents] walks the tagged events of PCRs 12 and 13, whose data is a
    sequence of SIPA events, some of them aggregations of further ones.  The
    methods of [WinEvents] update a structure while reading; both are the state
    of the monad ([wstate]), kept on errors because one error is ignored. *)
From S2P Require Import Prelude GoBytes GoCrypto EventLog UefiEvents.

(** ** SIPA event types (those the code handles) *)
Definition sipaTypeMask : Z := 0x000f0000.
Definition sipaContainer : Z := 0x00010000.
Definition elamAggregation : Z := 0x40010002.
Definition loadedModuleAggregation : Z := 0x40010003.
Definition bootCounter : Z := 0x00020002.
Definition transferControl : Z := 0x00020003.
Definition bitlockerUnlock : Z := 0x00020005.
Definition bootDebugging : Z := 0x00040001.
Definition osKernelDebug : Z := 0x00050001.
Definition codeIntegrity : Z := 0x00050002.
Definition testSigning : Z := 0x00050003.
Definition dataExecutionPrevention : Z := 0x00050004.
Definition filePath : Z := 0x00070001.
Definition imageSize : Z := 0x00070002.
Definition hashAlgorithmID : Z := 0x00070003.
Definition authenticodeHash : Z := 0x00070004.
Definition authorityIssuer : Z := 0x00070005.
Definition authoritySerial : Z := 0x00070006.
Definition imageBase : Z := 0x00070007.
Definition authorityPublisher : Z := 0x00070008.
Definition authoritySHA1Thumbprint : Z := 0x00070009.
Definition imageValidated : Z := 0x0007000A.
Definition moduleSVN : Z := 0x0007000B.
Definition elamKeyname : Z := 0x00090001.
Definition elamConfiguration : Z := 0x00090002.
Definition elamPolicy : Z := 0x00090003.
Definition elamMeasured : Z := 0x00090004.

(** ** [WinCSPAlg], [Ternary] *)
Definition WinAlgMD4 : Z := 0x02.
Definition WinAlgMD5 : Z := 0x03.
Definition WinAlgSHA1 : Z := 0x04.
Definition WinAlgSHA256 : Z := 0x0c.
Definition WinAlgSHA384 : Z := 0x0d.
Definition WinAlgSHA512 : Z := 0x0e.

Inductive Ternary := TernaryUnknown | TernaryTrue | TernaryFalse.
#[export] Instance Ternary_eq_dec : EqDecision Ternary.
Proof. solve_decision. Defined.

(** ** [WinEvents]

    Strings are lists of code points; a slice that may be [nil] is an option. *)
Record WinModuleLoad := mkModule {
  FilePath : list Z;
  AuthenticodeHash : option bytes;
  ImageBase : list Z;
  ImageSize : Z;
  HashAlgorithm : Z;
  ImageValidated : bool;
  AuthorityIssuer : list Z;
  AuthorityPublisher : list Z;
  AuthoritySerial : option bytes;
  AuthoritySHA1 : option bytes;
}.

Record WinELAM := mkELAM {
  elam_Measured : option bytes;
  elam_Config : option bytes;
  elam_Policy : option bytes;
}.

Record WinEvents := mkWinEvents {
  ColdBoot : bool;
  BootCount : Z;
  LoadedModules : gmap string WinModuleLoad;
  ELAM : gmap (list Z) WinELAM;
  BootDebuggingEnabled : bool;
  KernelDebugEnabled : bool;
  DEPEnabled : Ternary;
  CodeIntegrityEnabled : Ternary;
  TestSigningEnabled : bool;
  BitlockerUnlocks : list Z;
}.

Definition win_empty : WinEvents :=
  mkWinEvents false 0 ∅ ∅ false false TernaryUnknown TernaryUnknown false [].

Definition set_ColdBoot x w := mkWinEvents x (BootCount w) (LoadedModules w) (ELAM w)
  (BootDebuggingEnabled w) (KernelDebugEnabled w) (DEPEnabled w) (CodeIntegrityEnabled w)
  (TestSigningEnabled w) (BitlockerUnlocks w).
Definition set_BootCount x w := mkWinEvents (ColdBoot w) x (LoadedModules w) (ELAM w)
  (BootDebuggingEnabled w) (KernelDebugEnabled w) (DEPEnabled w) (CodeIntegrityEnabled w)
  (TestSigningEnabled w) (BitlockerUnlocks w).
Definition set_LoadedModules x w := mkWinEvents (ColdBoot w) (BootCount w) x (ELAM w)
  (BootDebuggingEnabled w) (KernelDebugEnabled w) (DEPEnabled w) (CodeIntegrityEnabled w)
  (TestSigningEnabled w) (BitlockerUnlocks w).
Definition set_ELAM x w := mkWinEvents (ColdBoot w) (BootCount w) (LoadedModules w) x
  (BootDebuggingEnabled w) (KernelDebugEnabled w) (DEPEnabled w) (CodeIntegrityEnabled w)
  (TestSigningEnabled w) (BitlockerUnlocks w).
Definition set_BootDebugging x w := mkWinEvents (ColdBoot w) (BootCount w) (LoadedModules w)
  (ELAM w) x (KernelDebugEnabled w) (DEPEnabled w) (CodeIntegrityEnabled w)
  (TestSigningEnabled w) (BitlockerUnlocks w).
Definition set_KernelDebug x w := mkWinEvents (ColdBoot w) (BootCount w) (LoadedModules w)
  (ELAM w) (BootDebuggingEnabled w) x (DEPEnabled w) (CodeIntegrityEnabled w)
  (TestSigningEnabled w) (BitlockerUnlocks w).
Definition set_DEP x w := mkWinEvents (ColdBoot w) (BootCount w) (LoadedModules w)
  (ELAM w) (BootDebuggingEnabled w) (KernelDebugEnabled w) x (CodeIntegrityEnabled w)
  (TestSigningEnabled w) (BitlockerUnlocks w).
Definition set_CodeIntegrity x w := mkWinEvents (ColdBoot w) (BootCount w) (LoadedModules w)
  (ELAM w) (BootDebuggingEnabled w) (KernelDebugEnabled w) (DEPEnabled w) x
  (TestSigningEnabled w) (BitlockerUnlocks w).
Definition set_TestSigning x w := mkWinEvents (ColdBoot w) (BootCount w) (LoadedModules w)
  (ELAM w) (BootDebuggingEnabled w) (KernelDebugEnabled w) (DEPEnabled w)
  (CodeIntegrityEnabled w) x (BitlockerUnlocks w).
Definition set_Bitlocker x w := mkWinEvents (ColdBoot w) (BootCount w) (LoadedModules w)
  (ELAM w) (BootDebuggingEnabled w) (KernelDebugEnabled w) (DEPEnabled w)
  (CodeIntegrityEnabled w) (TestSigningEnabled w) x.

(** ** The monad *)
Record wstate := mkWState { w_win : WinEvents; w_rd : reader }.

Definition on_reader {A} (m : M reader A) : M wstate A := λ s,
  let '(x, r) := m (w_rd s) in (x, mkWState (w_win s) r).
Definition get_win : M wstate WinEvents := gets w_win.
Definition mod_win (f : WinEvents → WinEvents) : M wstate () :=
  modify (λ s, mkWState (f (w_win s)) (w_rd s)).
(** [r := &io.LimitedReader{R: rdr, N: n}] for the rest of the method. *)
Definition limited {A} (n : Z) (m : M wstate A) : M wstate A := λ s,
  let '(x, s') := m (mkWState (w_win s) (mkReader (rd_buf (w_rd s)) (n :: rd_lims (w_rd s)))) in
  (x, mkWState (w_win s') (mkReader (rd_buf (w_rd s')) (tail (rd_lims (w_rd s'))))).
(** A call whose error result is discarded. *)
Definition ignore_error (m : M wstate ()) : M wstate () := λ s,
  let '(x, s') := m s in (match x with Err _ => Ok tt | x => x end, s').

(** ** Reading values *)
Record microsoftEventHeader := mkHeader { mh_Type : Z; mh_Size : Z }.

Definition read_header : M reader microsoftEventHeader :=
  b ← ReadFull 8; mret (mkHeader (le_uint (field 0 4 b)) (le_uint (field 4 4 b))).

Definition readUint32 (h : microsoftEventHeader) : M reader Z :=
  _ ← reject_if (negb (mh_Size h =? 4)) (Errorf "integer size not uint32 (%d bytes)");
  wrapM "reading u32: %w" (read_le (mh_Size h)).

Definition readUint64 (h : microsoftEventHeader) : M reader Z :=
  _ ← reject_if (negb (mh_Size h =? 8)) (Errorf "integer size not uint64 (%d bytes)");
  wrapM "reading u64: %w" (read_le (mh_Size h)).

Definition parseImageValidated (h : microsoftEventHeader) : M reader bool :=
  _ ← reject_if (negb (mh_Size h =? 1)) (Errorf "payload was %d bytes, want 1");
  num ← wrapM "reading u8: %w" (read_le 1);
  mret (num =? 1).

Definition winAlgs : list Z :=
  [WinAlgMD4; WinAlgMD5; WinAlgSHA1; WinAlgSHA256; WinAlgSHA384; WinAlgSHA512].

Definition parseHashAlgID (h : microsoftEventHeader) : M reader Z :=
  i ← wrapM "hash algorithm ID: %v" (readUint32 h);
  let alg := Z.land i 0xff in
  _ ← reject_if (negb (bool_decide (alg ∈ winAlgs))) (Errorf "unknown algorithm ID: %x");
  mret alg.

Definition parse_bounded (max : Z) (msg : string) (h : microsoftEventHeader) : M reader bytes :=
  _ ← reject_if (max <? mh_Size h) (Errorf msg);
  wrapM "reading bytes: %w" (ReadFull (mh_Size h)).
Definition parseAuthoritySerial := parse_bounded 128 "authority serial is too long (%d bytes)".
Definition parseAuthoritySHA1 := parse_bounded 20 "authority thumbprint is too long (%d bytes)".
Definition parseAuthenticodeHash :=
  parse_bounded 32 "authenticode hash data exceeds the size of any valid hash (%d bytes)".

Definition parseImageBase (h : microsoftEventHeader) : M reader Z :=
  _ ← reject_if (negb (mh_Size h =? 8)) (Errorf "payload was %d bytes, want 8");
  wrapM "reading u64: %w" (read_le 8).

(** A slice of little-endian [uint16]. *)
Fixpoint le_uint16s (b : bytes) : list Z :=
  match b with
  | x :: y :: b => le_uint [x; y] :: le_uint16s b
  | _ => []
  end.

(** [strings.TrimSuffix(s, "\x00")] *)
Definition trim_NUL (s : list Z) : list Z :=
  if bool_decide (last s = Some 0) then take (length s - 1) s else s.

Definition parseUTF16 (h : microsoftEventHeader) : M reader (list Z) :=
  data ← ReadFull (2 * (mh_Size h / 2));
  mret (trim_NUL (utf16_Decode (le_uint16s data))).

(** [binary.Uvarint]: the value and the number of bytes read, 0 or negative
    when there is none. *)
Fixpoint Uvarint_loop (b : bytes) (i x s : Z) : Z * Z :=
  match b with
  | [] => (0, 0)
  | c :: b =>
      let c := byte.unsigned c in
      if i =? 10 then (0, - (i + 1))
      else if c <? 0x80 then
        if (i =? 9) && (1 <? c) then (0, - (i + 1))
        else (Z.lor x (uint64 (Z.shiftl c s)), i + 1)
      else Uvarint_loop b (i + 1) (Z.lor x (uint64 (Z.shiftl (Z.land c 0x7f) s))) (s + 7)
  end.
Definition Uvarint (b : bytes) : Z * Z := Uvarint_loop b 0 0 0.

(** ** Loaded modules *)
Record lma_vars := mkLMA {
  l_codeHash : option bytes; l_imgBase : Z; l_imgSize : Z; l_fPath : list Z; l_algID : Z;
  l_imgValidated : bool; l_aIssuer : list Z; l_aPublisher : list Z;
  l_aSerial : option bytes; l_aThumb : option bytes;
}.
Definition lma_init : lma_vars := mkLMA None 0 0 [] 0 false [] [] None None.

(** The [switch] of [readLoadedModuleAggregation]. *)
Definition lma_event (v : lma_vars) (h : microsoftEventHeader) : M reader lma_vars :=
  let '(mkLMA codeHash imgBase imgSize fPath algID imgValidated aIssuer aPublisher aSerial aThumb) := v in
  if mh_Type h =? imageBase then
    _ ← reject_if (negb (imgBase =? 0)) (Errorf "duplicate image base data in LMA event");
    x ← parseImageBase h;
    mret (mkLMA codeHash x imgSize fPath algID imgValidated aIssuer aPublisher aSerial aThumb)
  else if mh_Type h =? authenticodeHash then
    _ ← reject_if (bool_decide (is_Some codeHash)) (Errorf "duplicate authenticode hash structure in LMA event");
    x ← parseAuthenticodeHash h;
    mret (mkLMA (Some x) imgBase imgSize fPath algID imgValidated aIssuer aPublisher aSerial aThumb)
  else if mh_Type h =? filePath then
    _ ← reject_if (bool_decide (fPath ≠ [])) (Errorf "duplicate file path in LMA event");
    x ← parseUTF16 h;
    mret (mkLMA codeHash imgBase imgSize x algID imgValidated aIssuer aPublisher aSerial aThumb)
  else if mh_Type h =? imageSize then
    _ ← reject_if (negb (imgSize =? 0)) (Errorf "duplicate image size in LMA event");
    x ← readUint64 h;
    mret (mkLMA codeHash imgBase x fPath algID imgValidated aIssuer aPublisher aSerial aThumb)
  else if mh_Type h =? hashAlgorithmID then
    _ ← reject_if (negb (algID =? 0)) (Errorf "duplicate hash algorithm ID in LMA event");
    x ← parseHashAlgID h;
    mret (mkLMA codeHash imgBase imgSize fPath x imgValidated aIssuer aPublisher aSerial aThumb)
  else if mh_Type h =? imageValidated then
    _ ← reject_if imgValidated (Errorf "duplicate image validated field in LMA event");
    x ← parseImageValidated h;
    mret (mkLMA codeHash imgBase imgSize fPath algID x aIssuer aPublisher aSerial aThumb)
  else if mh_Type h =? authorityIssuer then
    _ ← reject_if (bool_decide (aIssuer ≠ [])) (Errorf "duplicate authority issuer in LMA event");
    x ← parseUTF16 h;
    mret (mkLMA codeHash imgBase imgSize fPath algID imgValidated x aPublisher aSerial aThumb)
  else if mh_Type h =? authorityPublisher then
    _ ← reject_if (bool_decide (aPublisher ≠ [])) (Errorf "duplicate authority publisher in LMA event");
    x ← parseUTF16 h;
    mret (mkLMA codeHash imgBase imgSize fPath algID imgValidated aIssuer x aSerial aThumb)
  else if mh_Type h =? authoritySerial then
    _ ← reject_if (bool_decide (is_Some aSerial)) (Errorf "duplicate authority serial in LMA event");
    x ← parseAuthoritySerial h;
    mret (mkLMA codeHash imgBase imgSize fPath algID imgValidated aIssuer aPublisher (Some x) aThumb)
  else if mh_Type h =? authoritySHA1Thumbprint then
    _ ← reject_if (bool_decide (is_Some aThumb))
          (Errorf "duplicate authority SHA1 thumbprint in LMA event");
    x ← parseAuthoritySHA1 h;
    mret (mkLMA codeHash imgBase imgSize fPath algID imgValidated aIssuer aPublisher aSerial (Some x))
  else if mh_Type h =? moduleSVN then
    _ ← ReadFull (mh_Size h);
    mret v
  else fail (Errorf "unknown event in LMA aggregation: %v").

(** [for r.N > 0 { ... }] *)
Fixpoint lma_loop (fuel : nat) (v : lma_vars) : M reader lma_vars :=
  n ← gets rd_N;
  if negb (0 <? n) then mret v
  else
    match fuel with
    | O => nofuel
    | S fuel =>
        h ← wrapM "parsing LMA sub-event: %v" read_header;
        n ← gets rd_N;
        _ ← reject_if (n <? mh_Size h) (Errorf "LMA sub-event is larger than available data: %d > %d");
        v ← lma_event v h;
        lma_loop fuel v
    end.

(** The module recorded, its addresses put before those already known for the
    same hash. *)
Definition lma_module (v : lma_vars) (known : list Z) : WinModuleLoad :=
  mkModule (l_fPath v) (l_codeHash v)
    ((if negb (l_imgBase v =? 0) then [l_imgBase v] else []) ++ known)
    (l_imgSize v) (l_algID v) (l_imgValidated v) (l_aIssuer v) (l_aPublisher v) (l_aSerial v) (l_aThumb v).
Definition lma_key (v : lma_vars) : string := hex_EncodeToString (default [] (l_codeHash v)).
Definition known_bases (w : WinEvents) (key : string) : list Z :=
  match LoadedModules w !! key with Some m => ImageBase m | None => [] end.
Definition record_module (v : lma_vars) (w : WinEvents) : WinEvents :=
  set_LoadedModules (<[lma_key v := lma_module v (known_bases w (lma_key v))]> (LoadedModules w)) w.

(** Each turn reads a header of 8 bytes: this fuel is enough. *)
Definition rd_fuel (s : wstate) : nat := S (length (rd_buf (w_rd s))).

Definition readLoadedModuleAggregation (h : microsoftEventHeader) : M wstate () :=
  fuel ← gets rd_fuel;
  v ← limited (mh_Size h) (on_reader (lma_loop fuel lma_init));
  mod_win (record_module v).

(** ** Early-launch antimalware *)
Record elam_vars := mkElamVars {
  e_driverName : list Z; e_measured : option bytes; e_policy : option bytes; e_config : option bytes;
}.
Definition elam_init : elam_vars := mkElamVars [] None None None.

(** The [switch] of [readELAMAggregation], nested aggregations apart. *)
Definition elam_event (v : elam_vars) (h : microsoftEventHeader) : M reader elam_vars :=
  let '(mkElamVars driverName measured policy config) := v in
  if mh_Type h =? elamKeyname then
    _ ← reject_if (bool_decide (driverName ≠ [])) (Errorf "duplicate driver name in ELAM aggregation event");
    x ← wrapM "parsing ELAM driver name: %v" (parseUTF16 h);
    mret (mkElamVars x measured policy config)
  else if mh_Type h =? elamMeasured then
    _ ← reject_if (bool_decide (is_Some measured))
          (Errorf "duplicate measured data in ELAM aggregation event");
    x ← wrapM "reading ELAM measured value: %v" (ReadFull (mh_Size h));
    mret (mkElamVars driverName (Some x) policy config)
  else if mh_Type h =? elamPolicy then
    _ ← reject_if (bool_decide (is_Some policy)) (Errorf "duplicate policy data in ELAM aggregation event");
    x ← wrapM "reading ELAM policy value: %v" (ReadFull (mh_Size h));
    mret (mkElamVars driverName measured (Some x) config)
  else if mh_Type h =? elamConfiguration then
    _ ← reject_if (bool_decide (is_Some config)) (Errorf "duplicate config data in ELAM aggregation event");
    x ← wrapM "reading ELAM config value: %v" (ReadFull (mh_Size h));
    mret (mkElamVars driverName measured policy (Some x))
  else fail (Errorf "unknown event in LMA aggregation: %v").

Definition elam_finish (v : elam_vars) : M wstate () :=
  _ ← reject_if (bool_decide (e_driverName v = [])) (Errorf "ELAM driver name not specified");
  mod_win (λ w, set_ELAM
    (<[e_driverName v := mkELAM (e_measured v) (e_config v) (e_policy v)]> (ELAM w)) w).

(** The body of [readELAMAggregation] on the limited reader; the nested call's
    result is dropped, as in the code. *)
Fixpoint elam_loop (fuel : nat) (v : elam_vars) : M wstate () :=
  n ← on_reader (gets rd_N);
  if negb (0 <? n) then elam_finish v
  else
    match fuel with
    | O => nofuel
    | S fuel =>
        h ← on_reader (wrapM "parsing ELAM aggregation sub-event: %v" read_header);
        n ← on_reader (gets rd_N);
        _ ← reject_if (n <? mh_Size h)
              (Errorf "ELAM aggregation sub-event is larger than available data: %d > %d");
        if mh_Type h =? elamAggregation then
          _ ← ignore_error (limited (mh_Size h) (elam_loop fuel elam_init));
          n ← on_reader (gets rd_N);
          if n =? 0 then mret tt else elam_loop fuel v
        else
          v ← on_reader (elam_event v h);
          elam_loop fuel v
    end.

Definition readELAMAggregation (h : microsoftEventHeader) : M wstate () :=
  fuel ← gets rd_fuel;
  limited (mh_Size h) (elam_loop fuel elam_init).

(** ** Single values *)
Definition latch_off (t : Ternary) (isSet : bool) : Ternary :=
  if isSet && bool_decide (t = TernaryUnknown) then TernaryTrue
  else if negb isSet then TernaryFalse else t.

Definition readBooleanInt64Event (h : microsoftEventHeader) : M wstate () :=
  _ ← reject_if (negb (mh_Size h =? 8)) (Errorf "payload was %d bytes, want 8");
  num ← on_reader (wrapM "reading u64: %w" (read_le 8));
  let isSet := negb (num =? 0) in
  mod_win (λ w,
    if mh_Type h =? dataExecutionPrevention then set_DEP (latch_off (DEPEnabled w) isSet) w else w).

Definition readBooleanByteEvent (h : microsoftEventHeader) : M wstate () :=
  _ ← reject_if (negb (mh_Size h =? 1)) (Errorf "payload was %d bytes, want 1");
  b ← on_reader (wrapM "reading byte: %w" (read_le 1));
  let isSet := negb (b =? 0) in
  mod_win (λ w,
    if mh_Type h =? osKernelDebug then set_KernelDebug (KernelDebugEnabled w || isSet) w
    else if mh_Type h =? bootDebugging then set_BootDebugging (BootDebuggingEnabled w || isSet) w
    else if mh_Type h =? testSigning then set_TestSigning (TestSigningEnabled w || isSet) w
    else if mh_Type h =? codeIntegrity then
      set_CodeIntegrity (latch_off (CodeIntegrityEnabled w) isSet) w
    else w).

Definition readBootCounter (h : microsoftEventHeader) : M wstate () :=
  i ← on_reader (wrapM "boot counter: %v" (readUint64 h));
  w ← get_win;
  _ ← reject_if ((0 <? BootCount w) && negb (BootCount w =? i))
        (Errorf "conflicting values for boot counter: %d != %d");
  mod_win (set_BootCount i).

Definition readTransferControl (h : microsoftEventHeader) : M wstate () :=
  i ← on_reader (wrapM "transfer control: %v" (readUint32 h));
  mod_win (set_ColdBoot (i =? 0x1)).

Definition readBitlockerUnlock (h : microsoftEventHeader) (pcr : Z) : M wstate () :=
  _ ← reject_if (8 <? mh_Size h) (Errorf "bitlocker data too large (%d bytes)");
  data ← on_reader (wrapM "reading u%d: %w" (ReadFull (mh_Size h)));
  let '(i, n) := Uvarint data in
  _ ← reject_if (n <=? 0) (Errorf "reading u%d: invalid varint");
  if pcr =? 13 then mret tt
  else mod_win (λ w, set_Bitlocker (BitlockerUnlocks w ++ [uint8 i]) w).

(** ** SIPA events *)
Definition readUnknown (h : microsoftEventHeader) : M wstate () :=
  len ← on_reader (gets rd_len);
  _ ← reject_if (len <? mh_Size h)
        (Errorf "event data len (%d bytes) larger than event length (%d bytes)");
  _ ← on_reader (wrapM "reading unknown data section of length %d: %w" (ReadFull (mh_Size h)));
  fail unknownSIPAEvent.

Definition readSIPAEvent (pcr : Z) : M wstate () :=
  h ← on_reader read_header;
  if mh_Type h =? elamAggregation then readELAMAggregation h
  else if mh_Type h =? loadedModuleAggregation then readLoadedModuleAggregation h
  else if mh_Type h =? bootCounter then readBootCounter h
  else if mh_Type h =? bitlockerUnlock then readBitlockerUnlock h pcr
  else if mh_Type h =? transferControl then readTransferControl h
  else if bool_decide (mh_Type h ∈ [osKernelDebug; codeIntegrity; bootDebugging; testSigning]) then
    readBooleanByteEvent h
  else if mh_Type h =? dataExecutionPrevention then readBooleanInt64Event h
  else readUnknown h.

(** [if errors.Is(err, unknownSIPAEvent) { continue }] (no other error of
    [readSIPAEvent] wraps it). *)
Definition skip_unknown (m : M wstate ()) : M wstate () := λ s,
  let '(x, s') := m s in
  (match x with Err unknownSIPAEvent => Ok tt | x => x end, s').

Fixpoint block_loop (fuel : nat) (pcr : Z) : M wstate () :=
  len ← on_reader (gets rd_len);
  if negb (0 <? len) then mret tt
  else
    match fuel with
    | O => nofuel
    | S fuel => _ ← skip_unknown (readSIPAEvent pcr); block_loop fuel pcr
    end.

Definition readWinEventBlock (evt : TaggedEventData) (pcr : Z) (w : WinEvents) : res error WinEvents :=
  _ ← reject (negb (Z.land (te_ID evt) sipaTypeMask =? sipaContainer))
        (Errorf "expected container event, got %v");
  let s := mkWState w (NewReader (te_Data evt)) in
  match block_loop (rd_fuel s) pcr s with
  | (Ok _, s') => Ok (w_win s')
  | (Err e, _) => Err e
  | (Panic p, _) => Panic p
  | (NoFuel, _) => NoFuel
  end.

(** ** [ParseWinEvents] *)
Record win_vars := mkWinVars { wv_out : WinEvents; seenPCR12 : bool; seenPCR13 : bool }.

Section ParseWinEvents.
Context `{GoCrypto}.

Definition tagged_event (w : WinEvents) (e : Event) (digestVerify : res error ()) : res error WinEvents :=
  s ← wrapf "invalid tagged event structure at event %d: %w" (ParseTaggedEventData (ev_Data e));
  _ ← wrapf "invalid digest for tagged event %d: %w" digestVerify;
  wrapf "invalid SIPA events in event %d: %w" (readWinEventBlock s (ev_Index e) w).

Definition wbcl_separator (seen : bool) (e : Event) (digestVerify : res error ()) : res error () :=
  _ ← reject seen (Errorf "duplicate WBCL separator at event %d");
  _ ← reject (bool_decide (ev_Data e ≠ str "WBCL"))
        (Errorf "invalid WBCL separator data at event %d: %v");
  wrapf "invalid separator digest at event %d: %v" digestVerify.

(** The [switch et] of PCR 12, and that of PCR 13, which differs from it in
    the flag it uses and the text of its last error. *)
Definition win_pcr (out : WinEvents) (seen : bool) (e : Event) (et : Z)
    (digestVerify : res error ()) (msg : string) : res error (WinEvents * bool) :=
  if et =? EventTag then
    if seen then Ok (out, seen)
    else out ← tagged_event out e digestVerify; Ok (out, seen)
  else if et =? Separator then
    _ ← wbcl_separator seen e digestVerify; Ok (out, true)
  else Err (Errorf msg).

Definition win_event (st : win_vars) (e : Event) : res error win_vars :=
  if negb (ev_Index e =? 12) && negb (ev_Index e =? 13) then Ok st
  else
    et ← wrapf "unrecognised event type: %v" (UntrustedParseEventType (uint32 (ev_Type e)));
    let digestVerify := digestEquals e (ev_Data e) in
    if ev_Index e =? 12 then
      r ← win_pcr (wv_out st) (seenPCR12 st) e et digestVerify "unexpected (PCR12) event type: %v";
      Ok (mkWinVars r.1 r.2 (seenPCR13 st))
    else
      r ← win_pcr (wv_out st) (seenPCR13 st) e et digestVerify "unexpected (PCR13) event type: %v";
      Ok (mkWinVars r.1 (seenPCR12 st) r.2).

Fixpoint win_events (st : win_vars) (events : list Event) : res error win_vars :=
  match events with
  | [] => Ok st
  | e :: events => st ← win_event st e; win_events st events
  end.

Definition ParseWinEvents (events : list Event) : res error WinEvents :=
  st ← win_events (mkWinVars win_empty false false) events;
  Ok (wv_out st).
End ParseWinEvents.

(** ** The readers return and move forward *)

Ltac moves_tac :=
  repeat first
    [ apply moves_ret | apply moves_fail | apply moves_gets | apply moves_reject_if
    | apply moves_ReadFull | apply moves_read_le | apply moves_wrapM
    | apply moves_bind; [|intros ?] ]; try lia.

Section Moves.
Context (h : microsoftEventHeader) (Hsize : 0 ≤ mh_Size h).

Lemma moves_parse_bounded max msg : moves (parse_bounded max msg h).
Proof using Hsize. unfold parse_bounded. moves_tac. Qed.
Lemma moves_readUint32 : moves (readUint32 h).
Proof using Hsize. unfold readUint32. moves_tac. Qed.
Lemma moves_readUint64 : moves (readUint64 h).
Proof using Hsize. unfold readUint64. moves_tac. Qed.
Lemma moves_parseImageValidated : moves (parseImageValidated h).
Proof using Hsize. unfold parseImageValidated. moves_tac. Qed.
Lemma moves_parseHashAlgID : moves (parseHashAlgID h).
Proof using Hsize.
  unfold parseHashAlgID. apply moves_bind; [apply moves_wrapM, moves_readUint32|].
  intros i. cbv zeta. moves_tac.
Qed.
Lemma moves_parseImageBase : moves (parseImageBase h).
Proof using Hsize. unfold parseImageBase. moves_tac. Qed.
Lemma moves_parseUTF16 : moves (parseUTF16 h).
Proof using Hsize. unfold parseUTF16. moves_tac. pose proof (Z.div_pos (mh_Size h) 2). lia. Qed.

Lemma moves_lma_event v : moves (lma_event v h).
Proof using Hsize.
  destruct v. unfold lma_event.
  repeat (case_match; [apply moves_bind; [moves_tac|intros _]|]); try apply moves_fail;
    (apply moves_bind; [|intros; apply moves_ret]) || apply moves_ret;
    first [apply moves_parseImageBase|apply moves_parse_bounded|apply moves_parseUTF16
          |apply moves_readUint64|apply moves_parseHashAlgID|apply moves_parseImageValidated].
Qed.

Lemma moves_elam_event v : moves (elam_event v h).
Proof using Hsize.
  destruct v. unfold elam_event.
  repeat (case_match; [apply moves_bind; [moves_tac|intros _]|]); try apply moves_fail;
    (apply moves_bind; [apply moves_wrapM|intros; apply moves_ret]);
    first [apply moves_parseUTF16|by apply moves_ReadFull].
Qed.
End Moves.

Lemma read_header_spec r :
  rd_ok r →
  spec read_header r
    (λ h r', 8 ≤ rd_avail r ∧ r' = rd_consume 8 r ∧
       h = mkHeader (le_uint (field 0 4 (rd_buf r))) (le_uint (field 4 4 (rd_buf r))) ∧ 0 ≤ mh_Size h)
    (λ _ r', advances r r').
Proof.
  intros Hr. unfold read_header. go_step.
  eapply spec_mono; [by apply ReadFull_spec| |]; cbn beta.
  - intros b r' (Hle & -> & E & Hl & _). apply spec_ret. split_and!; [done|done| |apply le_uint_bound].
    unfold rd_consume in E. cbn in E. rewrite <- E.
    assert (length b = 8%nat) as Hb by (unfold zlen in Hl; lia).
    do 8 (destruct b as [|? b]; [done|]). by destruct b.
  - intros e r' (Hlt & -> & _). exists (rd_avail r). pose proof (rd_avail_nonneg r Hr). split; [lia|done].
Qed.

Lemma rd_N_avail l r r' : rd_lims r = l → advances r r' → rd_lims r' = [] ↔ l = [].
Proof. intros <- (n & _ & ->). cbn. destruct (rd_lims r); cbn; split; done. Qed.

Lemma lma_loop_spec fuel v r :
  rd_ok r → zlen (rd_buf r) < Z.of_nat fuel →
  spec (lma_loop fuel v) r (λ _ r', advances r r' ∧ rd_N r' ≤ 0) (λ _ r', advances r r').
Proof.
  revert v r. induction fuel as [|fuel IH]; intros v r Hr Hf; [pose proof (zlen_nonneg (rd_buf r)); lia|].
  cbn [lma_loop]. go_step. go_step.
  destruct (Z.ltb_spec 0 (rd_N r)) as [Hn|Hn]; cbn [negb].
  2: { go_step. split; [by apply advances_refl|done]. }
  go_step. go_step. eapply spec_mono; [by apply read_header_spec| |done]. cbn beta.
  intros h r' (H8 & -> & Hh & Hs).
  assert (advances r (rd_consume 8 r)) as Ha by (exists 8; split; [lia|done]).
  do 3 go_step. go_step; [done|]. go_step.
  eapply spec_mono; [apply (moves_lma_event h Hs v); by eapply advances_ok|..]; cbn beta.
  - intros v' r1 H1. eapply spec_mono; [apply IH; [by eapply advances_ok|]|..].
    + apply advances_zlen in H1. rewrite zlen_consume in H1 by lia. lia.
    + intros ? r2 (H2 & ?). split; [|done]. exact (advances_trans _ _ _ Ha (advances_trans _ _ _ H1 H2)).
    + intros ? r2 H2. exact (advances_trans _ _ _ Ha (advances_trans _ _ _ H1 H2)).
  - intros ? r1 H1. exact (advances_trans _ _ _ Ha H1).
Qed.

(** ** Rules for the state of the methods *)
Section Rules.
Context {A : Type}.

Lemma spec_on_reader (m : M reader A) s (Q : A → wstate → Prop) (E : error → wstate → Prop) :
  spec m (w_rd s) (λ a r, Q a (mkWState (w_win s) r)) (λ e r, E e (mkWState (w_win s) r)) →
  spec (on_reader m) s Q E.
Proof. unfold spec, on_reader. by destruct (m (w_rd s)) as [[] ?]. Qed.

Definition push (n : Z) (s : wstate) : wstate :=
  mkWState (w_win s) (mkReader (rd_buf (w_rd s)) (n :: rd_lims (w_rd s))).
Definition pop (s : wstate) : wstate :=
  mkWState (w_win s) (mkReader (rd_buf (w_rd s)) (tail (rd_lims (w_rd s)))).

Lemma spec_limited n (m : M wstate A) s (Q : A → wstate → Prop) (E : error → wstate → Prop) :
  spec m (push n s) (λ a s', Q a (pop s')) (λ e s', E e (pop s')) → spec (limited n m) s Q E.
Proof. unfold spec, limited, push. by destruct (m _) as [[] ?]. Qed.

Lemma spec_ignore_error (m : M wstate ()) s (Q : () → wstate → Prop) (E : error → wstate → Prop) :
  spec m s Q (λ _ s', Q tt s') → spec (ignore_error m) s Q E.
Proof. unfold spec, ignore_error. by destruct (m s) as [[[]| | |] ?]. Qed.

Lemma spec_mod_win f s (Q : () → wstate → Prop) E :
  Q tt (mkWState (f (w_win s)) (w_rd s)) → spec (mod_win f) s Q E.
Proof. done. Qed.
End Rules.

(** An ELAM aggregation only adds to the ELAM map, whatever its outcome. *)
Definition elam_only (w w' : WinEvents) : Prop :=
  ∃ E, w' = set_ELAM E w ∧ dom (ELAM w) ⊆ dom E.

Lemma elam_only_refl w : elam_only w w.
Proof. exists (ELAM w). by destruct w. Qed.
Lemma elam_only_trans w1 w2 w3 : elam_only w1 w2 → elam_only w2 w3 → elam_only w1 w3.
Proof.
  intros (E & -> & HE) (E' & -> & HE'). exists E'. split; [done|]. cbn in HE'.
  by etransitivity.
Qed.

Definition elam_post (s s' : wstate) : Prop :=
  advances (w_rd s) (w_rd s') ∧ elam_only (w_win s) (w_win s').

Lemma elam_post_trans s1 s2 s3 : elam_post s1 s2 → elam_post s2 s3 → elam_post s1 s3.
Proof.
  intros [Ha1 He1] [Ha2 He2].
  split; [exact (advances_trans _ _ _ Ha1 Ha2)|exact (elam_only_trans _ _ _ He1 He2)].
Qed.

Lemma elam_post_read s r : advances (w_rd s) r → elam_post s (mkWState (w_win s) r).
Proof. intros. split; [done|apply elam_only_refl]. Qed.

Lemma elam_post_limit n s s' :
  elam_post (push n s) s' → elam_post s (pop s') ∧ 0 ≤ rd_N (w_rd s').
Proof.
  intros [Ha He]. apply (advances_limit n (w_rd s)) in Ha as [Ha ?]. split; [by split|done].
Qed.

Lemma elam_finish_spec v s :
  rd_ok (w_rd s) → spec (elam_finish v) s (λ _ s', elam_post s s' ∧ w_rd s' = w_rd s) (λ _ s', elam_post s s').
Proof.
  intros Hr. unfold elam_finish. go_step. go_step; [by apply elam_post_read, advances_refl|].
  apply spec_mod_win. split; [|done]. split; [by apply advances_refl|].
  eexists. split; [done|]. rewrite dom_insert. apply union_subseteq_r.
Qed.

(** From [s], [m] returns, having moved the reader of [s0] and only added to
    its ELAM map; without an error, it has used up the current limit. *)
Definition elam_spec (m : M wstate ()) (s0 s : wstate) : Prop :=
  spec m s (λ _ s', elam_post s0 s' ∧ rd_N (w_rd s') ≤ 0) (λ _ s', elam_post s0 s').

Lemma elam_spec_trans m s0 s : elam_post s0 s → elam_spec m s s → elam_spec m s0 s.
Proof.
  intros H0 Hm. eapply spec_mono; [exact Hm|..].
  - intros [] s' [H1 ?]. split; [exact (elam_post_trans _ _ _ H0 H1)|done].
  - intros e s' H1. exact (elam_post_trans _ _ _ H0 H1).
Qed.

Section ElamLoop.
Context (fuel : nat).
Context (IH : ∀ v s, rd_ok (w_rd s) → zlen (rd_buf (w_rd s)) < Z.of_nat fuel →
           elam_spec (elam_loop fuel v) s s).

Lemma elam_next v s s1 :
  zlen (rd_buf (w_rd s)) < Z.of_nat fuel → elam_post s s1 → elam_spec (elam_loop fuel v) s s1.
Proof using IH.
  intros Hf Hp. apply elam_spec_trans; [done|]. destruct Hp as [Ha _].
  apply IH; [by eapply advances_ok|]. apply advances_zlen in Ha. lia.
Qed.

Lemma elam_nested v n s :
  0 ≤ n → rd_ok (w_rd s) → zlen (rd_buf (w_rd s)) < Z.of_nat fuel →
  elam_spec (
    _ ← ignore_error (limited n (elam_loop fuel elam_init));
    n ← on_reader (gets rd_N);
    if n =? 0 then mret tt else elam_loop fuel v) s s.
Proof using IH.
  intros Hn Hr Hf. unfold elam_spec. go_step. apply spec_ignore_error, spec_limited.
  assert (∀ s', elam_post (push n s) s' → elam_spec (
      n ← on_reader (gets rd_N); if n =? 0 then mret tt else elam_loop fuel v) s (pop s')) as Hafter.
  { intros s' [Hq _]%elam_post_limit. unfold elam_spec. go_step. apply spec_on_reader, spec_gets.
    destruct (Z.eqb_spec (rd_N (w_rd (pop s'))) 0) as [E|].
    - apply spec_ret. split; [done|]. cbn in *. lia.
    - by apply elam_next. }
  eapply spec_mono; [apply IH; [by constructor|done]|..].
  - intros [] s' [Hq _]. by apply Hafter.
  - intros e s' Hq. by apply Hafter.
Qed.
End ElamLoop.

Lemma elam_loop_spec fuel v s :
  rd_ok (w_rd s) → zlen (rd_buf (w_rd s)) < Z.of_nat fuel → elam_spec (elam_loop fuel v) s s.
Proof.
  revert v s. induction fuel as [|fuel IH]; intros v [w r] Hr Hf; cbn [w_rd] in *;
    [pose proof (zlen_nonneg (rd_buf r)); lia|].
  unfold elam_spec. cbn [elam_loop]. go_step. apply spec_on_reader, spec_gets. cbn [w_rd w_win].
  destruct (Z.ltb_spec 0 (rd_N r)) as [Hn|Hn]; cbn [negb].
  2: { eapply spec_mono; [by apply elam_finish_spec| |done]. intros [] s' [? E]. by rewrite E. }
  go_step. apply spec_on_reader. go_step. cbn [w_rd w_win].
  eapply spec_mono; [by apply read_header_spec| |by intros; apply (elam_post_read (mkWState w r))].
  cbn beta. intros h r' (H8 & -> & Hh & Hs).
  assert (advances r (rd_consume 8 r)) as Ha by (exists 8; split; [lia|done]).
  apply (elam_post_read (mkWState w r)) in Ha as Hp. cbn [w_win] in Hp.
  go_step. apply spec_on_reader, spec_gets. cbn [w_rd w_win]. go_step. go_step; [done|].
  assert (rd_ok (rd_consume 8 r)) as Hr1 by by eapply advances_ok.
  assert (zlen (rd_buf (rd_consume 8 r)) < Z.of_nat fuel) as Hf1 by (rewrite zlen_consume by lia; lia).
  apply (elam_spec_trans _ (mkWState w r)); [done|].
  destruct (mh_Type h =? elamAggregation); [by apply elam_nested|].
  unfold elam_spec. go_step. apply spec_on_reader.
  eapply spec_mono; [by apply moves_elam_event|..]; cbn beta; cbn [w_rd w_win].
  - intros v' r1 H1. apply elam_next; [done|done|]. by apply (elam_post_read (mkWState _ _)).
  - intros e r1 H1. by apply (elam_post_read (mkWState _ _)).
Qed.

(** ** Only [readUnknown] returns the error that is skipped *)
Definition ordinary {S A} (m : M S A) : Prop := ∀ s e s', m s = (Err e, s') → e ≠ unknownSIPAEvent.

Section Ordinary.
Context {S A B : Type}.

Lemma ordinary_ret (a : A) : ordinary (S:=S) (mret a).
Proof. by intros s e s' ?. Qed.
Lemma ordinary_gets (f : S → A) : ordinary (gets f).
Proof. by intros s e s' ?. Qed.
Lemma ordinary_modify (f : S → S) : ordinary (modify f).
Proof. by intros s e s' ?. Qed.
Lemma ordinary_nofuel : ordinary (S:=S) (A:=A) nofuel.
Proof. by intros s e s' ?. Qed.
Lemma ordinary_fail msg : ordinary (S:=S) (A:=A) (fail (Errorf msg)).
Proof. by intros s e s' [= <- _]. Qed.
Lemma ordinary_wrapM fmt (m : M S A) : ordinary (wrapM fmt m).
Proof. intros s e s'. unfold wrapM. destruct (m s) as [[] ?]; cbn; intros [= <- _]; done. Qed.
Lemma ordinary_bind (m : M S A) (f : A → M S B) :
  ordinary m → (∀ a, ordinary (f a)) → ordinary (m ≫= f).
Proof.
  intros Hm Hf s e s'. unfold mbind, M_bind. destruct (m s) as [[] ?] eqn:E; intros E'; try done.
  - by eapply Hf. - injection E' as -> _. by eapply Hm.
Qed.
End Ordinary.

Lemma ordinary_reject_if {S} c msg : ordinary (S:=S) (reject_if c (Errorf msg)).
Proof. destruct c; [apply ordinary_fail|apply ordinary_ret]. Qed.
Lemma ordinary_ReadFull n : ordinary (ReadFull n).
Proof. intros s e s'. unfold ReadFull. repeat case_match; by intros [= <- _]. Qed.
Lemma ordinary_on_reader {A} (m : M reader A) : ordinary m → ordinary (on_reader m).
Proof.
  intros Hm s e s'. unfold on_reader. destruct (m (w_rd s)) as [x r] eqn:E. intros [= -> _].
  by eapply Hm.
Qed.
Lemma ordinary_limited {A} n (m : M wstate A) : ordinary m → ordinary (limited n m).
Proof.
  intros Hm s e s'. unfold limited. destruct (m _) as [x r] eqn:E. intros [= -> _]. by eapply Hm.
Qed.
Lemma ordinary_ignore_error m : ordinary (ignore_error m).
Proof. intros s e s'. unfold ignore_error. destruct (m s) as [[] ?]; by intros [=]. Qed.

Ltac ordinary_tac :=
  repeat first
    [ apply ordinary_ret | apply ordinary_fail | apply ordinary_gets | apply ordinary_modify
    | apply ordinary_nofuel | apply ordinary_reject_if | apply ordinary_ReadFull
    | apply ordinary_wrapM | apply ordinary_ignore_error
    | apply ordinary_on_reader | apply ordinary_limited
    | apply ordinary_bind; [|intros ?] | assumption | case_match ].

Lemma ordinary_lma_event v h : ordinary (lma_event v h).
Proof.
  destruct v. unfold lma_event, parseAuthoritySerial, parseAuthoritySHA1, parseAuthenticodeHash,
    parse_bounded, parseImageBase, parseUTF16, readUint64, parseHashAlgID, parseImageValidated.
  ordinary_tac.
Qed.
Lemma ordinary_lma_loop fuel v : ordinary (lma_loop fuel v).
Proof.
  revert v. induction fuel as [|fuel IH]; intros v; cbn [lma_loop]; ordinary_tac.
  - apply ordinary_lma_event. - apply IH.
Qed.
Lemma ordinary_elam_loop fuel v : ordinary (elam_loop fuel v).
Proof.
  assert (∀ v h, ordinary (elam_event v h)) as He.
  { intros [] h. unfold elam_event, parseUTF16. ordinary_tac. }
  revert v. induction fuel as [|fuel IH]; intros v; cbn [elam_loop]; unfold elam_finish, mod_win;
    ordinary_tac; (apply He || apply IH).
Qed.

(** ** What one SIPA event does

    A SIPA event is a type and its data, preceded by a header in the log. *)
Definition sipa : Type := Z * bytes.
Definition encode_sipa (ev : sipa) : bytes := le_bytes 4 ev.1 ++ le_bytes 4 (zlen ev.2) ++ ev.2.
Definition wf_sipa (ev : sipa) : Prop := 0 ≤ ev.1 < 2 ^ 32 ∧ zlen ev.2 < 2 ^ 32.

(** An event of type [t] with a value other than zero. *)
Definition reports (t : Z) (ev : sipa) : bool := (ev.1 =? t) && negb (le_uint ev.2 =? 0).

(** The effect on each field, by the type of the event. *)
Record sipa_effect (pcr : Z) (ev : sipa) (w w' : WinEvents) : Prop := {
  eff_ColdBoot : ColdBoot w' = if ev.1 =? transferControl then le_uint ev.2 =? 1 else ColdBoot w;
  eff_BootCount : BootCount w' = if ev.1 =? bootCounter then le_uint ev.2 else BootCount w;
  eff_conflict : ev.1 = bootCounter → BootCount w ≤ 0 ∨ BootCount w = le_uint ev.2;
  eff_BootDebugging : BootDebuggingEnabled w' = BootDebuggingEnabled w || reports bootDebugging ev;
  eff_KernelDebug : KernelDebugEnabled w' = KernelDebugEnabled w || reports osKernelDebug ev;
  eff_TestSigning : TestSigningEnabled w' = TestSigningEnabled w || reports testSigning ev;
  eff_DEP : DEPEnabled w' = if ev.1 =? dataExecutionPrevention
    then latch_off (DEPEnabled w) (reports dataExecutionPrevention ev) else DEPEnabled w;
  eff_CodeIntegrity : CodeIntegrityEnabled w' = if ev.1 =? codeIntegrity
    then latch_off (CodeIntegrityEnabled w) (reports codeIntegrity ev) else CodeIntegrityEnabled w;
  eff_Bitlocker : BitlockerUnlocks w' = BitlockerUnlocks w ++
    (if (ev.1 =? bitlockerUnlock) && negb (pcr =? 13) then [uint8 (Uvarint ev.2).1] else []);
  eff_modules : if ev.1 =? loadedModuleAggregation
    then ∃ v, LoadedModules w' = LoadedModules (record_module v w)
    else LoadedModules w' = LoadedModules w;
  eff_ELAM : if ev.1 =? elamAggregation then dom (ELAM w) ⊆ dom (ELAM w') else ELAM w' = ELAM w;
}.

(** [m] reads the data [p] of an event with header [h] and changes [w] so that
    [P] holds; its errors are not the one that is skipped. *)
Definition sipa_reader (m : M wstate ()) (h : microsoftEventHeader) (w : WinEvents)
    (P : bytes → WinEvents → Prop) : Prop :=
  ∀ s, spec m (mkWState w (NewReader s))
    (λ _ s', ∃ p rest, s = p ++ rest ∧ w_rd s' = NewReader rest ∧ zlen p = mh_Size h ∧ P p (w_win s'))
    (λ e _, e ≠ unknownSIPAEvent).

(** The readers of a single value. *)
Lemma sipa_reader_value {A} (m : M reader A) (f : A → WinEvents → WinEvents) h w
    (P : bytes → WinEvents → Prop) :
  ordinary m → (∀ s, reads m s (λ a p, zlen p = mh_Size h ∧ P p (f a w))) →
  sipa_reader (a ← on_reader m; mod_win (f a)) h w P.
Proof.
  intros Ho Hm s. go_step. apply spec_on_reader. specialize (Hm s). unfold reads, spec in *. cbn [w_rd w_win].
  destruct (m (NewReader s)) as [[a|e| |] r'] eqn:E; [|by eapply Ho|done..].
  destruct Hm as (p & rest & -> & -> & Hl & HP). by exists p, rest.
Qed.

Lemma readUint32_reads h s :
  reads (readUint32 h) s (λ i p, zlen p = mh_Size h ∧ i = le_uint p).
Proof.
  apply reads_reject_if. intros Hs%negb_false_iff%Z.eqb_eq. apply reads_wrapM. rewrite Hs.
  eapply reads_bind; [by apply reads_ReadFull|]. intros b p rest -> [-> Hl]. apply reads_ret.
  by rewrite app_nil_r.
Qed.
Lemma readUint64_reads h s :
  reads (readUint64 h) s (λ i p, zlen p = mh_Size h ∧ i = le_uint p).
Proof.
  apply reads_reject_if. intros Hs%negb_false_iff%Z.eqb_eq. apply reads_wrapM. rewrite Hs.
  eapply reads_bind; [by apply reads_ReadFull|]. intros b p rest -> [-> Hl]. apply reads_ret.
  by rewrite app_nil_r.
Qed.
Lemma read_le_reads n s : 0 ≤ n → reads (read_le n) s (λ i p, zlen p = n ∧ i = le_uint p).
Proof.
  intros Hn. eapply reads_bind; [by apply reads_ReadFull|]. intros b p rest -> [-> Hl].
  apply reads_ret. by rewrite app_nil_r.
Qed.

Lemma sipa_reader_reject c msg (k : () → M wstate ()) h w P :
  (c = false → sipa_reader (k tt) h w P) → sipa_reader (_ ← reject_if c (Errorf msg); k tt) h w P.
Proof. intros Hk s. destruct c; [by intros ?|]. apply (Hk eq_refl). Qed.

#[local] Arguments Uvarint : simpl never.

(** Solves the equations of [sipa_effect] for a known type of event. *)
Ltac effect_tac :=
  constructor; cbn; rewrite ?orb_false_r, ?app_nil_r; try done.

Section Effects.
Context (pcr : Z) (h : microsoftEventHeader) (w : WinEvents).
Let effect (p : bytes) (w' : WinEvents) : Prop := sipa_effect pcr (mh_Type h, p) w w'.

Lemma readBooleanInt64Event_effect :
  mh_Type h = dataExecutionPrevention → sipa_reader (readBooleanInt64Event h) h w effect.
Proof.
  intros Ht. apply (sipa_reader_reject _ _ (λ _, _)). intros Hs%negb_false_iff%Z.eqb_eq.
  apply (sipa_reader_value _ (λ num w, if mh_Type h =? dataExecutionPrevention
    then set_DEP (latch_off (DEPEnabled w) (negb (num =? 0))) w else w)); [ordinary_tac|].
  intros s. apply reads_wrapM. eapply reads_mono; [by apply read_le_reads|].
  intros num p rest _ [Hl ->]. split; [by rewrite Hs|]. unfold effect. rewrite Ht. effect_tac.
Qed.

Lemma readBooleanByteEvent_effect :
  mh_Type h ∈ [osKernelDebug; codeIntegrity; bootDebugging; testSigning] →
  sipa_reader (readBooleanByteEvent h) h w effect.
Proof.
  intros Ht. apply (sipa_reader_reject _ _ (λ _, _)). intros Hs%negb_false_iff%Z.eqb_eq.
  apply (sipa_reader_value _ (λ b w, let isSet := negb (b =? 0) in
    if mh_Type h =? osKernelDebug then set_KernelDebug (KernelDebugEnabled w || isSet) w
    else if mh_Type h =? bootDebugging then set_BootDebugging (BootDebuggingEnabled w || isSet) w
    else if mh_Type h =? testSigning then set_TestSigning (TestSigningEnabled w || isSet) w
    else if mh_Type h =? codeIntegrity then
      set_CodeIntegrity (latch_off (CodeIntegrityEnabled w) isSet) w
    else w)); [ordinary_tac|].
  intros s. apply reads_wrapM. eapply reads_mono; [by apply read_le_reads|].
  intros b p rest _ [Hl ->]. split; [by rewrite Hs|]. unfold effect.
  rewrite !elem_of_cons, elem_of_nil in Ht. destruct Ht as [->|[->|[->|[->|[]]]]]; effect_tac.
Qed.

Lemma readTransferControl_effect :
  mh_Type h = transferControl → sipa_reader (readTransferControl h) h w effect.
Proof.
  intros Ht. apply (sipa_reader_value _ (λ i, set_ColdBoot (i =? 1))); [ordinary_tac|].
  intros s. apply reads_wrapM. eapply reads_mono; [apply readUint32_reads|].
  intros b p rest _ [Hl ->]. split; [done|]. unfold effect. rewrite Ht. effect_tac.
Qed.

Lemma readBootCounter_effect :
  mh_Type h = bootCounter → sipa_reader (readBootCounter h) h w effect.
Proof.
  intros Ht s. unfold readBootCounter. go_step. apply spec_on_reader, spec_wrapM.
  eapply spec_mono; [apply readUint64_reads| |done]. cbn [w_win].
  intros i r' (p & rest & -> & -> & Hl & ->). go_step. apply spec_gets. cbn [w_win].
  go_step. go_step; [done|]. apply spec_mod_win. exists p, rest. split_and!; [done..|].
  unfold effect. rewrite Ht. effect_tac. intros _.
  destruct (Z.ltb_spec 0 (BootCount w)); [right|by left].
  by destruct (Z.eqb_spec (BootCount w) (le_uint p)).
Qed.

Lemma readBitlockerUnlock_effect :
  0 ≤ mh_Size h → mh_Type h = bitlockerUnlock → sipa_reader (readBitlockerUnlock h pcr) h w effect.
Proof.
  intros Hs Ht. apply (sipa_reader_reject _ _ (λ _, _)). intros _ s. go_step.
  apply spec_on_reader, spec_wrapM. eapply spec_mono; [by apply reads_ReadFull| |done].
  cbn [w_win]. intros data r' (p & rest & -> & -> & <- & Hl). destruct (Uvarint p) as [i n] eqn:Hu.
  go_step. go_step; [done|].
  destruct (Z.eqb_spec pcr 13) as [Hp|Hp]; [apply spec_ret|apply spec_mod_win]; exists p, rest;
    (split_and!; [done..|]); unfold effect; rewrite Ht; effect_tac;
    [rewrite Hp; cbn; by rewrite app_nil_r|by rewrite (proj2 (Z.eqb_neq _ _) Hp), Hu].
Qed.

Lemma readUnknown_effect s :
  0 ≤ mh_Size h →
  mh_Type h ∉ [elamAggregation; loadedModuleAggregation; bootCounter; bitlockerUnlock; transferControl;
     osKernelDebug; codeIntegrity; bootDebugging; testSigning; dataExecutionPrevention] →
  spec (readUnknown h) (mkWState w (NewReader s)) (λ _ _, False)
    (λ e s', e = unknownSIPAEvent → ∃ p rest, s = p ++ rest ∧ w_rd s' = NewReader rest ∧
       zlen p = mh_Size h ∧ effect p (w_win s')).
Proof.
  intros Hs Ht. unfold readUnknown. go_step. apply spec_on_reader, spec_gets. go_step. go_step; [done|].
  go_step. apply spec_on_reader, spec_wrapM. eapply spec_mono; [by apply reads_ReadFull| |done].
  cbn [w_win]. intros data r' (p & rest & -> & -> & <- & Hl). apply spec_fail. intros _. exists p, rest.
  split_and!; [done..|]. unfold effect. rewrite !not_elem_of_cons in Ht.
  destruct Ht as (H1 & H2 & H3 & H4 & H5 & H6 & H7 & H8 & H9 & H10 & _).
  constructor; unfold reports; cbn;
    rewrite ?(proj2 (Z.eqb_neq _ _) H1), ?(proj2 (Z.eqb_neq _ _) H2), ?(proj2 (Z.eqb_neq _ _) H3),
      ?(proj2 (Z.eqb_neq _ _) H4), ?(proj2 (Z.eqb_neq _ _) H5), ?(proj2 (Z.eqb_neq _ _) H6),
      ?(proj2 (Z.eqb_neq _ _) H7), ?(proj2 (Z.eqb_neq _ _) H8), ?(proj2 (Z.eqb_neq _ _) H9),
      ?(proj2 (Z.eqb_neq _ _) H10); cbn; rewrite ?orb_false_r, ?app_nil_r; done.
Qed.
End Effects.

(** A limited reader that has come to its limit has read exactly that much. *)
Lemma limited_exact s size r' :
  advances (mkReader s [size]) r' → rd_N r' ≤ 0 →
  ∃ p rest, s = p ++ rest ∧ mkReader (rd_buf r') (tail (rd_lims r')) = NewReader rest ∧ zlen p = size.
Proof.
  intros (n & Hn & ->) HN. unfold rd_avail in Hn. cbn in *.
  exists (take (Z.to_nat n) s), (drop (Z.to_nat n) s). rewrite take_drop. split_and!; [done..|].
  unfold zlen in *. rewrite length_take. lia.
Qed.

Section Aggregations.
Context (pcr : Z) (h : microsoftEventHeader) (w : WinEvents) (Hsize : 0 ≤ mh_Size h).

Lemma readLoadedModuleAggregation_effect :
  mh_Type h = loadedModuleAggregation →
  sipa_reader (readLoadedModuleAggregation h) h w (λ p, sipa_effect pcr (mh_Type h, p) w).
Proof using Hsize.
  intros Ht s. unfold readLoadedModuleAggregation. go_step. apply spec_gets. go_step. apply spec_limited, spec_on_reader.
  unfold push, rd_fuel. cbn [w_rd w_win rd_buf rd_lims NewReader].
  assert (ordinary (lma_loop (S (length s)) lma_init)) as Ho by apply ordinary_lma_loop.
  pose proof (lma_loop_spec (S (length s)) lma_init (mkReader s [mh_Size h])
                ltac:(by constructor) ltac:(unfold zlen; cbn; lia)) as Hm.
  unfold spec in *. destruct (lma_loop _ _ _) as [[v|e| |] r'] eqn:E; [|by eapply Ho|done..].
  destruct Hm as [Ha HN]. apply limited_exact in Ha as (p & rest & -> & Hr & Hl); [|done].
  unfold pop. cbn [w_rd w_win]. cbn. exists p, rest. rewrite Hr. split_and!; [done..|].
  rewrite Ht. effect_tac. by exists v.
Qed.

Lemma readELAMAggregation_effect :
  mh_Type h = elamAggregation →
  sipa_reader (readELAMAggregation h) h w (λ p, sipa_effect pcr (mh_Type h, p) w).
Proof using Hsize.
  intros Ht s. unfold readELAMAggregation. go_step. apply spec_gets. apply spec_limited.
  unfold push, rd_fuel. cbn [w_rd w_win rd_buf rd_lims NewReader].
  assert (ordinary (elam_loop (S (length s)) elam_init)) as Ho by apply ordinary_elam_loop.
  pose proof (elam_loop_spec (S (length s)) elam_init (mkWState w (mkReader s [mh_Size h]))
                ltac:(by constructor) ltac:(unfold zlen; cbn; lia)) as Hm.
  unfold elam_spec, spec in *. destruct (elam_loop _ _ _) as [[[]|e| |] s'] eqn:E; [|by eapply Ho|done..].
  destruct Hm as [[Ha (E' & He & Hd)] HN]. cbn [w_rd w_win] in *.
  apply limited_exact in Ha as (p & rest & -> & Hr & Hl); [|done].
  unfold pop. cbn [w_rd w_win]. exists p, rest. rewrite Hr, He. split_and!; [done..|].
  rewrite Ht. effect_tac.
Qed.
End Aggregations.

(** One event of the log: its header and data are the next bytes, and it has
    its effect. *)
Definition sipa_done (pcr : Z) (w : WinEvents) (s : bytes) (s' : wstate) : Prop :=
  ∃ ev rest, s = encode_sipa ev ++ rest ∧ wf_sipa ev ∧ w_rd s' = NewReader rest ∧
    sipa_effect pcr ev w (w_win s').

Lemma header_encode b p :
  zlen b = 8 → zlen p = le_uint (field 4 4 b) →
  encode_sipa (le_uint (field 0 4 b), p) = b ++ p ∧ wf_sipa (le_uint (field 0 4 b), p).
Proof.
  intros Hb Hp. assert (length b = 8%nat) as Hl by (unfold zlen in Hb; lia).
  unfold encode_sipa, wf_sipa. cbn [fst snd]. rewrite Hp, !le_field by lia.
  rewrite (assoc_L app), <- field_split, field_all by done. split; [done|].
  split; [by apply (le_field_bound 0 4); lia|]. by apply (le_field_bound 4 4); lia.
Qed.

Section SIPA.
Context (pcr : Z) (w : WinEvents) (b : bytes) (Hb : zlen b = 8).
Let h := mkHeader (le_uint (field 0 4 b)) (le_uint (field 4 4 b)).
Definition sipa_next (m : M wstate ()) (rest : bytes) : Prop :=
  spec m (mkWState w (NewReader rest)) (λ _ s', sipa_done pcr w (b ++ rest) s')
    (λ e s', e = unknownSIPAEvent → sipa_done pcr w (b ++ rest) s').

Lemma sipa_done_data p rest s' :
  zlen p = mh_Size h → w_rd s' = NewReader rest → sipa_effect pcr (mh_Type h, p) w (w_win s') →
  sipa_done pcr w (b ++ p ++ rest) s'.
Proof using Hb.
  intros Hl Hr He. destruct (header_encode b p Hb Hl) as [E Hw].
  exists (le_uint (field 0 4 b), p), rest. rewrite E, <- (assoc_L app). done.
Qed.

Lemma sipa_reader_next m rest :
  sipa_reader m h w (λ p, sipa_effect pcr (mh_Type h, p) w) → sipa_next m rest.
Proof using Hb.
  intros Hm. eapply spec_mono; [apply Hm| |by intros].
  intros [] s' (p & rest' & -> & ? & ? & ?). by apply sipa_done_data.
Qed.

Lemma readUnknown_next rest :
  mh_Type h ∉ [elamAggregation; loadedModuleAggregation; bootCounter; bitlockerUnlock; transferControl;
     osKernelDebug; codeIntegrity; bootDebugging; testSigning; dataExecutionPrevention] →
  sipa_next (readUnknown h) rest.
Proof using Hb.
  intros Ht. assert (0 ≤ mh_Size h) as Hs by apply le_uint_bound.
  eapply spec_mono; [by apply (readUnknown_effect pcr h w)|done|].
  intros e s' Hm He. destruct (Hm He) as (p & rest' & -> & ? & ? & ?). by apply sipa_done_data.
Qed.
End SIPA.

Lemma spec_ordinary {S A} (m : M S A) s (Q : A → S → Prop) (E : error → S → Prop) :
  ordinary m → spec m s Q E → spec m s Q (λ e s', E e s' ∧ e ≠ unknownSIPAEvent).
Proof.
  intros Ho. unfold spec. destruct (m s) as [[] ?] eqn:Em; try done. intros. split; [done|by eapply Ho].
Qed.

Lemma readSIPAEvent_spec pcr w s :
  spec (skip_unknown (readSIPAEvent pcr)) (mkWState w (NewReader s))
    (λ _ s', sipa_done pcr w s s') (λ _ _, True).
Proof.
  assert (spec (readSIPAEvent pcr) (mkWState w (NewReader s)) (λ _ s', sipa_done pcr w s s')
    (λ e s', e = unknownSIPAEvent → sipa_done pcr w s s')) as Hmain.
  2: { unfold spec, skip_unknown in *. destruct (readSIPAEvent pcr _) as [[[]|e| |] s']; try done.
       destruct e; try done. by apply Hmain. }
  unfold readSIPAEvent. go_step. apply spec_on_reader. cbn [w_rd w_win].
  assert (ordinary read_header) as Ho by (unfold read_header; ordinary_tac).
  pose proof (reads_struct 8 (λ b, mkHeader (le_uint (field 0 4 b)) (le_uint (field 4 4 b))) s
                ltac:(done)) as Hm. fold read_header in Hm.
  eapply spec_mono; [exact (spec_ordinary _ _ _ _ Ho Hm)| |by intros e r' [_ ?] ?].
  intros ? r' (b & rest & -> & -> & -> & Hb). set (h := mkHeader _ _). cbn [w_win].
  assert (0 ≤ mh_Size h) as Hs by apply le_uint_bound. change (sipa_next pcr w b
    (if mh_Type h =? elamAggregation then readELAMAggregation h
     else if mh_Type h =? loadedModuleAggregation then readLoadedModuleAggregation h
     else if mh_Type h =? bootCounter then readBootCounter h
     else if mh_Type h =? bitlockerUnlock then readBitlockerUnlock h pcr
     else if mh_Type h =? transferControl then readTransferControl h
     else if bool_decide (mh_Type h ∈ [osKernelDebug; codeIntegrity; bootDebugging; testSigning]) then
       readBooleanByteEvent h
     else if mh_Type h =? dataExecutionPrevention then readBooleanInt64Event h
     else readUnknown h) rest).
  destruct (Z.eqb_spec (mh_Type h) elamAggregation); [by apply sipa_reader_next, readELAMAggregation_effect|].
  destruct (Z.eqb_spec (mh_Type h) loadedModuleAggregation);
    [by apply sipa_reader_next, readLoadedModuleAggregation_effect|].
  destruct (Z.eqb_spec (mh_Type h) bootCounter); [by apply sipa_reader_next, readBootCounter_effect|].
  destruct (Z.eqb_spec (mh_Type h) bitlockerUnlock); [by apply sipa_reader_next, readBitlockerUnlock_effect|].
  destruct (Z.eqb_spec (mh_Type h) transferControl); [by apply sipa_reader_next, readTransferControl_effect|].
  case_bool_decide as Hbool; [by apply sipa_reader_next, readBooleanByteEvent_effect|].
  destruct (Z.eqb_spec (mh_Type h) dataExecutionPrevention);
    [by apply sipa_reader_next, readBooleanInt64Event_effect|].
  apply readUnknown_next; [done|]. fold h. rewrite !not_elem_of_cons in *. tauto.
Qed.

(** ** Sequences of SIPA events, with the PCR they were measured in *)
Inductive sipa_run : WinEvents → list (Z * sipa) → WinEvents → Prop :=
| run_nil w : sipa_run w [] w
| run_cons pcr ev w w1 evs w2 :
    sipa_effect pcr ev w w1 → sipa_run w1 evs w2 → sipa_run w ((pcr, ev) :: evs) w2.

Lemma sipa_run_app w evs w1 evs' w2 :
  sipa_run w evs w1 → sipa_run w1 evs' w2 → sipa_run w (evs ++ evs') w2.
Proof. induction 1; [done|]. intros. eapply run_cons; eauto. Qed.

(** The events that a block of data encodes. *)
Definition sipa_block (d : bytes) (evs : list sipa) : Prop :=
  d = concat (encode_sipa <$> evs) ∧ Forall wf_sipa evs.

Lemma encode_sipa_inj ev ev' r r' :
  wf_sipa ev → wf_sipa ev' → encode_sipa ev ++ r = encode_sipa ev' ++ r' → ev = ev' ∧ r = r'.
Proof.
  destruct ev as [t p], ev' as [t' p']. unfold encode_sipa, wf_sipa. cbn [fst snd]. intros [Ht Hp] [Ht' Hp'].
  pose proof (zlen_nonneg p). pose proof (zlen_nonneg p').
  rewrite <- !(assoc_L app). intros [E1 E]%app_inj_len; [|by rewrite !length_le_bytes].
  apply app_inj_len in E as [E2 E]; [|by rewrite !length_le_bytes].
  apply (f_equal le_uint) in E1, E2. rewrite !le_uint_le_bytes in E1, E2 by (cbn; lia).
  apply app_inj_len in E as [-> ->]; [by subst|]. unfold zlen in E2. lia.
Qed.

Lemma encode_sipa_nonempty ev r : encode_sipa ev ++ r ≠ [].
Proof.
  intros E%(f_equal length). unfold encode_sipa in E. rewrite !length_app, !length_le_bytes in E.
  cbn [length] in E. lia.
Qed.

(** A block encodes one sequence of events only. *)
Lemma sipa_block_unique d evs evs' : sipa_block d evs → sipa_block d evs' → evs = evs'.
Proof.
  intros [-> Hw] [E Hw']. revert evs' Hw' E. induction Hw as [|ev evs Hev Hw IH]; intros evs' Hw' E.
  - destruct Hw' as [|ev' evs' _ _]; [done|]. symmetry in E. by apply encode_sipa_nonempty in E.
  - destruct Hw' as [|ev' evs' Hev' Hw']; [by apply encode_sipa_nonempty in E|].
    apply encode_sipa_inj in E as [-> E]; [|done..]. f_equal. by apply IH.
Qed.

Lemma block_loop_spec pcr fuel w s :
  zlen s < Z.of_nat fuel →
  spec (block_loop fuel pcr) (mkWState w (NewReader s))
    (λ _ s', ∃ evs, sipa_block s evs ∧ sipa_run w (pair pcr <$> evs) (w_win s')) (λ _ _, True).
Proof.
  revert w s. induction fuel as [|fuel IH]; intros w s Hf; [pose proof (zlen_nonneg s); lia|].
  cbn [block_loop]. go_step. apply spec_on_reader, spec_gets. cbn [w_win w_rd].
  unfold rd_len. cbn [rd_buf NewReader]. destruct (ltb_zlen s) as [Hs| ->]; cbn [negb].
  2: { apply spec_ret. exists []. split; [by split|constructor]. }
  go_step. eapply spec_mono; [apply readSIPAEvent_spec| |done].
  intros [] [w1 r1] (ev & rest & -> & Hw & Hr & He). cbn [w_rd w_win] in *. subst r1.
  assert (zlen rest < Z.of_nat fuel) as Hf1.
  { rewrite zlen_app in Hf. unfold encode_sipa in Hf. rewrite !zlen_app, !zlen_le_bytes in Hf.
    pose proof (zlen_nonneg ev.2). lia. }
  eapply spec_mono; [by apply IH| |done].
  intros [] s' (evs & [-> Hevs] & Hrun). exists (ev :: evs). split; [by split; [|constructor]|].
  by eapply run_cons.
Qed.

Lemma readWinEventBlock_spec evt pcr w :
  match readWinEventBlock evt pcr w with
  | Ok w' => Z.land (te_ID evt) sipaTypeMask = sipaContainer ∧
      ∃ evs, sipa_block (te_Data evt) evs ∧ sipa_run w (pair pcr <$> evs) w'
  | Err _ => True
  | _ => False
  end.
Proof.
  unfold readWinEventBlock, reject.
  destruct (Z.eqb_spec (Z.land (te_ID evt) sipaTypeMask) sipaContainer); cbn [negb mbind res_bind]; [|done].
  cbv zeta. set (s := mkWState w (NewReader (te_Data evt))).
  assert (zlen (te_Data evt) < Z.of_nat (rd_fuel s)) as Hf by (change (rd_fuel s) with (S (length (te_Data evt))); unfold zlen; lia).
  pose proof (block_loop_spec pcr (rd_fuel s) w (te_Data evt) Hf) as Hb.
  unfold spec in Hb. fold s in Hb. by destruct (block_loop _ _ _) as [[[]|e'| |] s'].
Qed.

(** ** What the result says of the sequence *)
Definition of_type (t : Z) (evs : list (Z * sipa)) : list sipa :=
  filter (λ ev, ev.1 = t) (snd <$> evs).

(** "Consistently reported as enabled". *)
Definition consistently (t : Z) (evs : list (Z * sipa)) : Ternary :=
  if existsb (λ ev, negb (reports t ev)) (of_type t evs) then TernaryFalse
  else if existsb (reports t) (of_type t evs) then TernaryTrue
  else TernaryUnknown.

Definition unlock_of (x : Z * sipa) : option Z :=
  if (x.2.1 =? bitlockerUnlock) && negb (x.1 =? 13) then Some (uint8 (Uvarint x.2.2).1) else None.

Record win_facts (evs : list (Z * sipa)) (w : WinEvents) : Prop := {
  fact_KernelDebug : KernelDebugEnabled w = existsb (reports osKernelDebug) (snd <$> evs);
  fact_BootDebugging : BootDebuggingEnabled w = existsb (reports bootDebugging) (snd <$> evs);
  fact_TestSigning : TestSigningEnabled w = existsb (reports testSigning) (snd <$> evs);
  fact_DEP : DEPEnabled w = consistently dataExecutionPrevention evs;
  fact_CodeIntegrity : CodeIntegrityEnabled w = consistently codeIntegrity evs;
  fact_ColdBoot : ColdBoot w =
    match last (of_type transferControl evs) with Some ev => le_uint ev.2 =? 1 | None => false end;
  fact_BootCount : BootCount w = default 0 ((λ ev, le_uint ev.2) <$> last (of_type bootCounter evs));
  fact_counters : Forall (λ ev, le_uint ev.2 = 0 ∨ le_uint ev.2 = BootCount w) (of_type bootCounter evs);
  fact_Bitlocker : BitlockerUnlocks w = omap unlock_of evs;
}.

Lemma of_type_snoc t evs pcr ev :
  of_type t (evs ++ [(pcr, ev)]) = of_type t evs ++ if decide (ev.1 = t) then [ev] else [].
Proof. unfold of_type. rewrite fmap_app, filter_app. cbn. by destruct (decide (ev.1 = t)). Qed.

Lemma consistently_snoc t evs pcr ev :
  consistently t (evs ++ [(pcr, ev)]) =
    if ev.1 =? t then latch_off (consistently t evs) (reports t ev) else consistently t evs.
Proof.
  unfold consistently. rewrite of_type_snoc. destruct (Z.eqb_spec (ev.1) t) as [E|E].
  - rewrite decide_True by done. rewrite !existsb_app. cbn. unfold latch_off.
    destruct (reports t ev), (existsb (λ ev, negb (reports t ev)) (of_type t evs)),
      (existsb (reports t) (of_type t evs)); done.
  - rewrite decide_False by done. by rewrite app_nil_r.
Qed.

Lemma win_facts_empty : win_facts [] win_empty.
Proof. constructor; try done. Qed.

Lemma win_facts_step pcr ev evs w w' :
  sipa_effect pcr ev w w' → win_facts evs w → win_facts (evs ++ [(pcr, ev)]) w'.
Proof.
  intros He []. destruct He.
  assert (∀ t, existsb (reports t) (snd <$> evs ++ [(pcr, ev)]) =
    existsb (reports t) (snd <$> evs) || reports t ev) as Hex.
  { intros t. rewrite fmap_app, existsb_app. cbn. by rewrite orb_false_r. }
  constructor; rewrite ?Hex, ?consistently_snoc, ?of_type_snoc, ?omap_app; try congruence.
  - by rewrite eff_DEP0, fact_DEP0.
  - by rewrite eff_CodeIntegrity0, fact_CodeIntegrity0.
  - rewrite eff_ColdBoot0. destruct (Z.eqb_spec (ev.1) transferControl).
    + rewrite decide_True by done. by rewrite last_snoc.
    + rewrite decide_False by done. by rewrite app_nil_r.
  - rewrite eff_BootCount0. destruct (Z.eqb_spec (ev.1) bootCounter).
    + rewrite decide_True by done. by rewrite last_snoc.
    + rewrite decide_False by done. by rewrite app_nil_r.
  - rewrite eff_BootCount0. destruct (Z.eqb_spec (ev.1) bootCounter) as [E|E].
    + rewrite decide_True by done. apply Forall_app. split; [|by constructor; [right|]].
      eapply Forall_impl; [exact fact_counters0|]. cbn. intros x.
      pose proof (le_uint_bound x.2). specialize (eff_conflict0 E). lia.
    + rewrite decide_False by done. by rewrite app_nil_r.
  - rewrite eff_Bitlocker0, fact_Bitlocker0. f_equal.
    change (omap unlock_of [(pcr, ev)]) with (match unlock_of (pcr, ev) with Some x => [x] | None => [] end).
    unfold unlock_of. cbn [fst snd]. by destruct (_ && _).
Qed.

Lemma sipa_run_facts done w evs w' : sipa_run w evs w' → win_facts done w → win_facts (done ++ evs) w'.
Proof.
  intros Hr. revert done. induction Hr as [|pcr ev w w1 evs w2 He Hr IH]; intros done Hf.
  - by rewrite app_nil_r.
  - rewrite cons_middle, (assoc_L app). apply IH. by eapply win_facts_step.
Qed.

(** ** The loop over the log *)
Section Log.
Context `{GoCrypto}.

Definition win_sep (pcr : Z) (e : Event) : bool := (ev_Index e =? pcr) && (etype e =? Separator).
Definition win_tag (pcr : Z) (e : Event) : bool := (ev_Index e =? pcr) && (etype e =? EventTag).

(** The tagged events that count: those of each PCR up to its separator. *)
Fixpoint win_tags (seen12 seen13 : bool) (events : list Event) : list Event :=
  match events with
  | [] => []
  | e :: events =>
      (if (win_tag 12 e && negb seen12) || (win_tag 13 e && negb seen13) then [e] else [])
        ++ win_tags (seen12 || win_sep 12 e) (seen13 || win_sep 13 e) events
  end.

(** A tagged event that measures a container of SIPA events. *)
Definition measures (e : Event) (evs : list sipa) : Prop :=
  data_digest e ∧ ∃ t, ParseTaggedEventData (ev_Data e) = Ok t ∧
    Z.land (te_ID t) sipaTypeMask = sipaContainer ∧ sipa_block (te_Data t) evs.

Definition log_sipa (tags : list Event) (blocks : list (list sipa)) : list (Z * sipa) :=
  concat (zip_with (λ e evs, pair (ev_Index e) <$> evs) tags blocks).

(** What events of PCRs 12 and 13 may be. *)
Definition win_legal (e : Event) : Prop :=
  ev_Index e = 12 ∨ ev_Index e = 13 →
  etype e = EventTag ∨ (etype e = Separator ∧ ev_Data e = str "WBCL" ∧ data_digest e).

Definition win_step (st : win_vars) (e : Event) (st' : win_vars) : Prop :=
  seenPCR12 st' = seenPCR12 st || win_sep 12 e ∧ seenPCR13 st' = seenPCR13 st || win_sep 13 e ∧
  (win_sep 12 e = true → seenPCR12 st = false) ∧ (win_sep 13 e = true → seenPCR13 st = false) ∧
  win_legal e ∧
  ∃ blocks, Forall2 measures (win_tags (seenPCR12 st) (seenPCR13 st) [e]) blocks ∧
    sipa_run (wv_out st) (log_sipa (win_tags (seenPCR12 st) (seenPCR13 st) [e]) blocks) (wv_out st').

Lemma tagged_event_spec w e :
  match tagged_event w e (digestEquals e (ev_Data e)) with
  | Ok w' => ∃ evs, measures e evs ∧ sipa_run w (pair (ev_Index e) <$> evs) w'
  | Err _ => True
  | _ => False
  end.
Proof.
  unfold tagged_event. pose proof (ParseTaggedEventData_returns (ev_Data e)) as Hp.
  destruct (ParseTaggedEventData (ev_Data e)) as [t|?| |] eqn:Ht; try done. cbn [wrapf mbind res_bind].
  pose proof (digestEquals_no_crash e (ev_Data e)) as Hd.
  destruct (digestEquals e (ev_Data e)) as [[]|?| |] eqn:He; try done. cbn [wrapf mbind res_bind].
  pose proof (readWinEventBlock_spec t (ev_Index e) w) as Hb.
  destruct (readWinEventBlock _ _ _); cbn; try done.
  destruct Hb as (Hc & evs & Hb & Hr). exists evs. split; [|done]. split; [done|]. by exists t.
Qed.

Lemma wbcl_separator_spec seen e :
  match wbcl_separator seen e (digestEquals e (ev_Data e)) with
  | Ok _ => seen = false ∧ ev_Data e = str "WBCL" ∧ data_digest e
  | Err _ => True
  | _ => False
  end.
Proof.
  unfold wbcl_separator, reject. destruct seen; cbn [mbind res_bind]; [done|].
  case_bool_decide as Hs; cbn [mbind res_bind]; [done|].
  pose proof (digestEquals_no_crash e (ev_Data e)) as Hd.
  destruct (digestEquals e (ev_Data e)) as [[]|?| |] eqn:He; try done.
Qed.

(** What an event of PCR [ev_Index e] does to the flag of that PCR. *)
Lemma win_pcr_spec w seen e msg :
  match win_pcr w seen e (etype e) (digestEquals e (ev_Data e)) msg with
  | Ok (w', seen') =>
      seen' = seen || (etype e =? Separator) ∧
      ((etype e =? Separator) = true → seen = false) ∧
      (etype e = EventTag ∨ (etype e = Separator ∧ ev_Data e = str "WBCL" ∧ data_digest e)) ∧
      ∃ blocks, Forall2 measures (if (etype e =? EventTag) && negb seen then [e] else []) blocks ∧
        sipa_run w (log_sipa (if (etype e =? EventTag) && negb seen then [e] else []) blocks) w'
  | Err _ => True
  | _ => False
  end.
Proof.
  unfold win_pcr. destruct (Z.eqb_spec (etype e) EventTag) as [Et|_].
  - rewrite Et. cbn. destruct seen; cbn.
    { split_and!; [done|done|by left|]. exists []. by split; constructor. }
    pose proof (tagged_event_spec w e) as Hs. destruct (tagged_event _ _ _) as [w'| | |]; cbn; try done.
    destruct Hs as (evs & Hm & Hr). split_and!; [done|done|by left|].
    exists [evs]. split; [by constructor|]. unfold log_sipa. cbn. by rewrite app_nil_r.
  - destruct (Z.eqb_spec (etype e) Separator) as [Es|_]; [|done].
    pose proof (wbcl_separator_spec seen e) as Hs.
    destruct (wbcl_separator _ _ _); cbn; try done. destruct Hs as (-> & ? & ?).
    split_and!; [done|done|by right|]. exists []. by split; constructor.
Qed.

Lemma win_event_spec st e :
  match win_event st e with Ok st' => win_step st e st' | Err _ => True | _ => False end.
Proof.
  destruct st as [w seen12 seen13]. unfold win_event, win_step, win_legal, win_tags, win_tag, win_sep.
  cbn [seenPCR12 seenPCR13 wv_out]. rewrite app_nil_r.
  destruct (UntrustedParseEventType (uint32 (ev_Type e))) as [et|err| |] eqn:Ee.
  3, 4: exfalso; revert Ee; unfold UntrustedParseEventType; by repeat case_match.
  2: { destruct (negb _ && negb _) eqn:En; [|done]. apply andb_true_iff in En as [En1 En2].
       apply negb_true_iff in En1, En2. rewrite En1, En2. cbn. rewrite !orb_false_r.
       apply Z.eqb_neq in En1, En2. split_and!; try done; [lia|]. exists []. by split; constructor. }
  apply UntrustedParseEventType_table in Ee as [-> _]. fold (etype e). cbn [wrapf mbind res_bind].
  destruct (Z.eqb_spec (ev_Index e) 12) as [E12|E12]; cbn [negb andb].
  { destruct (Z.eqb_spec (ev_Index e) 13) as [E13|_]; [lia|]. cbn [andb]. cbv zeta.
    pose proof (win_pcr_spec w seen12 e "unexpected (PCR12) event type: %v") as Hs.
    destruct (win_pcr _ _ _ _ _ _) as [[w' s']| | |]; cbn; try done.
    rewrite !orb_false_r. destruct Hs as (? & ? & ? & ?). split_and!; done. }
  destruct (Z.eqb_spec (ev_Index e) 13) as [E13|E13]; cbn [negb andb orb].
  { cbv zeta. pose proof (win_pcr_spec w seen13 e "unexpected (PCR13) event type: %v") as Hs.
    destruct (win_pcr _ _ _ _ _ _) as [[w' s']| | |]; cbn; try done.
    rewrite !orb_false_r. destruct Hs as (? & ? & ? & ?). split_and!; done. }
  cbn. rewrite !orb_false_r. split_and!; try done; [lia|]. exists []. by split; constructor.
Qed.
End Log.

(** ** Later events never undo what was recorded *)
Definition ternary_le (t t' : Ternary) : Prop :=
  match t with
  | TernaryUnknown => True
  | TernaryTrue => t' ≠ TernaryUnknown
  | TernaryFalse => t' = TernaryFalse
  end.

Record win_le (w w' : WinEvents) : Prop := {
  le_KernelDebug : KernelDebugEnabled w = true → KernelDebugEnabled w' = true;
  le_BootDebugging : BootDebuggingEnabled w = true → BootDebuggingEnabled w' = true;
  le_TestSigning : TestSigningEnabled w = true → TestSigningEnabled w' = true;
  le_DEP : ternary_le (DEPEnabled w) (DEPEnabled w');
  le_CodeIntegrity : ternary_le (CodeIntegrityEnabled w) (CodeIntegrityEnabled w');
  le_BootCount : 0 < BootCount w → BootCount w' = BootCount w;
  le_Bitlocker : BitlockerUnlocks w `prefix_of` BitlockerUnlocks w';
  le_ELAM : dom (ELAM w) ⊆ dom (ELAM w');
  le_modules k m : LoadedModules w !! k = Some m →
    ∃ m', LoadedModules w' !! k = Some m' ∧ ImageBase m `suffix_of` ImageBase m';
}.

Lemma ternary_le_refl t : ternary_le t t.
Proof. by destruct t. Qed.
Lemma ternary_le_latch t b : ternary_le t (latch_off t b).
Proof. by destruct t, b. Qed.

Lemma win_le_refl w : win_le w w.
Proof. constructor; try done; [apply ternary_le_refl..|]. intros k m Hk. by exists m. Qed.

Lemma win_le_trans w1 w2 w3 : win_le w1 w2 → win_le w2 w3 → win_le w1 w3.
Proof.
  assert (∀ t1 t2 t3, ternary_le t1 t2 → ternary_le t2 t3 → ternary_le t1 t3) as Ht.
  { intros [] [] []; cbn; try done. }
  intros L1 L2. constructor; intros.
  - by apply (le_KernelDebug _ _ L2), (le_KernelDebug _ _ L1).
  - by apply (le_BootDebugging _ _ L2), (le_BootDebugging _ _ L1).
  - by apply (le_TestSigning _ _ L2), (le_TestSigning _ _ L1).
  - exact (Ht _ _ _ (le_DEP _ _ L1) (le_DEP _ _ L2)).
  - exact (Ht _ _ _ (le_CodeIntegrity _ _ L1) (le_CodeIntegrity _ _ L2)).
  - rewrite (le_BootCount _ _ L2); rewrite (le_BootCount _ _ L1); done.
  - etrans; [exact (le_Bitlocker _ _ L1)|exact (le_Bitlocker _ _ L2)].
  - etrans; [exact (le_ELAM _ _ L1)|exact (le_ELAM _ _ L2)].
  - destruct (le_modules _ _ L1 k m) as (m1 & Hm1 & Hs1); [done|].
    destruct (le_modules _ _ L2 k m1 Hm1) as (m2 & Hm2 & Hs2). exists m2. split; [done|]. by etrans.
Qed.

Lemma record_module_le v w k m :
  LoadedModules w !! k = Some m →
  ∃ m', LoadedModules (record_module v w) !! k = Some m' ∧ ImageBase m `suffix_of` ImageBase m'.
Proof.
  intros Hk. cbn. destruct (decide (lma_key v = k)) as [<-|Hn].
  - rewrite lookup_insert_eq. eexists. split; [done|]. cbn. unfold known_bases. rewrite Hk.
    by eexists.
  - rewrite lookup_insert_ne by done. by exists m.
Qed.

Lemma sipa_effect_le pcr ev w w' : sipa_effect pcr ev w w' → win_le w w'.
Proof.
  intros []. constructor.
  - rewrite eff_KernelDebug0. by intros ->.
  - rewrite eff_BootDebugging0. by intros ->.
  - rewrite eff_TestSigning0. by intros ->.
  - rewrite eff_DEP0. destruct (ev.1 =? dataExecutionPrevention); [apply ternary_le_latch|apply ternary_le_refl].
  - rewrite eff_CodeIntegrity0. destruct (ev.1 =? codeIntegrity); [apply ternary_le_latch|apply ternary_le_refl].
  - intros Hp. rewrite eff_BootCount0. destruct (Z.eqb_spec (ev.1) bootCounter) as [E|]; [|done].
    specialize (eff_conflict0 E). lia.
  - rewrite eff_Bitlocker0. by eexists.
  - destruct (ev.1 =? elamAggregation); [done|]. by rewrite eff_ELAM0.
  - intros k m Hk. destruct (ev.1 =? loadedModuleAggregation).
    + destruct eff_modules0 as [v ->]. by apply record_module_le.
    + rewrite eff_modules0. by exists m.
Qed.

Lemma sipa_run_le w evs w' : sipa_run w evs w' → win_le w w'.
Proof.
  induction 1 as [|pcr ev w w1 evs w2 He Hr IH]; [apply win_le_refl|].
  eapply win_le_trans; [by eapply sipa_effect_le|done].
Qed.

Section Loop.
Context `{GoCrypto}.

Lemma win_tags_cons seen12 seen13 e events :
  win_tags seen12 seen13 (e :: events) =
    win_tags seen12 seen13 [e] ++ win_tags (seen12 || win_sep 12 e) (seen13 || win_sep 13 e) events.
Proof. cbn. by rewrite app_nil_r. Qed.

Lemma log_sipa_app tags blocks tags' blocks' :
  Forall2 measures tags blocks →
  log_sipa (tags ++ tags') (blocks ++ blocks') = log_sipa tags blocks ++ log_sipa tags' blocks'.
Proof.
  intros Hf. unfold log_sipa. rewrite zip_with_app by by eapply Forall2_length.
  apply concat_app.
Qed.

(** The number of separators still allowed. *)
Definition at_most_one (pcr : Z) (seen : bool) (events : list Event) : Prop :=
  (length (filter (λ e, win_sep pcr e = true) events) ≤ if seen then 0 else 1)%nat.

Lemma at_most_one_cons pcr seen e events :
  (win_sep pcr e = true → seen = false) → at_most_one pcr (seen || win_sep pcr e) events →
  at_most_one pcr seen (e :: events).
Proof.
  unfold at_most_one. rewrite filter_cons. destruct (win_sep pcr e) eqn:E.
  - intros ->; [|done]. rewrite decide_True by done. cbn. lia.
  - intros _. rewrite decide_False by done. by rewrite orb_false_r.
Qed.

Lemma win_events_spec st events :
  match win_events st events with
  | Ok st' =>
      Forall win_legal events ∧ at_most_one 12 (seenPCR12 st) events ∧
      at_most_one 13 (seenPCR13 st) events ∧
      ∃ blocks, Forall2 measures (win_tags (seenPCR12 st) (seenPCR13 st) events) blocks ∧
        sipa_run (wv_out st) (log_sipa (win_tags (seenPCR12 st) (seenPCR13 st) events) blocks) (wv_out st')
  | Err _ => True
  | _ => False
  end.
Proof.
  revert st. induction events as [|e events IH]; intros st.
  { cbn. split_and!; [done|unfold at_most_one; cbn; lia..|]. exists []. by split; constructor. }
  cbn [win_events]. pose proof (win_event_spec st e) as Hs.
  destruct (win_event st e) as [st1| | |]; cbn [mbind res_bind]; try done.
  destruct Hs as (E12 & E13 & H12 & H13 & Hl & blocks & Hb & Hr).
  specialize (IH st1). destruct (win_events st1 events) as [st2| | |]; try done.
  destruct IH as (Hl' & Hc12 & Hc13 & blocks' & Hb' & Hr'). rewrite E12 in *. rewrite E13 in *.
  split_and!; [by constructor|by apply at_most_one_cons..|].
  exists (blocks ++ blocks'). rewrite win_tags_cons. split; [by apply Forall2_app|].
  rewrite log_sipa_app by done. by eapply sipa_run_app.
Qed.

Lemma win_events_app st events events' :
  win_events st (events ++ events') = (st ← win_events st events; win_events st events').
Proof.
  revert st. induction events as [|e events IH]; intros st; [done|]. cbn.
  destruct (win_event st e); cbn; [apply IH|done..].
Qed.
End Loop.

(** ** Properties *)
Section Theorems.
Context `{GoCrypto}.

(** [ParseWinEvents] returns on every list of events: the nested loops
    over SIPA events terminate, and no input makes them panic. *)
Theorem ParseWinEvents_total events : no_crash (ParseWinEvents events).
Proof.
  unfold ParseWinEvents. pose proof (win_events_spec (mkWinVars win_empty false false) events) as Hs.
  by destruct (win_events _ _).
Qed.

(** C29: What a result says: the events of PCRs 12 and 13 are tagged events and
    at most one WBCL separator each; the tagged events up to the separators
    have the digest of their data and hold containers, each of which encodes
    one sequence of SIPA events; and the flags, counters and unlocks are
    those of this sequence: debugging and test signing if ever reported,
    DEP and code integrity if consistently reported, the last boot counter,
    with which all others agree or are zero. *)
Theorem ParseWinEvents_sound events w :
  ParseWinEvents events = Ok w →
  Forall win_legal events ∧ at_most_one 12 false events ∧ at_most_one 13 false events ∧
  ∃ blocks, Forall2 measures (win_tags false false events) blocks ∧
    (∀ blocks', Forall2 measures (win_tags false false events) blocks' → blocks' = blocks) ∧
    win_facts (log_sipa (win_tags false false events) blocks) w.
Proof.
  intros (st & Hst & [= <-])%res_bind_Ok.
  pose proof (win_events_spec (mkWinVars win_empty false false) events) as Hs. rewrite Hst in Hs.
  destruct Hs as (Hl & H12 & H13 & blocks & Hb & Hr). split_and!; [done..|]. exists blocks.
  split_and!; [done| |by apply (sipa_run_facts [] win_empty); [|apply win_facts_empty]].
  cbn [seenPCR12 seenPCR13] in Hb. clear Hr. induction Hb as [|e evs tags blocks Hm Hb IH];
    intros blocks' Hb'; inversion Hb' as [|? evs' ? blocks1 Hm' Hb1]; subst; [done|].
  f_equal; [|by apply IH]. destruct Hm as (_ & t & Ht & _ & Hm), Hm' as (_ & t' & Ht' & _ & Hm').
  rewrite Ht in Ht'. apply Ok_inj in Ht' as <-. by eapply sipa_block_unique.
Qed.

(** Events appended to a log can only make the result worse or fuller,
    never hide anything: debugging and test signing stay reported, DEP and
    code integrity stay off, the boot count stays, unlocks, drivers, modules
    and their addresses are only added to. *)
Theorem ParseWinEvents_latches events events' w' :
  ParseWinEvents (events ++ events') = Ok w' →
  ∃ w, ParseWinEvents events = Ok w ∧ win_le w w'.
Proof.
  intros (st' & Hst & [= <-])%res_bind_Ok. rewrite win_events_app in Hst.
  apply res_bind_Ok in Hst as (st & Hst & Hst'). exists (wv_out st). unfold ParseWinEvents. rewrite Hst.
  split; [done|]. pose proof (win_events_spec st events') as Hs. rewrite Hst' in Hs.
  destruct Hs as (_ & _ & _ & blocks & _ & Hr). by eapply sipa_run_le.
Qed.
End Theorems.

Section Witnesses.
#[local] Existing Instance sha_crypto.

Definition ex_utf16 (s : string) : bytes := concat ((λ c, [c; Byte.x00]) <$> str s).
Definition ex_elam : sipa :=
  (elamAggregation, concat (encode_sipa <$> [
     (elamKeyname, ex_utf16 "av");
     (elamAggregation, encode_sipa (elamPolicy, str "no name"));
     (elamMeasured, str "m")])).
Definition ex_module (base : Z) : sipa :=
  (loadedModuleAggregation, concat (encode_sipa <$> [
     (imageBase, le_bytes 8 base);
     (authenticodeHash, str "hash");
     (filePath, ex_utf16 "a.sys");
     (hashAlgorithmID, le_bytes 4 0x800c)])).
Definition ex_sipa : list sipa := [
  (bootCounter, le_bytes 8 7);
  (transferControl, le_bytes 4 1);
  (osKernelDebug, [Byte.x01]);
  (osKernelDebug, [Byte.x00]);
  (dataExecutionPrevention, le_bytes 8 1);
  (bitlockerUnlock, [Byte.x02; Byte.x00; Byte.x00; Byte.x00]);
  (0x00020001, str "unknown");
  ex_module 0x1000; ex_elam].
Definition ex_sipa_later : list sipa := [(dataExecutionPrevention, le_bytes 8 0); ex_module 0x2000].

Definition ex_win_measured (index typ : Z) (data : bytes) : Event :=
  mkEvent 0 index typ data (Sha.sha256 data).
Definition ex_container (evs : list sipa) : bytes :=
  encode_tagged (mkTagged 0x40010001 (concat (encode_sipa <$> evs))).
Definition ex_win_log : list Event := [
  ex_win_measured 12 EventTag (ex_container ex_sipa);
  ex_win_measured 12 Separator (str "WBCL")].
Definition ex_win_later : list Event := [
  ex_win_measured 13 EventTag (ex_container ex_sipa_later);
  ex_win_measured 12 EventTag (str "ignored");
  ex_win_measured 13 Separator (str "WBCL")].
Definition ex_win (log : list Event) : WinEvents :=
  match ParseWinEvents log with Ok w => w | _ => win_empty end.

(** A nested aggregation that fails is ignored; the last report of a module
    wins, but for the addresses. *)
Example ex_win_values :
  (λ w, (ColdBoot w, BootCount w, KernelDebugEnabled w, DEPEnabled w, BitlockerUnlocks w))
    (ex_win (ex_win_log ++ ex_win_later)) = (true, 7, true, TernaryFalse, [2]) ∧
  DEPEnabled (ex_win ex_win_log) = TernaryTrue ∧
  ImageBase <$> (LoadedModules (ex_win (ex_win_log ++ ex_win_later)) !! "68617368"%string)
    = Some [0x2000; 0x1000] ∧
  elam_Measured <$> (ELAM (ex_win ex_win_log) !! runes "av") = Some (Some (str "m")).
Proof. vm_compute. done. Qed.

Lemma ParseWinEvents_sound_witness :
  Forall win_legal ex_win_log ∧ at_most_one 12 false ex_win_log ∧ at_most_one 13 false ex_win_log ∧
  ∃ blocks, Forall2 measures (win_tags false false ex_win_log) blocks ∧
    (∀ blocks', Forall2 measures (win_tags false false ex_win_log) blocks' → blocks' = blocks) ∧
    win_facts (log_sipa (win_tags false false ex_win_log) blocks) (ex_win ex_win_log).
Proof. apply (ParseWinEvents_sound ex_win_log). vm_compute. reflexivity. Defined.

Lemma ParseWinEvents_latches_witness :
  ∃ w, ParseWinEvents ex_win_log = Ok w ∧ win_le w (ex_win (ex_win_log ++ ex_win_later)).
Proof. apply (ParseWinEvents_latches ex_win_log ex_win_later). vm_compute. reflexivity. Defined.
End Witnesses.
