(* ===== verification/Templates.v ===== *)
(** * Key templates ([attest/tpm.go], [attest/application_key.go], [templateFromConfig])

    The package-level templates are [tpm2.Public] structures that point to
    parameter structures.  Copying a template copies the pointer, so the
    parameters are shared by all copies and what one call stores in them the
    next call sees.  They live in a [heap]; a template is resolved to what is
    sent to the TPM when the command is issued. *)
From stdpp Require Import functions.
From S2P Require Import Prelude GoBytes GoCrypto Attest Tpm2.
From S2P Require Import Activation.
From S2P Require Import Certification.

(** ** Data *)
Definition ECDSA : string := "ECDSA".
Definition RSA : string := "RSA".

Record ParentKeyConfig := mkParent { par_Algorithm : string; par_Handle : Z }.
Definition defaultParentConfig : ParentKeyConfig := mkParent RSA 0x81000001.

Record KeyConfig := mkKeyConfig {
  kc_Algorithm : string;
  kc_Size : Z;
  kc_Parent : option ParentKeyConfig;
}.
Definition defaultConfig : KeyConfig := mkKeyConfig ECDSA 256 None.

Record SymScheme := mkSym { sym_Alg : Z; sym_KeyBits : Z; sym_Mode : Z }.
Record ECPoint := mkPoint { XRaw : bytes; YRaw : bytes }.
Record RSATemplate := mkRSATemplate {
  rt_Symmetric : option SymScheme; rt_Sign : option SigScheme; rt_KeyBits : Z; rt_ModulusRaw : bytes;
}.
Record ECCTemplate := mkECCTemplate {
  et_Symmetric : option SymScheme; et_Sign : option SigScheme; et_CurveID : Z; et_Point : ECPoint;
}.

(** The parameter structures allocated by the package's [var] block. *)
Inductive rsa_object := ak_rsa | srk_rsa | ek_rsa | key_rsa.
Inductive ecc_object := srk_ecc | ek_ecc | key_ecc.
#[export] Instance rsa_object_eq_dec : EqDecision rsa_object.
Proof. solve_decision. Defined.
#[export] Instance ecc_object_eq_dec : EqDecision ecc_object.
Proof. solve_decision. Defined.

Record heap := mkHeap { rsa_at : rsa_object → RSATemplate; ecc_at : ecc_object → ECCTemplate }.

(** [tpm2.Public] as a template, pointing into the heap. *)
Record Template := mkTemplate {
  t_Type : Z;
  t_NameAlg : Z;
  t_Attributes : Z;
  t_AuthPolicy : bytes;
  t_RSAParameters : option rsa_object;
  t_ECCParameters : option ecc_object;
}.

(** What a command sends for it. *)
Record KeyTemplate := mkKeyTemplate {
  kt_Type : Z;
  kt_NameAlg : Z;
  kt_Attributes : Z;
  kt_AuthPolicy : bytes;
  kt_RSAParameters : option RSATemplate;
  kt_ECCParameters : option ECCTemplate;
}.
Definition resolve (h : heap) (t : Template) : KeyTemplate :=
  mkKeyTemplate (t_Type t) (t_NameAlg t) (t_Attributes t) (t_AuthPolicy t)
    (rsa_at h <$> t_RSAParameters t) (ecc_at h <$> t_ECCParameters t).

(** [tpm2.FlagSignerDefault], [tpm2.FlagStorageDefault] *)
Definition FlagSignerDefault : Z :=
  foldr Z.lor 0 [tpm2.FlagSign; tpm2.FlagRestricted; tpm2.FlagFixedTPM; tpm2.FlagFixedParent;
                 tpm2.FlagSensitiveDataOrigin; tpm2.FlagUserWithAuth].
Definition FlagStorageDefault : Z :=
  foldr Z.lor 0 [tpm2.FlagDecrypt; tpm2.FlagRestricted; tpm2.FlagFixedTPM; tpm2.FlagFixedParent;
                 tpm2.FlagSensitiveDataOrigin; tpm2.FlagUserWithAuth].
Definition FlagEK : Z :=
  foldr Z.lor 0 [tpm2.FlagFixedTPM; tpm2.FlagFixedParent; tpm2.FlagSensitiveDataOrigin;
                 tpm2.FlagAdminWithPolicy; tpm2.FlagRestricted; tpm2.FlagDecrypt].

Definition make_bytes (n : nat) : bytes := repeat Byte.x00 n.
Definition aes128cfb : SymScheme := mkSym tpm2.AlgAES 128 tpm2.AlgCFB.
(** [PolicySecret(TPM_RH_ENDORSEMENT)], as the EK profile gives it *)
Definition ekAuthPolicy : bytes := be_bytes 32
  0x837197674484B3F81A90CC8D46A5D724FD52D76E06520B64F2A1DA1B331469AA.

(** ** The templates of package attest *)
Definition akTemplate : Template :=
  mkTemplate tpm2.AlgRSA tpm2.AlgSHA256 (Z.lor FlagSignerDefault tpm2.FlagNoDA) [] (Some ak_rsa) None.
Definition defaultRSASRKTemplate : Template :=
  mkTemplate tpm2.AlgRSA tpm2.AlgSHA256 (Z.lor FlagStorageDefault tpm2.FlagNoDA) [] (Some srk_rsa) None.
Definition defaultECCSRKTemplate : Template :=
  mkTemplate tpm2.AlgECC tpm2.AlgSHA256 (Z.lor FlagStorageDefault tpm2.FlagNoDA) [] None (Some srk_ecc).
Definition defaultRSAEKTemplate : Template :=
  mkTemplate tpm2.AlgRSA tpm2.AlgSHA256 FlagEK ekAuthPolicy (Some ek_rsa) None.
Definition defaultECCEKTemplate : Template :=
  mkTemplate tpm2.AlgECC tpm2.AlgSHA256 FlagEK ekAuthPolicy None (Some ek_ecc).
Definition ecdsaKeyTemplate : Template :=
  mkTemplate tpm2.AlgECC 0 (Z.lxor FlagSignerDefault tpm2.FlagRestricted) [] None (Some key_ecc).
Definition rsaKeyTemplate : Template :=
  mkTemplate tpm2.AlgRSA tpm2.AlgSHA256 (Z.lxor FlagSignerDefault tpm2.FlagRestricted) []
    (Some key_rsa) None.

(** The parameters they point to, when the program starts. *)
Definition init_rsa (o : rsa_object) : RSATemplate :=
  match o with
  | ak_rsa => mkRSATemplate None (Some (mkScheme tpm2.AlgRSASSA tpm2.AlgSHA256)) 2048 []
  | srk_rsa | ek_rsa => mkRSATemplate (Some aes128cfb) None 2048 (make_bytes 256)
  | key_rsa => mkRSATemplate None None 0 []
  end.
Definition init_ecc (o : ecc_object) : ECCTemplate :=
  match o with
  | srk_ecc | ek_ecc =>
      mkECCTemplate (Some aes128cfb) None tpm2.CurveNISTP256 (mkPoint (make_bytes 32) (make_bytes 32))
  | key_ecc => mkECCTemplate None (Some (mkScheme tpm2.AlgECDSA 0)) 0 (mkPoint [] [])
  end.
Definition init_heap : heap := mkHeap init_rsa init_ecc.

(** Assignments through the pointers. *)
Definition set_rsa (o : rsa_object) (f : RSATemplate → RSATemplate) (h : heap) : heap :=
  mkHeap (<[o := f (rsa_at h o)]> (rsa_at h)) (ecc_at h).
Definition set_ecc (o : ecc_object) (f : ECCTemplate → ECCTemplate) (h : heap) : heap :=
  mkHeap (rsa_at h) (<[o := f (ecc_at h o)]> (ecc_at h)).

Definition set_KeyBits (bits : Z) (p : RSATemplate) : RSATemplate :=
  mkRSATemplate (rt_Symmetric p) (rt_Sign p) bits (rt_ModulusRaw p).
(** The three assignments of the ECDSA branches ([Sign.Hash], [CurveID], [Point]). *)
Definition set_curve (hash curve : Z) (n : nat) (p : ECCTemplate) : ECCTemplate :=
  mkECCTemplate (et_Symmetric p)
    ((λ s, mkScheme (scheme_Alg s) hash) <$> et_Sign p) curve
    (mkPoint (make_bytes n) (make_bytes n)).
(** [copy(dst, src)] *)
Definition copy_bytes (dst src : bytes) : bytes :=
  take (length dst) src ++ drop (length src) dst.
Definition set_ModulusRaw (nonce : bytes) (p : RSATemplate) : RSATemplate :=
  mkRSATemplate (rt_Symmetric p) (rt_Sign p) (rt_KeyBits p) (copy_bytes (rt_ModulusRaw p) nonce).
Definition set_XRaw (nonce : bytes) (p : ECCTemplate) : ECCTemplate :=
  mkECCTemplate (et_Symmetric p) (et_Sign p) (et_CurveID p)
    (mkPoint (copy_bytes (XRaw (et_Point p)) nonce) (YRaw (et_Point p))).

Definition with_NameAlg (t : Template) (alg : Z) : Template :=
  mkTemplate (t_Type t) alg (t_Attributes t) (t_AuthPolicy t) (t_RSAParameters t) (t_ECCParameters t).

(** ** [templateFromConfig] *)

(** One branch of [switch opts.Size]. *)
Definition ecdsa_template (alg curve : Z) (n : nat) : M heap Template :=
  _ ← modify (set_ecc key_ecc (set_curve alg curve n));
  mret (with_NameAlg ecdsaKeyTemplate alg).

Definition templateFromConfig (opts : option KeyConfig) : M heap Template :=
  opts ← lift_res (deref opts);
  if bool_decide (kc_Algorithm opts = RSA) then
    _ ← reject_if ((kc_Size opts <? 0) || (65535 <? kc_Size opts)) (Errorf "incorrect size parameter");
    _ ← modify (set_rsa key_rsa (set_KeyBits (uint16 (kc_Size opts))));
    mret rsaKeyTemplate
  else if bool_decide (kc_Algorithm opts = ECDSA) then
    if kc_Size opts =? 256 then ecdsa_template tpm2.AlgSHA256 tpm2.CurveNISTP256 32
    else if kc_Size opts =? 384 then ecdsa_template tpm2.AlgSHA384 tpm2.CurveNISTP384 48
    else if kc_Size opts =? 521 then ecdsa_template tpm2.AlgSHA512 tpm2.CurveNISTP521 65
    else fail (Errorf "unsupported key size: %v")
  else fail (Errorf "unsupported algorithm type: %q").

(** ** What the heap can look like

    Whatever the calls made so far, the objects differ from their initial
    values at most in the fields the code assigns. *)
Record wf_heap (h : heap) : Prop := {
  wf_ak : rsa_at h ak_rsa = init_rsa ak_rsa;
  wf_srk : rsa_at h srk_rsa = init_rsa srk_rsa;
  wf_ek : ∃ m, length m = 256%nat ∧ rsa_at h ek_rsa = mkRSATemplate (Some aes128cfb) None 2048 m;
  wf_key : ∃ bits, rsa_at h key_rsa = set_KeyBits bits (init_rsa key_rsa);
  wf_srk_ecc : ecc_at h srk_ecc = init_ecc srk_ecc;
  wf_ek_ecc : ∃ x, length x = 32%nat ∧ ecc_at h ek_ecc =
    mkECCTemplate (Some aes128cfb) None tpm2.CurveNISTP256 (mkPoint x (make_bytes 32));
  wf_key_ecc : et_Symmetric (ecc_at h key_ecc) = None ∧
    ∃ hash, et_Sign (ecc_at h key_ecc) = Some (mkScheme tpm2.AlgECDSA hash);
}.

Lemma rsa_at_set o o' f h :
  rsa_at (set_rsa o f h) o' = if decide (o = o') then f (rsa_at h o) else rsa_at h o'.
Proof.
  cbn. unfold insert, fn_insert. by destruct (decide (o = o')) as [->|].
Qed.
Lemma ecc_at_set o o' f h :
  ecc_at (set_ecc o f h) o' = if decide (o = o') then f (ecc_at h o) else ecc_at h o'.
Proof.
  cbn. unfold insert, fn_insert. by destruct (decide (o = o')) as [->|].
Qed.

Lemma copy_bytes_nil dst : copy_bytes dst [] = dst.
Proof. unfold copy_bytes. by rewrite take_nil. Qed.

Lemma length_copy_bytes dst src : length (copy_bytes dst src) = length dst.
Proof. unfold copy_bytes. rewrite length_app, length_take, length_drop. lia. Qed.

Lemma wf_init_heap : wf_heap init_heap.
Proof.
  constructor; try reflexivity; cbn.
  - by exists (make_bytes 256).
  - by exists 0.
  - by exists (make_bytes 32).
  - split; [done|]. by exists 0.
Qed.

Ltac heap_cases :=
  repeat match goal with
  | |- context [decide (?o = ?o')] => rewrite (decide_False (P := o = o')) by discriminate
  | |- context [decide (?o = ?o)] => rewrite (decide_True (P := o = o)) by reflexivity
  end.

Lemma wf_set_KeyBits h bits : wf_heap h → wf_heap (set_rsa key_rsa (set_KeyBits bits) h).
Proof.
  intros []. constructor; rewrite ?rsa_at_set; heap_cases; try done.
  destruct wf_key0 as [b ->]. by exists bits.
Qed.

Lemma wf_set_curve h hash curve n : wf_heap h → wf_heap (set_ecc key_ecc (set_curve hash curve n) h).
Proof.
  intros []. constructor; rewrite ?ecc_at_set; heap_cases; try done.
  destruct wf_key_ecc0 as (Hs & a & Ha). split; [done|]. cbn. rewrite Ha. by exists hash.
Qed.

Lemma wf_set_ModulusRaw h nonce : wf_heap h → wf_heap (set_rsa ek_rsa (set_ModulusRaw nonce) h).
Proof.
  intros []. constructor; rewrite ?rsa_at_set; heap_cases; try done.
  destruct wf_ek0 as (m & Hm & ->). exists (copy_bytes m nonce). by rewrite length_copy_bytes.
Qed.

Lemma wf_set_XRaw h nonce : wf_heap h → wf_heap (set_ecc ek_ecc (set_XRaw nonce) h).
Proof.
  intros []. constructor; rewrite ?ecc_at_set; heap_cases; try done.
  destruct wf_ek_ecc0 as (x & Hx & ->). exists (copy_bytes x nonce). by rewrite length_copy_bytes.
Qed.

(** ** Which key each configuration asks for *)
Definition key_attributes : Z := Z.lxor FlagSignerDefault tpm2.FlagRestricted.

Definition ecdsa_key (alg curve : Z) (n : nat) : KeyTemplate :=
  mkKeyTemplate tpm2.AlgECC alg key_attributes [] None
    (Some (mkECCTemplate None (Some (mkScheme tpm2.AlgECDSA alg)) curve
             (mkPoint (make_bytes n) (make_bytes n)))).
Definition rsa_key (bits : Z) : KeyTemplate :=
  mkKeyTemplate tpm2.AlgRSA tpm2.AlgSHA256 key_attributes [] (Some (mkRSATemplate None None bits [])) None.

Inductive requests : KeyConfig → KeyTemplate → Prop :=
| requests_rsa size parent : 0 ≤ size ≤ 65535 →
    requests (mkKeyConfig RSA size parent) (rsa_key size)
| requests_p256 parent :
    requests (mkKeyConfig ECDSA 256 parent) (ecdsa_key tpm2.AlgSHA256 tpm2.CurveNISTP256 32)
| requests_p384 parent :
    requests (mkKeyConfig ECDSA 384 parent) (ecdsa_key tpm2.AlgSHA384 tpm2.CurveNISTP384 48)
| requests_p521 parent :
    requests (mkKeyConfig ECDSA 521 parent) (ecdsa_key tpm2.AlgSHA512 tpm2.CurveNISTP521 65).

(** The checks that [CertificationParameters.Verify] makes of the attributes of a key. *)
Definition certifiable (attributes : Z) : Prop :=
  lacks attributes tpm2.FlagFixedTPM = false ∧ lacks attributes tpm2.FlagRestricted = true ∧
  lacks attributes tpm2.FlagFixedParent = false ∧
  lacks attributes tpm2.FlagSensitiveDataOrigin = false.

Lemma ecdsa_template_run h alg curve n :
  wf_heap h → ∃ t h', ecdsa_template alg curve n h = (Ok t, h') ∧ wf_heap h' ∧
    resolve h' t = ecdsa_key alg curve n.
Proof.
  intros Hw. eexists _, _. split; [reflexivity|]. split; [by apply wf_set_curve|].
  unfold resolve, ecdsa_key. cbn [t_Type t_NameAlg t_Attributes t_AuthPolicy t_RSAParameters
    t_ECCParameters with_NameAlg ecdsaKeyTemplate fmap option_fmap option_map].
  rewrite ecc_at_set. heap_cases. destruct (wf_key_ecc _ Hw) as (Hs & a & Ha).
  unfold set_curve. by rewrite Hs, Ha.
Qed.

(** What a call does: the requested template, or an error and no assignment. *)
Definition template_result (opts : KeyConfig) (h : heap) (r : res error Template * heap) : Prop :=
  match r with
  | (Ok t, h') => requests opts (resolve h' t) ∧ wf_heap h'
  | (Err _, h') => (∀ kt, ¬ requests opts kt) ∧ h' = h
  | _ => False
  end.

Lemma ecdsa_template_result opts h alg curve n :
  wf_heap h → requests opts (ecdsa_key alg curve n) →
  template_result opts h (ecdsa_template alg curve n h).
Proof.
  intros Hw Hr. destruct (ecdsa_template_run h alg curve n Hw) as (t & h' & -> & Hw' & E).
  cbn. by rewrite E.
Qed.

Lemma templateFromConfig_result opts h :
  wf_heap h → template_result opts h (templateFromConfig (Some opts) h).
Proof.
  intros Hw. unfold templateFromConfig. destruct opts as [alg size parent].
  erewrite bind_Ok by reflexivity. cbn [kc_Algorithm kc_Size].
  case_bool_decide as Ha; [subst alg|case_bool_decide as Hb; [subst alg|]].
  - destruct ((size <? 0) || (65535 <? size)) eqn:E.
    + split; [|done]. intros kt Hr. inversion Hr; subst; lia.
    + assert (0 ≤ size ≤ 65535) as Hs by lia. cbn -[uint16 set_rsa resolve].
      split; [|by apply wf_set_KeyBits]. unfold resolve.
      cbn [t_Type t_NameAlg t_Attributes t_AuthPolicy t_RSAParameters t_ECCParameters rsaKeyTemplate
        fmap option_fmap option_map]. rewrite rsa_at_set. heap_cases.
      destruct (wf_key _ Hw) as [b ->]. unfold set_KeyBits, uint16. rewrite Z.mod_small by lia.
      by apply requests_rsa.
  - destruct (Z.eqb_spec size 256) as [->|]; [by apply ecdsa_template_result; [|constructor]|].
    destruct (Z.eqb_spec size 384) as [->|]; [by apply ecdsa_template_result; [|constructor]|].
    destruct (Z.eqb_spec size 521) as [->|]; [by apply ecdsa_template_result; [|constructor]|].
    split; [|done]. intros kt Hr. inversion Hr; subst; congruence.
  - split; [|done]. intros kt Hr. inversion Hr; subst; congruence.
Qed.

(** ** Theorems *)

(** Whatever earlier calls left in the shared parameter structures,
    [templateFromConfig] accepts exactly RSA sizes that fit 16 bits and the
    three NIST curves, the template it returns resolves to the key requested
    (with no trace of earlier calls), the structures stay well formed, and an
    error assigns nothing; the keys requested have the attributes that
    [CertificationParameters.Verify] demands. *)
Theorem templateFromConfig_iff opts h :
  wf_heap h →
  match templateFromConfig (Some opts) h with
  | (Ok t, h') => requests opts (resolve h' t) ∧ wf_heap h' ∧ certifiable (t_Attributes t)
  | (Err _, h') => (∀ kt, ¬ requests opts kt) ∧ h' = h
  | _ => False
  end.
Proof.
  intros Hw. pose proof (templateFromConfig_result opts h Hw) as Hr.
  destruct (templateFromConfig (Some opts) h) as [[t|e| |] h']; [|done..].
  destruct Hr as [Hr ?]. split_and!; [done..|].
  assert (t_Attributes t = key_attributes) as ->; [|done].
  replace (t_Attributes t) with (kt_Attributes (resolve h' t)) by done. by destruct Hr.
Qed.

Lemma templateFromConfig_iff_witness :
  let h := set_ecc key_ecc (set_curve tpm2.AlgSHA512 tpm2.CurveNISTP521 65) init_heap in
  ∃ t h', templateFromConfig (Some (mkKeyConfig ECDSA 256 None)) h = (Ok t, h') ∧
    requests (mkKeyConfig ECDSA 256 None) (resolve h' t).
Proof.
  cbn zeta. pose proof (templateFromConfig_iff (mkKeyConfig ECDSA 256 None)
    (set_ecc key_ecc (set_curve tpm2.AlgSHA512 tpm2.CurveNISTP521 65) init_heap)
    (wf_set_curve _ _ _ _ wf_init_heap)) as H.
  eexists _, _. split; [reflexivity|]. apply H.
Defined.
