(* ===== verification/Channel.v ===== *)
(** * The TPM 2.0 command channel and its handles

    The commands of [go-tpm/legacy/tpm2] the code issues over the channel are
    the operations of [TPM2Channel], on a device state that is left abstract.
    [TPM2Handles] states which of them create or flush a transient object or
    session; [balanced] and its composition lemmas account for them in the
    code.  [sim] is a small simulated device, for concrete evaluations. *)
From S2P Require Import Prelude GoBytes GoCrypto Attest Tpm2.
From S2P Require Import Templates.

(** ** Commands *)
Record CreatedKey := mkCreated {
  ck_blob : bytes; ck_pub : bytes; ck_creationData : bytes; ck_creationHash : bytes;
  ck_ticket : bytes;
}.

(** The dynamic type of an entry of a capability list. *)
Inductive Capability := TaggedProperty (value : Z) | OtherCapability.

Class TPM2Channel (D : Type) := {
  tpm2_ReadPublic : Z → M D Public;
  tpm2_CreatePrimary : Z → KeyTemplate → M D Z;
  tpm2_EvictControl : Z → Z → Z → M D ();
  tpm2_FlushContext : Z → M D ();
  tpm2_CreateKey : Z → KeyTemplate → M D CreatedKey;
  tpm2_Load : Z → bytes → bytes → M D Z;
  tpm2_CertifyCreation : Z → Z → bytes → SigScheme → bytes → M D (bytes * bytes);
  tpm2_CertifyEx : Z → Z → SigScheme → M D (bytes * bytes);
  (** an unbound policy session with SHA-256 *)
  tpm2_StartAuthSession : M D Z;
  tpm2_PolicySecret : Z → Z → M D ();
  tpm2_ActivateCredentialUsingAuth : Z → Z → Z → bytes → bytes → M D bytes;
  tpm2_Quote : Z → bytes → PCRSelection → M D (bytes * Signature);
  tpm2_ReadPCRs : PCRSelection → M D (gmap Z bytes);
  tpm2_NVReadEx : Z → Z → M D bytes;
  tpm2_Sign : Z → bytes → option SigScheme → M D Signature;
  (** the property [p] of [CapabilityTPMProperties] *)
  tpm2_GetCapability : Z → M D (list Capability);
  rwc_MeasurementLog : M D bytes;
  rwc_Close : M D ();
  (** [Public.Encode] and [tpmutil.Pack(alg, hash, signature)] *)
  Public_Encode : Public → res error bytes;
  Pack_signature : Z → Z → bytes → res error bytes;
}.

(** ** Handles *)
Section Handles.
Context {D : Type} (loaded : D → gset Z).

(** A command that creates no object and flushes none. *)
Definition keeps {A} (m : M D A) : Prop := ∀ d, loaded (m d).2 = loaded d.

(** A command that creates an object under a new handle, or fails. *)
Definition opens (m : M D Z) : Prop := ∀ d,
  match m d with
  | (Ok h, d') => h ∉ loaded d ∧ loaded d' = ({[h]} ∪ loaded d)
  | (_, d') => loaded d' = loaded d
  end.
End Handles.

Class TPM2Handles {D} `{TPM2Channel D} (loaded : D → gset Z) : Prop := {
  ReadPublic_keeps h : keeps loaded (tpm2_ReadPublic h);
  EvictControl_keeps o h p : keeps loaded (tpm2_EvictControl o h p);
  CreateKey_keeps p t : keeps loaded (tpm2_CreateKey p t);
  CertifyCreation_keeps o k h s t : keeps loaded (tpm2_CertifyCreation o k h s t);
  CertifyEx_keeps o k s : keeps loaded (tpm2_CertifyEx o k s);
  PolicySecret_keeps e s : keeps loaded (tpm2_PolicySecret e s);
  ActivateCredential_keeps s k e c x : keeps loaded (tpm2_ActivateCredentialUsingAuth s k e c x);
  Quote_keeps k n s : keeps loaded (tpm2_Quote k n s);
  ReadPCRs_keeps s : keeps loaded (tpm2_ReadPCRs s);
  NVReadEx_keeps i a : keeps loaded (tpm2_NVReadEx i a);
  Sign_keeps k d s : keeps loaded (tpm2_Sign k d s);
  GetCapability_keeps p : keeps loaded (tpm2_GetCapability p);
  MeasurementLog_keeps : keeps loaded rwc_MeasurementLog;
  CreatePrimary_opens h t : opens loaded (tpm2_CreatePrimary h t);
  Load_opens p b k : opens loaded (tpm2_Load p b k);
  StartAuthSession_opens : opens loaded tpm2_StartAuthSession;
  (** flushing a loaded handle removes it *)
  FlushContext_closes h d : h ∈ loaded d →
    loaded (tpm2_FlushContext h d).2 = loaded d ∖ {[h]};
}.

(** ** The state of a program with an open TPM 2.0

    [wrappedTPM20]: the cached EK templates and, through the channel, the
    device; with the package's heap. *)
Record world (D : Type) := mkWorld {
  w_heap : heap;
  w_rsaEkTemplate : option Template;
  w_eccEkTemplate : option Template;
  w_dev : D;
}.
Arguments mkWorld {D}.
Arguments w_heap {D}.
Arguments w_rsaEkTemplate {D}.
Arguments w_eccEkTemplate {D}.
Arguments w_dev {D}.

Section World.
Context {D : Type}.

Definition dev {A} (m : M D A) : M (world D) A := λ w,
  let '(r, d) := m (w_dev w) in
  (r, mkWorld (w_heap w) (w_rsaEkTemplate w) (w_eccEkTemplate w) d).

Definition on_heap {A} (m : M heap A) : M (world D) A := λ w,
  let '(r, h) := m (w_heap w) in
  (r, mkWorld h (w_rsaEkTemplate w) (w_eccEkTemplate w) (w_dev w)).

(** [x, err := m; if err == nil { f(x) } else { g(err) }] *)
Definition try {S A B} (m : M S A) (f : A → M S B) (g : error → M S B) : M S B := λ s,
  match m s with
  | (Ok a, s') => f a s'
  | (Err e, s') => g e s'
  | (Panic p, s') => (Panic p, s')
  | (NoFuel, s') => (NoFuel, s')
  end.

Context `{TPM2Channel D}.

(** [defer tpm2.FlushContext(t.rwc, h)] before [m]: it runs on every outcome,
    its own error is dropped. *)
Definition defer_flush {A} (h : Z) (m : M (world D) A) : M (world D) A := λ w,
  let '(r, w') := m w in (r, (dev (tpm2_FlushContext h) w').2).

(** A body whose deferred function looks at the local variable [err]: the
    variable is part of the state. *)
Definition local : Type := world D * option error.

(** [x, err := m; if err != nil { return nil, fmt.Errorf(fmt, err) }] *)
Definition assign {A} (fmt : string) (m : M (world D) A) : M local A := λ s,
  match m s.1 with
  | (Ok a, w) => (Ok a, (w, None))
  | (Err e, w) => (Err (Wrapf fmt e), (w, Some e))
  | (Panic p, w) => (Panic p, (w, s.2))
  | (NoFuel, w) => (NoFuel, (w, s.2))
  end.

(** [defer func() { if err != nil { tpm2.FlushContext(t.rwc, h) } }()] *)
Definition defer_flush_if_err {A} (h : Z) (m : M local A) : M (world D) A := λ w,
  let '(r, s) := m (w, None) in
  match s.2 with
  | Some _ => (r, (dev (tpm2_FlushContext h) s.1).2)
  | None => (r, s.1)
  end.

(** ** Accounting *)
Lemma open_then_flush (h : Z) (X : gset Z) : h ∉ X → ({[h]} ∪ X) ∖ {[h]} = X.
Proof. set_solver. Qed.

Section Accounting.
Context (loaded : D → gset Z) `{!TPM2Handles loaded}.

Definition open_handles (w : world D) : gset Z := loaded (w_dev w).

(** No handle is left behind and none is lost. *)
Definition balanced {A} (m : M (world D) A) : Prop := ∀ w, open_handles (m w).2 = open_handles w.

(** A run that opens exactly one handle when it succeeds. *)
Definition opened {A} (handle : A → Z) (w : world D) (out : res error A * world D) : Prop :=
  match out with
  | (Ok a, w') => handle a ∉ open_handles w ∧ open_handles w' = ({[handle a]} ∪ open_handles w)
  | (_, w') => open_handles w' = open_handles w
  end.
Definition opens_one {A} (handle : A → Z) (m : M (world D) A) : Prop := ∀ w, opened handle w (m w).

Lemma balanced_dev {A} (m : M D A) : keeps loaded m → balanced (dev m).
Proof. intros Hm w. unfold dev, open_handles. specialize (Hm (w_dev w)). by destruct (m (w_dev w)). Qed.

Lemma balanced_heap {A} (m : M heap A) : balanced (on_heap m).
Proof. intros w. unfold on_heap. by destruct (m (w_heap w)). Qed.

Lemma balanced_ret {A} (a : A) : balanced (mret a).
Proof. done. Qed.
Lemma balanced_fail {A} e : balanced (@fail _ A e).
Proof. done. Qed.
Lemma balanced_panic {A} e : balanced (@panic _ A e).
Proof. done. Qed.
Lemma balanced_lift {A} (r : res error A) : balanced (lift_res r).
Proof. done. Qed.
Lemma balanced_reject c e : balanced (reject_if c e).
Proof. by destruct c. Qed.
Lemma balanced_gets {A} (f : world D → A) : balanced (gets f).
Proof. done. Qed.

Lemma balanced_bind {A B} (m : M (world D) A) (f : A → M (world D) B) :
  balanced m → (∀ a, balanced (f a)) → balanced (m ≫= f).
Proof.
  intros Hm Hf w. specialize (Hm w). unfold mbind, M_bind.
  destruct (m w) as [[a| | |] w']; [|done..]. by rewrite (Hf a).
Qed.

Lemma balanced_wrap {A} fmt (m : M (world D) A) : balanced m → balanced (wrapM fmt m).
Proof. intros Hm w. specialize (Hm w). unfold wrapM. by destruct (m w). Qed.

Lemma balanced_try {A B} (m : M (world D) A) (f : A → M (world D) B) g :
  balanced m → (∀ a, balanced (f a)) → (∀ e, balanced (g e)) → balanced (try m f g).
Proof.
  intros Hm Hf Hg w. specialize (Hm w). unfold try.
  destruct (m w) as [[a|e| |] w']; [|..|done|done]; [by rewrite (Hf a)|by rewrite (Hg e)].
Qed.

Lemma opens_dev (m : M D Z) : opens loaded m → opens_one id (dev m).
Proof.
  intros Hm w. specialize (Hm (w_dev w)). unfold dev, opened, open_handles.
  by destruct (m (w_dev w)) as [[] ?].
Qed.

Lemma opens_wrap {A} (handle : A → Z) fmt (m : M (world D) A) :
  opens_one handle m → opens_one handle (wrapM fmt m).
Proof. intros Hm w. specialize (Hm w). unfold wrapM. by destruct (m w) as [[] ?]. Qed.

Lemma opens_after {A B} (handle : B → Z) (m : M (world D) A) (f : A → M (world D) B) :
  balanced m → (∀ a, opens_one handle (f a)) → opens_one handle (m ≫= f).
Proof.
  intros Hm Hf w. specialize (Hm w). unfold mbind, M_bind.
  destruct (m w) as [[a| | |] w']; [|done..]. cbn in Hm. specialize (Hf a w').
  unfold opened in *. by rewrite Hm in Hf.
Qed.

(** Opening a handle and flushing it at the end. *)
Lemma balanced_flush {A} (m : M (world D) Z) (f : Z → M (world D) A) :
  opens_one id m → (∀ h, balanced (f h)) → balanced (m ≫= λ h, defer_flush h (f h)).
Proof.
  intros Hm Hf w. specialize (Hm w). unfold mbind, M_bind.
  destruct (m w) as [[h| | |] w1]; [|done..]. destruct Hm as [Hn Hl]. unfold defer_flush.
  specialize (Hf h w1). destruct (f h w1) as [r w2]. cbn in Hf |- *.
  unfold dev, open_handles in *. pose proof (FlushContext_closes h (w_dev w2)) as Hc.
  destruct (tpm2_FlushContext h (w_dev w2)). cbn in *. rewrite Hf, Hl in Hc.
  rewrite Hc by (apply elem_of_union_l, elem_of_singleton_2; done). by apply open_then_flush.
Qed.

End Accounting.
End World.

Create HintDb handles discriminated.
#[export] Hint Resolve balanced_dev balanced_heap balanced_ret balanced_fail balanced_panic
  balanced_lift balanced_reject balanced_gets opens_dev : handles.
#[export] Hint Resolve ReadPublic_keeps EvictControl_keeps CreateKey_keeps CertifyCreation_keeps
  CertifyEx_keeps PolicySecret_keeps ActivateCredential_keeps Quote_keeps ReadPCRs_keeps
  NVReadEx_keeps Sign_keeps GetCapability_keeps MeasurementLog_keeps CreatePrimary_opens
  Load_opens StartAuthSession_opens : handles.

(** ** A simulated device

    Its state is the set of loaded handles; what it answers is given. *)
Record replies := mkReplies {
  rep_public : Z → res error Public;
  rep_created : CreatedKey;
  rep_certified : bytes * bytes;
  rep_activated : bytes;
  rep_quote : bytes → PCRSelection → res error (bytes * Signature);
  rep_pcrs : PCRSelection → gmap Z bytes;
  rep_nv : Z → res error bytes;
  rep_signature : bytes → Signature;
  rep_property : Z → list Capability;
  rep_log : bytes;
}.

Definition sim_open : M (gset Z) Z := λ live, (Ok (fresh live), {[fresh live]} ∪ live).

Definition sim (r : replies) : TPM2Channel (gset Z) := {|
  tpm2_ReadPublic h := lift_res (rep_public r h);
  tpm2_CreatePrimary _ _ := sim_open;
  tpm2_EvictControl _ _ _ := mret tt;
  tpm2_FlushContext h := modify (λ live, live ∖ {[h]});
  tpm2_CreateKey _ _ := mret (rep_created r);
  tpm2_Load _ _ _ := sim_open;
  tpm2_CertifyCreation _ _ _ _ _ := mret (rep_certified r);
  tpm2_CertifyEx _ _ _ := mret (rep_certified r);
  tpm2_StartAuthSession := sim_open;
  tpm2_PolicySecret _ _ := mret tt;
  tpm2_ActivateCredentialUsingAuth _ _ _ _ _ := mret (rep_activated r);
  tpm2_Quote _ nonce sel := lift_res (rep_quote r nonce sel);
  tpm2_ReadPCRs sel := mret (rep_pcrs r sel);
  tpm2_NVReadEx i _ := lift_res (rep_nv r i);
  tpm2_Sign _ digest _ := mret (rep_signature r digest);
  tpm2_GetCapability p := mret (rep_property r p);
  rwc_MeasurementLog := mret (rep_log r);
  rwc_Close := mret tt;
  Public_Encode p := Ok (be_bytes 4 (pub_Type p));
  Pack_signature alg hash sig := Ok (be_bytes 2 alg ++ be_bytes 2 hash ++ sig);
|}.

Lemma sim_handles r : @TPM2Handles _ (sim r) id.
Proof.
  assert (opens id sim_open) as Ho by (intros live; split; [apply is_fresh|done]).
  constructor; try done.
Qed.
