(* ===== verification/EKCert.v ===== *)
(** * Endorsement keys and certificates ([attest/tpm.go], [attest/vendors.go])

    The vendor properties of a TPM, the unwrapping of certificates read from
    NVRAM ([ParseEKCertificate]) and the address at which Intel serves the
    certificate of a key. *)
From S2P Require Import Prelude GoBytes GoCrypto Attest Tpm2.
From S2P Require Import Channel.

(** ** crypto/x509 and the DER envelope, as far as [ParseEKCertificate] goes *)
Class X509 := {
  Certificate : Type;
  x509_ParseCertificate : bytes → res error Certificate;
  cert_PublicKey : Certificate → PublicKey;
  (** [asn1.UnmarshalWithParams(b, &cert, "lax")]: the first DER value of [b] *)
  asn1_first : bytes → res error bytes;
}.

(** Parsing returns. *)
Class X509Laws `{X509} : Prop := {
  ParseCertificate_returns b : no_crash (x509_ParseCertificate b);
  asn1_first_returns b : no_crash (asn1_first b);
}.

(** ** Constants *)
Definition tpmPtManufacturer : Z := 0x00000100 + 5.
Definition tpmPtVendorString : Z := 0x00000100 + 6.
Definition tpmPtFwVersion1 : Z := 0x00000100 + 11.
Definition nvramRSACertIndex : Z := 0x1c00002.
Definition nvramRSAEkNonceIndex : Z := 0x1c00003.
Definition nvramECCCertIndex : Z := 0x1c0000a.
Definition nvramECCEkNonceIndex : Z := 0x1c0000b.
Definition commonRSAEkEquivalentHandle : Z := 0x81010001.
Definition commonECCEkEquivalentHandle : Z := 0x81010002.

(** ** Vendors *)
Definition vendors : list (Z * string) :=
  [(1095582720, "AMD"%string); (1096043852, "Atmel"%string); (1112687437, "Broadcom"%string);
   (1229081856, "IBM"%string); (1213220096, "HPE"%string); (1297303124, "Microsoft"%string);
   (1229346816, "Infineon"%string); (1229870147, "Intel"%string); (1279610368, "Lenovo"%string);
   (1314082080, "National Semiconductor"%string); (1314150912, "Nationz"%string);
   (1314145024, "Nuvoton Technology"%string); (1363365709, "Qualcomm"%string);
   (1397576515, "SMSC"%string); (1398033696, "ST Microelectronics"%string);
   (1397576526, "Samsung"%string); (1397641984, "Sinosun"%string);
   (1415073280, "Texas Instruments"%string); (1464156928, "Winbond"%string);
   (1380926275, "Fuzhou Rockchip"%string); (1196379975, "Google"%string)].
Definition TCGVendorID_String (id : Z) : string := default ""%string (assoc id vendors).

(** ** Vendor properties *)
Record tpm20Info := mkInfo { ti_vendor : bytes; ti_manufacturer : Z; ti_fwMajor : Z; ti_fwMinor : Z }.

(** [strings.Trim(s, "\x00")] *)
Fixpoint trim_left (b : bytes) : bytes :=
  match b with
  | x :: r => if bool_decide (x = Byte.x00) then trim_left r else b
  | [] => []
  end.
Definition Trim (b : bytes) : bytes := reverse (trim_left (reverse (trim_left b))).

Section Info.
Context {D : Type} `{TPM2Channel D}.

(** [caps, _, err := tpm2.GetCapability(...)] and [caps[0].(tpm2.TaggedProperty)] *)
Definition tagged_property (fmt : string) (property : Z) : M D Z :=
  caps ← wrapM fmt (tpm2_GetCapability property);
  match caps with
  | [] => panic "index out of range"
  | TaggedProperty value :: _ => mret value
  | OtherCapability :: _ => fail (Errorf "got capability of type %T, want tpm2.TaggedProperty")
  end.

(** [for i := 0; i < 4; i++] *)
Fixpoint vendor_string (n : nat) (i : Z) (vendorInfo : bytes) : M D bytes :=
  match n with
  | O => mret vendorInfo
  | Datatypes.S n =>
      value ← tagged_property "tpm2.GetCapability(PT_VENDOR_STRING_%d) failed: %v" (tpmPtVendorString + i);
      vendor_string n (i + 1) (vendorInfo ++ be_bytes 4 value)
  end.

Definition readTPM2VendorAttributes : M D tpm20Info :=
  vendorInfo ← vendor_string 4 0 [];
  manu ← tagged_property "tpm2.GetCapability(PT_MANUFACTURER) failed: %v" tpmPtManufacturer;
  fw ← tagged_property "tpm2.GetCapability(PT_FIRMWARE_VERSION_1) failed: %v" tpmPtFwVersion1;
  mret (mkInfo (Trim vendorInfo) manu (Z.shiftr (Z.land fw 0xffff0000) 16) (Z.land fw 0x0000ffff)).
End Info.

(** ** [ParseEKCertificate] *)

(** [b[lo:hi]] *)
Definition slice (b : bytes) (lo hi : Z) : res error bytes :=
  if (0 <=? lo) && (lo <=? hi) && (hi <=? zlen b)
  then Ok (take (Z.to_nat (hi - lo)) (drop (Z.to_nat lo) b))
  else Panic "slice bounds out of range".

Section Certificates.
Context `{X509}.

(** The NVRAM header: tag, type and length in front of the certificate. *)
Definition unwrap (ekCert : bytes) : res error bytes :=
  if 5 <? zlen ekCert then
    prefix ← slice ekCert 0 3;
    if bool_decide (prefix = [Byte.x10; Byte.x01; Byte.x00]) then
      len ← slice ekCert 3 5;
      let certLen := be_uint len in
      _ ← reject (zlen ekCert <? certLen + 5)
            (Errorf "parsing nvram header: ekCert size %d smaller than specified cert length %d");
      slice ekCert 5 (5 + certLen)
    else Ok ekCert
  else Ok ekCert.

(** The certificate as it is or, failing that, its first DER value. *)
Definition parse_certificate (ekCert : bytes) : res error Certificate :=
  match x509_ParseCertificate ekCert with
  | Err _ =>
      raw ← wrapf "asn1.Unmarshal() failed: %v, wasWrapped=%v" (asn1_first ekCert);
      wrapf "x509.ParseCertificate() failed: %v" (x509_ParseCertificate raw)
  | r => r
  end.

Definition ParseEKCertificate (ekCert : bytes) : res error Certificate :=
  ekCert ← unwrap ekCert;
  parse_certificate ekCert.

Definition readEKCertFromNVRAM20 {D} `{TPM2Channel D} (nvramCertIndex : Z) : M D Certificate :=
  ekCert ← wrapM "reading EK cert: %v" (tpm2_NVReadEx nvramCertIndex nvramCertIndex);
  lift_res (ParseEKCertificate ekCert).
End Certificates.

(** ** [intelEKURL] *)

(** [big.Int.Bytes]: big endian without leading zeros. *)
Definition big_Bytes (x : Z) : bytes := be_bytes (Z.to_nat ((Z.log2 x + 8) / 8)) x.

Definition base64url_char (d : Z) : byte :=
  if d <? 26 then byte.of_Z (65 + d)
  else if d <? 52 then byte.of_Z (97 + (d - 26))
  else if d <? 62 then byte.of_Z (48 + (d - 52))
  else if d =? 62 then Byte.x2d else Byte.x5f.

(** [base64.URLEncoding.EncodeToString] *)
Fixpoint base64url (b : bytes) : bytes :=
  match b with
  | x :: y :: z :: r =>
      let v := be_uint [x; y; z] in
      base64url_char (v / 2 ^ 18) :: base64url_char (v / 2 ^ 12 mod 64)
        :: base64url_char (v / 2 ^ 6 mod 64) :: base64url_char (v mod 64) :: base64url r
  | [x; y] =>
      let v := be_uint [x; y] * 4 in
      [base64url_char (v / 2 ^ 12); base64url_char (v / 2 ^ 6 mod 64); base64url_char (v mod 64);
       Byte.x3d]
  | [x] =>
      let v := be_uint [x] * 16 in
      [base64url_char (v / 2 ^ 6); base64url_char (v mod 64); Byte.x3d; Byte.x3d]
  | [] => []
  end.

(** [url.QueryEscape] *)
Definition unreserved (c : Z) : bool :=
  (65 <=? c) && (c <=? 90) || (97 <=? c) && (c <=? 122) || (48 <=? c) && (c <=? 57)
  || (c =? 45) || (c =? 95) || (c =? 46) || (c =? 126).
Definition upper_hex (d : Z) : byte := byte.of_Z (if d <? 10 then 48 + d else 55 + d).
Definition QueryEscape (b : bytes) : bytes :=
  concat ((λ x, let c := byte.unsigned x in
     if unreserved c then [x]
     else if c =? 32 then [Byte.x2b]
     else [Byte.x25; upper_hex (c / 16); upper_hex (c mod 16)]) <$> b).

Definition manufacturerIntel : string := "Intel".
Definition intelEKCertServiceURL : bytes := str "https://ekop.intel.com/ekcertservice/".

Definition intelEKURL `{GoCrypto} (ekPub : rsa_PublicKey) : bytes :=
  intelEKCertServiceURL ++
  QueryEscape (base64url (sha256_Sum256 (big_Bytes (rsa_N ekPub) ++ [Byte.x01; Byte.x00; Byte.x01]))).

(** ** Facts *)

Lemma slice_app (a b c : bytes) lo hi :
  lo = zlen a → hi = zlen a + zlen b → slice (a ++ b ++ c) lo hi = Ok b.
Proof.
  intros -> ->. unfold slice. rewrite !zlen_app.
  pose proof (zlen_nonneg a). pose proof (zlen_nonneg b). pose proof (zlen_nonneg c).
  rewrite !(proj2 (Z.leb_le _ _)) by lia. cbn [andb]. f_equal.
  replace (zlen a + zlen b - zlen a) with (zlen b) by lia. unfold zlen.
  by rewrite !Nat2Z.id, drop_app_length, take_app_length.
Qed.

Lemma slice_in_bounds b lo hi :
  0 ≤ lo → lo ≤ hi → hi ≤ zlen b → ∃ s, slice b lo hi = Ok s ∧ zlen s = hi - lo.
Proof.
  intros H0 H1 H2. unfold slice. rewrite !(proj2 (Z.leb_le _ _)) by lia. cbn [andb].
  eexists. split; [done|]. unfold zlen in *. rewrite length_take, length_drop. lia.
Qed.

Lemma slice_prefix b n : 0 ≤ n → n ≤ zlen b → slice b 0 n = Ok (take (Z.to_nat n) b).
Proof.
  intros H0 Hn. unfold slice. rewrite !(proj2 (Z.leb_le _ _)) by lia. cbn [andb].
  by rewrite Z.sub_0_r, drop_0.
Qed.

(** What is stored in NVRAM for a certificate. *)
Definition nvram_header (n : Z) : bytes := [Byte.x10; Byte.x01; Byte.x00] ++ be_bytes 2 n.

(** [b] starts with the tag and type of such a header, and has a body. *)
Definition has_header (b : bytes) : Prop := 5 < zlen b ∧ take 3 b = [Byte.x10; Byte.x01; Byte.x00].

Lemma unwrap_no_header b : ¬ has_header b → unwrap b = Ok b.
Proof.
  intros Hn. unfold unwrap. destruct (Z.ltb_spec 5 (zlen b)) as [Hl|]; [|done].
  rewrite (slice_prefix b 3) by lia. cbn [mbind res_bind]. change (Z.to_nat 3) with 3%nat.
  case_bool_decide as E; [|done]. by destruct Hn.
Qed.

Lemma has_header_split b :
  has_header b → ∃ n body, 0 ≤ n < 2 ^ 16 ∧ b = nvram_header n ++ body ∧ 0 < zlen body.
Proof.
  intros [Hl Hp]. exists (be_uint (take 2 (drop 3 b))), (drop 5 b).
  assert (length (take 2 (drop 3 b)) = 2%nat) as Hlen.
  { unfold zlen in Hl. rewrite length_take, length_drop. lia. }
  pose proof (le_uint_bound (reverse (take 2 (drop 3 b)))) as Hb.
  unfold zlen in Hb. rewrite length_reverse, Hlen in Hb.
  split; [exact Hb|]. split.
  - unfold nvram_header. rewrite <- Hp. unfold be_bytes, be_uint.
    replace (le_split 2 _) with (reverse (take 2 (drop 3 b))).
    + rewrite reverse_involutive, <- app_assoc.
      rewrite <- (take_drop 3 b) at 1. f_equal.
      rewrite <- (take_drop 2 (drop 3 b)) at 1. by rewrite drop_drop.
    + symmetry. apply le_bytes_le_uint. by rewrite length_reverse.
  - unfold zlen in *. rewrite length_drop. lia.
Qed.

Lemma unwrap_header n body :
  0 ≤ n < 2 ^ 16 → 0 < zlen body →
  unwrap (nvram_header n ++ body) =
    if zlen body <? n
    then Err (Errorf "parsing nvram header: ekCert size %d smaller than specified cert length %d")
    else Ok (take (Z.to_nat n) body).
Proof.
  intros Hn Hb. unfold unwrap, nvram_header. rewrite <- app_assoc.
  assert (zlen (be_bytes 2 n) = 2) as H2 by (unfold zlen; by rewrite length_be_bytes).
  rewrite !zlen_app, H2. change (zlen [Byte.x10; Byte.x01; Byte.x00]) with 3.
  rewrite (proj2 (Z.ltb_lt _ _)) by lia.
  pose proof (slice_app [] [Byte.x10; Byte.x01; Byte.x00] (be_bytes 2 n ++ body) 0 3) as Hs.
  cbn [app] in Hs. cbn [app]. rewrite Hs by done. cbn [mbind res_bind].
  rewrite bool_decide_eq_true_2 by done.
  pose proof (slice_app [Byte.x10; Byte.x01; Byte.x00] (be_bytes 2 n) body 3 5) as Hs2.
  cbn [app] in Hs2. rewrite Hs2 by (rewrite ?H2; done). cbn [mbind res_bind].
  rewrite be_uint_be_bytes by done.
  replace (3 + (2 + zlen body) <? n + 5) with (zlen body <? n)
    by (destruct (Z.ltb_spec (zlen body) n), (Z.ltb_spec (3 + (2 + zlen body)) (n + 5)); lia || done).
  destruct (Z.ltb_spec (zlen body) n); [done|]. cbn [reject mbind res_bind].
  pose proof (slice_app ([Byte.x10; Byte.x01; Byte.x00] ++ be_bytes 2 n) (take (Z.to_nat n) body)
    (drop (Z.to_nat n) body) 5 (5 + n)) as Hs3.
  rewrite take_drop, <- app_assoc in Hs3. cbn [app] in Hs3. apply Hs3.
  - by rewrite !zlen_cons, H2.
  - rewrite !zlen_cons, H2. unfold zlen in *. rewrite length_take. lia.
Qed.

Section Theorems.
Context `{X509, !X509Laws}.

Lemma parse_certificate_returns b : no_crash (parse_certificate b).
Proof.
  unfold parse_certificate. pose proof (ParseCertificate_returns b).
  destruct (x509_ParseCertificate b); [done| |done..].
  apply no_crash_bind; [apply wrapf_no_crash, asn1_first_returns|].
  intros. apply wrapf_no_crash, ParseCertificate_returns.
Qed.

Lemma ParseEKCertificate_no_crash ekCert : no_crash (ParseEKCertificate ekCert).
Proof.
  unfold ParseEKCertificate. apply no_crash_bind; [|intros; apply parse_certificate_returns].
  destruct (decide (5 < zlen ekCert ∧ take 3 ekCert = [Byte.x10; Byte.x01; Byte.x00])) as [Hh|Hh].
  - destruct (has_header_split ekCert Hh) as (n & body & Hn & -> & Hb).
    rewrite unwrap_header by done. by destruct (zlen body <? n).
  - by rewrite unwrap_no_header.
Qed.

(** C35: [ParseEKCertificate] never slices out of bounds.  Input without the
    NVRAM header is parsed as it is (as a certificate or, failing that, its
    first DER value); with the header it is the announced number of bytes that
    is parsed, whatever follows them, and a length beyond the input is an
    error. *)
Theorem ParseEKCertificate_spec ekCert :
  no_crash (ParseEKCertificate ekCert) ∧
  (¬ has_header ekCert → ParseEKCertificate ekCert = parse_certificate ekCert) ∧
  (∀ n body, 0 ≤ n < 2 ^ 16 → ekCert = nvram_header n ++ body → 0 < zlen body →
    (n ≤ zlen body → ParseEKCertificate ekCert = parse_certificate (take (Z.to_nat n) body)) ∧
    (zlen body < n → ∃ e, ParseEKCertificate ekCert = Err e)).
Proof.
  split_and!; [apply ParseEKCertificate_no_crash|unfold ParseEKCertificate..].
  - intros Hn. by rewrite unwrap_no_header.
  - intros n body Hn -> Hb. rewrite unwrap_header by done. split; intros.
    + by rewrite (proj2 (Z.ltb_ge _ _)).
    + rewrite (proj2 (Z.ltb_lt _ _)) by done. by eexists.
Qed.
End Theorems.

Section Witnesses.
(** A parser for certificates that are the byte 0x30 and a length. *)
Definition ex_x509 : X509 := {|
  Certificate := bytes;
  x509_ParseCertificate b :=
    match b with
    | t :: l :: r => if (byte.unsigned t =? 0x30) && (byte.unsigned l =? zlen r)
                     then Ok r else Err (LibErr "malformed certificate")
    | _ => Err (LibErr "malformed certificate")
    end;
  cert_PublicKey c := PubRSA (mkRSA (be_uint c) 65537);
  asn1_first b :=
    match b with
    | t :: l :: r => Ok (t :: l :: take (Z.to_nat (byte.unsigned l)) r)
    | _ => Err (LibErr "syntax error")
    end;
|}.

Lemma ex_x509_laws : @X509Laws ex_x509.
Proof.
  constructor; intros b; cbn; destruct b as [|t [|l r]]; try done. by destruct (_ && _).
Qed.

(** A wrapped certificate with two bytes of garbage inside the wrapping and
    two after it. *)
Lemma ParseEKCertificate_spec_witness :
  let cert := [Byte.x30; Byte.x02; Byte.xaa; Byte.xbb] in
  @ParseEKCertificate ex_x509 (nvram_header 6 ++ cert ++ [Byte.x00; Byte.x00; Byte.xff; Byte.xff])
    = Ok [Byte.xaa; Byte.xbb].
Proof.
  cbn zeta.
  destruct (@ParseEKCertificate_spec ex_x509 ex_x509_laws
    (nvram_header 6 ++ [Byte.x30; Byte.x02; Byte.xaa; Byte.xbb; Byte.x00; Byte.x00; Byte.xff; Byte.xff]))
    as (_ & _ & Hh).
  destruct (Hh 6 _ ltac:(lia) eq_refl ltac:(done)) as [Hok _].
  cbn [app]. rewrite Hok by done. vm_compute. reflexivity.
Defined.
End Witnesses.
