(* ===== verification/Fuzz.v ===== *)
(** * The entry points for fuzzing ([attest/attest_fuzz.go],
    [attest/eventlog_fuzz.go])

    Each runs a parser that gets input from the outside and reports whether it
    accepted; what a fuzzer looks for, a crash, does not exist. *)
From S2P Require Import Prelude GoBytes GoCrypto GoRuntime Attest EventLog Tpm2 Quote.
From S2P Require Import EKCert.

(** [if err != nil { return 0 }; return 1] *)
Definition fuzz_result {A} (r : res error A) : res error Z := 
  match r with Ok _ => Ok 1 | Err _ => Ok 0 | Panic m => Panic m | NoFuel => NoFuel end.

Section Fuzz.
Context `{GoCrypto, GoTPM, X509}.

Definition FuzzParseAKPublic12 (data : bytes) : res error Z := fuzz_result (ParseAKPublic TPMVersion12 data).
Definition FuzzParseAKPublic20 (data : bytes) : res error Z := fuzz_result (ParseAKPublic TPMVersion20 data).
Definition FuzzParseEKCertificate (data : bytes) : res error Z := fuzz_result (ParseEKCertificate data).
Definition FuzzParseEventLog (data : bytes) : res error Z := fuzz_result (ParseEventLog data).

Lemma fuzz_result_spec {A} (r : res error A) :
  no_crash r → fuzz_result r = Ok (if r is Ok _ then 1 else 0).
Proof. by destruct r. Qed.

(** No input makes a parser that the package exposes to fuzzers panic or run
    on: public areas of either version, EK certificates and event logs are
    accepted or rejected with an error, whatever bytes they are. *)
Theorem fuzz_total `{!GoTPMLaws, !X509Laws} data :
  FuzzParseAKPublic12 data = Ok (if ParseAKPublic TPMVersion12 data is Ok _ then 1 else 0) ∧
  FuzzParseAKPublic20 data = Ok (if ParseAKPublic TPMVersion20 data is Ok _ then 1 else 0) ∧
  FuzzParseEKCertificate data = Ok (if ParseEKCertificate data is Ok _ then 1 else 0) ∧
  FuzzParseEventLog data = Ok (if ParseEventLog data is Ok _ then 1 else 0).
Proof.
  split_and!; apply fuzz_result_spec.
  - apply ParseAKPublic_returns.
  - apply ParseAKPublic_returns.
  - apply ParseEKCertificate_no_crash.
  - apply parsed_no_crash.
Qed.
End Fuzz.

Section Witnesses.
#[local] Existing Instance sha_crypto.
#[local] Existing Instance ex_x509.
#[local] Existing Instance ex_x509_laws.
#[local] Instance ex_fuzz_tpm : GoTPM :=
  fixed_tpm (mkPublic tpm2.AlgRSA tpm2.AlgSHA256 0
               (Some (mkRSAParams (Some (mkScheme 0x14 tpm2.AlgSHA256)) 2048 65537 (2 ^ 2047 + 1))) None)
    (mkAttestation 0 0 [] None None None) (mkSignature 0 None None) crypto_SHA256 (mkRawAttestation [] [] [] [])
    (mkRSA (2 ^ 2047 + 1) 65537) (λ _ _, true).
#[local] Instance ex_fuzz_laws : GoTPMLaws.
Proof. apply fixed_tpm_laws; [reflexivity|done|done|done|by eexists|done]. Qed.

(** 32 zero bytes are an event log and no EK certificate. *)
Lemma fuzz_total_witness :
  FuzzParseEventLog (repeat Byte.x00 32) = Ok 1 ∧ FuzzParseEKCertificate (repeat Byte.x00 32) = Ok 0.
Proof.
  destruct (fuzz_total (repeat Byte.x00 32)) as (_ & _ & Hc & Hl). rewrite Hc, Hl.
  split; vm_compute; reflexivity.
Defined.
End Witnesses.
