(* ===== verification/Wrapped20.v ===== *)
(** * The TPM 2.0 driver ([attest/wrapped_tpm20.go], with its helpers in
    [attest/tpm.go], [attest/storage.go] and [attest/certification.go])

    The operations of [wrappedTPM20] and [wrappedKey20], as programs over the
    command channel.  The receiver [t] is the state [world]. *)
From S2P Require Import Prelude GoBytes GoCrypto GoRuntime Attest Tpm2.
From S2P Require Import Activation.
From S2P Require Import Certification.
From S2P Require Import Templates.
From S2P Require Import Channel.
From S2P Require Import EKCert.

(** ** Data *)
Record EK `{X509} := mkEK {
  ek_Public : option PublicKey;
  ek_Certificate : option Certificate;
  ek_CertificateURL : bytes;
  ek_handle : Z;
}.
Record AKConfig := mkAKConfig { akc_Parent : option ParentKeyConfig }.

Record TPMInfo := mkTPMInfo {
  info_Version : Z;
  info_Interface : Z;
  info_VendorInfo : bytes;
  info_Manufacturer : Z;
  info_FirmwareVersionMajor : Z;
  info_FirmwareVersionMinor : Z;
}.

Record wrappedKey20 := mkWrapped {
  wk_hnd : Z;
  wk_blob : bytes;
  wk_public : bytes;
  wk_createData : bytes;
  wk_createAttestation : bytes;
  wk_createSignature : bytes;
}.
Definition newWrappedAK20 (hnd : Z) (blob public createData createAttestation createSig : bytes) :=
  mkWrapped hnd blob public createData createAttestation createSig.
Definition newWrappedKey20 (hnd : Z) (blob public createData createAttestation createSig : bytes) :=
  mkWrapped hnd blob public createData createAttestation createSig.

(** The dynamic types the type assertions distinguish: of an [ak], of a
    [tpmBase], of the handle given to [Certify]. *)
Inductive ak_impl := akWrapped20 (k : wrappedKey20) | akOther.
Inductive tpm_impl := tpmWrapped20 | tpmOther.
Inductive any_handle := tpmutil_Handle (h : Z) | uintptr_Handle (h : Z) | otherHandle.

(** [Key], always on the TPM that made it. *)
Record Key := mkKey { key_key : wrappedKey20; key_pub : PublicKey }.

(** ** Serialized keys *)
Definition keyEncodingInvalid : Z := 0.
Definition keyEncodingOSManaged : Z := 1.
Definition keyEncodingEncrypted : Z := 2.
Definition keyEncodingParameterized : Z := 3.

Record serializedKey := mkSerialized {
  sk_Encoding : Z;
  sk_TPMVersion : Z;
  sk_Public : bytes;
  sk_CreateData : bytes;
  sk_CreateAttestation : bytes;
  sk_CreateSignature : bytes;
  sk_Name : string;
  sk_Blob : bytes;
}.

(** encoding/json at this type, and what the signing operations use. *)
Class Encodings := {
  json_Marshal : serializedKey → res error bytes;
  json_Unmarshal : bytes → res error serializedKey;
  asn1_Marshal_RS : Z → Z → res error bytes;
  (** [curve.Params().N.BitLen()] *)
  curve_N_BitLen : Z → Z;
  tpm2_HashToAlgorithm : Z → res error Z;
}.

(** [json.Unmarshal] inverts [json.Marshal]. *)
Class EncodingsLaws `{Encodings} : Prop := {
  json_roundtrip k b : json_Marshal k = Ok b → json_Unmarshal b = Ok k;
}.

Definition deserializeKey `{Encodings} (b : bytes) (version : Z) : res error serializedKey :=
  k ← wrapf "json.Unmarshal() failed: %v" (json_Unmarshal b);
  _ ← reject (negb (sk_TPMVersion k =? version)) (Errorf "key for different TPM version: %v");
  Ok k.

Definition marshal `{Encodings} (k : wrappedKey20) : res error bytes :=
  json_Marshal (mkSerialized keyEncodingEncrypted TPMVersion20 (wk_public k) (wk_createData k)
    (wk_createAttestation k) (wk_createSignature k) "" (wk_blob k)).

(** ** Commands with a template: it is resolved when the command is sent *)
Section Driver.
Context {D : Type} `{TPM2Channel D, GoCrypto, GoTPM, GoRuntime, X509, Encodings}.

Definition CreatePrimary (hierarchy : Z) (t : Template) : M (world D) Z :=
  h ← gets w_heap; dev (tpm2_CreatePrimary hierarchy (resolve h t)).
Definition CreateKey (parent : Z) (t : Template) : M (world D) CreatedKey :=
  h ← gets w_heap; dev (tpm2_CreateKey parent (resolve h t)).

(** ** EK templates *)
Definition cache_rsaEk (t : Template) : M (world D) Template :=
  _ ← modify (λ w, mkWorld (w_heap w) (Some t) (w_eccEkTemplate w) (w_dev w));
  mret t.
Definition cache_eccEk (t : Template) : M (world D) Template :=
  _ ← modify (λ w, mkWorld (w_heap w) (w_rsaEkTemplate w) (Some t) (w_dev w));
  mret t.

Definition rsaEkTemplate : M (world D) Template :=
  cached ← gets w_rsaEkTemplate;
  match cached with
  | Some t => mret t
  | None =>
      try (dev (tpm2_NVReadEx nvramRSAEkNonceIndex tpm2.HandleOwner))
        (λ nonce,
           let template := defaultRSAEKTemplate in
           _ ← on_heap (modify (set_rsa ek_rsa (set_ModulusRaw nonce)));
           cache_rsaEk template)
        (λ _, cache_rsaEk defaultRSAEKTemplate)
  end.

Definition eccEkTemplate : M (world D) Template :=
  cached ← gets w_eccEkTemplate;
  match cached with
  | Some t => mret t
  | None =>
      try (dev (tpm2_NVReadEx nvramECCEkNonceIndex tpm2.HandleOwner))
        (λ nonce,
           let template := defaultECCEKTemplate in
           _ ← on_heap (modify (set_ecc ek_ecc (set_XRaw nonce)));
           cache_eccEk template)
        (λ _, cache_eccEk defaultECCEKTemplate)
  end.

Definition info (interf : Z) : M (world D) TPMInfo :=
  t2Info ← dev readTPM2VendorAttributes;
  mret (mkTPMInfo TPMVersion20 interf (ti_vendor t2Info) (ti_manufacturer t2Info)
          (ti_fwMajor t2Info) (ti_fwMinor t2Info)).

(** ** Persistent handles *)

(** [CreatePrimary], then [EvictControl] to the persistent handle [handle]; the
    transient object is flushed on the way out. *)
Definition make_persistent (hierarchy handle : Z) (t : Template) : M (world D) (Z * bool) :=
  keyHnd ← wrapM "ReadPublic failed (%v), and then CreatePrimary failed: %v" (CreatePrimary hierarchy t);
  defer_flush keyHnd (
    _ ← wrapM "EvictControl failed: %v" (dev (tpm2_EvictControl tpm2.HandleOwner keyHnd handle));
    mret (handle, true)).

Definition ek_handle_template (ek : option EK) : M (world D) (Z * Template) :=
  match ek with
  | None =>
      ekTemplate ← rsaEkTemplate;
      mret (commonRSAEkEquivalentHandle, ekTemplate)
  | Some ek =>
      let ekHandle := if ek_handle ek =? 0 then commonRSAEkEquivalentHandle else ek_handle ek in
      match ek_Public ek with
      | Some (PubRSA _) => ekTemplate ← rsaEkTemplate; mret (ekHandle, ekTemplate)
      | Some (PubECDSA _ _ _) => ekTemplate ← eccEkTemplate; mret (ekHandle, ekTemplate)
      | _ => fail (Errorf "unsupported public key type %T")
      end
  end.

Definition getEndorsementKeyHandle (ek : option EK) : M (world D) (Z * bool) :=
  ht ← ek_handle_template ek;
  try (dev (tpm2_ReadPublic ht.1))
    (λ _, mret (ht.1, false))
    (λ _, make_persistent tpm2.HandleEndorsement ht.1 ht.2).

Definition getStorageRootKeyHandle (parent : ParentKeyConfig) : M (world D) (Z * bool) :=
  let srkHandle := par_Handle parent in
  try (dev (tpm2_ReadPublic srkHandle))
    (λ _, mret (srkHandle, false))
    (λ _,
       srkTemplate ←
         (if bool_decide (par_Algorithm parent = RSA) then mret defaultRSASRKTemplate
          else if bool_decide (par_Algorithm parent = ECDSA) then mret defaultECCSRKTemplate
          else fail (Errorf "unsupported SRK algorithm: %v"));
       make_persistent tpm2.HandleOwner srkHandle srkTemplate).

(** ** EKs *)
Definition ek_of_cert (cert : Certificate) (handle : Z) : EK :=
  mkEK _ (Some (cert_PublicKey cert)) (Some cert) [] handle.

(** [if cert, err := readEKCertFromNVRAM20(...); err == nil { res = append(res, ...) }] *)
Definition append_cert (index handle : Z) (l : list EK) : M (world D) (list EK) :=
  try (dev (readEKCertFromNVRAM20 index))
    (λ cert, mret (l ++ [ek_of_cert cert handle]))
    (λ _, mret l).

Definition ekCertificates : M (world D) (list EK) :=
  l ← append_cert nvramRSACertIndex commonRSAEkEquivalentHandle [];
  append_cert nvramECCCertIndex commonECCEkEquivalentHandle l.

Definition eks (interf : Z) : M (world D) (list EK) :=
  try (dev (readEKCertFromNVRAM20 nvramRSACertIndex))
    (λ cert, mret [ek_of_cert cert commonRSAEkEquivalentHandle])
    (λ _,
       t ← rsaEkTemplate;
       ekHnd ← wrapM "EK CreatePrimary failed: %v" (CreatePrimary tpm2.HandleEndorsement t);
       defer_flush ekHnd (
         pub ← wrapM "EK ReadPublic failed: %v" (dev (tpm2_ReadPublic ekHnd));
         match pub_RSAParameters pub with
         | None => fail (Errorf "ECC EK not yet supported")
         | Some rp =>
             i ← wrapM "Retrieving TPM info failed: %v" (info interf);
             let ekPub := mkRSA (rp_Modulus rp) (rp_Exponent rp) in
             let certificateURL :=
               if bool_decide (TCGVendorID_String (info_Manufacturer i) = manufacturerIntel)
               then intelEKURL ekPub else [] in
             mret [mkEK _ (Some (PubRSA ekPub)) None certificateURL commonRSAEkEquivalentHandle]
         end)).

(** ** Keys *)
Definition parent_of (p : option ParentKeyConfig) : ParentKeyConfig := default defaultParentConfig p.

Definition newAK (opts : option AKConfig) : M (world D) wrappedKey20 :=
  srk ← wrapM "failed to get SRK handle: %v" (getStorageRootKeyHandle (parent_of (opts ≫= akc_Parent)));
  c ← wrapM "CreateKeyEx() failed: %v" (CreateKey srk.1 akTemplate);
  keyHandle ← wrapM "Load() failed: %v" (dev (tpm2_Load srk.1 (ck_pub c) (ck_blob c)));
  defer_flush_if_err keyHandle (
    attSig ← assign "CertifyCreation failed: %v"
      (dev (tpm2_CertifyCreation keyHandle keyHandle (ck_creationHash c)
              (mkScheme tpm2.AlgRSASSA tpm2.AlgSHA256) (ck_ticket c)));
    mret (newWrappedAK20 keyHandle (ck_blob c) (ck_pub c) (ck_creationData c) attSig.1 attSig.2)).

(** [certify] of certification.go *)
Definition certify (hnd akHnd : Z) (scheme : SigScheme) : M D CertificationParameters :=
  pub ← wrapM "tpm2.ReadPublic() failed: %v" (tpm2_ReadPublic hnd);
  public ← lift_res (wrapf "could not encode public key: %v" (Public_Encode pub));
  attSig ← wrapM "tpm2.Certify() failed: %v" (tpm2_CertifyEx hnd akHnd scheme);
  mret (mkCertification public [] attSig.1 attSig.2).

(** [t, ok := tb.( *wrappedTPM20)] *)
Definition as_wrappedTPM20 (tb : tpm_impl) : M (world D) () :=
  match tb with
  | tpmWrapped20 => mret tt
  | tpmOther => fail (Errorf "expected *wrappedTPM20, got %T")
  end.

(** [wrappedKey20.certify] *)
Definition key_certify (k : wrappedKey20) (tb : tpm_impl) (handle : any_handle)
    : M (world D) CertificationParameters :=
  _ ← as_wrappedTPM20 tb;
  match handle with
  | tpmutil_Handle hnd => dev (certify hnd (wk_hnd k) (mkScheme tpm2.AlgRSASSA tpm2.AlgSHA256))
  | _ => fail (Errorf "expected tpmutil.Handle, got %T")
  end.

Definition createKey (opts : option KeyConfig) : M (world D) (Z * CreatedKey) :=
  srk ← wrapM "failed to get SRK handle: %v" (getStorageRootKeyHandle (parent_of (opts ≫= kc_Parent)));
  tmpl ← wrapM "incorrect key options: %v" (on_heap (templateFromConfig opts));
  c ← wrapM "CreateKey() failed: %v" (CreateKey srk.1 tmpl);
  mret (srk.1, c).

(** [newKey] once the key is loaded: [err] is set by every call, but not by
    the mismatch of the certified key. *)
Definition finish_key (k : wrappedKey20) (keyHandle : Z) (c : CreatedKey) : M local Key :=
  cp ← assign "ak.Certify() failed: %v" (key_certify k tpmWrapped20 (tpmutil_Handle keyHandle));
  _ ← reject_if (bool_decide (ck_pub c ≠ cp_Public cp))
        (Errorf "certified incorrect key, expected: %v, certified: %v");
  tpmPub ← assign "decode public key: %v" (lift_res (tpm2_DecodePublic (ck_pub c)));
  pubKey ← assign "access public key: %v" (lift_res (Public_Key tpmPub));
  mret (mkKey (newWrappedKey20 keyHandle (ck_blob c) (ck_pub c) (ck_creationData c)
                 (cp_CreateAttestation cp) (cp_CreateSignature cp)) pubKey).

Definition newKey (ak : ak_impl) (opts : option KeyConfig) : M (world D) Key :=
  match ak with
  | akOther => fail (Errorf "expected *wrappedKey20, got: %T")
  | akWrapped20 k =>
      pc ← wrapM "cannot create key: %v" (createKey opts);
      keyHandle ← wrapM "Load() failed: %v" (dev (tpm2_Load pc.1 (ck_pub pc.2) (ck_blob pc.2)));
      defer_flush_if_err keyHandle (finish_key k keyHandle pc.2)
  end.

Definition deserializeAndLoad (opaqueBlob : bytes) (parent : ParentKeyConfig)
    : M (world D) (Z * serializedKey) :=
  sKey ← lift_res (wrapf "deserializeKey() failed: %v" (deserializeKey opaqueBlob TPMVersion20));
  _ ← reject_if (negb (sk_Encoding sKey =? keyEncodingEncrypted)) (Errorf "unsupported key encoding: %x");
  srk ← wrapM "failed to get SRK handle: %v" (getStorageRootKeyHandle parent);
  hnd ← wrapM "Load() failed: %v" (dev (tpm2_Load srk.1 (sk_Public sKey) (sk_Blob sKey)));
  mret (hnd, sKey).

Definition loadAKWithParent (opaqueBlob : bytes) (parent : ParentKeyConfig) : M (world D) wrappedKey20 :=
  hk ← wrapM "cannot load attestation key: %v" (deserializeAndLoad opaqueBlob parent);
  mret (newWrappedAK20 hk.1 (sk_Blob hk.2) (sk_Public hk.2) (sk_CreateData hk.2)
          (sk_CreateAttestation hk.2) (sk_CreateSignature hk.2)).
Definition loadAK (opaqueBlob : bytes) : M (world D) wrappedKey20 :=
  loadAKWithParent opaqueBlob defaultParentConfig.

Definition loadKeyWithParent (opaqueBlob : bytes) (parent : ParentKeyConfig) : M (world D) Key :=
  hk ← wrapM "cannot load signing key: %v" (deserializeAndLoad opaqueBlob parent);
  tpmPub ← lift_res (wrapf "decode public blob: %v" (tpm2_DecodePublic (sk_Public hk.2)));
  pub ← lift_res (wrapf "access public key: %v" (Public_Key tpmPub));
  mret (mkKey (newWrappedKey20 hk.1 (sk_Blob hk.2) (sk_Public hk.2) (sk_CreateData hk.2)
                 (sk_CreateAttestation hk.2) (sk_CreateSignature hk.2)) pub).
Definition loadKey (opaqueBlob : bytes) : M (world D) Key :=
  loadKeyWithParent opaqueBlob defaultParentConfig.

Definition key_close (k : wrappedKey20) (tb : tpm_impl) : M (world D) () :=
  _ ← as_wrappedTPM20 tb;
  dev (tpm2_FlushContext (wk_hnd k)).

(** ** Credential activation *)

(** The 2-byte length in front of a TPM2B structure, dropped. *)
Definition strip_length (fmt : string) (b : bytes) : M (world D) bytes :=
  _ ← reject_if (zlen b <? 2) (Errorf fmt);
  mret (drop 2 b).

Definition activateCredential (k : wrappedKey20) (tb : tpm_impl) (cred : EncryptedCredential)
    (ek : option EK) : M (world D) bytes :=
  _ ← as_wrappedTPM20 tb;
  credential ← strip_length "malformed credential blob" (ec_Credential cred);
  secret ← strip_length "malformed encrypted secret" (ec_Secret cred);
  ekHnd ← getEndorsementKeyHandle ek;
  sessHandle ← wrapM "creating session: %v" (dev tpm2_StartAuthSession);
  defer_flush sessHandle (
    _ ← wrapM "tpm2.PolicySecret() failed: %v"
          (dev (tpm2_PolicySecret tpm2.HandleEndorsement sessHandle));
    dev (tpm2_ActivateCredentialUsingAuth sessHandle (wk_hnd k) ekHnd.1 credential secret)).

(** ** PCRs and quotes *)
Definition numPCRs : Z := 24.

(** The PCRs there is no value for yet. *)
Definition missing_pcrs (out : gmap Z bytes) : list Z :=
  filter (λ pcr, out !! uint32 pcr = None) (seqZ 0 numPCRs).

(** [for pcr, digest := range ret { out[uint32(pcr)] = digest }] *)
Definition merge_pcrs (out ret : gmap Z bytes) : gmap Z bytes :=
  foldl (λ out kv, <[uint32 kv.1 := kv.2]> out) out (map_range ret).

Fixpoint read_pcrs (n : nat) (alg : Z) (out : gmap Z bytes) : M D (gmap Z bytes) :=
  match n with
  | O => mret out
  | Datatypes.S n =>
      ret ← wrapM "tpm2.ReadPCRs(%+v) failed with err: %v"
              (tpm2_ReadPCRs (mkSelection alg (missing_pcrs out)));
      let out := merge_pcrs out ret in
      if Z.of_nat (size out) =? numPCRs then mret out else read_pcrs n alg out
  end.

Definition readAllPCRs20 (alg : Z) : M D (gmap Z bytes) :=
  out ← read_pcrs (Z.to_nat numPCRs) alg ∅;
  _ ← reject_if (negb (Z.of_nat (size out) =? numPCRs)) (Errorf "failed to read all PCRs, only read %d");
  mret out.

(** [for index, digest := range PCRs { out[int(index)] = PCR{...} }] *)
Fixpoint fill_pcrs (hash : Z) (entries : list (Z * bytes)) (out : list PCR) : res error (list PCR) :=
  match entries with
  | [] => Ok out
  | (index, digest) :: entries =>
      if index <? zlen out
      then fill_pcrs hash entries (<[Z.to_nat index := mkPCR index digest hash false]> out)
      else Panic "index out of range"
  end.

Definition pcrs (alg : Z) : M (world D) (list PCR) :=
  PCRs ← wrapM "failed to read PCRs: %v" (dev (readAllPCRs20 (goTPMAlg alg)));
  lift_res (fill_pcrs (cryptoHash alg) (map_range PCRs) (repeat (mkPCR 0 [] 0 false) (size PCRs))).

Definition quote20 (akHandle hashAlg : Z) (nonce : bytes) (selectedPCRs : list Z) : M D Quote :=
  qs ← tpm2_Quote akHandle nonce (mkSelection hashAlg selectedPCRs);
  sig ← lift_res (deref (sig_RSA qs.2));
  rawSig ← lift_res (Pack_signature (sig_Alg qs.2) (srsa_HashAlg sig) (srsa_Signature sig));
  mret (mkQuote TPMVersion20 qs.1 rawSig).

(** [wrappedKey20.quote] *)
Definition key_quote (k : wrappedKey20) (tb : tpm_impl) (nonce : bytes) (alg : Z)
    (selectedPCRs : list Z) : M (world D) Quote :=
  _ ← as_wrappedTPM20 tb;
  dev (quote20 (wk_hnd k) alg nonce selectedPCRs).

Definition measurementLog : M (world D) bytes := dev rwc_MeasurementLog.
(** [wrappedTPM20.close] *)
Definition tpm_close : M (world D) () := dev rwc_Close.

Definition attestationParameters (k : wrappedKey20) : AttestationParameters :=
  mkAKParameters (wk_public k) false (wk_createData k) (wk_createAttestation k) (wk_createSignature k).
Definition certificationParameters (k : wrappedKey20) : CertificationParameters :=
  mkCertification (wk_public k) [] (wk_createAttestation k) (wk_createSignature k).
End Driver.
