(* ===== verification/KeyHandles.v ===== *)
(** * Handles of the TPM 2.0 driver

    Every operation of the driver flushes the transient objects and sessions
    it creates, on every path, except the key it returns; and the paths on
    which that fails ([newKey] and [loadKey] with certain errors). *)
From S2P Require Import Prelude GoBytes GoCrypto GoRuntime Attest Tpm2.
From S2P Require Import Activation.
From S2P Require Import Certification.
From S2P Require Import Templates.
From S2P Require Import Channel.
From S2P Require Import EKCert.
From S2P Require Import Wrapped20.

Section Balanced.
Context {D : Type} `{TPM2Channel D, GoCrypto, GoTPM, GoRuntime, X509, Encodings}.
Context (loaded : D → gset Z) `{!TPM2Handles loaded}.

#[local] Abbreviation balanced := (balanced loaded).
#[local] Abbreviation opens_one := (opens_one loaded).
#[local] Abbreviation open_handles := (open_handles loaded).

(** Programs over the device itself. *)
Lemma keeps_bind {A B} (m : M D A) (f : A → M D B) :
  keeps loaded m → (∀ a, keeps loaded (f a)) → keeps loaded (m ≫= f).
Proof.
  intros Hm Hf d. specialize (Hm d). unfold mbind, M_bind.
  destruct (m d) as [[a| | |] d']; [|done..]. by rewrite (Hf a).
Qed.
Lemma keeps_wrap {A} fmt (m : M D A) : keeps loaded m → keeps loaded (wrapM fmt m).
Proof. intros Hm d. specialize (Hm d). unfold wrapM. by destruct (m d). Qed.
Lemma keeps_lift {A} (r : res error A) : keeps loaded (lift_res r).
Proof. done. Qed.
Lemma keeps_ret {A} (a : A) : keeps loaded (mret a).
Proof. done. Qed.
Lemma keeps_reject c e : keeps loaded (reject_if c e).
Proof. by destruct c. Qed.
#[local] Hint Resolve keeps_bind keeps_wrap keeps_lift keeps_ret keeps_reject : handles.

(** [handles] follows the structure of a program. *)
Ltac handles_step :=
  lazymatch goal with
  | |- ∀ _, _ => intros ?
  | |- Channel.balanced _ (dev _) => apply balanced_dev
  | |- Channel.balanced _ (on_heap _) => apply balanced_heap
  | |- Channel.balanced _ (wrapM _ _) => apply balanced_wrap
  | |- Channel.balanced _ (_ ≫= λ h, defer_flush h _) => apply balanced_flush
  | |- Channel.balanced _ (_ ≫= _) => apply balanced_bind
  | |- Channel.balanced _ (try _ _ _) => apply balanced_try
  | |- Channel.balanced _ (match _ with _ => _ end) => case_match
  | |- keeps _ (_ ≫= _) => apply keeps_bind
  | |- keeps _ (wrapM _ _) => apply keeps_wrap
  | |- keeps _ (match _ with _ => _ end) => case_match
  | |- Channel.opens_one _ _ (wrapM _ _) => apply opens_wrap
  | |- Channel.opens_one _ _ (dev _) => apply opens_dev
  end.
Ltac handles := repeat first [solve [eauto with handles] | done | handles_step].

Lemma tagged_property_keeps fmt p : keeps loaded (tagged_property fmt p).
Proof. unfold tagged_property. handles; done. Qed.
Lemma vendor_string_keeps n i v : keeps loaded (vendor_string n i v).
Proof.
  revert i v. induction n; intros; [done|]. cbn [vendor_string].
  apply keeps_bind; [apply tagged_property_keeps|auto].
Qed.
Lemma readTPM2VendorAttributes_keeps : keeps loaded readTPM2VendorAttributes.
Proof.
  unfold readTPM2VendorAttributes.
  repeat (apply keeps_bind; [first [apply vendor_string_keeps | apply tagged_property_keeps]|intros]).
  done.
Qed.
Lemma readEKCert_keeps i : keeps loaded (readEKCertFromNVRAM20 i).
Proof. unfold readEKCertFromNVRAM20. handles. Qed.
Lemma read_pcrs_keeps n alg out : keeps loaded (read_pcrs n alg out).
Proof.
  revert out. induction n; intros; [done|]. cbn [read_pcrs].
  apply keeps_bind; [handles|]. intros. case_match; auto. done.
Qed.
Lemma readAllPCRs20_keeps alg : keeps loaded (readAllPCRs20 alg).
Proof. unfold readAllPCRs20. apply keeps_bind; [apply read_pcrs_keeps|]. handles. Qed.
Lemma certify_keeps h k s : keeps loaded (certify h k s).
Proof. unfold certify. handles. Qed.
Lemma quote20_keeps k a n s : keeps loaded (quote20 k a n s).
Proof. unfold quote20. handles. Qed.
#[local] Hint Resolve readTPM2VendorAttributes_keeps readEKCert_keeps readAllPCRs20_keeps
  certify_keeps quote20_keeps : handles.

Lemma CreatePrimary_opens_one h t : opens_one id (CreatePrimary h t).
Proof. unfold CreatePrimary. apply opens_after; handles. Qed.
Lemma CreateKey_balanced p t : balanced (CreateKey p t).
Proof. unfold CreateKey. handles. Qed.
#[local] Hint Resolve CreatePrimary_opens_one CreateKey_balanced : handles.

Lemma rsaEkTemplate_balanced : balanced rsaEkTemplate.
Proof. unfold rsaEkTemplate, cache_rsaEk. handles; done. Qed.
Lemma eccEkTemplate_balanced : balanced eccEkTemplate.
Proof. unfold eccEkTemplate, cache_eccEk. handles; done. Qed.
#[local] Hint Resolve rsaEkTemplate_balanced eccEkTemplate_balanced : handles.

Lemma make_persistent_balanced h p t : balanced (make_persistent h p t).
Proof. unfold make_persistent. handles. Qed.
#[local] Hint Resolve make_persistent_balanced : handles.

Lemma ek_handle_template_balanced ek : balanced (ek_handle_template ek).
Proof. unfold ek_handle_template. handles. Qed.
#[local] Hint Resolve ek_handle_template_balanced : handles.
Lemma getEndorsementKeyHandle_balanced ek : balanced (getEndorsementKeyHandle ek).
Proof. unfold getEndorsementKeyHandle. handles. Qed.
Lemma getStorageRootKeyHandle_balanced p : balanced (getStorageRootKeyHandle p).
Proof. unfold getStorageRootKeyHandle. handles. Qed.
#[local] Hint Resolve getEndorsementKeyHandle_balanced getStorageRootKeyHandle_balanced : handles.

Lemma info_balanced i : balanced (info i).
Proof. unfold info. handles. Qed.
#[local] Hint Resolve info_balanced : handles.
Lemma ekCertificates_balanced : balanced ekCertificates.
Proof. unfold ekCertificates, append_cert. handles. Qed.
Lemma eks_balanced i : balanced (eks i).
Proof. unfold eks. handles. Qed.
Lemma createKey_balanced opts : balanced (createKey opts).
Proof. unfold createKey. handles. Qed.
Lemma key_certify_balanced k tb h : balanced (key_certify k tb h).
Proof. unfold key_certify, as_wrappedTPM20. handles. Qed.
Lemma activateCredential_balanced k tb c ek : balanced (activateCredential k tb c ek).
Proof. unfold activateCredential, as_wrappedTPM20, strip_length. handles. Qed.
Lemma pcrs_balanced alg : balanced (pcrs alg).
Proof. unfold pcrs. handles. Qed.
Lemma key_quote_balanced k tb n a s : balanced (key_quote k tb n a s).
Proof. unfold key_quote, as_wrappedTPM20. handles. Qed.
#[local] Hint Resolve createKey_balanced key_certify_balanced : handles.

Lemma deserializeAndLoad_opens b p : opens_one fst (deserializeAndLoad b p).
Proof.
  unfold deserializeAndLoad. do 3 (apply opens_after; [handles|intros ?]).
  intros w. pose proof (opens_wrap loaded id "Load() failed: %v" _
    (opens_dev loaded _ (Load_opens a1.1 (sk_Public a) (sk_Blob a)))) as Ho.
  specialize (Ho w). unfold mbind, M_bind.
  destruct (wrapM _ _ w) as [[h| | |] w']; exact Ho.
Qed.

Lemma opened_ret {A B} (handle : A → Z) (g : A → B) (handle' : B → Z) (m : M (world D) A) :
  (∀ a, handle' (g a) = handle a) → opens_one handle m → opens_one handle' (a ← m; mret (g a)).
Proof.
  intros Hg Hm w. specialize (Hm w). unfold mbind, M_bind.
  destruct (m w) as [[a| | |] w']; [|done..]. cbn in *. by rewrite Hg.
Qed.

Lemma loadAK_opens b p : opens_one wk_hnd (loadAKWithParent b p).
Proof. apply (opened_ret fst); [done|]. apply opens_wrap, deserializeAndLoad_opens. Qed.

(** *** [assign]: the state of the device is that of the call *)
Lemma assign_run {A} fmt (m : M (world D) A) w o :
  balanced m →
  match assign fmt m (w, o) with
  | (Ok _, s) => open_handles s.1 = open_handles w ∧ s.2 = None
  | (Err _, s) => open_handles s.1 = open_handles w ∧ is_Some s.2
  | (_, s) => open_handles s.1 = open_handles w ∧ s.2 = o
  end.
Proof.
  intros Hm. specialize (Hm w). unfold assign. cbn [fst snd].
  destruct (m w) as [[] ?]; cbn in *; by eauto.
Qed.

Lemma flush_closes h w : h ∈ open_handles w →
  open_handles (dev (tpm2_FlushContext h) w).2 = open_handles w ∖ {[h]}.
Proof.
  intros Hh. unfold dev, Channel.open_handles in *.
  pose proof (FlushContext_closes h (w_dev w) Hh) as Hc. by destruct (tpm2_FlushContext h (w_dev w)).
Qed.

(** A body under [defer_flush_if_err]: it is balanced, and a success leaves
    [err] nil. *)
Definition tidy {A} (m : M local A) : Prop := ∀ w o, o = None →
  open_handles (m (w, o)).2.1 = open_handles w ∧
  match (m (w, o)).1 with Ok _ => (m (w, o)).2.2 = None | _ => True end.

Lemma tidy_assign {A} fmt (m : M (world D) A) : balanced m → tidy (assign fmt m).
Proof.
  intros Hm w o ->. pose proof (assign_run fmt m w None Hm) as Hr.
  destruct (assign fmt m (w, None)) as [[] ?]; cbn; by destruct Hr.
Qed.
Lemma tidy_bind {A B} (m : M local A) (f : A → M local B) :
  tidy m → (∀ a, tidy (f a)) → tidy (m ≫= f).
Proof.
  intros Hm Hf w o Ho. specialize (Hm w o Ho). unfold mbind, M_bind.
  destruct (m (w, o)) as [[a| | |] [w' o']]; cbn in *; [|by destruct Hm..].
  destruct Hm as [Hw Ho']. specialize (Hf a w' o' Ho'). rewrite <- Hw. exact Hf.
Qed.
Lemma tidy_ret {A} (a : A) : tidy (mret a).
Proof. by intros w o ->. Qed.
Lemma tidy_reject c e : tidy (reject_if c e).
Proof. intros w o ->. by destruct c. Qed.

Lemma finish_key_tidy k h c : tidy (finish_key k h c).
Proof.
  unfold finish_key.
  repeat first [apply tidy_bind; [|intros ?] | apply tidy_assign | apply tidy_reject | apply tidy_ret];
    eauto with handles.
Qed.

(** *** The tail of [newKey] *)
Definition mismatch : error := Errorf "certified incorrect key, expected: %v, certified: %v".

Lemma assign_Err {A} fmt (m : M (world D) A) w o e s :
  assign fmt m (w, o) = (Err e, s) → (∃ e', e = Wrapf fmt e') ∧ is_Some s.2.
Proof. unfold assign. cbn [fst]. destruct (m w) as [[]]; intros [= <- <-]; cbn; eauto. Qed.
Lemma assign_Ok {A} fmt (m : M (world D) A) w o a s :
  assign fmt m (w, o) = (Ok a, s) → s.2 = None.
Proof. unfold assign. cbn [fst]. destruct (m w) as [[]]; by intros [= <- <-]. Qed.

(** An error leaves [err] nil exactly when it is the mismatch. *)
Lemma finish_key_Err k h c w e s :
  finish_key k h c (w, None) = (Err e, s) → (s.2 = None ↔ e = mismatch).
Proof.
  unfold finish_key. intros [E|(cp & [w1 o1] & Hcp & E)]%bind_Err_inv.
  { apply assign_Err in E as [[e' ->] [? Hs]]. by rewrite Hs. }
  apply assign_Ok in Hcp. cbn in Hcp. subst o1.
  apply bind_Err_inv in E as [E|([] & s1 & Hr & E)].
  { destruct (bool_decide _); [|done]. by injection E as <- <-. }
  apply reject_if_Ok_inv in Hr as [_ ->].
  apply bind_Err_inv in E as [E|(p & [w2 o2] & Hp & E)].
  { apply assign_Err in E as [[e' ->] [? Hs]]. by rewrite Hs. }
  apply bind_Err_inv in E as [E|(q & s3 & Hq & E)]; [|done].
  apply assign_Err in E as [[e' ->] [? Hs]]. by rewrite Hs.
Qed.

Lemma finish_key_handle k h c w a s :
  finish_key k h c (w, None) = (Ok a, s) → wk_hnd (key_key a) = h.
Proof. unfold finish_key. intros E. inv_ok E. done. Qed.

(** *** [newKey], [loadKey] and [newAK] *)
Definition handle_of (a : Key) : Z := wk_hnd (key_key a).

(** What becomes of the handles: a key returned stays open, nothing else does,
    except after an error in [leaky]. *)
Definition accounted {A} (handle : A → Z) (leaky : error → Prop) (w : world D)
    (out : res error A * world D) : Prop :=
  match out with
  | (Ok a, w') => handle a ∉ open_handles w ∧ open_handles w' = {[handle a]} ∪ open_handles w
  | (Err e, w') =>
      (leaky e → ∃ h, h ∉ open_handles w ∧ open_handles w' = {[h]} ∪ open_handles w) ∧
      (¬ leaky e → open_handles w' = open_handles w)
  | _ => True
  end.

Lemma accounted_Ok {A} (handle : A → Z) leaky w out a :
  accounted handle leaky w out → out.1 = Ok a →
  open_handles out.2 = {[handle a]} ∪ open_handles w.
Proof. destruct out as [[] ?]; cbn; intros Ha [=]; subst. by destruct Ha. Qed.
Lemma accounted_leak {A} (handle : A → Z) (leaky : error → Prop) w (out : res error A * world D) e :
  accounted handle leaky w out → out.1 = Err e → leaky e →
  ∃ h, h ∉ open_handles w ∧ open_handles out.2 = {[h]} ∪ open_handles w.
Proof. destruct out as [[] ?]; cbn; intros Ha [=]; subst. by destruct Ha. Qed.

Lemma accounted_after {A B} (handle : B → Z) leaky (m : M (world D) A) (f : A → M (world D) B) w :
  balanced m → (∀ e s, m w = (Err e, s) → ¬ leaky e) →
  (∀ a s, m w = (Ok a, s) → accounted handle leaky s (f a s)) →
  accounted handle leaky w ((m ≫= f) w).
Proof.
  intros Hb He Hf. specialize (Hb w). unfold mbind, M_bind.
  destruct (m w) as [[a|e| |] s]; [|by split; [intros Hl; destruct (He e s)|]|done|done].
  specialize (Hf a s eq_refl). unfold accounted in *. cbn in Hb. by rewrite Hb in Hf.
Qed.

Lemma wrapM_not_mismatch {A} fmt (m : M (world D) A) w e s :
  wrapM fmt m w = (Err e, s) → e ≠ mismatch.
Proof. intros (e' & -> & _)%wrapM_Err_inv. done. Qed.

(** A key loaded, then a tidy body whose errors are told apart by [leaky]. *)
Lemma accounted_load {A} (handle : A → Z) leaky (load : M (world D) Z) (body : Z → M local A) w :
  opens_one id load → (∀ h, tidy (body h)) →
  (∀ h w a s, body h (w, None) = (Ok a, s) → handle a = h) →
  (∀ e s, load w = (Err e, s) → ¬ leaky e) →
  (∀ h w e s, body h (w, None) = (Err e, s) → (s.2 = None ↔ leaky e)) →
  accounted handle leaky w ((h ← load; defer_flush_if_err h (body h)) w).
Proof.
  intros Hl Ht Hh Hle Hbe. specialize (Hl w). unfold mbind, M_bind.
  destruct (load w) as [[h|e| |] w1]; [|by split; [intros ?%(Hle e w1)|]|done|done].
  destruct Hl as [Hn Hw1]. unfold id in *. destruct (Ht h w1 None eq_refl) as [Hb Hok].
  unfold defer_flush_if_err.
  specialize (Hh h w1). specialize (Hbe h w1).
  destruct (body h (w1, None)) as [r s]. cbn in *.
  assert (open_handles (dev (tpm2_FlushContext h) s.1).2 = open_handles w) as Hc.
  { rewrite (flush_closes h s.1) by (rewrite Hb, Hw1; set_solver).
    rewrite Hb, Hw1. by apply open_then_flush. }
  rewrite Hw1 in Hb. destruct r as [a|e| |]; cbn.
  - rewrite Hok. cbn. rewrite (Hh a s eq_refl). auto.
  - specialize (Hbe e s eq_refl). destruct s.2; cbn; split; intros Hx.
    + by apply Hbe in Hx.
    + done.
    + eauto.
    + exfalso. by apply Hx, Hbe.
  - by destruct s.2.
  - by destruct s.2.
Qed.
End Balanced.

Section Theorems.
Context {D : Type} `{TPM2Channel D, GoCrypto, GoTPM, GoRuntime, X509, Encodings}.
Context (loaded : D → gset Z) `{!TPM2Handles loaded}.

(** C9: The operations that return no key leave exactly the handles open that
    were open before, whatever their outcome: every transient object and
    session they create is flushed, on success and on every error. *)
Theorem operations_balanced ek parent interf k tb cred alg nonce sel h :
  balanced loaded (getEndorsementKeyHandle ek) ∧
  balanced loaded (getStorageRootKeyHandle parent) ∧
  balanced loaded ekCertificates ∧ balanced loaded (eks interf) ∧ balanced loaded (info interf) ∧
  balanced loaded (activateCredential k tb cred ek) ∧ balanced loaded (key_certify k tb h) ∧
  balanced loaded (pcrs alg) ∧ balanced loaded (key_quote k tb nonce alg sel).
Proof.
  split_and!.
  - by apply getEndorsementKeyHandle_balanced.
  - by apply getStorageRootKeyHandle_balanced.
  - by apply ekCertificates_balanced.
  - by apply eks_balanced.
  - by apply info_balanced.
  - by apply activateCredential_balanced.
  - by apply key_certify_balanced.
  - by apply pcrs_balanced.
  - by apply key_quote_balanced.
Qed.

Lemma newAK_accounted opts w :
  accounted loaded wk_hnd (λ _, False) w (newAK opts w).
Proof.
  unfold newAK. apply accounted_after;
    [apply balanced_wrap; by apply getStorageRootKeyHandle_balanced|auto|intros srk w1 _].
  apply accounted_after; [apply balanced_wrap; by apply CreateKey_balanced|auto|intros c w2 _].
  apply (accounted_load loaded); auto.
  - apply opens_wrap, opens_dev, Load_opens.
  - intros h. apply tidy_bind; [apply tidy_assign, balanced_dev, CertifyCreation_keeps|].
    intros. apply tidy_ret.
  - intros h w0 a s E. inv_ok E. done.
  - intros h w0 e s [E|(x & s1 & _ & E)]%bind_Err_inv; [|done].
    apply assign_Err in E as [_ [? Hs]]. by rewrite Hs.
Qed.

Lemma newKey_accounted ak opts w :
  accounted loaded handle_of (eq mismatch) w (newKey ak opts w).
Proof.
  destruct ak as [k|]; [|by split]. cbn [newKey].
  apply accounted_after; [apply balanced_wrap; by apply createKey_balanced| |intros pc w1 _].
  { intros e s E%wrapM_not_mismatch. congruence. }
  apply (accounted_load loaded).
  - apply opens_wrap, opens_dev, Load_opens.
  - intros h. by apply finish_key_tidy.
  - intros h w0 a s E. by apply finish_key_handle in E.
  - intros e s E%wrapM_not_mismatch. congruence.
  - intros h w0 e s E. rewrite (finish_key_Err _ _ _ _ _ _ E). split; congruence.
Qed.

(** The errors of [loadKeyWithParent] that come after the key is loaded. *)
Definition undecodable (e : error) : Prop :=
  ∃ e', e = Wrapf "decode public blob: %v" e' ∨ e = Wrapf "access public key: %v" e'.

Lemma loadKey_accounted b p w :
  accounted loaded handle_of undecodable w (loadKeyWithParent b p w).
Proof.
  unfold loadKeyWithParent. pose proof (deserializeAndLoad_opens loaded b p) as Ho.
  apply (opens_wrap _ _ "cannot load signing key: %v") in Ho. specialize (Ho w).
  unfold mbind at 1, M_bind at 1.
  destruct (wrapM _ _ w) as [[[h k]|e| |] w1] eqn:E; [|..|done|done]; cycle 1.
  { apply wrapM_Err_inv in E as (e' & -> & _). split; [|done]. by intros [? [[=]|[=]]]. }
  destruct Ho as [Hn Ho]. cbn in Hn, Ho. cbn [fst snd].
  unfold mbind, M_bind, lift_res.
  destruct (tpm2_DecodePublic (sk_Public k)) as [pub| | |]; cbn; [|..|done|done].
  - destruct (Public_Key pub) as [key| | |]; cbn; [done| |done|done].
    split; [eauto|]. intros Hu. exfalso. apply Hu. red. eauto.
  - split; [eauto|]. intros Hu. exfalso. apply Hu. red. eauto.
Qed.

(** C8: The operations that return a key leave just its handle open in
    addition.  On an error [newAK] and the loading of an AK leave nothing;
    [newKey] leaves the handle of the new key open exactly when the key
    certified is not the key created (the only error it returns without
    setting [err]), and [loadKeyWithParent] exactly when the public area of
    the loaded key cannot be decoded or used. *)
Theorem keys_accounted ak akopts opts blob parent w :
  accounted loaded wk_hnd (λ _, False) w (newAK akopts w) ∧
  opened loaded wk_hnd w (loadAKWithParent blob parent w) ∧
  accounted loaded handle_of (eq mismatch) w (newKey ak opts w) ∧
  accounted loaded handle_of undecodable w (loadKeyWithParent blob parent w).
Proof.
  split_and!.
  - apply newAK_accounted.
  - by apply loadAK_opens.
  - apply newKey_accounted.
  - apply loadKey_accounted.
Qed.

(** Closing a key that is open closes its handle. *)
Theorem key_close_closes k w :
  wk_hnd k ∈ open_handles loaded w →
  open_handles loaded (key_close k tpmWrapped20 w).2 = open_handles loaded w ∖ {[wk_hnd k]}.
Proof. intros Hk. unfold key_close. cbn. by apply flush_closes. Qed.
End Theorems.

(** ** Concrete runs *)
Section Witnesses.
Definition ex_public : Public := mkPublic tpm2.AlgECC tpm2.AlgSHA256 0 None (Some (mkECCParams None 3)).

(** A device without persistent handles that creates keys with the public area
    [pub] and certifies the key it is asked to. *)
Definition ex_replies (pub : bytes) : replies := {|
  rep_public h := if h <? 0x80000000 then Ok ex_public else Err (LibErr "no such handle");
  rep_created := mkCreated (str "private") pub [] [] [];
  rep_certified := ([], []);
  rep_activated := [];
  rep_quote _ _ := Err (LibErr "no such bank");
  rep_pcrs _ := ∅;
  rep_nv _ := Err (LibErr "no such index");
  rep_signature _ := mkSignature 0x14 None None;
  rep_property _ := [TaggedProperty 0];
  rep_log := [];
|}.

#[local] Existing Instance sha_crypto.
#[local] Existing Instance std_runtime.
#[local] Existing Instance ex_x509.
#[local] Existing Instance sim_handles.
#[local] Instance ex_encodings : Encodings := {|
  json_Marshal k := Ok (sk_Public k);
  json_Unmarshal b := Ok (mkSerialized keyEncodingEncrypted TPMVersion20 b [] [] [] "" []);
  asn1_Marshal_RS r s := Ok (be_bytes 2 r ++ be_bytes 2 s);
  curve_N_BitLen c := 256;
  tpm2_HashToAlgorithm h := Ok h;
|}.
#[local] Instance ex_lib : GoTPM := fixed_tpm ex_public (mkAttestation 0 0 [] None None None)
  (mkSignature 0 None None) crypto_SHA256 (mkRawAttestation [] [] [] []) (mkRSA 3233 17) (λ _ _, true).

Definition ex_world : world (gset Z) := mkWorld init_heap None None ∅.
Definition ex_ak : ak_impl := akWrapped20 (mkWrapped 5 [] [] [] [] []).

Lemma operations_balanced_witness :
  let _ := sim (ex_replies []) in
  elements (open_handles id (eks TPMInterfaceDirect ex_world).2) = [].
Proof.
  cbn zeta.
  destruct (operations_balanced (H := sim (ex_replies [])) id None defaultParentConfig
    TPMInterfaceDirect (mkWrapped 5 [] [] [] [] []) tpmWrapped20 (mkCredential [] []) 0 [] []
    otherHandle) as (_ & _ & _ & He & _).
  by rewrite (He ex_world).
Defined.

(** A genuine key stays open; after the mismatch of a device that certifies
    another key the handle of the key that was not returned is open. *)
Lemma keys_accounted_witness :
  let opts := Some defaultConfig in
  let genuine := newKey (H := sim (ex_replies (be_bytes 4 tpm2.AlgECC))) ex_ak opts ex_world in
  let rogue := newKey (H := sim (ex_replies (be_bytes 4 tpm2.AlgRSA))) ex_ak opts ex_world in
  (∃ k, genuine.1 = Ok k ∧ open_handles id genuine.2 = {[wk_hnd (key_key k)]} ∪ ∅) ∧
  (∃ h, rogue.1 = Err mismatch ∧ open_handles id rogue.2 = {[h]} ∪ ∅).
Proof.
  cbn zeta. split.
  - destruct (keys_accounted (H := sim (ex_replies (be_bytes 4 tpm2.AlgECC))) id ex_ak None
      (Some defaultConfig) [] defaultParentConfig ex_world) as (_ & _ & Hk & _).
    eexists. split; [vm_compute; reflexivity|]. by apply (accounted_Ok id _ _ _ _ _ Hk).
  - destruct (keys_accounted (H := sim (ex_replies (be_bytes 4 tpm2.AlgRSA))) id ex_ak None
      (Some defaultConfig) [] defaultParentConfig ex_world) as (_ & _ & Hk & _).
    destruct (accounted_leak id _ _ _ _ mismatch Hk) as (h & _ & Ho); [vm_compute; reflexivity|done|].
    exists h. split; [vm_compute; reflexivity|done].
Defined.
End Witnesses.
