(* ===== verification/PcrBank.v ===== *)
(** * Reading a bank of PCRs ([readAllPCRs20] and [pcrs])

    The command may return only some of the PCRs asked for; the loop repeats it
    for the ones still missing.  A device that answers with some of them each
    time is read completely within the 24 iterations. *)
From S2P Require Import Prelude GoBytes GoCrypto GoRuntime Attest Tpm2.
From S2P Require Import Templates.
From S2P Require Import Channel.
From S2P Require Import EKCert.
From S2P Require Import Wrapped20.

(** ** A truthful device *)
Section Device.
Context {D : Type} `{TPM2Channel D}.

(** An answer to a request for the registers [sel] that hold [value]. *)
Definition answers (value : Z → bytes) (ret : gmap Z bytes) (sel : list Z) : Prop :=
  (∀ i d, ret !! i = Some d → i ∈ sel ∧ d = value i) ∧ (sel ≠ [] → ret ≠ ∅).

(** Reading PCRs of bank [alg] returns values of the registers asked for, at
    least one of them (the specification's partial fulfilment), and changes
    none. *)
Definition truthful (alg : Z) (value : D → Z → bytes) : Prop := ∀ sel d,
  match tpm2_ReadPCRs (mkSelection alg sel) d with
  | (Ok ret, d') => answers (value d) ret sel ∧ value d' = value d
  | _ => False
  end.
End Device.

(** ** Maps of PCR values *)
Section Maps.
Context `{GoRuntime}.

Lemma foldl_insert_lookup (l : list (Z * bytes)) (m : gmap Z bytes) (value : Z → bytes) :
  Forall (λ kv, 0 ≤ kv.1 < 2 ^ 32 ∧ kv.2 = value kv.1) l →
  ∀ i, foldl (λ out kv, <[uint32 kv.1 := kv.2]> out) m l !! i =
       if decide (i ∈ l.*1) then Some (value i) else m !! i.
Proof.
  intros Hl. revert m. induction Hl as [|[k v] l [Hk Hv] Hl IH]; intros m i; cbn; [done|].
  cbn in Hk, Hv. subst v. rewrite IH. unfold uint32. rewrite Z.mod_small by done.
  destruct (decide (i ∈ l.*1)) as [Hi|Hi].
  - rewrite decide_True; [done|set_solver].
  - destruct (decide (i = k)) as [->|Hne].
    + rewrite lookup_insert_eq, decide_True; [done|set_solver].
    + rewrite lookup_insert_ne, decide_False; [done|set_solver|congruence].
Qed.

Lemma map_range_fst {V} (m : gmap Z V) i : i ∈ (map_range m).*1 ↔ is_Some (m !! i).
Proof.
  rewrite (map_range_perm V m). split.
  - intros ([k v] & -> & Hkv)%list_elem_of_fmap. apply elem_of_map_to_list in Hkv. by eexists.
  - intros [v Hv]. apply list_elem_of_fmap. exists (i, v). split; [done|]. by apply elem_of_map_to_list.
Qed.

Lemma map_range_length {V} (m : gmap Z V) : length (map_range m) = size m.
Proof. by rewrite (map_range_perm V m), length_map_to_list. Qed.

(** Merging a truthful answer. *)
Lemma merge_lookup value out ret sel i :
  answers value ret sel → Forall (λ k, 0 ≤ k < numPCRs) sel →
  merge_pcrs out ret !! i = if decide (is_Some (ret !! i)) then Some (value i) else out !! i.
Proof.
  intros [Ha _] Hs. unfold merge_pcrs. rewrite (foldl_insert_lookup _ _ value).
  - pose proof (map_range_fst ret i) as Hf.
    destruct (decide (i ∈ (map_range ret).*1)), (decide (is_Some (ret !! i))); naive_solver.
  - apply Forall_forall. intros [k v] Hkv. rewrite (map_range_perm _ ret) in Hkv.
    apply elem_of_map_to_list in Hkv. destruct (Ha _ _ Hkv) as [Hk ->]. split; [|done].
    rewrite Forall_forall in Hs. specialize (Hs k Hk). unfold numPCRs in Hs. cbn. lia.
Qed.

(** The values read so far: correct, and of PCRs 0 to 23 only. *)
Definition partial_bank (value : Z → bytes) (out : gmap Z bytes) : Prop :=
  ∀ i d, out !! i = Some d → 0 ≤ i < numPCRs ∧ d = value i.

Definition bank (value : Z → bytes) : gmap Z bytes :=
  list_to_map ((λ i, (i, value i)) <$> seqZ 0 numPCRs).

Lemma bank_lookup value i : bank value !! i = if decide (0 ≤ i < numPCRs) then Some (value i) else None.
Proof.
  unfold bank. destruct (decide (0 ≤ i < numPCRs)) as [Hi|Hi].
  - apply elem_of_list_to_map_1.
    + rewrite <- list_fmap_compose. change (fst ∘ _) with (@id Z). rewrite list_fmap_id. apply NoDup_seqZ.
    + apply list_elem_of_fmap. exists i. split; [done|]. apply elem_of_seqZ. lia.
  - apply not_elem_of_list_to_map_1. rewrite <- list_fmap_compose. change (fst ∘ _) with (@id Z).
    rewrite list_fmap_id, elem_of_seqZ. lia.
Qed.

Lemma size_bank value : size (bank value) = Z.to_nat numPCRs.
Proof.
  unfold bank. rewrite map_size_list_to_map; [by rewrite length_fmap, length_seqZ|].
  rewrite <- list_fmap_compose. change (fst ∘ _) with (@id Z). rewrite list_fmap_id. apply NoDup_seqZ.
Qed.

Lemma partial_bank_subset value out : partial_bank value out → out ⊆ bank value.
Proof.
  intros Hp. apply map_subseteq_spec. intros i d Hi. destruct (Hp i d Hi) as [Hb ->].
  by rewrite bank_lookup, decide_True.
Qed.

Lemma partial_bank_full value out :
  partial_bank value out → size out = Z.to_nat numPCRs → out = bank value.
Proof.
  intros Hp Hs. pose proof (partial_bank_subset _ _ Hp) as Hsub.
  apply map_subseteq_size_eq; [done|]. rewrite size_bank. lia.
Qed.

Lemma missing_spec out i : i ∈ missing_pcrs out ↔ 0 ≤ i < numPCRs ∧ out !! i = None.
Proof.
  unfold missing_pcrs. rewrite list_elem_of_filter, elem_of_seqZ. unfold numPCRs, uint32.
  split; intros [? ?]; (split; [|]); rewrite ?Z.mod_small in * by (cbn; lia); auto; lia.
Qed.

Lemma missing_bounds out : Forall (λ k, 0 ≤ k < numPCRs) (missing_pcrs out).
Proof. apply Forall_forall. intros i Hi%missing_spec. apply Hi. Qed.

Lemma none_missing value out : partial_bank value out → missing_pcrs out = [] → out = bank value.
Proof.
  intros Hp Hm. apply map_eq. intros i. rewrite bank_lookup. case_decide as Hi.
  - destruct (out !! i) as [d|] eqn:E; [by destruct (Hp i d E) as [_ ->]|].
    assert (i ∈ missing_pcrs out) as Hin by by apply missing_spec. rewrite Hm in Hin.
    by apply not_elem_of_nil in Hin.
  - destruct (out !! i) as [d|] eqn:E; [|done]. by destruct (Hp i d E).
Qed.

(** One more read: still correct values, and more of them if any was missing. *)
Lemma merge_progress value out ret :
  partial_bank value out → answers value ret (missing_pcrs out) →
  partial_bank value (merge_pcrs out ret) ∧
  (Z.to_nat numPCRs - size (merge_pcrs out ret) ≤ Nat.pred (Z.to_nat numPCRs - size out))%nat.
Proof.
  intros Hp Ha. pose proof (λ i, merge_lookup value out ret _ i Ha (missing_bounds out)) as Hl.
  assert (partial_bank value (merge_pcrs out ret)) as Hp'.
  { intros i d. rewrite Hl. case_decide as Hr; [|apply Hp]. intros [= <-].
    destruct Hr as [d Hd]. destruct Ha as [Ha _]. apply Ha in Hd as [Hd _].
    apply missing_spec in Hd as [? _]. done. }
  split; [done|]. destruct (decide (missing_pcrs out = [])) as [Hm|Hm].
  { pose proof (none_missing _ _ Hp Hm) as ->. rewrite size_bank.
    pose proof (map_subseteq_size _ _ (partial_bank_subset _ _ Hp')) as Hs.
    assert (bank value ⊆ merge_pcrs (bank value) ret) as Hsub.
    { apply map_subseteq_spec. intros i d Hi. rewrite Hl. case_decide; [|done].
      destruct (Hp i d Hi) as [_ ->]. done. }
    apply map_subseteq_size in Hsub. rewrite size_bank in Hsub. lia. }
  assert (out ⊂ merge_pcrs out ret) as Hsub.
  { apply map_subset_alt. split.
    - apply map_subseteq_spec. intros i d Hi. rewrite Hl. case_decide; [|done].
      by destruct (Hp i d Hi) as [_ ->].
    - destruct Ha as [Ha Hne]. destruct (map_choose ret (Hne Hm)) as (i & d & Hd).
      exists i. destruct (Ha i d Hd) as [Hi%missing_spec _]. split; [apply Hi|].
      rewrite Hl, decide_True by by eexists. by eexists. }
  apply map_subset_size in Hsub. lia.
Qed.

(** *** Filling the result *)
Definition bank_pcrs (value : Z → bytes) (hash : Z) : list PCR :=
  (λ i, mkPCR i (value i) hash false) <$> seqZ 0 numPCRs.

Lemma fill_pcrs_Ok hash entries out :
  Forall (λ kv, 0 ≤ kv.1 < zlen out) entries →
  ∃ out', fill_pcrs hash entries out = Ok out' ∧ length out' = length out ∧
    ∀ i, (∀ d, (i, d) ∉ entries) → out' !! Z.to_nat i = out !! Z.to_nat i ∨ i < 0.
Proof.
  revert out. induction entries as [|[k d] entries IH]; intros out Hf; cbn.
  { exists out. eauto. }
  apply Forall_cons in Hf as [Hk Hf]. cbn in Hk. rewrite (proj2 (Z.ltb_lt _ _)) by lia.
  destruct (IH (<[Z.to_nat k:=mkPCR k d hash false]> out)) as (out' & -> & Hlen & Hout).
  { eapply Forall_impl; [exact Hf|]. intros kv. unfold zlen. by rewrite length_insert. }
  exists out'. split; [done|]. split; [by rewrite Hlen, length_insert|].
  intros i Hi. destruct (Z.ltb_spec i 0); [by right|]. left.
  destruct (Hout i) as [->|]; [set_solver| |lia].
  apply list_lookup_insert_ne. intros E. apply (Hi d). rewrite elem_of_cons. left. f_equal. lia.
Qed.

Lemma fill_pcrs_entries hash entries out out' :
  NoDup entries.*1 → Forall (λ kv, 0 ≤ kv.1 < zlen out) entries →
  fill_pcrs hash entries out = Ok out' →
  ∀ i d, (i, d) ∈ entries → out' !! Z.to_nat i = Some (mkPCR i d hash false).
Proof.
  revert out. induction entries as [|[k e] entries IH]; intros out Hnd Hf E i d Hin.
  { by apply not_elem_of_nil in Hin. }
  apply Forall_cons in Hf as [Hk Hf]. cbn in Hk, Hnd. apply NoDup_cons in Hnd as [Hn Hnd].
  cbn in E. rewrite (proj2 (Z.ltb_lt _ _)) in E by lia.
  assert (Forall (λ kv, 0 ≤ kv.1 < zlen (<[Z.to_nat k:=mkPCR k e hash false]> out)) entries) as Hf'.
  { eapply Forall_impl; [exact Hf|]. intros kv. unfold zlen. by rewrite length_insert. }
  apply elem_of_cons in Hin as [[= -> ->]|Hin]; [|by eapply IH].
  destruct (fill_pcrs_Ok hash _ _ Hf') as (o & E' & _ & Ho). rewrite E in E'. injection E' as <-.
  destruct (Ho k) as [->|]; [|apply list_lookup_insert_eq; unfold zlen in Hk; lia|lia].
  intros d' Hd'. apply Hn. apply list_elem_of_fmap. by exists (k, d').
Qed.

Lemma bank_pcrs_lookup value hash n :
  (n < Z.to_nat numPCRs)%nat →
  bank_pcrs value hash !! n = Some (mkPCR (Z.of_nat n) (value (Z.of_nat n)) hash false).
Proof.
  intros Hn. unfold bank_pcrs. rewrite list_lookup_fmap, lookup_seqZ_lt by lia. cbn. done.
Qed.

(** Indices 0 to 23, whatever the order of the iteration: the list in order. *)
Lemma fill_pcrs_bank hash value out :
  length out = Z.to_nat numPCRs →
  fill_pcrs hash (map_range (bank value)) out = Ok (bank_pcrs value hash).
Proof.
  intros Hlen.
  assert (Forall (λ kv, 0 ≤ kv.1 < zlen out) (map_range (bank value))) as Hf.
  { apply Forall_forall. intros [k d]. rewrite (map_range_perm _ (bank value)).
    intros Hk%elem_of_map_to_list. rewrite bank_lookup in Hk. unfold zlen. rewrite Hlen.
    case_decide; [|done]. cbn. unfold numPCRs in *. lia. }
  destruct (fill_pcrs_Ok hash _ _ Hf) as (out' & E & Hl & _). rewrite E. f_equal.
  assert (NoDup (map_range (bank value)).*1) as Hnd.
  { rewrite (map_range_perm _ (bank value)). apply NoDup_fst_map_to_list. }
  apply list_eq_same_length with (n := Z.to_nat numPCRs).
  { unfold bank_pcrs. by rewrite length_fmap, length_seqZ. }
  { by rewrite Hl. }
  intros n x y Hn. rewrite bank_pcrs_lookup by done.
  assert (out' !! n = Some (mkPCR (Z.of_nat n) (value (Z.of_nat n)) hash false)) as ->; [|congruence].
  rewrite <- (Nat2Z.id n) at 1.
  apply (fill_pcrs_entries hash _ _ _ Hnd Hf E). rewrite (map_range_perm _ (bank value)).
  apply elem_of_map_to_list. rewrite bank_lookup, decide_True; [done|]. unfold numPCRs in *. lia.
Qed.

Lemma fill_pcrs_bounds hash entries out out' :
  fill_pcrs hash entries out = Ok out' → Forall (λ kv, kv.1 < zlen out) entries.
Proof.
  revert out. induction entries as [|[k d] entries IH]; intros out E; [constructor|].
  cbn in E. destruct (Z.ltb_spec k (zlen out)); [|done]. constructor; [done|].
  apply IH in E. eapply Forall_impl; [exact E|]. intros kv. unfold zlen. by rewrite length_insert.
Qed.

Lemma merge_keys out ret :
  (∀ i, is_Some (out !! i) → 0 ≤ i) → ∀ i, is_Some (merge_pcrs out ret !! i) → 0 ≤ i.
Proof.
  unfold merge_pcrs. revert out. induction (map_range ret) as [|[k d] l IH]; intros out Ho; [done|].
  cbn. apply IH. intros i. destruct (decide (i = uint32 k)) as [->|].
  - intros _. apply Z.mod_pos_bound. lia.
  - rewrite lookup_insert_ne by done. apply Ho.
Qed.
End Maps.

Section Theorems.
Context {D : Type} `{TPM2Channel D, GoCrypto, GoTPM, GoRuntime, X509, Encodings}.

Lemma read_pcrs_complete alg value n out d :
  truthful alg value → partial_bank (value d) out →
  (Z.to_nat numPCRs - size out ≤ n)%nat →
  ∃ d', read_pcrs n alg out d = (Ok (bank (value d)), d') ∧ value d' = value d.
Proof.
  intros Ht. revert out d. induction n as [|n IH]; intros out d Hp Hn.
  { exists d. split; [|done]. cbn. unfold mret, M_ret. do 2 f_equal.
    apply partial_bank_full; [done|]. pose proof (map_subseteq_size _ _ (partial_bank_subset _ _ Hp)) as Hs.
    rewrite size_bank in Hs. lia. }
  cbn [read_pcrs]. specialize (Ht (missing_pcrs out) d) as Hr.
  destruct (tpm2_ReadPCRs _ d) as [[ret| | |] d'] eqn:E; [|done..]. destruct Hr as [Ha Hv].
  erewrite bind_Ok by (by apply wrapM_Ok).
  destruct (merge_progress _ _ _ Hp Ha) as [Hp' Hs].
  destruct (Z.eqb_spec (Z.of_nat (size (merge_pcrs out ret))) numPCRs) as [Hf|Hf].
  { exists d'. split; [|done]. unfold mret, M_ret. do 2 f_equal.
    apply partial_bank_full; [done|]. by rewrite <- Hf, Nat2Z.id. }
  rewrite <- Hv in Hp' |- *. destruct (IH _ d' Hp') as (d2 & ? & ?); [lia|]. exists d2. eauto with congruence.
Qed.

Lemma readAllPCRs20_complete alg value d :
  truthful alg value →
  ∃ d', readAllPCRs20 alg d = (Ok (bank (value d)), d') ∧ value d' = value d.
Proof.
  intros Ht. destruct (read_pcrs_complete alg value (Z.to_nat numPCRs) ∅ d Ht) as (d' & E & Hv);
    [done|lia|]. exists d'. split; [|done]. unfold readAllPCRs20. erewrite bind_Ok by exact E.
  rewrite size_bank. done.
Qed.

Lemma read_pcrs_keys alg n out d m d' :
  (∀ i, is_Some (out !! i) → 0 ≤ i) → read_pcrs n alg out d = (Ok m, d') →
  ∀ i, is_Some (m !! i) → 0 ≤ i.
Proof.
  revert out d. induction n as [|n IH]; intros out d Ho E; cbn [read_pcrs] in E.
  { by inv_ok E. }
  apply bind_Ok_inv in E as (ret & d1 & _ & E). pose proof (merge_keys out ret Ho) as Hm.
  case_match; [by inv_ok E|]. by eapply IH.
Qed.

(** Whatever the device answers, what becomes of it is a bank in order. *)
Lemma readAllPCRs20_shape alg hash d m d' out :
  readAllPCRs20 alg d = (Ok m, d') →
  fill_pcrs hash (map_range m) (repeat (mkPCR 0 [] 0 false) (size m)) = Ok out →
  ∃ value, out = bank_pcrs value hash.
Proof.
  intros Er E. unfold readAllPCRs20 in Er. apply bind_Ok_inv in Er as (m1 & d2 & Hr & Er).
  apply bind_Ok_inv in Er as ([] & d3 & [Hs ->]%reject_if_Ok_inv & Er). injection Er as -> _.
  apply negb_false_iff, Z.eqb_eq in Hs.
  assert (∀ i, is_Some (m !! i) → 0 ≤ i) as Hk.
  { eapply read_pcrs_keys; [|exact Hr]. intros i. rewrite lookup_empty. by intros []. }
  pose proof (fill_pcrs_bounds _ _ _ _ E) as Hb. exists (λ i, default [] (m !! i)).
  assert (m = bank (λ i, default [] (m !! i))) as Hmb.
  { apply partial_bank_full; [|unfold numPCRs in *; lia]. intros i v Hi. rewrite Hi. split; [|done].
    rewrite Forall_forall in Hb. specialize (Hb (i, v)). unfold zlen in Hb.
    rewrite repeat_length, Hs in Hb. split; [by apply Hk|]. apply Hb.
    rewrite (map_range_perm _ m). by apply elem_of_map_to_list. }
  rewrite Hmb, fill_pcrs_bank in E.
  - by injection E as <-.
  - rewrite repeat_length. by apply size_bank.
Qed.

Lemma pcrs_shape alg (w : world D) out w' :
  pcrs alg w = (Ok out, w') → ∃ value, out = bank_pcrs value (cryptoHash alg).
Proof.
  unfold pcrs. intros (m & w1 & Hm & E)%bind_Ok_inv. apply wrapM_Ok_inv in Hm.
  apply lift_res_Ok_inv in E as [E _]. unfold dev in Hm.
  destruct (readAllPCRs20 _ _) as [[m0| | |] d1] eqn:Er; [|done..]. injection Hm as -> _.
  by eapply readAllPCRs20_shape.
Qed.

(** C10: A device that answers each request truthfully for at least one of the
    registers asked for (the TPM may fulfil a request partially) is read
    completely within the 24 iterations: [pcrs] returns the 24 registers of
    the bank in order of their index, with the values of the device and the
    hash of the bank, in whatever order the map is visited. *)
Theorem pcrs_complete alg (value : D → Z → bytes) w :
  truthful (goTPMAlg alg) value →
  ∃ w', pcrs alg w = (Ok (bank_pcrs (value (w_dev w)) (cryptoHash alg)), w') ∧
        value (w_dev w') = value (w_dev w).
Proof.
  intros Ht. destruct (readAllPCRs20_complete _ value (w_dev w) Ht) as (d' & E & Hv).
  unfold pcrs. erewrite bind_Ok; [|apply wrapM_Ok; unfold dev; by rewrite E].
  unfold lift_res. rewrite fill_pcrs_bank by (rewrite repeat_length; apply size_bank).
  eexists. split; [reflexivity|]. done.
Qed.
End Theorems.

(** ** A device that answers for eight registers at a time *)
Section Witnesses.
#[local] Existing Instance sha_crypto.
#[local] Existing Instance std_runtime.

Definition ex_value (i : Z) : bytes := be_bytes 4 (i + 1).
Definition ex_bank : replies := {|
  rep_public _ := Err (LibErr "no such handle");
  rep_created := mkCreated [] [] [] [] [];
  rep_certified := ([], []);
  rep_activated := [];
  rep_quote _ _ := Err (LibErr "no such bank");
  rep_pcrs sel := list_to_map ((λ i, (i, ex_value i)) <$> take 8 (sel_PCRs sel));
  rep_nv _ := Err (LibErr "no such index");
  rep_signature _ := mkSignature 0x14 None None;
  rep_property _ := [];
  rep_log := [];
|}.

Lemma ex_bank_truthful alg : truthful (H := sim ex_bank) alg (λ _, ex_value).
Proof.
  intros sel d. cbn. split; [|done]. split.
  - intros i x Hx%elem_of_list_to_map_2. apply list_elem_of_fmap in Hx as (j & [= -> ->] & Hj).
    split; [|done]. apply list_elem_of_lookup in Hj as [k Hk].
    apply lookup_take_Some in Hk as [Hk _]. by eapply list_elem_of_lookup_2.
  - destruct sel as [|i sel]; [done|]. intros _. cbn. apply insert_non_empty.
Qed.

Lemma pcrs_complete_witness :
  truthful (H := sim ex_bank) tpm2.AlgSHA256 (λ _, ex_value) ∧
  ∃ w', pcrs (H := sim ex_bank) HashSHA256 (mkWorld init_heap None None ∅)
    = (Ok (bank_pcrs ex_value crypto_SHA256), w').
Proof.
  split; [apply ex_bank_truthful|].
  destruct (pcrs_complete (H := sim ex_bank) HashSHA256 (λ _, ex_value)
    (mkWorld init_heap None None ∅) (ex_bank_truthful _)) as (w' & E & _).
  exists w'. exact E.
Defined.
End Witnesses.
