(* ===== verification/Platform.v ===== *)
(** * Platform attestation ([TPM] in [attest/tpm.go], [AK] in [attest/attest.go])

    [AttestPlatform] reads the PCR banks, has the AK quote them and checks the
    result before handing it out.  It is written against the interfaces
    [tpmBase] and [ak], here the class [tpmBase]; the TPM 2.0 driver is an
    instance.  What it returns is what [VerifyAll] accepts. *)
From S2P Require Import Prelude GoBytes GoCrypto GoRuntime Attest Tpm2 Quote.
From S2P Require Import Activation.
From S2P Require Import Templates.
From S2P Require Import Channel.
From S2P Require Import EKCert.
From S2P Require Import Wrapped20.
From S2P Require Import PcrBank.

(** ** The interfaces *)

(** The methods of [tpmBase] and [ak] that attestation uses: [W] is the state
    of the TPM, [K] the implementation of [ak]. *)
Class tpmBase (W K : Type) := {
  tpmVersion : Z;
  base_pcrs : Z → M W (list PCR);
  base_measurementLog : M W bytes;
  (** the PCRs selected, [None] for a nil slice *)
  ak_quote : K → bytes → Z → option (list Z) → M W Quote;
  ak_attestationParameters : K → AttestationParameters;
}.

(** What an implementation for TPM 2.0 promises: the PCRs of a bank come with
    its hash and unverified, and a quote is a TPM 2.0 quote of the bank asked
    for, if it is one of those the package names. *)
Class tpmBaseLaws {W K} `{GoTPM} (base : tpmBase W K) : Prop := {
  base_version : tpmVersion = TPMVersion20;
  base_pcrs_bank alg w out w' : base_pcrs alg w = (Ok out, w') →
    Forall (λ p, pcr_DigestAlg p = cryptoHash alg ∧ pcr_quoteVerified p = false) out;
  ak_quote_version k nonce alg sel w q w' :
    ak_quote k nonce alg sel w = (Ok q, w') → q_Version q = TPMVersion20;
  ak_quote_bank k nonce alg sel w q w' att info :
    alg ∈ [HashSHA1; HashSHA256] → ak_quote k nonce alg sel w = (Ok q, w') →
    tpm2_DecodeAttestationData (q_Quote q) = Ok att → att_AttestedQuoteInfo att = Some info →
    sel_Hash (qi_PCRSelection info) = alg;
}.

(** ** Data *)
Record PlatformParameters := mkPlatform {
  pp_TPMVersion : Z;
  pp_Public : bytes;
  pp_Quotes : list Quote;
  pp_PCRs : list PCR;
  pp_EventLog : bytes;
}.
Record PlatformAttestConfig := mkAttestConfig { pac_EventLog : option bytes }.

(** ** The code *)
Section Platform.
Context {W K : Type} `{GoCrypto, GoTPM, GoRuntime, !tpmBase W K}.

(** [AK.Quote] and [AK.QuotePCRs] *)
Definition QuotePCRs (ak : K) (nonce : bytes) (alg : Z) (pcrs : option (list Z)) : M W Quote :=
  ak_quote ak nonce alg pcrs.
Definition AK_Quote (ak : K) (nonce : bytes) (alg : Z) : M W Quote :=
  ak_quote ak nonce alg (Some (seqZ 0 24)).

Definition MeasurementLog : M W bytes :=
  el ← base_measurementLog;
  _ ← reject_if (zlen el <? 28) (Errorf "event log too short: %d < %d");
  mret el.

(** [pub.Verify] works on the slice [pcrs] in place. *)
Definition attestPCRs (ak : K) (nonce : bytes) (alg : Z) : M W (Quote * list PCR) :=
  pcrs ← wrapM "failed to read %v PCRs: %v" (base_pcrs alg);
  quote ← wrapM "failed to quote using %v: %v" (AK_Quote ak nonce alg);
  pub ← lift_res (wrapf "failed to parse AK public: %v"
          (ParseAKPublic tpmVersion (ap_Public (ak_attestationParameters ak))));
  let verified := Quote.Verify pub quote nonce pcrs in
  _ ← lift_res (wrapf "local quote verification failed: %v" verified.1);
  mret (quote, verified.2).

(** [for _, alg := range algs], with the results so far and [lastErr]. *)
Fixpoint attest_banks (ak : K) (nonce : bytes) (algs : list Z) (quotes : list Quote)
    (pcrs : list PCR) (lastErr : option error) : M W (list Quote * list PCR * option error) :=
  match algs with
  | [] => mret (quotes, pcrs, lastErr)
  | alg :: algs =>
      try (attestPCRs ak nonce alg)
        (λ qp, attest_banks ak nonce algs (quotes ++ [qp.1]) (pcrs ++ qp.2) lastErr)
        (λ err, attest_banks ak nonce algs quotes pcrs (Some err))
  end.

(** [nil, lastErr] with a nil [lastErr] would be the result [None]. *)
Definition attestPlatform (ak : K) (nonce eventLog : bytes) : M W (option PlatformParameters) :=
  let algs := if tpmVersion =? TPMVersion20 then [HashSHA1; HashSHA256] else [HashSHA1] in
  out ← attest_banks ak nonce algs [] [] None;
  let '(quotes, pcrs, lastErr) := out in
  if zlen quotes =? 0 then
    match lastErr with
    | Some err => fail err
    | None => mret None
    end
  else mret (Some (mkPlatform tpmVersion (ap_Public (ak_attestationParameters ak)) quotes pcrs eventLog)).

Definition AttestPlatform (ak : K) (nonce : bytes) (config : option PlatformAttestConfig)
    : M W (option PlatformParameters) :=
  let config := default (mkAttestConfig None) config in
  el ← (match pac_EventLog config with
        | Some el => mret el
        | None => wrapM "failed to read event log: %v" MeasurementLog
        end);
  attestPlatform ak nonce el.
End Platform.

(** ** The TPM 2.0 driver as an instance *)
Section Instance20.
Context {D : Type} `{TPM2Channel D, GoCrypto, GoTPM, GoRuntime, X509, Encodings}.

#[export] Instance wrappedTPM20_base : tpmBase (world D) wrappedKey20 := {|
  tpmVersion := TPMVersion20;
  base_pcrs := pcrs;
  base_measurementLog := measurementLog;
  ak_quote k nonce alg sel := key_quote k tpmWrapped20 nonce alg (default [] sel);
  ak_attestationParameters := attestationParameters;
|}.

(** The TPM quotes the bank it is asked to quote. *)
Definition quotes_bank : Prop := ∀ k nonce sel d quote sig d' att info,
  tpm2_Quote k nonce sel d = (Ok (quote, sig), d') →
  tpm2_DecodeAttestationData quote = Ok att → att_AttestedQuoteInfo att = Some info →
  sel_Hash (qi_PCRSelection info) = sel_Hash sel.

Lemma quote20_inv akHandle alg nonce sel (d : D) q d' :
  quote20 akHandle alg nonce sel d = (Ok q, d') →
  q_Version q = TPMVersion20 ∧
  ∃ sig d1, tpm2_Quote akHandle nonce (mkSelection alg sel) d = (Ok (q_Quote q, sig), d1).
Proof.
  unfold quote20. intros ([quote sig] & d1 & Hq & E)%bind_Ok_inv.
  inv_ok E. cbn. eauto.
Qed.

Lemma wrappedTPM20_laws : quotes_bank → tpmBaseLaws wrappedTPM20_base.
Proof.
  assert (∀ k nonce alg sel (w : world D) q w',
    key_quote k tpmWrapped20 nonce alg sel w = (Ok q, w') →
    ∃ d', quote20 (wk_hnd k) alg nonce sel (w_dev w) = (Ok q, d')) as Hdev.
  { intros k nonce alg sel w q w'. unfold key_quote.
    erewrite bind_Ok by reflexivity. unfold dev.
    destruct (quote20 _ _ _ _ _) as [r d']. intros E. injection E as -> _. by exists d'. }
  intros Hb. constructor; cbn.
  - done.
  - intros alg w out w' [value ->]%pcrs_shape. unfold bank_pcrs.
    apply Forall_fmap, Forall_true. done.
  - intros k nonce alg sel w q w' [d' E]%Hdev. by apply quote20_inv in E as [? _].
  - intros k nonce alg sel w q w' att info _ [d' E]%Hdev Hatt Hinfo.
    apply quote20_inv in E as (_ & sig & d1 & Hq).
    by apply (Hb _ _ _ _ _ _ _ _ _ Hq Hatt Hinfo).
Qed.
End Instance20.

(** ** Verification of several banks *)
Section Banks.
Context `{GoCrypto, GoTPM, !GoTPMLaws, GoRuntime}.

(** PCRs of one bank, and PCRs of other banks. *)
Definition of_bank (h : Z) (pcrs : list PCR) : Prop := Forall (λ p, pcr_DigestAlg p = h) pcrs.
Definition off_bank (h : Z) (pcrs : list PCR) : Prop := Forall (λ p, pcr_DigestAlg p ≠ h) pcrs.

Lemma last_digest_none h pcrs i : off_bank h pcrs → last_digest h pcrs i = None.
Proof.
  intros Ho. unfold last_digest. replace (filter _ pcrs) with (@nil PCR); [done|].
  symmetry. induction Ho as [|p pcrs Hp Ho IH]; [done|].
  rewrite filter_cons, decide_False; [done|]. by intros [_ ?].
Qed.

Lemma last_digest_off h l r pcrs i :
  off_bank h l → off_bank h r → last_digest h (l ++ pcrs ++ r) i = last_digest h pcrs i.
Proof.
  intros Hl Hr. induction Hl as [|p l Hp Hl IH]; cbn [app].
  - induction pcrs as [|p pcrs IH]; cbn [app]; [by apply last_digest_none|].
    by rewrite !last_digest_cons, IH.
  - rewrite last_digest_cons, IH. destruct (last_digest h pcrs i); [done|].
    rewrite decide_False; [done|]. by intros [_ ?].
Qed.

Lemma mark_quoted_off qs h pcrs : off_bank h pcrs → mark_quoted qs h <$> pcrs = pcrs.
Proof.
  induction 1 as [|p pcrs Hp Ho IH]; [done|]. rewrite fmap_cons, IH. f_equal. unfold mark_quoted.
  rewrite (proj2 (Z.eqb_neq _ _)) by done. by rewrite andb_false_r.
Qed.

(** A quote of a bank does not look at the PCRs of other banks. *)
Lemma validate20Quote_frame a quote nonce h pcrs pcrs' l r :
  hash_available (ak_Hash a) = true →
  (∀ att info, tpm2_DecodeAttestationData (q_Quote quote) = Ok att →
     att_AttestedQuoteInfo att = Some info →
     cryptoHash (HashAlg_of (sel_Hash (qi_PCRSelection info))) = h) →
  off_bank h l → off_bank h r →
  validate20Quote a quote nonce pcrs = (Ok tt, pcrs') →
  validate20Quote a quote nonce (l ++ pcrs ++ r) = (Ok tt, l ++ pcrs' ++ r).
Proof.
  intros Ha Hbank Hl Hr (alg & sel & Hq & ->)%(validate20Quote_Ok a quote nonce pcrs pcrs' Ha).
  apply validate20Quote_Ok; [done|].
  destruct Hq as (pub & sg & sr & att & info & ds & Hp & Hsig & Hsr & Hv & Hatt & Ht & Hn & Hinfo
    & Halg & Hsel & Hds & Hall & Hd).
  specialize (Hbank att info Hatt Hinfo). rewrite <- Halg in Hbank. subst h.
  exists alg, sel. split.
  - exists pub, sg, sr, att, info, ds. split_and!; try done.
    + rewrite <- Hds. apply mapM_ext_lookup. intros i. by apply last_digest_off.
    + rewrite !Forall_app. split_and!; [|done|]; eapply Forall_impl; eauto; cbn; congruence.
  - by rewrite !fmap_app, (mark_quoted_off _ _ l), (mark_quoted_off _ _ r).
Qed.

(** Verification changes flags only, so it keeps the bank. *)
Lemma of_bank_unflag h pcrs : of_bank h pcrs ↔ of_bank h (unflag <$> pcrs).
Proof. unfold of_bank. rewrite Forall_fmap. done. Qed.
Lemma of_bank_off h h' pcrs : h ≠ h' → of_bank h pcrs → off_bank h' pcrs.
Proof. intros Hne Hb. eapply Forall_impl; [exact Hb|]. cbn. congruence. Qed.

(** A bank as [attestPCRs] returns it. *)
Definition attested (a : AKPublic) (nonce : bytes) (alg : Z) (quote : Quote) (pcrs : list PCR) : Prop :=
  of_bank (cryptoHash alg) pcrs ∧ q_Version quote = TPMVersion20 ∧
  (∀ att info, tpm2_DecodeAttestationData (q_Quote quote) = Ok att →
     att_AttestedQuoteInfo att = Some info → sel_Hash (qi_PCRSelection info) = alg) ∧
  validate20Quote a quote nonce (unflag <$> pcrs) = (Ok tt, pcrs).

Lemma attested_frame a nonce alg quote pcrs l r :
  hash_available (ak_Hash a) = true → HashAlg_of alg = alg → attested a nonce alg quote pcrs →
  off_bank (cryptoHash alg) l → off_bank (cryptoHash alg) r →
  Quote.Verify a quote nonce (l ++ (unflag <$> pcrs) ++ r) = (Ok tt, l ++ pcrs ++ r).
Proof.
  intros Ha Halg (Hb & Hv & Hs & Hval) Hl Hr. unfold Quote.Verify. rewrite Hv. cbn.
  eapply validate20Quote_frame; [done| |done..|exact Hval].
  intros att info Hatt Hinfo. by rewrite (Hs att info Hatt Hinfo), Halg.
Qed.
End Banks.

(** A bank is quoted as a whole: every PCR of it is covered. *)
Lemma attested_covered `{GoCrypto, GoTPM, !GoTPMLaws, GoRuntime} a nonce alg quote pcrs :
  hash_available (ak_Hash a) = true → HashAlg_of alg = alg → attested a nonce alg quote pcrs →
  Forall (λ p, QuoteVerified p = true) pcrs.
Proof.
  intros Ha Halg (Hb & _ & Hs & (alg' & sel & Hq & E)%validate20Quote_Ok); [|done].
  destruct Hq as (pub & sg & sr & att & info & ds & _ & _ & _ & _ & Hatt & _ & _ & Hinfo & Hal & _ & _ & Hall & _).
  rewrite (Hs att info Hatt Hinfo), Halg in Hal. subst alg'. rewrite E, <- list_fmap_compose.
  apply Forall_fmap, Forall_forall. intros p Hp. unfold compose, mark_quoted.
  unfold of_bank in Hb. rewrite Forall_forall in Hall, Hb. specialize (Hall (unflag p) (list_elem_of_fmap_2 _ _ _ Hp) (Hb p Hp)).
  specialize (Hb p Hp).
  rewrite bool_decide_eq_true_2 by (by apply elem_of_list_to_set).
  apply Z.eqb_eq in Hb. change (pcr_DigestAlg (unflag p)) with (pcr_DigestAlg p). by rewrite Hb.
Qed.

Section Theorems.
Context {W K : Type} `{GoCrypto, GoTPM, !GoTPMLaws, GoRuntime} {base : tpmBase W K}.
Context `{!tpmBaseLaws base}.

Lemma validate20_values a quote nonce pcrs pcrs' :
  hash_available (ak_Hash a) = true → validate20Quote a quote nonce pcrs = (Ok tt, pcrs') →
  unflag <$> pcrs' = unflag <$> pcrs.
Proof.
  intros Ha (alg & sel & _ & ->)%validate20Quote_Ok; [|done]. rewrite <- list_fmap_compose.
  apply list_fmap_ext. intros _ p _. unfold compose, mark_quoted. by destruct (_ && _).
Qed.

Lemma unflag_fresh pcrs : Forall (λ p, pcr_quoteVerified p = false) pcrs → unflag <$> pcrs = pcrs.
Proof.
  induction 1 as [|p pcrs Hp _ IH]; [done|]. rewrite fmap_cons, IH. f_equal. destruct p.
  cbn in Hp. by subst.
Qed.

Lemma attestPCRs_inv ak nonce alg w q ps w' :
  alg ∈ [HashSHA1; HashSHA256] → attestPCRs ak nonce alg w = (Ok (q, ps), w') →
  ∃ a, ParseAKPublic TPMVersion20 (ap_Public (ak_attestationParameters ak)) = Ok a ∧
       hash_available (ak_Hash a) = true ∧ attested a nonce alg q ps.
Proof.
  unfold attestPCRs. intros Halg (pcrs & w1 & Hp & E)%bind_Ok_inv.
  apply wrapM_Ok_inv in Hp. apply bind_Ok_inv in E as (quote & w2 & Hq & E). apply wrapM_Ok_inv in Hq.
  apply bind_Ok_inv in E as (a & w3 & [Ha ->]%lift_res_Ok_inv & E). apply wrapf_Ok_inv in Ha.
  apply bind_Ok_inv in E as ([] & w4 & [Hv ->]%lift_res_Ok_inv & E). apply wrapf_Ok_inv in Hv.
  injection E as -> <- ->. rewrite base_version in Ha. exists a. split; [done|].
  assert (hash_available (ak_Hash a) = true) as Hav by (by eapply ParseAKPublic_returns).
  split; [done|].
  pose proof (base_pcrs_bank _ _ _ _ Hp) as Hb. apply Forall_and in Hb as [Hb Hf].
  assert (q_Version q = TPMVersion20) as Hver by (by eapply ak_quote_version).
  assert (validate20Quote a q nonce pcrs = (Ok tt, (Quote.Verify a q nonce pcrs).2)) as Hval.
  { rewrite <- Hv. unfold Quote.Verify. rewrite Hver. cbn. by destruct (validate20Quote _ _ _ _). }
  pose proof (validate20_values _ _ _ _ _ Hav Hval) as Hu.
  split_and!; [|done| |].
  - rewrite of_bank_unflag, Hu, <- of_bank_unflag. done.
  - intros att info. by eapply ak_quote_bank.
  - by rewrite Hu, unflag_fresh.
Qed.

Lemma try_inv {S A B} (m : M S A) (f : A → M S B) g s b s' :
  try m f g s = (Ok b, s') →
  (∃ a s1, m s = (Ok a, s1) ∧ f a s1 = (Ok b, s')) ∨ (∃ e s1, m s = (Err e, s1) ∧ g e s1 = (Ok b, s')).
Proof. unfold try. destruct (m s) as [[]]; naive_solver. Qed.

(** What the banks collected so far are good for. *)
Definition collected (ak : K) (nonce : bytes) (quotes : list Quote) (pcrs : list PCR) : Prop :=
  quotes = [] ∧ pcrs = [] ∨
  ∃ a, ParseAKPublic TPMVersion20 (ap_Public (ak_attestationParameters ak)) = Ok a ∧
       hash_available (ak_Hash a) = true ∧ quotes ≠ [] ∧ Forall (λ q, q_Version q = TPMVersion20) quotes ∧
       Forall (λ p, QuoteVerified p = true) pcrs ∧
       verify_quotes a quotes nonce (unflag <$> pcrs) = (Ok tt, pcrs).

Lemma verify_one a nonce alg q ps :
  hash_available (ak_Hash a) = true → HashAlg_of alg = alg → attested a nonce alg q ps →
  verify_quotes a [q] nonce (unflag <$> ps) = (Ok tt, ps).
Proof.
  intros Ha Halg Hat. cbn [verify_quotes]. 
  pose proof (attested_frame a nonce alg q ps [] [] Ha Halg Hat) as Hv.
  cbn [app] in Hv. rewrite !app_nil_r in Hv. erewrite bind_Ok; [done|].
  apply wrapM_Ok, Hv; constructor.
Qed.

Lemma collected_one ak nonce alg a q ps :
  ParseAKPublic TPMVersion20 (ap_Public (ak_attestationParameters ak)) = Ok a →
  hash_available (ak_Hash a) = true → HashAlg_of alg = alg → attested a nonce alg q ps →
  ∃ a, ParseAKPublic TPMVersion20 (ap_Public (ak_attestationParameters ak)) = Ok a ∧
    hash_available (ak_Hash a) = true ∧ [q] ≠ [] ∧ Forall (λ q, q_Version q = TPMVersion20) [q] ∧
    Forall (λ p, QuoteVerified p = true) ps ∧ verify_quotes a [q] nonce (unflag <$> ps) = (Ok tt, ps).
Proof.
  intros Ha Hav Halg Hq. exists a. split_and!; [done..| | |by apply (verify_one _ _ alg)].
  - constructor; [by destruct Hq as (_ & ? & _)|done].
  - by apply (attested_covered a nonce alg q).
Qed.

Lemma attest_both ak nonce w quotes pcrs lastErr w' :
  attest_banks ak nonce [HashSHA1; HashSHA256] [] [] None w = (Ok (quotes, pcrs, lastErr), w') →
  (quotes = [] → is_Some lastErr) ∧ collected ak nonce quotes pcrs.
Proof.
  cbn [attest_banks]. intros [([q1 p1] & w1 & Hq1 & Eb)|(e1 & w1 & _ & Eb)]%try_inv;
    apply try_inv in Eb as [([q2 p2] & w2 & Hq2 & Eb)|(e2 & w2 & _ & Eb)];
    injection Eb as <- <- <- _; cbn [fst snd app].
  - split; [done|]. right.
    apply attestPCRs_inv in Hq1 as (a & Ha & Hav & Hq1); [|by left].
    apply attestPCRs_inv in Hq2 as (a' & Ha' & _ & Hq2); [|by right; left].
    rewrite Ha in Ha'. injection Ha' as <-. exists a.
    pose proof (attested_covered a nonce HashSHA1 q1 p1 Hav eq_refl Hq1) as Hc1.
    pose proof (attested_covered a nonce HashSHA256 q2 p2 Hav eq_refl Hq2) as Hc2.
    split_and!; [done..|repeat constructor; by destruct Hq1 as (_ & ? & _), Hq2 as (_ & ? & _)|by apply Forall_app|].
    cbn [verify_quotes]. rewrite fmap_app.
    pose proof (attested_frame a nonce HashSHA1 q1 p1 [] (unflag <$> p2) Hav eq_refl Hq1) as Hv1.
    pose proof (attested_frame a nonce HashSHA256 q2 p2 p1 [] Hav eq_refl Hq2) as Hv2.
    cbn [app] in Hv1. rewrite !app_nil_r in Hv2.
    erewrite bind_Ok; [|apply wrapM_Ok, Hv1].
    + erewrite bind_Ok; [done|]. apply wrapM_Ok, Hv2; [|constructor].
      eapply of_bank_off; [|apply Hq1]. done.
    + constructor.
    + eapply of_bank_off; [|rewrite <- of_bank_unflag; apply Hq2].
      done.
  - split; [by eexists|]. right. apply attestPCRs_inv in Hq1 as (a & Ha & Hav & Hq1); [|by left].
    by eapply (collected_one _ _ HashSHA1).
  - split; [by eexists|]. right. apply attestPCRs_inv in Hq2 as (a & Ha & Hav & Hq2); [|by right; left].
    by eapply (collected_one _ _ HashSHA256).
  - split; [by eexists|]. by left.
Qed.

Lemma attestPlatform_inv ak nonce el w out w' :
  attestPlatform ak nonce el w = (Ok out, w') →
  ∃ p, out = Some p ∧ pp_TPMVersion p = TPMVersion20 ∧
    pp_Public p = ap_Public (ak_attestationParameters ak) ∧ pp_EventLog p = el ∧
    pp_Quotes p ≠ [] ∧ collected ak nonce (pp_Quotes p) (pp_PCRs p).
Proof.
  unfold attestPlatform. rewrite base_version. cbn [Z.eqb]. 
  intros ([[quotes pcrs] lastErr] & w1 & Hb & E)%bind_Ok_inv. 
  apply attest_both in Hb as [Hl Hc]. destruct (Z.eqb_spec (zlen quotes) 0) as [Hq|Hq].
  - apply zlen_0 in Hq. destruct (Hl Hq) as [e ->]. done.
  - injection E as <- _. eexists. split; [done|]. cbn. split_and!; try done.
    intros ->. by apply Hq.
Qed.

Lemma AttestPlatform_inv ak nonce config w out w' :
  AttestPlatform ak nonce config w = (Ok out, w') →
  ∃ el w1, attestPlatform ak nonce el w1 = (Ok out, w') ∧
    match config ≫= pac_EventLog with Some el' => el = el' | None => 28 ≤ zlen el end.
Proof.
  unfold AttestPlatform. intros (el & w1 & Hel & E)%bind_Ok_inv. exists el, w1. split; [done|].
  destruct config as [[[el'|]]|]; cbn in Hel |- *; [by inv_ok Hel|..].
  all: apply wrapM_Ok_inv in Hel; unfold MeasurementLog in Hel;
    apply bind_Ok_inv in Hel as (l & w2 & _ & Hel);
    apply bind_Ok_inv in Hel as ([] & w3 & [Hlen _]%reject_if_Ok_inv & Hel);
    injection Hel as <- _; lia.
Qed.

Lemma attested_verifies ak nonce config w out w' :
  nonce ≠ [] → AttestPlatform ak nonce config w = (Ok out, w') →
  ∃ p a, out = Some p ∧ pp_TPMVersion p = TPMVersion20 ∧
    match config ≫= pac_EventLog with Some el => pp_EventLog p = el | None => 28 ≤ zlen (pp_EventLog p) end ∧
    pp_Public p = ap_Public (ak_attestationParameters ak) ∧
    ParseAKPublic (pp_TPMVersion p) (pp_Public p) = Ok a ∧ hash_available (ak_Hash a) = true ∧
    Forall (λ q, q_Version q = TPMVersion20) (pp_Quotes p) ∧
    verify_quotes a (pp_Quotes p) nonce (unflag <$> pp_PCRs p) = (Ok tt, pp_PCRs p) ∧
    VerifyAll a (pp_Quotes p) nonce (unflag <$> pp_PCRs p) = (Ok tt, pp_PCRs p).
Proof.
  intros Hn (el & w1 & E & Hel)%AttestPlatform_inv.
  apply attestPlatform_inv in E as (p & -> & Hv & Hpub & He & Hq & Hc).
  destruct Hc as [[? _]|(a & Ha & Hav & _ & Hq20 & Hall & Hver)]; [done|]. exists p, a. rewrite Hv, Hpub, He.
  split_and!; try done. unfold VerifyAll.
  erewrite bind_Ok; [|apply reject_if_Ok, Z.eqb_neq; intros Hz; by apply zlen_0 in Hz].
  erewrite bind_Ok; [|apply reject_if_Ok, Z.eqb_neq; intros Hz; by apply zlen_0 in Hz].
  erewrite bind_Ok by exact Hver. erewrite bind_Ok by reflexivity. cbv zeta. unfold id.
  apply reject_if_Ok. assert (filter (λ p, QuoteVerified p = false) (pp_PCRs p) = []) as ->; [|done].
  apply elem_of_nil_inv. intros x [Hx Hin]%list_elem_of_filter. rewrite Forall_forall in Hall.
  by rewrite (Hall x Hin) in Hx.
Qed.

(** C7: What [AttestPlatform] returns for a nonce that is not empty verifies,
    with a driver that satisfies the laws of TPM 2.0 ([tpmBaseLaws]: the version,
    PCRs not yet flagged, quotes of TPM 2.0 that name the bank they were asked
    for): the parameters are never nil without an error, the event log is the
    one configured or a measured log of at least 28 bytes, the public blob
    parses, and [VerifyAll] with the same nonce on the quotes and the PCR values
    received (their flags are not transmitted) accepts, every PCR covered, with
    the flags the platform saw. *)
Theorem AttestPlatform_verifies ak nonce config w out w' :
  nonce ≠ [] → AttestPlatform ak nonce config w = (Ok out, w') →
  ∃ p a, out = Some p ∧ pp_TPMVersion p = TPMVersion20 ∧
    match config ≫= pac_EventLog with Some el => pp_EventLog p = el | None => 28 ≤ zlen (pp_EventLog p) end ∧
    ParseAKPublic (pp_TPMVersion p) (pp_Public p) = Ok a ∧
    VerifyAll a (pp_Quotes p) nonce (unflag <$> pp_PCRs p) = (Ok tt, pp_PCRs p).
Proof.
  intros Hn (p & a & -> & Hv & He & _ & Ha & _ & _ & _ & Hver)%attested_verifies; [|done].
  exists p, a. by split_and!.
Qed.
End Theorems.

(** ** A platform whose SHA-1 bank is disabled *)
Section Witnesses.
#[local] Existing Instance sha_crypto.
#[local] Existing Instance std_runtime.

Definition ex_pnonce : bytes := str "nonce".
Definition ex_quoted : bytes := Sha.sha256 (concat (ex_value <$> seqZ 0 24)).
Definition ex_patt : AttestationData :=
  mkAttestation 0xff544347 tpm2.TagAttestQuote ex_pnonce
    (Some (mkQuoteInfo (mkSelection tpm2.AlgSHA256 (seqZ 0 24)) ex_quoted)) None None.
Definition ex_psig : Signature :=
  mkSignature 0x14 (Some (mkSignatureRSA tpm2.AlgSHA256 (str "signature"))) None.
#[local] Instance ex_ptpm : GoTPM :=
  fixed_tpm (mkPublic tpm2.AlgRSA tpm2.AlgSHA256 0
               (Some (mkRSAParams (Some (mkScheme 0x14 tpm2.AlgSHA256)) 2048 65537 (2 ^ 2047 + 1))) None)
    ex_patt ex_psig crypto_SHA256 (mkRawAttestation [] [] [] []) (mkRSA (2 ^ 2047 + 1) 65537)
    (λ _ s, bool_decide (s = str "signature")).
#[local] Instance ex_plaws : GoTPMLaws.
Proof. apply fixed_tpm_laws; [reflexivity|by eexists|done|done|by eexists|done]. Qed.

Definition ex_platform : replies := {|
  rep_public _ := Err (LibErr "no such handle");
  rep_created := mkCreated [] [] [] [] [];
  rep_certified := ([], []);
  rep_activated := [];
  rep_quote _ sel := if sel_Hash sel =? tpm2.AlgSHA256 then Ok (str "quote", ex_psig)
                     else Err (LibErr "no such bank");
  rep_pcrs := rep_pcrs ex_bank;
  rep_nv _ := Err (LibErr "no such index");
  rep_signature _ := ex_psig;
  rep_property _ := [];
  rep_log := repeat Byte.x00 32;
|}.
Definition ex_base : tpmBase (world (gset Z)) wrappedKey20 :=
  wrappedTPM20_base (H := sim ex_platform).
Lemma ex_base_quotes : quotes_bank (H := sim ex_platform).
Proof.
  intros k nonce sel d quote sig d' att info. cbn. unfold lift_res.
  destruct (Z.eqb_spec (sel_Hash sel) tpm2.AlgSHA256) as [Hs|]; [|done].
  intros _ [= <-] [= <-]. by rewrite Hs.
Qed.
Lemma ex_base_laws : tpmBaseLaws ex_base.
Proof. apply wrappedTPM20_laws, ex_base_quotes. Qed.

Definition ex_attest : res error (option PlatformParameters) * world (gset Z) :=
  AttestPlatform (tpmBase0 := ex_base) (mkWrapped 5 [] (str "public") [] [] []) ex_pnonce None
    (mkWorld init_heap None None ∅).

(** One quote comes out, over all 24 registers of the SHA-256 bank. *)
Lemma AttestPlatform_verifies_witness :
  ∃ p a, ex_attest.1 = Ok (Some p) ∧ length (pp_Quotes p) = 1%nat ∧ length (pp_PCRs p) = 24%nat ∧
    VerifyAll a (pp_Quotes p) ex_pnonce (unflag <$> pp_PCRs p) = (Ok tt, pp_PCRs p).
Proof.
  assert (∃ p, ex_attest.1 = Ok (Some p) ∧ length (pp_Quotes p) = 1%nat ∧
    length (pp_PCRs p) = 24%nat) as (p & Ep & H1 & H24).
  { eexists. split; [vm_compute; reflexivity|]. vm_compute. done. }
  destruct (AttestPlatform_verifies (base := ex_base) (tpmBaseLaws0 := ex_base_laws)
    (mkWrapped 5 [] (str "public") [] [] []) ex_pnonce None (mkWorld init_heap None None ∅)
    (Some p) ex_attest.2) as (p' & a & Hp & _ & _ & _ & Hv).
  - done.
  - rewrite <- Ep. unfold ex_attest. by destruct (AttestPlatform _ _ _ _).
  - injection Hp as <-. eauto 10.
Defined.
End Witnesses.
