(* ===== verification/KeyOps.v ===== *)
(** * Keys in use: signing, storing and loading, EK templates
    ([attest/wrapped_tpm20.go], [attest/application_key.go], [TPM.NewKey])

    The digest an ECDSA key signs, keys marshalled and loaded again, the
    configuration [NewKey] passes on, and what the sharing of template
    parameters between TPMs does to the default EK template. *)
From S2P Require Import Prelude GoBytes GoCrypto GoRuntime Attest Tpm2.
From S2P Require Import Activation.
From S2P Require Import Certification.
From S2P Require Import Templates.
From S2P Require Import Channel.
From S2P Require Import EKCert.
From S2P Require Import Wrapped20.
From S2P Require Import KeyHandles.

(** ** Signing *)

(** [crypto.SignerOpts]: a hash, or [*rsa.PSSOptions]. *)
Inductive SignerOpts := HashOpts (h : Z) | PSSOptions (saltLength h : Z).
Definition HashFunc (opts : SignerOpts) : Z :=
  match opts with HashOpts h => h | PSSOptions _ h => h end.
Definition PSSSaltLengthAuto : Z := 0.

(** [x.FillBytes(buf)] with a buffer of [n] bytes. *)
Definition FillBytes (n : nat) (x : Z) : res error bytes :=
  if x <? 2 ^ (8 * Z.of_nat n) then Ok (be_bytes n x) else Panic "math/big: buffer too small to fit value".

(** The digest [signECDSA] has the TPM sign. *)
Definition ecdsa_digest (orderBits : Z) (digest : bytes) : res error bytes :=
  let orderBytes := (orderBits + 7) / 8 in
  let digest := if orderBytes <? zlen digest then take (Z.to_nat orderBytes) digest else digest in
  let ret := be_uint digest in
  let excess := zlen digest * 8 - orderBits in
  let ret := if 0 <? excess then Z.shiftr ret excess else ret in
  FillBytes (length digest) ret.

Section Signing.
Context {D : Type} `{TPM2Channel D, Encodings}.

Definition signECDSA (key : Z) (digest : bytes) (curve : Z) : M D bytes :=
  digest ← lift_res (ecdsa_digest (curve_N_BitLen curve) digest);
  sig ← wrapM "cannot sign: %v" (tpm2_Sign key digest None);
  match sig_ECC sig with
  | None => fail (Errorf "expected ECDSA signature, got: %v")
  | Some ecc => lift_res (asn1_Marshal_RS (secc_R ecc) (secc_S ecc))
  end.

(** The scheme asked for: PKCS #1 v1.5, or PSS with a salt as long as the digest. *)
Definition rsa_scheme (h : Z) (digest : bytes) (opts : SignerOpts) : res error SigScheme :=
  match opts with
  | HashOpts _ => Ok (mkScheme tpm2.AlgRSASSA h)
  | PSSOptions salt _ =>
      _ ← reject (negb (salt =? PSSSaltLengthAuto) && negb (salt =? zlen digest))
            (Errorf "PSS salt length %d is incorrect, expected rsa.PSSSaltLengthAuto or %d");
      Ok (mkScheme tpm2.AlgRSAPSS h)
  end.

Definition signRSA (key : Z) (digest : bytes) (opts : SignerOpts) : M D bytes :=
  h ← lift_res (wrapf "incorrect hash algorithm: %v" (tpm2_HashToAlgorithm (HashFunc opts)));
  scheme ← lift_res (rsa_scheme h digest opts);
  sig ← wrapM "cannot sign: %v" (tpm2_Sign key digest (Some scheme));
  match sig_RSA sig with
  | None => fail (Errorf "expected RSA signature, got: %v")
  | Some rsa => mret (srsa_Signature rsa)
  end.

(** [wrappedKey20.sign] *)
Definition key_sign (k : wrappedKey20) (tb : tpm_impl) (digest : bytes) (pub : PublicKey)
    (opts : SignerOpts) : M (world D) bytes :=
  _ ← as_wrappedTPM20 tb;
  match pub with
  | PubECDSA curve _ _ => dev (signECDSA (wk_hnd k) digest curve)
  | PubRSA _ => dev (signRSA (wk_hnd k) digest opts)
  | PubOther _ => fail (Errorf "unsupported signing key type: %T")
  end.

(** ** [Key] *)

(** [Key.Private]: the signer has the fields of the key. *)
Definition Private (k : Key) (pub : PublicKey) : res error Key :=
  match pub, key_pub k with
  | PubRSA _, PubRSA _ | PubECDSA _ _ _, PubECDSA _ _ _ => Ok k
  | PubRSA _, _ | PubECDSA _ _ _, _ => Err (Errorf "incompatible public key types: %T != %T")
  | PubOther _, _ => Err (Errorf "unsupported public key type: %T")
  end.
(** [signer.Sign] *)
Definition Sign (s : Key) (digest : bytes) (opts : SignerOpts) : M (world D) bytes :=
  key_sign (key_key s) tpmWrapped20 digest (key_pub s) opts.

(** [TPM.NewKey] *)
Definition NewKey `{GoCrypto, GoTPM} (ak : ak_impl) (opts : option KeyConfig) : M (world D) Key :=
  let opts := match opts with None => defaultConfig | Some opts => opts end in
  let opts := if bool_decide (kc_Algorithm opts = ""%string) && (kc_Size opts =? 0)
              then defaultConfig else opts in
  newKey ak (Some opts).
End Signing.

(** ** Bits of a digest *)
Lemma be_uint_take (k : nat) b :
  (k ≤ length b)%nat → be_uint (take k b) = Z.shiftr (be_uint b) (8 * (zlen b - Z.of_nat k)).
Proof.
  intros Hk. unfold be_uint. rewrite <- (take_drop k b) at 2.
  rewrite reverse_app, le_combine_app, length_reverse, length_drop, Z.shiftr_lor.
  replace (8 * (zlen b - Z.of_nat k)) with (Z.of_nat (length b - k) * 8) by (unfold zlen; lia).
  rewrite Z.shiftr_shiftl_l by lia. rewrite Z.sub_diag, Z.shiftl_0_r.
  rewrite (Z.shiftr_div_pow2 (le_combine (reverse (drop k b)))) by lia. rewrite Z.div_small; [done|].
  pose proof (be_uint_bound (drop k b)) as Hb. unfold be_uint, zlen in Hb.
  rewrite length_drop in Hb. by rewrite (Z.mul_comm _ 8).
Qed.

Lemma FillBytes_Ok n x : 0 ≤ x < 2 ^ (8 * Z.of_nat n) → FillBytes n x = Ok (be_bytes n x).
Proof. intros Hx. unfold FillBytes. by rewrite (proj2 (Z.ltb_lt _ _)) by lia. Qed.

Lemma shiftr_bounds x n b : 0 ≤ x < b → 0 ≤ n → 0 ≤ Z.shiftr x n < b.
Proof.
  intros Hx Hn. rewrite Z.shiftr_div_pow2 by done. pose proof (Z.pow_pos_nonneg 2 n).
  split; [apply Z.div_pos; lia|]. apply Z.div_lt_upper_bound; nia.
Qed.

(** The integer an ECDSA signature is made over (FIPS 186-5, 6.4.1): the
    leftmost [orderBits] bits of the digest. *)
Definition leftmost_bits (orderBits : Z) (digest : bytes) : Z :=
  Z.shiftr (be_uint digest) (Z.max 0 (8 * zlen digest - orderBits)).

Lemma ecdsa_digest_spec orderBits digest :
  0 < orderBits →
  ∃ d, ecdsa_digest orderBits digest = Ok d ∧ be_uint d = leftmost_bits orderBits digest ∧
       zlen d = Z.min (zlen digest) ((orderBits + 7) / 8).
Proof.
  intros Hb. unfold ecdsa_digest, leftmost_bits.
  set (n := (orderBits + 7) / 8).
  assert (orderBits ≤ 8 * n < orderBits + 8) as Hn.
  { unfold n. pose proof (Z.div_mod (orderBits + 7) 8). pose proof (Z.mod_pos_bound (orderBits + 7) 8). lia. }
  set (cut := if n <? zlen digest then _ else _).
  assert (zlen cut = Z.min (zlen digest) n ∧
    be_uint cut = Z.shiftr (be_uint digest) (8 * (zlen digest - zlen cut))) as [Hlen Hcut].
  { unfold cut. destruct (Z.ltb_spec n (zlen digest)).
    - assert (zlen (take (Z.to_nat n) digest) = n) as Hz
        by (unfold zlen in *; rewrite length_take; lia).
      rewrite Hz. split; [lia|]. rewrite be_uint_take by (unfold zlen in *; lia).
      by rewrite Z2Nat.id by lia.
    - split; [lia|]. by rewrite Z.sub_diag. }
  pose proof (be_uint_bound cut) as Hc.
  set (ret := if 0 <? _ then _ else _).
  assert (ret = Z.shiftr (be_uint digest) (Z.max 0 (8 * zlen digest - orderBits)) ∧
          0 ≤ ret < 2 ^ (8 * zlen cut)) as [Hret Hbound].
  { unfold ret. destruct (Z.ltb_spec 0 (zlen cut * 8 - orderBits)).
    - split; [|apply shiftr_bounds; lia]. rewrite Hcut, Z.shiftr_shiftr by lia. f_equal. lia.
    - split; [|done]. rewrite Hcut. f_equal. lia. }
  exists (be_bytes (length cut) ret). split; [by apply FillBytes_Ok|].
  split; [by rewrite be_uint_be_bytes|]. unfold zlen at 1. by rewrite length_be_bytes.
Qed.

(** ** Marshalled keys *)
Definition with_handle (k : wrappedKey20) (h : Z) : wrappedKey20 :=
  mkWrapped h (wk_blob k) (wk_public k) (wk_createData k) (wk_createAttestation k)
    (wk_createSignature k).

Section Theorems.
Context {D : Type} `{TPM2Channel D, GoCrypto, GoTPM, GoRuntime, X509, Encodings}.

(** [signECDSA] has the TPM sign the leftmost bits of the digest, as many
    as the order of the curve has, never panics on the buffer it writes them
    to, and fails only with the TPM or when the signature is not an ECDSA one. *)
Theorem signECDSA_spec key digest curve (d : D) :
  0 < curve_N_BitLen curve →
  ∃ e, be_uint e = leftmost_bits (curve_N_BitLen curve) digest ∧
    zlen e = Z.min (zlen digest) ((curve_N_BitLen curve + 7) / 8) ∧
    signECDSA key digest curve d =
      (sig ← wrapM "cannot sign: %v" (tpm2_Sign key e None);
       lift_res (match sig_ECC sig with
                 | Some ecc => asn1_Marshal_RS (secc_R ecc) (secc_S ecc)
                 | None => Err (Errorf "expected ECDSA signature, got: %v")
                 end)) d.
Proof.
  intros Hb. destruct (ecdsa_digest_spec _ digest Hb) as (e & He & Hu & Hl).
  exists e. split_and!; [done..|]. unfold signECDSA. erewrite bind_Ok by (by apply lift_res_Ok).
  unfold mbind, M_bind. destruct (wrapM _ _ d) as [[sig| | |] d']; [|done..]. by destruct (sig_ECC sig).
Qed.

Lemma deserialize_marshal `{!EncodingsLaws} k b :
  marshal k = Ok b →
  deserializeKey b TPMVersion20 = Ok (mkSerialized keyEncodingEncrypted TPMVersion20 (wk_public k)
    (wk_createData k) (wk_createAttestation k) (wk_createSignature k) "" (wk_blob k)).
Proof.
  unfold marshal, deserializeKey. intros E%json_roundtrip. by rewrite E.
Qed.

(** C34: Loading a marshalled key issues [Load] for its blobs under the SRK and,
    when that succeeds, returns the same key under the new handle; a blob of
    another TPM version or encoding is rejected before any command is sent. *)
Theorem load_marshal_roundtrip `{!EncodingsLaws} k b parent (w : world D) :
  (marshal k = Ok b →
   loadAKWithParent b parent w =
     (hnd ← wrapM "cannot load attestation key: %v" (
        srk ← wrapM "failed to get SRK handle: %v" (getStorageRootKeyHandle parent);
        wrapM "Load() failed: %v" (dev (tpm2_Load srk.1 (wk_public k) (wk_blob k))));
      mret (with_handle k hnd)) w) ∧
  (∀ sk, json_Unmarshal b = Ok sk →
   sk_TPMVersion sk ≠ TPMVersion20 ∨ sk_Encoding sk ≠ keyEncodingEncrypted →
   ∃ e, loadAKWithParent b parent w = (Err e, w)).
Proof.
  unfold loadAKWithParent, deserializeAndLoad. split.
  - intros E%deserialize_marshal. rewrite E. cbn [wrapf].
    unfold mbind, M_bind, lift_res, wrapM, reject_if. cbn.
    destruct (getStorageRootKeyHandle parent w) as [[srk| | |] w1]; [|done..]. cbn.
    by destruct (dev _ w1) as [[] w2].
  - intros sk E Hsk. unfold deserializeKey. rewrite E. cbn [wrapf mbind res_bind].
    destruct (Z.eqb_spec (sk_TPMVersion sk) TPMVersion20) as [Hv|Hv]; [|by eexists].
    destruct Hsk as [?|He]; [done|]. apply Z.eqb_neq in He. cbn.
    unfold mbind, M_bind, lift_res, wrapM. cbn. rewrite He. by eexists.
Qed.

(** [NewKey] replaces a missing configuration, and one without algorithm
    and size, by the default one; the parent that such a configuration names
    is dropped with it, so the key is created under the default SRK. *)
Theorem NewKey_default ak opts parent (w : world D) :
  NewKey ak None w = newKey ak (Some defaultConfig) w ∧
  NewKey ak (Some (mkKeyConfig "" 0 (Some parent))) w = newKey ak (Some defaultConfig) w ∧
  (kc_Algorithm opts ≠ ""%string ∨ kc_Size opts ≠ 0 →
   NewKey ak (Some opts) w = newKey ak (Some opts) w).
Proof.
  split_and!; [done..|]. intros Ho. unfold NewKey.
  destruct (bool_decide _ && _) eqn:E; [|done].
  apply andb_prop in E as [Ha%bool_decide_eq_true Hs%Z.eqb_eq]. by destruct Ho.
Qed.

(** C33: The nonce of one TPM stays in the template of the next: after a TPM
    with an EK nonce was used, a TPM of the same process without a nonce gets
    the default template, but resolved with the first one's nonce in the
    modulus. *)
Theorem ek_nonce_shared h (dA dB dA' dB' : D) nonce e :
  tpm2_NVReadEx nvramRSAEkNonceIndex tpm2.HandleOwner dA = (Ok nonce, dA') →
  tpm2_NVReadEx nvramRSAEkNonceIndex tpm2.HandleOwner dB = (Err e, dB') →
  let A := (rsaEkTemplate (mkWorld h None None dA)).2 in
  let B := rsaEkTemplate (mkWorld (w_heap A) None None dB) in
  B.1 = Ok defaultRSAEKTemplate ∧
  kt_RSAParameters (resolve (w_heap B.2) defaultRSAEKTemplate) =
    Some (set_ModulusRaw nonce (rsa_at h ek_rsa)).
Proof.
  intros HA HB. cbn zeta. unfold rsaEkTemplate.
  unfold mbind, M_bind, gets, try, dev, on_heap, cache_rsaEk, modify, mret, M_ret.
  cbn [w_heap w_rsaEkTemplate w_eccEkTemplate w_dev].
  rewrite HA, HB. split; [done|].
  cbn -[set_rsa set_ModulusRaw]. unfold mbind, M_bind. cbn -[set_rsa set_ModulusRaw].
  by rewrite rsa_at_set, decide_True.
Qed.
End Theorems.

Section Witnesses.
#[local] Existing Instance sha_crypto.
#[local] Existing Instance std_runtime.
#[local] Existing Instance ex_x509.
#[local] Existing Instance ex_lib.

Definition ex_keyops : replies := {|
  rep_public h := if h =? 0x81000001 then Ok ex_public else Err (LibErr "no such handle");
  rep_created := mkCreated (str "private") (be_bytes 4 tpm2.AlgECC) [] [] [];
  rep_certified := ([], []);
  rep_activated := [];
  rep_quote _ _ := Err (LibErr "no such bank");
  rep_pcrs _ := ∅;
  rep_nv _ := Err (LibErr "no such index");
  rep_signature digest := mkSignature 0x18 None (Some (mkSignatureECC (be_uint digest) 1));
  rep_property _ := [TaggedProperty 0];
  rep_log := [];
|}.
#[local] Instance ex_keyops_channel : TPM2Channel (gset Z) := sim ex_keyops.

(** A codec for driver keys that have no creation data: the public area up to
    the first zero byte, then the blob. *)
Fixpoint cut_zero (b : bytes) : bytes * bytes :=
  match b with
  | [] => ([], [])
  | x :: r => if bool_decide (x = Byte.x00) then ([], r) else
              let '(p, q) := cut_zero r in (x :: p, q)
  end.
Lemma cut_zero_app p q : Forall (λ x, x ≠ Byte.x00) p → cut_zero (p ++ Byte.x00 :: q) = (p, q).
Proof.
  induction 1 as [|x p Hx Hp IH]; [done|]. cbn. rewrite bool_decide_eq_false_2 by done. by rewrite IH.
Qed.

Definition ex_serialized (public blob : bytes) : serializedKey :=
  mkSerialized keyEncodingEncrypted TPMVersion20 public [] [] [] "" blob.
#[local] Instance serializedKey_eq_dec : EqDecision serializedKey.
Proof. solve_decision. Defined.
#[local] Instance ex_json : Encodings := {|
  json_Marshal k :=
    if bool_decide (k = ex_serialized (sk_Public k) (sk_Blob k)) &&
       bool_decide (Forall (λ x, x ≠ Byte.x00) (sk_Public k))
    then Ok (sk_Public k ++ Byte.x00 :: sk_Blob k) else Err (LibErr "not supported");
  json_Unmarshal b := let '(p, q) := cut_zero b in Ok (ex_serialized p q);
  asn1_Marshal_RS r s := Ok (be_bytes 4 r ++ be_bytes 4 s);
  curve_N_BitLen c := if c =? 3 then 256 else 12;
  tpm2_HashToAlgorithm h := Ok h;
|}.
#[local] Instance ex_json_laws : EncodingsLaws.
Proof.
  constructor. intros k b. cbn. destruct (_ && _) eqn:E; [|done].
  apply andb_prop in E as [Hk%bool_decide_eq_true Hp%bool_decide_eq_true].
  intros [= <-]. rewrite cut_zero_app by done. by rewrite <- Hk.
Qed.

(** A toy curve with an order of 12 bits: 4 bits of the second byte are dropped. *)
Lemma signECDSA_spec_witness :
  signECDSA 7 [Byte.xab; Byte.xcd; Byte.xef] 99 ∅ = (Ok (be_bytes 4 0xabc ++ be_bytes 4 1), ∅).
Proof.
  destruct (signECDSA_spec 7 [Byte.xab; Byte.xcd; Byte.xef] 99 (∅ : gset Z) ltac:(done))
    as (e & He & _ & ->).
  unfold mbind, M_bind, lift_res, wrapM, tpm2_Sign, ex_keyops_channel, sim, mret, M_ret. cbn -[be_bytes].
  rewrite He. reflexivity.
Defined.

Definition ex_stored : wrappedKey20 := mkWrapped 1 (str "blob") (str "public") [] [] [].

Lemma load_marshal_roundtrip_witness :
  ∃ b, marshal ex_stored = Ok b ∧
    (loadAKWithParent b defaultParentConfig (mkWorld init_heap None None ∅)).1
      = Ok (with_handle ex_stored 0).
Proof.
  exists (str "public" ++ Byte.x00 :: str "blob"). split; [reflexivity|].
  destruct (load_marshal_roundtrip ex_stored (str "public" ++ Byte.x00 :: str "blob") defaultParentConfig
    (mkWorld init_heap None None (∅ : gset Z))) as [Hl _].
  rewrite Hl by reflexivity. vm_compute. reflexivity.
Defined.

Lemma NewKey_default_witness :
  NewKey ex_ak (Some (mkKeyConfig RSA 2048 None)) (mkWorld init_heap None None (∅ : gset Z)) =
  newKey ex_ak (Some (mkKeyConfig RSA 2048 None)) (mkWorld init_heap None None (∅ : gset Z)).
Proof.
  apply (NewKey_default ex_ak (mkKeyConfig RSA 2048 None) defaultParentConfig). by left.
Defined.

(** Device [true] has a nonce, device [false] has none. *)
Definition ex_two : TPM2Channel bool := {|
  tpm2_NVReadEx _ _ := λ d : bool, if d then (Ok (str "nonce of A"), d) else (Err (LibErr "no such index"), d);
  tpm2_ReadPublic _ := fail EOF; tpm2_CreatePrimary _ _ := fail EOF;
  tpm2_EvictControl _ _ _ := fail EOF; tpm2_FlushContext _ := fail EOF;
  tpm2_CreateKey _ _ := fail EOF; tpm2_Load _ _ _ := fail EOF;
  tpm2_CertifyCreation _ _ _ _ _ := fail EOF; tpm2_CertifyEx _ _ _ := fail EOF;
  tpm2_StartAuthSession := fail EOF; tpm2_PolicySecret _ _ := fail EOF;
  tpm2_ActivateCredentialUsingAuth _ _ _ _ _ := fail EOF; tpm2_Quote _ _ _ := fail EOF;
  tpm2_ReadPCRs _ := fail EOF; tpm2_Sign _ _ _ := fail EOF; tpm2_GetCapability _ := fail EOF;
  rwc_MeasurementLog := fail EOF; rwc_Close := fail EOF;
  Public_Encode _ := Err EOF; Pack_signature _ _ _ := Err EOF;
|}.

Lemma ek_nonce_shared_witness :
  let A := (rsaEkTemplate (H := ex_two) (mkWorld init_heap None None true)).2 in
  let B := rsaEkTemplate (H := ex_two) (mkWorld (w_heap A) None None false) in
  B.1 = Ok defaultRSAEKTemplate ∧
  ∃ p, kt_RSAParameters (resolve (w_heap B.2) defaultRSAEKTemplate) = Some p ∧
       take 10 (rt_ModulusRaw p) = str "nonce of A".
Proof.
  destruct (ek_nonce_shared (H := ex_two) init_heap true false true false (str "nonce of A")
    (LibErr "no such index") eq_refl eq_refl) as [Hb Hp].
  split; [exact Hb|]. eexists. split; [exact Hp|]. vm_compute. reflexivity.
Defined.
End Witnesses.
