(* ===== verification/Trousers12.v ===== *)
(** * The TPM 1.2 driver ([attest/tpm12_linux.go], [attest/key_linux.go])

    [trousersTPM] and [trousersKey12] talk to a TPM 1.2 through the TSS daemon.
    What they send is the business of [go-tspi], here the interface [Tspi] over
    an abstract state; the keys of this driver have no state in the TPM. *)
From S2P Require Import Prelude GoBytes GoCrypto GoRuntime Attest Tpm2.
From S2P Require Import Activation.
From S2P Require Import Certification.
From S2P Require Import Templates.
From S2P Require Import Channel.
From S2P Require Import EKCert.
From S2P Require Import Wrapped20.
From S2P Require Import PcrBank.
From S2P Require Import Platform.

(** ** go-tspi and the kernel's copy of the log *)
Class Tspi (D : Type) := {
  tspi_NewContext : M D ();
  tspi_Connect : M D ();
  tspi_Close : M D ();
  (** [GetCapability(TSS_TPMCAP_PROPERTY, 4, TSS_TPMCAP_PROP_MANUFACTURER)] *)
  tspi_Manufacturer : M D bytes;
  tspi_GetPCRValues : M D (list bytes);
  attestation_GetEKCert : M D bytes;
  (** public key and blob *)
  attestation_CreateAIK : M D (bytes * bytes);
  (** key blob, asymmetric and symmetric part of the challenge *)
  attestation_AIKChallengeResponse : bytes → bytes → bytes → M D bytes;
  (** key blob and nonce; the quote and its signature *)
  attestation_GetQuote : bytes → bytes → M D (bytes * bytes);
  (** [os.ReadFile("/sys/kernel/security/tpm0/binary_bios_measurements")] *)
  kernel_measurements : M D bytes;
}.

(** ** Keys *)
Record trousersKey12 := mkTrousersKey { tk_blob : bytes; tk_public : bytes }.
Definition newTrousersKey12 (blob public : bytes) : trousersKey12 := mkTrousersKey blob public.

(** The dynamic type of a [tpmBase], as the type assertions see it. *)
Inductive tpm12_impl := tpmTrousers | tpmNotTrousers.

Section Driver.
Context {D : Type} `{Tspi D, GoCrypto, GoRuntime, X509, Encodings}.

Definition getTPM12 : M D tpm12_impl :=
  _ ← tspi_NewContext;
  _ ← tspi_Connect;
  mret tpmTrousers.

Definition trousers_version : Z := TPMVersion12.
Definition trousers_close : M D () := tspi_Close.

(** [binary.BigEndian.Uint32] reads four bytes. *)
Definition BigEndian_Uint32 (b : bytes) : res error Z :=
  if zlen b <? 4 then Panic "index out of range" else Ok (be_uint (take 4 b)).

Definition readTPM12VendorAttributes : M D (Z * bytes) :=
  vendor ← wrapM "tspi::Context::GetCapability failed: %v" tspi_Manufacturer;
  _ ← reject_if (4 <? zlen vendor) (Errorf "expecting at most 32-bit VendorID, got %d-bit ID instead");
  vendorID ← lift_res (BigEndian_Uint32 vendor);
  mret (vendorID, str (TCGVendorID_String vendorID)).

Definition trousers_info : M D TPMInfo :=
  mv ← readTPM12VendorAttributes;
  mret (mkTPMInfo TPMVersion12 TPMInterfaceDaemonManaged mv.2 mv.1 0 0).

Definition readEKCertFromNVRAM12 : M D Certificate :=
  ekCert ← wrapM "reading EK cert: %v" attestation_GetEKCert;
  lift_res (ParseEKCertificate ekCert).

Definition trousers_ekCertificates : M D (list EK) :=
  cert ← wrapM "readEKCertFromNVRAM failed: %v" readEKCertFromNVRAM12;
  mret [mkEK _ (Some (cert_PublicKey cert)) (Some cert) [] 0].
Definition trousers_eks : M D (list EK) := trousers_ekCertificates.

(** Application keys and parents are not implemented. *)
Definition trousers_newKey (ak : option trousersKey12) (opts : option KeyConfig) : M D Key :=
  fail (Errorf "not implemented").
Definition trousers_loadKey (opaqueBlob : bytes) : M D Key := fail (Errorf "not implemented").
Definition trousers_loadKeyWithParent (opaqueBlob : bytes) (parent : ParentKeyConfig) : M D Key :=
  fail (Errorf "not implemented").

Definition trousers_newAK (opts : option AKConfig) : M D trousersKey12 :=
  pb ← wrapM "CreateAIK failed: %v" attestation_CreateAIK;
  mret (newTrousersKey12 pb.2 pb.1).

Definition trousers_loadAK (opaqueBlob : bytes) : M D trousersKey12 :=
  sKey ← lift_res (wrapf "deserializeKey() failed: %v" (deserializeKey opaqueBlob TPMVersion12));
  _ ← reject_if (negb (sk_Encoding sKey =? keyEncodingEncrypted)) (Errorf "unsupported key encoding: %x");
  mret (newTrousersKey12 (sk_Blob sKey) (sk_Public sKey)).
Definition trousers_loadAKWithParent (opaqueBlob : bytes) (parent : ParentKeyConfig) : M D trousersKey12 :=
  fail (Errorf "not implemented").

(** [for i := 0; i < len(PCRlist); i++ { PCRs[(uint32)(i)] = PCRlist[i] }] *)
Fixpoint number_pcrs (i : Z) (PCRlist : list bytes) (PCRs : gmap Z bytes) : gmap Z bytes :=
  match PCRlist with
  | [] => PCRs
  | d :: PCRlist => number_pcrs (i + 1) PCRlist (<[uint32 i := d]> PCRs)
  end.
Definition allPCRs12 : M D (gmap Z bytes) :=
  PCRlist ← wrapM "failed to read PCRs: %v" tspi_GetPCRValues;
  mret (number_pcrs 0 PCRlist ∅).

Definition trousers_pcrs (alg : Z) : M D (list PCR) :=
  _ ← reject_if (negb (alg =? HashSHA1)) (Errorf "non-SHA1 algorithm %v is not supported on TPM 1.2");
  PCRs ← wrapM "failed to read PCRs: %v" allPCRs12;
  lift_res (fill_pcrs (cryptoHash alg) (map_range PCRs) (repeat (mkPCR 0 [] 0 false) (size PCRs))).

Definition trousers_measurementLog : M D bytes := kernel_measurements.

(** ** Operations on keys *)
Definition trousers_marshal (k : trousersKey12) : res error bytes :=
  json_Marshal (mkSerialized keyEncodingEncrypted TPMVersion12 (tk_public k) [] [] [] "" (tk_blob k)).
Definition trousers_key_close (k : trousersKey12) (tpm : tpm12_impl) : M D () := mret tt.

Definition as_trousersTPM (tb : tpm12_impl) : M D () :=
  match tb with
  | tpmTrousers => mret tt
  | tpmNotTrousers => fail (Errorf "expected *linuxTPM, got %T")
  end.

Definition trousers_activateCredential (k : trousersKey12) (tb : tpm12_impl) (cred : EncryptedCredential)
    (ek : option EK) : M D bytes :=
  _ ← as_trousersTPM tb;
  wrapM "failed to activate ak: %v"
    (attestation_AIKChallengeResponse (tk_blob k) (ec_Credential cred) (ec_Secret cred)).

Definition trousers_quote (k : trousersKey12) (tb : tpm12_impl) (nonce : bytes) (alg : Z)
    (selectedPCRs : option (list Z)) : M D Quote :=
  _ ← as_trousersTPM tb;
  _ ← reject_if (negb (alg =? HashSHA1)) (Errorf "only SHA1 algorithms supported on TPM 1.2, not %v");
  _ ← reject_if (bool_decide (is_Some selectedPCRs))
        (Errorf "selecting PCRs not supported on TPM 1.2 (parameter must be nil)");
  qs ← wrapM "Quote() failed: %v" (attestation_GetQuote (tk_blob k) nonce);
  mret (mkQuote TPMVersion12 qs.1 qs.2).

(** [UseTCSDActivationFormat] is set. *)
Definition trousers_attestationParameters (k : trousersKey12) : AttestationParameters :=
  mkAKParameters (tk_public k) true [] [] [].
Definition trousers_certify (k : trousersKey12) (tb : tpm12_impl) (handle : any_handle)
  : M D CertificationParameters := fail (Errorf "not implemented").

(** The driver as an implementation of [tpmBase] and [ak] *)
#[export] Instance trousers_base : tpmBase D trousersKey12 := {|
  tpmVersion := trousers_version;
  base_pcrs := trousers_pcrs;
  base_measurementLog := trousers_measurementLog;
  ak_quote k nonce alg sel := trousers_quote k tpmTrousers nonce alg sel;
  ak_attestationParameters := trousers_attestationParameters;
|}.
End Driver.

(** ** The commands return, and the PCRs are numbered by 32 bits. *)
Class TspiReturns {D} `{Tspi D} : Prop := {
  GetPCRValues_returns d : no_crash (tspi_GetPCRValues d).1;
  GetPCRValues_count d l d' : tspi_GetPCRValues d = (Ok l, d') → zlen l ≤ 2 ^ 32;
  kernel_measurements_returns d : no_crash (kernel_measurements d).1;
}.

Section Theorems.
Context {D : Type} `{Tspi D, GoCrypto, GoTPM, GoRuntime, X509, Encodings}.

(** ** PCRs *)
Lemma number_pcrs_lookup l : ∀ i (m : gmap Z bytes) k,
  0 ≤ i → i + zlen l ≤ 2 ^ 32 →
  number_pcrs i l m !! k = if decide (i ≤ k < i + zlen l) then l !! Z.to_nat (k - i) else m !! k.
Proof.
  induction l as [|d l IH]; intros i m k Hi Hl; cbn [number_pcrs].
  { rewrite decide_False; [done|]. unfold zlen; cbn; lia. }
  rewrite zlen_cons in *. pose proof (zlen_nonneg l). unfold uint32. rewrite Z.mod_small by lia.
  rewrite IH by lia. destruct (decide (k = i)) as [->|Hk].
  - rewrite decide_False, lookup_insert_eq, decide_True by lia. by rewrite Z.sub_diag.
  - rewrite lookup_insert_ne by done. destruct (decide (i + 1 ≤ k < i + 1 + zlen l)).
    + rewrite decide_True by lia. replace (Z.to_nat (k - i)) with (Datatypes.S (Z.to_nat (k - (i + 1)))) by lia.
      done.
    + rewrite decide_False by lia. done.
Qed.

Lemma number_pcrs_seq l : zlen l ≤ 2 ^ 32 → number_pcrs 0 l ∅ = map_seqZ 0 l.
Proof.
  intros Hl. apply map_eq. intros k. rewrite number_pcrs_lookup, lookup_map_seqZ, lookup_empty by lia.
  unfold zlen in *. case_decide; case_guard; cbn; try done; [lia|].
  symmetry. apply lookup_ge_None_2. lia.
Qed.

(** The registers in the order of their numbers *)
Definition sha1_pcrs (values : list bytes) : list PCR :=
  imap (λ i d, mkPCR (Z.of_nat i) d crypto_SHA1 false) values.

Lemma fill_pcrs_seq values out :
  length out = length values →
  fill_pcrs crypto_SHA1 (map_range (map_seqZ 0 values)) out = Ok (sha1_pcrs values).
Proof.
  intros Hlen. set (m := map_seqZ 0 values : gmap Z bytes).
  assert (Hin : ∀ k d, (k, d) ∈ map_range m ↔ 0 ≤ k ∧ values !! Z.to_nat k = Some d).
  { intros k d. rewrite (map_range_perm _ m), elem_of_map_to_list. unfold m. rewrite lookup_map_seqZ_Some.
    by rewrite Z.sub_0_r. }
  assert (Hf : Forall (λ kv, 0 ≤ kv.1 < zlen out) (map_range m)).
  { apply Forall_forall. intros [k d] [? Hd%lookup_lt_Some]%Hin. cbn. unfold zlen. lia. }
  assert (Hnd : NoDup (map_range m).*1) by (rewrite (map_range_perm _ m); apply NoDup_fst_map_to_list).
  destruct (fill_pcrs_Ok crypto_SHA1 _ _ Hf) as (out' & E & Hl & _). rewrite E. f_equal.
  apply list_eq_same_length with (n := length values); [unfold sha1_pcrs; by rewrite length_imap|by rewrite Hl|].
  intros n x y Hn Hx Hy. unfold sha1_pcrs in Hy. rewrite list_lookup_imap in Hy.
  destruct (values !! n) as [d|] eqn:Hd; [|done]. injection Hy as <-.
  assert (Hnd' : (Z.of_nat n, d) ∈ map_range m) by (apply Hin; split; [lia|by rewrite Nat2Z.id]).
  apply (fill_pcrs_entries _ _ _ _ Hnd Hf E) in Hnd'. rewrite Nat2Z.id in Hnd'. congruence.
Qed.

Lemma size_seq (values : list bytes) : size (map_seqZ 0 values : gmap Z bytes) = length values.
Proof.
  induction values as [|d values IH] using rev_ind; [done|].
  rewrite map_seqZ_snoc, map_size_insert_None by apply map_seqZ_snoc_disjoint.
  rewrite IH, length_app. cbn. lia.
Qed.

(** The registers come out in order with their values, in whatever order the
    map is visited. *)
Lemma trousers_pcrs_in_order w values w' :
  tspi_GetPCRValues w = (Ok values, w') → zlen values ≤ 2 ^ 32 →
  trousers_pcrs HashSHA1 w = (Ok (sha1_pcrs values), w').
Proof.
  intros E Hl. unfold trousers_pcrs, allPCRs12. cbn [reject_if Z.eqb negb].
  erewrite bind_Ok by done.
  erewrite bind_Ok; [|apply wrapM_Ok; erewrite bind_Ok; [done|by apply wrapM_Ok]].
  apply lift_res_Ok. rewrite number_pcrs_seq by done.
  apply fill_pcrs_seq. by rewrite repeat_length, size_seq.
Qed.

(** ** Quotes and attestation *)
Lemma trousers_quote_nil k nonce w :
  trousers_quote k tpmTrousers nonce HashSHA1 None w =
  (qs ← wrapM "Quote() failed: %v" (attestation_GetQuote (tk_blob k) nonce);
   mret (mkQuote TPMVersion12 qs.1 qs.2)) w.
Proof. done. Qed.

Lemma trousers_quote_selected k nonce alg sel w :
  ∃ e, trousers_quote k tpmTrousers nonce alg (Some sel) w = (Err e, w).
Proof.
  unfold trousers_quote. erewrite bind_Ok by done. destruct (alg =? HashSHA1); cbn; eauto.
Qed.

(** Reading the registers succeeds or fails; quoting them fails. *)
Lemma attestPCRs_fails `{!TspiReturns} k nonce alg (w : D) :
  ∃ e w', attestPCRs k nonce alg w = (Err e, w').
Proof.
  assert (Hp : ∃ r w', base_pcrs alg w = (r, w') ∧ no_crash r).
  { cbn [base_pcrs trousers_base]. destruct (decide (alg = HashSHA1)) as [->|Ha].
    - pose proof (GetPCRValues_returns w) as Hr.
      destruct (tspi_GetPCRValues w) as [[l|e|m|] w'] eqn:E; try done.
      + eexists _, _. split; [by eapply trousers_pcrs_in_order, GetPCRValues_count|done].
      + eexists _, _. split; [|by instantiate (1 := Err _)]. unfold trousers_pcrs, allPCRs12.
        erewrite bind_Ok by done. apply bind_Err, wrapM_Err, bind_Err. by apply wrapM_Err.
    - eexists _, _. split; [|by instantiate (1 := Err _)]. unfold trousers_pcrs. apply bind_Err.
      unfold reject_if. by rewrite (proj2 (Z.eqb_neq _ _) Ha). }
  destruct Hp as (r & w1 & Hp & Hr). unfold attestPCRs.
  destruct r as [pcrs|e|m|]; try done.
  - erewrite bind_Ok by (by apply wrapM_Ok).
    destruct (trousers_quote_selected k nonce alg (seqZ 0 24) w1) as [e He].
    erewrite bind_Err; [by eauto|]. by apply wrapM_Err.
  - erewrite bind_Err; [by eauto|by apply wrapM_Err].
Qed.

Lemma attestPlatform_fails `{!TspiReturns} k nonce el (w : D) :
  ∃ e w', attestPlatform k nonce el w = (Err e, w').
Proof.
  destruct (attestPCRs_fails k nonce HashSHA1 w) as (e & w' & E).
  exists e, w'. unfold attestPlatform. erewrite bind_Ok; [|cbn; unfold try; by rewrite E]. done.
Qed.

Lemma trousers_log_returns `{!TspiReturns} (w : D) : no_crash (MeasurementLog w).1.
Proof.
  unfold MeasurementLog, mbind, M_bind. cbn [base_measurementLog trousers_base].
  unfold trousers_measurementLog. pose proof (kernel_measurements_returns w) as Hr.
  destruct (kernel_measurements w) as [[el|e|m|] w']; try done. unfold reject_if. by destruct (_ <? 28).
Qed.

(** C37: Platform attestation never succeeds with this driver: [AK.Quote] always
    selects the registers 0 to 23, and [trousersKey12.quote] refuses every
    selection before it asks the TPM, so no bank can be quoted and
    [AttestPlatform] ends in an error, whatever the TPM, the key and the
    configuration; only [QuotePCRs] with a nil selection gets a quote. *)
Theorem trousers_attestation_fails `{!TspiReturns} k nonce config (w : D) :
  (∃ e, (AttestPlatform k nonce config w).1 = Err e) ∧
  (∀ alg, ∃ e, AK_Quote k nonce alg w = (Err e, w)) ∧
  QuotePCRs k nonce HashSHA1 None w =
    (qs ← wrapM "Quote() failed: %v" (attestation_GetQuote (tk_blob k) nonce);
     mret (mkQuote TPMVersion12 qs.1 qs.2)) w.
Proof.
  split; [|split; [intros alg; apply trousers_quote_selected|apply trousers_quote_nil]].
  unfold AttestPlatform.
  match goal with |- context [mbind _ ?p] => assert (Hp : no_crash (p w).1) end.
  { destruct config as [[[el|]]|]; cbn [default pac_EventLog id]; [done|..];
      unfold wrapM; pose proof (trousers_log_returns w) as Hl; by destruct (MeasurementLog w) as [[] w']. }
  unfold mbind at 1, M_bind at 1.
  match type of Hp with no_crash (?p w).1 => destruct (p w) as [[el|e|m|] w'] end; try done; [|by eexists].
  destruct (attestPlatform_fails k nonce el w') as (e & w2 & ->). by eexists.
Qed.

(** ** Keys and vendors *)
(** A stored key is the key loaded; keys of another TPM version or encoding
    are not. *)
Lemma trousers_keys_roundtrip `{!EncodingsLaws} k b (w : D) :
  (trousers_marshal k = Ok b → trousers_loadAK b w = (Ok k, w)) ∧
  (∀ sk, json_Unmarshal b = Ok sk → sk_TPMVersion sk ≠ TPMVersion12 ∨ sk_Encoding sk ≠ keyEncodingEncrypted →
   ∃ e, trousers_loadAK b w = (Err e, w)).
Proof.
  unfold trousers_loadAK, deserializeKey. split.
  - unfold trousers_marshal. intros E%json_roundtrip. rewrite E. by destruct k.
  - intros sk E Hsk. rewrite E. cbn [wrapf mbind res_bind]. unfold reject.
    destruct (Z.eqb_spec (sk_TPMVersion sk) TPMVersion12) as [Hv|Hv].
    + destruct Hsk as [?|He%Z.eqb_neq]; [done|]. cbn. unfold mbind, M_bind, lift_res. cbn. rewrite He. by eexists.
    + by eexists.
Qed.

(** The manufacturer is read as 32 bits, so an answer that is shorter panics. *)
Lemma trousers_info_panics_iff (w : D) vendor w' :
  tspi_Manufacturer w = (Ok vendor, w') →
  (∃ m, (trousers_info w).1 = Panic m) ↔ zlen vendor < 4.
Proof.
  intros E. unfold trousers_info, readTPM12VendorAttributes, BigEndian_Uint32.
  unfold mbind, M_bind, wrapM, reject_if, lift_res, fail, mret, M_ret. rewrite E. cbn [wrapf].
  destruct (Z.ltb_spec 4 (zlen vendor)); cbn; [split; [by intros []|lia]|].
  destruct (Z.ltb_spec (zlen vendor) 4); cbn; [split; eauto|]. split; [by intros []|lia].
Qed.
End Theorems.

(** ** A TPM with 24 registers *)
Section Witnesses.
#[local] Existing Instance sha_crypto.
#[local] Existing Instance std_runtime.
#[local] Existing Instance ex_ptpm.

#[local] Instance ex_tspi : Tspi () := {|
  tspi_NewContext := mret tt; tspi_Connect := mret tt; tspi_Close := mret tt;
  tspi_Manufacturer := mret (str "IFX");
  tspi_GetPCRValues := mret (repeat (repeat Byte.x00 20) 24);
  attestation_GetEKCert := fail (LibErr "no certificate");
  attestation_CreateAIK := mret (str "public", str "blob");
  attestation_AIKChallengeResponse _ _ _ := mret [];
  attestation_GetQuote _ _ := mret (str "quote", str "signature");
  kernel_measurements := mret (repeat Byte.x00 32);
|}.
#[local] Instance ex_tspi_returns : TspiReturns.
Proof. split; [done| |done]. intros [] l [] [= <-]. by vm_compute. Qed.

(** The log and the registers are read, the selection is refused; a quote
    without a selection comes out. *)
Lemma trousers_attestation_fails_witness :
  trousers_pcrs HashSHA1 tt = (Ok (sha1_pcrs (repeat (repeat Byte.x00 20) 24)), tt) ∧
  (∃ e, (AttestPlatform (newTrousersKey12 (str "blob") (str "public")) (str "nonce") None tt).1 = Err e) ∧
  QuotePCRs (newTrousersKey12 (str "blob") (str "public")) (str "nonce") HashSHA1 None tt =
    (Ok (mkQuote TPMVersion12 (str "quote") (str "signature")), tt).
Proof.
  split; [vm_compute; reflexivity|].
  destruct (trousers_attestation_fails (newTrousersKey12 (str "blob") (str "public")) (str "nonce") None tt)
    as (He & _ & Hq).
  split; [exact He|]. rewrite Hq. reflexivity.
Defined.
End Witnesses.
