(* ===== verification/OpenTpm.v ===== *)
(** * Finding and opening TPMs ([attest/attest.go], [attest/tpm_linux.go],
    [attest/tpm_other.go])

    [OpenTPM] and [AvailableTPMs] with the Linux implementation of probing and
    opening.  The file system and the device files are the interface
    [System]; [connections] accounts for what is open. *)
From Stdlib Require Import Ascii.
From S2P Require Import Prelude GoBytes GoCrypto Attest.
From S2P Require Import Channel.
From S2P Require Import Wrapped20.

(** ** Data *)
Record probedTPM := mkProbed { pt_Version : Z; pt_Path : string }.
Record OpenConfig (C : Type) := mkOpenConfig { oc_TPMVersion : Z; oc_CommandChannel : option C }.
Arguments mkOpenConfig {C}.
Arguments oc_TPMVersion {C}.
Arguments oc_CommandChannel {C}.
Definition defaultOpenConfig {C} : OpenConfig C := mkOpenConfig TPMVersionAgnostic None.

(** [*TPM], by the implementation behind it. *)
Inductive TPM (C : Type) := TPM20 (interf : Z) (rwc : C) | TPM12 (ctx : C).
Arguments TPM20 {C}.
Arguments TPM12 {C}.

Definition ErrTPMNotAvailable : error := Errorf "TPM device not available".

(** ** [OpenTPM] and [AvailableTPMs]

    Probing and opening are those of the operating system the package is built
    for; [ofChannel] is the TPM 2.0 driver on a command channel. *)
Section Host.
Context {S T C : Type}.
Context (probeSystemTPMs : M S (list probedTPM)) (openTPM : probedTPM → M S T).
Context (close : T → M S ()) (info : T → M S TPMInfo) (ofChannel : C → T).

Definition MatchesConfig (t : probedTPM) (config : OpenConfig C) : bool :=
  (oc_TPMVersion config =? TPMVersionAgnostic) || (pt_Version t =? oc_TPMVersion config).

(** [for _, tpm := range candidateTPMs { if matches { return openTPM(tpm) } }] *)
Fixpoint open_first (candidates : list probedTPM) (config : OpenConfig C) : M S T :=
  match candidates with
  | [] => fail ErrTPMNotAvailable
  | tpm :: candidates => if MatchesConfig tpm config then openTPM tpm else open_first candidates config
  end.

Definition OpenTPM (config : option (OpenConfig C)) : M S T :=
  let config := default defaultOpenConfig config in
  match oc_CommandChannel config with
  | Some channel =>
      _ ← reject_if ((TPMVersionAgnostic <? oc_TPMVersion config)
                     && negb (oc_TPMVersion config =? TPMVersion20))
            (Errorf "command channel can only be used as a TPM 2.0 device");
      mret (ofChannel channel)
  | None =>
      candidateTPMs ← probeSystemTPMs;
      open_first candidateTPMs config
  end.

(** [defer t.Close()]: at the end of the function, on every outcome. *)
Definition defer_close {A} (t : T) (m : M S A) : M S A := λ s,
  let '(r, s') := m s in (r, (close t s').2).

(** The loop of [AvailableTPMs]: what is deferred in one iteration runs when
    the function returns, after the iterations that follow. *)
Fixpoint collect_info (candidates : list probedTPM) (config : OpenConfig C) (out : list TPMInfo)
    : M S (list TPMInfo) :=
  match candidates with
  | [] => mret out
  | tpm :: candidates =>
      if MatchesConfig tpm config then
        t ← openTPM tpm;
        defer_close t (
          i ← info t;
          collect_info candidates config (out ++ [i]))
      else collect_info candidates config out
  end.

Definition AvailableTPMs (config : option (OpenConfig C)) : M S (list TPMInfo) :=
  let config := default defaultOpenConfig config in
  candidateTPMs ← probeSystemTPMs;
  collect_info candidateTPMs config [].
End Host.

(** The operating system: directories, device files, and [TPM.Info]. *)
Class System (S : Type) := {
  Conn : Type;
  os_ReadDir : string → M S (list string);
  os_Stat : string → M S ();
  os_IsNotExist : error → bool;
  tpm2_OpenTPM : string → M S Conn;
  conn_Close : Conn → M S ();
  (** nil unless the binary is built for it *)
  getTPM12Impl : option (M S Conn);
  tpm_Info : TPM Conn → M S TPMInfo;
}.

Definition tpmRoot : string := "/sys/class/tpm".
(** [path.Join] of a clean path and a file name. *)
Definition path_Join (dir file : string) : string := dir +:+ "/" +:+ file.
(** [path.Base] *)
Fixpoint path_Base (p base : string) : string :=
  match p with
  | EmptyString => base
  | String c p => if Ascii.eqb c "/"%char then path_Base p "" else path_Base p (base +:+ String c "")
  end.

(** ** Linux *)
Section Open.
Context {S : Type} `{System S}.

(** [os.Stat(path.Join(tpm.Path, "caps"))] tells the versions apart. *)
Definition probe_one (name : string) : M S probedTPM :=
  let path := path_Join tpmRoot name in
  try (os_Stat (path_Join path "caps"))
    (λ _, mret (mkProbed TPMVersion12 path))
    (λ err, if os_IsNotExist err then mret (mkProbed TPMVersion20 path) else fail err).

Fixpoint probe_all (tpmDevs : list string) (tpms : list probedTPM) : M S (list probedTPM) :=
  match tpmDevs with
  | [] => mret tpms
  | name :: tpmDevs =>
      if String.prefix "tpm" name then
        tpm ← probe_one name;
        probe_all tpmDevs (tpms ++ [tpm])
      else probe_all tpmDevs tpms
  end.

Definition probeSystemTPMs : M S (list probedTPM) :=
  try (os_ReadDir tpmRoot)
    (λ tpmDevs, probe_all tpmDevs [])
    (λ err, if os_IsNotExist err then mret [] else fail err).

(** The device file, and the kernel's resource manager if there is one. *)
Definition dev_path (tpm : probedTPM) : M S (string * Z) :=
  let devPath := path_Join "/dev" (path_Base (pt_Path tpm) "") in
  try (os_ReadDir (path_Join (path_Join (pt_Path tpm) "device") "tpmrm"))
    (λ f, match f with
          | name :: _ => mret (path_Join "/dev" name, TPMInterfaceKernelManaged)
          | [] => mret (devPath, TPMInterfaceDirect)
          end)
    (λ err, if os_IsNotExist err then mret (devPath, TPMInterfaceDirect) else fail err).

Definition openTPM (tpm : probedTPM) : M S (TPM Conn) :=
  if pt_Version tpm =? TPMVersion12 then
    match getTPM12Impl with
    | None => fail (Errorf "support for Linux TPM 1.2 disabled (build with CGO to enable)")
    | Some impl => ctx ← impl; mret (TPM12 ctx)
    end
  else if pt_Version tpm =? TPMVersion20 then
    pi ← dev_path tpm;
    rwc ← tpm2_OpenTPM pi.1;
    mret (TPM20 pi.2 rwc)
  else fail (Errorf "unsuported TPM version: %v").

Definition Close (t : TPM Conn) : M S () :=
  match t with TPM20 _ c | TPM12 c => conn_Close c end.

Definition linux_OpenTPM : option (OpenConfig Conn) → M S (TPM Conn) :=
  OpenTPM probeSystemTPMs openTPM (TPM20 TPMInterfaceCommandChannel).
Definition linux_AvailableTPMs : option (OpenConfig Conn) → M S (list TPMInfo) :=
  AvailableTPMs probeSystemTPMs openTPM Close tpm_Info.
End Open.

(** ** Other systems ([attest/tpm_other.go]) *)
Definition errUnsupported : error := Errorf "tpm operations not supported from given build parameters".
Definition other_probeSystemTPMs {S} : M S (list probedTPM) := fail errUnsupported.
Definition other_openTPM {S T} (tpm : probedTPM) : M S T := fail errUnsupported.

(** Only a command channel can be opened there. *)
Lemma other_OpenTPM {S C} (config : option (OpenConfig C)) (s : S) :
  OpenTPM other_probeSystemTPMs other_openTPM (λ c : C, c) config s =
    match oc_CommandChannel (default defaultOpenConfig config) with
    | Some c => (_ ← reject_if ((TPMVersionAgnostic <? oc_TPMVersion (default defaultOpenConfig config))
                    && negb (oc_TPMVersion (default defaultOpenConfig config) =? TPMVersion20))
                   (Errorf "command channel can only be used as a TPM 2.0 device"); mret c) s
    | None => (Err errUnsupported, s)
    end.
Proof. unfold OpenTPM. by destruct (oc_CommandChannel _). Qed.

(** ** Accounting for connections *)
Class SystemLaws {S} `{!System S} (connections : S → nat) : Prop := {
  ReadDir_keeps p s : connections (os_ReadDir p s).2 = connections s;
  Stat_keeps p s : connections (os_Stat p s).2 = connections s;
  Info_keeps t s : connections (tpm_Info t s).2 = connections s;
  (** opening adds a connection exactly when it succeeds; closing removes one *)
  OpenTPM_opens p s : match tpm2_OpenTPM p s with
    | (Ok _, s') => connections s' = Datatypes.S (connections s)
    | (_, s') => connections s' = connections s
    end;
  TPM12_opens impl s : getTPM12Impl = Some impl → match impl s with
    | (Ok _, s') => connections s' = Datatypes.S (connections s)
    | (_, s') => connections s' = connections s
    end;
  Close_closes c s : connections (conn_Close c s).2 = Nat.pred (connections s);
}.

Section Accounting.
Context {S : Type} `{System S} (connections : S → nat) `{!SystemLaws connections}.

Definition same {A} (m : M S A) : Prop := ∀ s, connections (m s).2 = connections s.
Definition one_more {A} (m : M S A) : Prop := ∀ s,
  match m s with
  | (Ok _, s') => connections s' = Datatypes.S (connections s)
  | (_, s') => connections s' = connections s
  end.

Lemma same_bind {A B} (m : M S A) (f : A → M S B) : same m → (∀ a, same (f a)) → same (m ≫= f).
Proof.
  intros Hm Hf s. specialize (Hm s). unfold mbind, M_bind.
  destruct (m s) as [[a| | |] s']; [|done..]. by rewrite (Hf a).
Qed.
Lemma same_try {A B} (m : M S A) (f : A → M S B) g :
  same m → (∀ a, same (f a)) → (∀ e, same (g e)) → same (try m f g).
Proof.
  intros Hm Hf Hg s. specialize (Hm s). unfold try.
  destruct (m s) as [[a|e| |] s']; [by rewrite (Hf a)|by rewrite (Hg e)|done..].
Qed.
Lemma one_more_after {A B} (m : M S A) (f : A → M S B) :
  same m → (∀ a, one_more (f a)) → one_more (m ≫= f).
Proof.
  intros Hm Hf s. specialize (Hm s). unfold mbind, M_bind.
  destruct (m s) as [[a| | |] s']; [|done..]. cbn in Hm. specialize (Hf a s'). by rewrite Hm in Hf.
Qed.
Lemma one_more_ret {A B} (m : M S A) (g : A → B) : one_more m → one_more (a ← m; mret (g a)).
Proof.
  intros Hm s. specialize (Hm s). unfold mbind, M_bind. by destruct (m s) as [[] ?].
Qed.
Lemma same_defer {A} (m : M S (TPM Conn)) (f : TPM Conn → M S A) :
  one_more m → (∀ t, same (f t)) → same (m ≫= λ t, defer_close Close t (f t)).
Proof.
  intros Hm Hf s. specialize (Hm s). unfold mbind, M_bind, defer_close.
  destruct (m s) as [[t| | |] s']; [|done..]. specialize (Hf t s').
  destruct (f t s') as [r s2]. cbn in *.
  assert (connections (Close t s2).2 = Nat.pred (connections s2)) as -> by (destruct t; apply Close_closes).
  by rewrite Hf, Hm.
Qed.

Lemma probe_same : same probeSystemTPMs.
Proof.
  unfold probeSystemTPMs. apply same_try; [intros s; apply ReadDir_keeps| |by intros; case_match].
  intros devs. generalize (@nil probedTPM). induction devs as [|name devs IH]; intros tpms; [done|].
  cbn [probe_all]. case_match; [|done]. apply same_bind; [|auto].
  unfold probe_one. apply same_try; [intros s; apply Stat_keeps|done|by intros; case_match].
Qed.

Lemma openTPM_one_more tpm : one_more (openTPM tpm).
Proof.
  unfold openTPM. case_match; [|case_match; [|done]].
  - destruct getTPM12Impl as [impl|] eqn:E; [|done]. apply one_more_ret. intros s. by apply TPM12_opens.
  - apply one_more_after.
    + unfold dev_path. apply same_try; [intros s; apply ReadDir_keeps|by intros []|].
      by intros; case_match.
    + intros pi. apply one_more_ret. intros s. apply OpenTPM_opens.
Qed.

Lemma open_first_one_more cands (config : OpenConfig Conn) : one_more (open_first openTPM cands config).
Proof.
  induction cands as [|tpm cands IH]; [done|]. cbn [open_first]. case_match; [|done].
  apply openTPM_one_more.
Qed.

Lemma collect_info_same cands (config : OpenConfig Conn) out : same (collect_info openTPM Close tpm_Info cands config out).
Proof.
  revert out. induction cands as [|tpm cands IH]; intros out; [done|]. cbn [collect_info].
  case_match; [|done]. apply same_defer; [apply openTPM_one_more|]. intros t.
  apply same_bind; [intros s; apply Info_keeps|auto].
Qed.

Lemma open_first_find {T C} (open : probedTPM → M S T) cands (config : OpenConfig C) :
  open_first open cands config =
  match List.find (λ t, MatchesConfig t config) cands with
  | Some tpm => open tpm
  | None => fail ErrTPMNotAvailable
  end.
Proof. induction cands as [|t cands IH]; [done|]. cbn. by destruct (MatchesConfig t config). Qed.
End Accounting.

Section Theorems.
Context {S : Type} `{System S} (connections : S → nat) `{!SystemLaws connections}.

(** On Linux, [OpenTPM] opens a connection exactly when it succeeds: a command
    channel is used as it is and only as a TPM 2.0, otherwise it is the first
    probed TPM of the version asked for that is opened, or
    [ErrTPMNotAvailable].  [AvailableTPMs] closes all it opens, errors
    included. *)
Theorem open_connections config s :
  oc_CommandChannel (default defaultOpenConfig config) = None →
  match linux_OpenTPM config s with
  | (Ok _, s') => connections s' = Datatypes.S (connections s)
  | (_, s') => connections s' = connections s
  end ∧
  (∀ cands s1, probeSystemTPMs s = (Ok cands, s1) →
    linux_OpenTPM config s =
    match List.find (λ t, MatchesConfig t (default defaultOpenConfig config)) cands with
    | Some tpm => openTPM tpm s1
    | None => (Err ErrTPMNotAvailable, s1)
    end) ∧
  (∀ channel v, linux_OpenTPM (Some (mkOpenConfig v (Some channel))) s =
    if bool_decide (0 < v ∧ v ≠ TPMVersion20)
    then (Err (Errorf "command channel can only be used as a TPM 2.0 device"), s)
    else (Ok (TPM20 TPMInterfaceCommandChannel channel), s)) ∧
  connections (linux_AvailableTPMs config s).2 = connections s.
Proof.
  intros Hc. split_and!.
  - unfold linux_OpenTPM, OpenTPM. rewrite Hc. revert s. apply one_more_after; [by apply probe_same|].
    intros cands. by apply open_first_one_more.
  - intros cands s1 Hp. unfold linux_OpenTPM, OpenTPM. rewrite Hc. erewrite bind_Ok by exact Hp.
    rewrite open_first_find. by case_match.
  - intros channel v. unfold linux_OpenTPM, OpenTPM. cbn [default from_option id oc_CommandChannel oc_TPMVersion].
    assert ((TPMVersionAgnostic <? v) && negb (v =? TPMVersion20) = bool_decide (0 < v ∧ v ≠ TPMVersion20))
      as ->; [|by case_bool_decide].
    unfold TPMVersionAgnostic.
    destruct (Z.ltb_spec 0 v), (Z.eqb_spec v TPMVersion20); case_bool_decide as Hv; cbn; try done;
      exfalso; intuition lia.
  - unfold linux_AvailableTPMs, AvailableTPMs. revert s. apply same_bind; [by apply probe_same|].
    intros cands. by apply collect_info_same.
Qed.
End Theorems.

(** ** A system with one TPM of each version *)
Section Witnesses.
Definition ex_system : System nat := {|
  Conn := string;
  os_ReadDir p := if bool_decide (p = tpmRoot) then mret ["tpm0"; "power"; "tpm1"]%string
                  else if bool_decide (p = "/sys/class/tpm/tpm1/device/tpmrm"%string)
                       then mret ["tpmrm1"]%string else fail (LibErr "not exist");
  os_Stat p := if bool_decide (p = "/sys/class/tpm/tpm0/caps"%string) then mret tt
               else fail (LibErr "not exist");
  os_IsNotExist e := bool_decide (e = LibErr "not exist");
  tpm2_OpenTPM p := λ n, (Ok p, Datatypes.S n);
  conn_Close _ := λ n, (Ok tt, Nat.pred n);
  getTPM12Impl := None;
  tpm_Info t := mret (mkTPMInfo 2 0 [] 0 0 0);
|}.
Lemma ex_system_laws : @SystemLaws _ ex_system id.
Proof. constructor; try done; intros; cbn; repeat case_match; done. Qed.

Lemma open_connections_witness :
  linux_OpenTPM (H := ex_system) (Some (mkOpenConfig TPMVersion20 None)) 0%nat
    = (Ok (TPM20 TPMInterfaceKernelManaged "/dev/tpmrm1"%string), 1%nat) ∧
  (linux_AvailableTPMs (H := ex_system) None 0%nat).2 = 0%nat.
Proof.
  destruct (open_connections (H := ex_system) (SystemLaws0 := ex_system_laws) id
    (Some (mkOpenConfig TPMVersion20 None)) 0%nat eq_refl) as (_ & Hf & _ & _).
  destruct (open_connections (H := ex_system) (SystemLaws0 := ex_system_laws) id
    None 0%nat eq_refl) as (_ & _ & _ & Ha).
  split; [|exact Ha]. erewrite Hf by (vm_compute; reflexivity). vm_compute. reflexivity.
Defined.
End Witnesses.
