(* ===== verification/WinBlobs.v ===== *)
(** * Binary structures of the Windows driver ([attest/tpm_windows.go],
    [attest/pcp_windows.go])

    The identity binding of an attestation key, for TPM 1.2 and TPM 2.0, the
    public EK as a BCRYPT_RSAKEY_BLOB, and the credential encrypted to a TPM
    1.2.  Each decoder is proved to accept exactly a format described next to
    it. *)
From S2P Require Import Prelude GoBytes Loops GoCrypto Attest Tpm2.
From S2P Require Import EKCert.
From S2P Require Import Challenge.

#[local] Arguments be_bytes : simpl never.
#[local] Arguments be_uint : simpl never.
#[local] Arguments le_bytes : simpl never.
#[local] Arguments le_uint : simpl never.

(** ** [bytes.Reader] with [Read] and [Seek] *)

(** [Read] into a buffer of [n] bytes: what is left of it, at most; [io.EOF]
    at the end of the input, even for no bytes. *)
Definition Read (n : Z) : M reader bytes := λ r,
  match rd_buf r with
  | [] => (Err EOF, r)
  | b => (Ok (take (Z.to_nat n) b), NewReader (drop (Z.to_nat n) b))
  end.

(** The position may be past the end.  All offsets of the code are constants
    or lengths, so [Seek] never fails. *)
Record seeker := mkSeeker { sk_data : bytes; sk_pos : Z }.
Definition sk_rest (s : seeker) : bytes := drop (Z.to_nat (sk_pos s)) (sk_data s).
Definition NewSeeker (b : bytes) : seeker := mkSeeker b 0.
Definition Seek_current (n : Z) : M seeker () := modify (λ s, mkSeeker (sk_data s) (sk_pos s + n)).
Definition Seek_start (n : Z) : M seeker () := modify (λ s, mkSeeker (sk_data s) n).
(** [Len] and [Size] *)
Definition sk_Len : M seeker Z := gets (λ s, zlen (sk_rest s)).
Definition sk_Size : M seeker Z := gets (λ s, zlen (sk_data s)).
Definition on_rest {A} (m : M reader A) : M seeker A := λ s,
  let '(x, r) := m (NewReader (sk_rest s)) in
  (x, mkSeeker (sk_data s) (sk_pos s + (zlen (sk_rest s) - zlen (rd_buf r)))).

(** ** The identity binding of an attestation key *)
Record akProps := mkAKProps {
  RawPublic : bytes;
  RawCreationData : bytes;
  RawAttest : bytes;
  RawSignature : bytes;
}.

(** TPM_IDENTITY_CONTENTS up to the public key; its fixed-size parameters; the
    exponent; the modulus; and the signature behind it. *)
Definition decodeAKProps12 : M seeker akProps :=
  _ ← Seek_current (4 + 4 + 20);
  size ← sk_Size;
  len ← sk_Len;
  let pubKeyStartIdx := size - len in
  _ ← Seek_current (4 + 2 + 2 + 4 + 4 + 4);
  exponentSize ← wrapM "failed to decode exponentSize: %v" (on_rest (read_be 4));
  _ ← wrapM "failed to decode exp: %v" (on_rest (ReadFull exponentSize));
  keyDataSize ← wrapM "failed to decode keyDataSize: %v" (on_rest (read_be 4));
  _ ← Seek_current keyDataSize;
  len ← sk_Len;
  signature ← wrapM "failed to decode signature: %v" (on_rest (ReadFull len));
  _ ← Seek_start pubKeyStartIdx;
  public ← wrapM "failed to decode public: %v"
    (on_rest (ReadFull (24 + exponentSize + 4 + keyDataSize)));
  mret (mkAKProps public [] [] signature).

(** [var size uint16; binary.Read(...); make([]byte, size); binary.Read(...)] *)
Definition read_sized (fmtSize fmtData : string) : M reader bytes :=
  size ← wrapM fmtSize (read_be 2);
  wrapM fmtData (ReadFull size).

Definition decodeAKProps20 : M reader akProps :=
  public ← read_sized "failed to decode TPM2B_PUBLIC.size: %v" "failed to decode TPM2B_PUBLIC.data: %v";
  creationData ← read_sized "failed to decode TPM2B_CREATION_DATA.size: %v"
                   "failed to decode TPM2B_CREATION_DATA.data: %v";
  attest ← read_sized "failed to decode TPM2B_ATTEST.size: %v" "failed to decode TPM2B_ATTEST.data: %v";
  len ← gets rd_len;
  signature ← wrapM "failed to decode TPMT_SIGNATURE.data: %v" (ReadFull len);
  mret (mkAKProps public creationData attest signature).

(** [idBlob[0:4]] panics on a shorter blob. *)
Definition decodeAKProps (idBlob : bytes) : res error akProps :=
  tag ← slice idBlob 0 4;
  if bool_decide (tag = [Byte.x01; Byte.x01; Byte.x00; Byte.x00])
  then (decodeAKProps12 (NewSeeker idBlob)).1
  else (decodeAKProps20 (NewReader idBlob)).1.

(** ** Public keys *)
Record bcryptRSABlobHeader := mkBcryptHeader {
  bh_Magic : Z; bh_BitLength : Z; bh_ExponentLen : Z; bh_ModulusLen : Z;
  bh_Prime1Len : Z; bh_Prime2Len : Z;
}.
Definition decode_bcryptRSABlobHeader (b : bytes) : bcryptRSABlobHeader :=
  let f off := le_uint (field off 4 b) in
  mkBcryptHeader (f 0%nat) (f 4%nat) (f 8%nat) (f 12%nat) (f 16%nat) (f 20%nat).

(** [r.Read(exp[8-n:])] fills the end of the eight bytes, from the left. *)
Definition decodeWindowsBcryptRSABlob : M reader rsa_PublicKey :=
  header ← (b ← ReadFull 24; mret (decode_bcryptRSABlobHeader b));
  _ ← reject_if (negb (bh_Magic header =? 0x31415352)) (Errorf "invalid header magic %x");
  _ ← reject_if (8 <? bh_ExponentLen header) (Errorf "exponent too large");
  e ← wrapM "failed to read public exponent: %v" (Read (bh_ExponentLen header));
  let exp := repeat Byte.x00 (Z.to_nat (8 - bh_ExponentLen header)) ++ e
               ++ repeat Byte.x00 (Z.to_nat (bh_ExponentLen header - zlen e)) in
  modulus ← wrapM "failed to read modulus (%d, %v)" (Read (bh_ModulusLen header));
  _ ← reject_if (negb (zlen modulus =? bh_ModulusLen header)) (Errorf "failed to read modulus (%d, %v)");
  mret (mkRSA (be_uint modulus) (int_of_uint64 (be_uint exp))).

(** ** Credentials for TPM 1.2 *)
Class GoAES := { aes_cbc_decrypt : bytes → bytes → bytes → bytes }.

(** Decryption of whole blocks keeps the length, and inverts encryption. *)
Class GoAESLaws `{GoAES, GoTPM} : Prop := {
  cbc_decrypt_length key iv m : length (aes_cbc_decrypt key iv m) = length m;
  cbc_decrypt_encrypt key iv m : zlen m mod 16 = 0 →
    aes_cbc_decrypt key iv (aes_cbc_encrypt key iv m) = m;
}.

Section Credential.
Context `{GoAES}.

Definition cbc_DecryptBlocks (key iv cipherText : bytes) : res error bytes :=
  if negb (zlen iv =? 16) then Panic "cipher.NewCBCDecrypter: IV length must equal block size"
  else if negb (zlen cipherText mod 16 =? 0) then Panic "crypto/cipher: input not full blocks"
  else Ok (aes_cbc_decrypt key iv cipherText).

(** [padlen := int(secret[len(secret)-1]); secret[:len(secret)-padlen]] *)
Definition remove_padding (secret : bytes) : res error bytes :=
  match last secret with
  | None => Panic "index out of range"
  | Some x => slice secret 0 (zlen secret - byte.unsigned x)
  end.

Definition decryptCredential_body (secretKey blob : bytes) : M reader bytes :=
  scheme ← wrapM "reading scheme: %v" (read_be 4);
  _ ← reject_if (negb (scheme =? 0x00000002)) (Errorf "can only handle CBC schemes");
  iv ← ReadFull 16;
  cipherText ← wrapM "reading ciphertext: %v" (ReadFull (zlen blob - 20));
  _ ← lift_res (wrapf "aes.NewCipher failed: %v" (aes_NewCipher secretKey));
  secret ← lift_res (cbc_DecryptBlocks secretKey iv cipherText);
  lift_res (remove_padding secret).
Definition decryptCredential (secretKey blob : bytes) : res error bytes :=
  (decryptCredential_body secretKey blob (NewReader blob)).1.
End Credential.

(** ** Lemmas on readers *)

Lemma split_prefix {A} n (l : list A) :
  0 ≤ n ≤ zlen l → ∃ a b, l = a ++ b ∧ zlen a = n.
Proof.
  intros Hn. exists (take (Z.to_nat n) l), (drop (Z.to_nat n) l). rewrite take_drop.
  unfold zlen in *. rewrite length_take. split; [done|]. lia.
Qed.

Lemma sk_rest_app s pos a b : s = a ++ b → pos = zlen a → sk_rest (mkSeeker s pos) = b.
Proof. intros -> ->. unfold sk_rest, zlen; cbn. by rewrite Nat2Z.id, drop_app_length. Qed.

(** Reading a piece of the data at its position *)
Lemma on_rest_Ok {A} (m : M reader A) s pos a b c x :
  s = a ++ b ++ c → pos = zlen a → m (NewReader (b ++ c)) = (Ok x, NewReader c) →
  on_rest m (mkSeeker s pos) = (Ok x, mkSeeker s (pos + zlen b)).
Proof.
  intros -> -> Hm. unfold on_rest. erewrite sk_rest_app by done. rewrite Hm. cbn.
  do 2 f_equal. rewrite !zlen_app. lia.
Qed.

Lemma on_rest_returns {A} (m : M reader A) : returns m → returns (on_rest m).
Proof.
  intros Hm s. specialize (Hm (NewReader (sk_rest s))). unfold on_rest. by destruct (m _) as [[] ?].
Qed.
Lemma Read_returns n : returns (Read n).
Proof. intros r. unfold Read. by case_match. Qed.
#[local] Hint Resolve on_rest_returns Read_returns : returns.

Lemma ReadFull_rest_Ok_inv n s b s' :
  0 ≤ n → on_rest (ReadFull n) s = (Ok b, s') →
  n ≤ zlen (sk_rest s) ∧ b = take (Z.to_nat n) (sk_rest s) ∧ s' = mkSeeker (sk_data s) (sk_pos s + n).
Proof.
  intros Hn E. unfold on_rest in E. destruct (ReadFull n _) as [r rd] eqn:Er. injection E as -> <-.
  apply ReadFull_Ok_inv in Er as (rest & Hs & Hl & ->); [|done]. rewrite Hs, zlen_app, Hl. cbn.
  pose proof (zlen_nonneg rest). split_and!; [lia| |f_equal; lia].
  rewrite take_app_len; [done|]. unfold zlen in Hl. lia.
Qed.

Lemma read_be_rest_Ok_inv n s z s' :
  on_rest (read_be n) s = (Ok z, s') →
  Z.of_nat n ≤ zlen (sk_rest s) ∧ z = be_uint (take n (sk_rest s)) ∧ s' = mkSeeker (sk_data s) (sk_pos s + Z.of_nat n).
Proof.
  intros E. assert (∃ b, on_rest (ReadFull (Z.of_nat n)) s = (Ok b, s') ∧ z = be_uint b) as (b & Eb & ->).
  { unfold on_rest, read_be, mbind, M_bind in *. destruct (ReadFull _ _) as [[] ?]; naive_solver. }
  apply ReadFull_rest_Ok_inv in Eb as (? & -> & ->); [|lia]. by rewrite Nat2Z.id.
Qed.

(** ** Identity bindings *)

(** TPM 1.2: what precedes the public key; the key, made of fixed-size
    parameters, the exponent and the modulus; the signature. *)
Definition public12 (params exp key : bytes) : bytes :=
  params ++ be_bytes 4 (zlen exp) ++ exp ++ be_bytes 4 (zlen key) ++ key.
Definition binding12 (hdr params exp key sig : bytes) : bytes := hdr ++ public12 params exp key ++ sig.
Definition wf_binding12 (hdr params exp key : bytes) : Prop :=
  zlen hdr = 28 ∧ zlen params = 20 ∧ zlen exp < 2 ^ 32 ∧ zlen key < 2 ^ 32.

Lemma decodeAKProps12_binding hdr params exp key sig :
  wf_binding12 hdr params exp key →
  (decodeAKProps12 (NewSeeker (binding12 hdr params exp key sig))).1 =
    Ok (mkAKProps (public12 params exp key) [] [] sig).
Proof.
  intros (Hh & Hp & He & Hk). pose proof (zlen_nonneg exp). pose proof (zlen_nonneg key).
  set (D := binding12 _ _ _ _ _). unfold decodeAKProps12, NewSeeker.
  set (p := be_bytes 4 (zlen exp)). set (q := be_bytes 4 (zlen key)).
  assert (HD : D = hdr ++ params ++ p ++ exp ++ q ++ key ++ sig)
    by (unfold D, binding12, public12; by rewrite <- !(assoc_L app)).
  assert (Hlp : zlen p = 4) by apply zlen_be_bytes. assert (Hlq : zlen q = 4) by apply zlen_be_bytes.
  erewrite bind_Ok by done. erewrite bind_Ok by done. erewrite bind_Ok by done.
  erewrite bind_Ok by done. cbn [sk_data sk_pos].
  rewrite (sk_rest_app D _ hdr (public12 params exp key ++ sig)) by done.
  replace (zlen D - _) with 28 by (unfold D, binding12; rewrite zlen_app; lia).
  erewrite bind_Ok; [|apply wrapM_Ok, (on_rest_Ok _ _ _ (hdr ++ params) p (exp ++ q ++ key ++ sig));
    [by rewrite HD, <- !(assoc_L app)|rewrite zlen_app; lia|apply read_be_app; lia]].
  erewrite bind_Ok; [|apply wrapM_Ok, (on_rest_Ok _ _ _ (hdr ++ params ++ p) exp (q ++ key ++ sig));
    [by rewrite HD, <- !(assoc_L app)|rewrite !zlen_app; lia|by apply ReadFull_app]].
  erewrite bind_Ok; [|apply wrapM_Ok, (on_rest_Ok _ _ _ (hdr ++ params ++ p ++ exp) q (key ++ sig));
    [by rewrite HD, <- !(assoc_L app)|rewrite !zlen_app; lia|apply read_be_app; lia]].
  erewrite bind_Ok by done. erewrite bind_Ok by done. cbn [sk_data sk_pos].
  rewrite (sk_rest_app D _ (hdr ++ params ++ p ++ exp ++ q ++ key) sig);
    [|by rewrite HD, <- !(assoc_L app)|rewrite !zlen_app; lia].
  erewrite bind_Ok; [|apply wrapM_Ok, (on_rest_Ok _ _ _ (hdr ++ params ++ p ++ exp ++ q ++ key) sig []);
    [by rewrite HD, <- !(assoc_L app), app_nil_r|rewrite !zlen_app; lia|by apply ReadFull_app]].
  erewrite bind_Ok by done.
  erewrite bind_Ok; [|apply wrapM_Ok, (on_rest_Ok _ _ _ hdr (public12 params exp key) sig);
    [done|by cbn|apply ReadFull_app; unfold public12; fold p q; rewrite !zlen_app; lia]].
  done.
Qed.

Lemma zlen_drop {A} n (l : list A) : 0 ≤ n → zlen (drop (Z.to_nat n) l) = Z.max 0 (zlen l - n).
Proof. intros. unfold zlen. rewrite length_drop. lia. Qed.

(** Inversion of a sequence of reads and seeks *)
Lemma be_take_bound n b : 0 ≤ be_uint (take n b) < 2 ^ (8 * Z.of_nat n).
Proof.
  pose proof (be_uint_bound (take n b)) as Hb. unfold zlen in Hb. rewrite length_take in Hb.
  pose proof (Z.pow_le_mono_r 2 (8 * Z.of_nat (n `min` length b)) (8 * Z.of_nat n)). lia.
Qed.

Ltac seek_inv E :=
  let H := fresh "Hm" in let Hb := fresh "Hb" in
  apply bind_Ok_inv in E as (? & ? & H & E);
  first [ injection H as <- <-
        | apply wrapM_Ok_inv in H;
          first [ apply read_be_rest_Ok_inv in H as (Hb & -> & ->)
                | apply ReadFull_rest_Ok_inv in H as (Hb & -> & ->);
                  [|first [apply be_take_bound | apply zlen_nonneg | idtac]] ] ];
  cbn [sk_data sk_pos] in *.

Lemma decodeAKProps12_inv blob p :
  (decodeAKProps12 (NewSeeker blob)).1 = Ok p →
  ∃ hdr params exp key sig, wf_binding12 hdr params exp key ∧ blob = binding12 hdr params exp key sig.
Proof.
  destruct (decodeAKProps12 _) as [r s'] eqn:E. cbn. intros ->. unfold decodeAKProps12, NewSeeker in E.
  unfold Seek_current, Seek_start, sk_Size, sk_Len, modify, gets in E.
  repeat seek_inv E.
  all: set (e := be_uint (take 4 (sk_rest (mkSeeker blob (0 + (4 + 4 + 20) + (4 + 2 + 2 + 4 + 4 + 4)))))) in *;
    set (k := be_uint (take 4 (sk_rest (mkSeeker blob (_ + e))))) in *;
    assert (0 ≤ e < 2 ^ 32) by apply be_take_bound; assert (0 ≤ k < 2 ^ 32) by apply be_take_bound.
  2: lia.
  clear E Hb2. unfold sk_rest in Hb, Hb0, Hb1, Hb3. cbn [sk_data sk_pos] in *.
  rewrite (zlen_drop (0 + (4 + 4 + 20))) in Hb3 by lia.
  rewrite !zlen_drop in Hb, Hb0, Hb1, Hb3 by lia. clear s'.
  destruct (split_prefix 28 blob) as (hdr & r1 & -> & Hh); [lia|]. rewrite zlen_app in *.
  destruct (split_prefix 20 r1) as (params & r2 & -> & Hp); [lia|]. rewrite zlen_app in *.
  destruct (split_prefix 4 r2) as (p4 & r3 & -> & Hp4); [lia|]. rewrite zlen_app in *.
  destruct (split_prefix e r3) as (exp & r4 & -> & He); [lia|]. rewrite zlen_app in *.
  destruct (split_prefix 4 r4) as (q4 & r5 & -> & Hq4); [lia|]. rewrite zlen_app in *.
  destruct (split_prefix k r5) as (key & sig & -> & Hk); [lia|].
  assert (p4 = be_bytes 4 e) as Ep.
  { rewrite <- (be_bytes_be_uint 4 p4) by (unfold zlen in Hp4; lia). f_equal. unfold e.
    rewrite (sk_rest_app _ _ (hdr ++ params) (p4 ++ exp ++ q4 ++ key ++ sig));
      [|by rewrite <- !(assoc_L app)|rewrite zlen_app; lia].
    rewrite take_app_len; [done|unfold zlen in Hp4; lia]. }
  assert (q4 = be_bytes 4 k) as Eq.
  { rewrite <- (be_bytes_be_uint 4 q4) by (unfold zlen in Hq4; lia). f_equal. unfold k.
    rewrite (sk_rest_app _ _ (hdr ++ params ++ p4 ++ exp) (q4 ++ key ++ sig));
      [|by rewrite <- !(assoc_L app)|rewrite !zlen_app; lia].
    rewrite take_app_len; [done|unfold zlen in Hq4; lia]. }
  exists hdr, params, exp, key, sig. unfold wf_binding12, binding12, public12.
  rewrite He, Hk, <- Ep, <- Eq, <- !(assoc_L app). split_and!; [done|done|lia|lia|done].
Qed.

(** [decodeAKProps12] takes a TPM 1.2 identity binding apart: it returns on
    every input, and succeeds exactly on 28 bytes of TPM_IDENTITY_CONTENTS
    followed by a public key whose two length fields fit, then the signature;
    the public part is that key with its lengths, the signature everything
    behind it, and nothing else is set. *)
Theorem decodeAKProps12_iff blob p :
  no_crash (decodeAKProps12 (NewSeeker blob)).1 ∧
  ((decodeAKProps12 (NewSeeker blob)).1 = Ok p ↔
   ∃ hdr params exp key sig, wf_binding12 hdr params exp key ∧
     blob = binding12 hdr params exp key sig ∧ p = mkAKProps (public12 params exp key) [] [] sig).
Proof.
  split.
  - assert (returns decodeAKProps12) as H; [|apply H].
    unfold decodeAKProps12, sk_Size, sk_Len, Seek_current, Seek_start. eauto 40 with returns.
  - split.
    + intros E. destruct (decodeAKProps12_inv _ _ E) as (hdr & params & exp & key & sig & Hwf & ->).
      exists hdr, params, exp, key, sig. split_and!; [done..|].
      rewrite decodeAKProps12_binding in E by done. by injection E as <-.
    + intros (hdr & params & exp & key & sig & Hwf & -> & ->). by apply decodeAKProps12_binding.
Qed.

(** TPM 2.0: three structures with a 16-bit length, then the signature. *)
Definition sized (b : bytes) : bytes := be_bytes 2 (zlen b) ++ b.
Definition binding20 (p : akProps) : bytes :=
  sized (RawPublic p) ++ sized (RawCreationData p) ++ sized (RawAttest p) ++ RawSignature p.
Definition wf_binding20 (p : akProps) : Prop :=
  zlen (RawPublic p) < 2 ^ 16 ∧ zlen (RawCreationData p) < 2 ^ 16 ∧ zlen (RawAttest p) < 2 ^ 16.

Lemma read_sized_format fs fd : format (read_sized fs fd) sized (λ b, zlen b < 2 ^ 16).
Proof.
  split.
  - intros s. unfold read_sized. eapply reads_bind; [apply reads_wrapM, reads_be|].
    intros z used rest -> [-> Hz]. apply reads_wrapM. eapply reads_mono; [apply reads_ReadFull; lia|].
    intros b u r' _ [-> Hl]. unfold sized. rewrite Hl. split; [lia|done].
  - intros b rest Hb. pose proof (zlen_nonneg b). unfold read_sized, sized. rewrite <- (assoc_L app).
    erewrite bind_Ok; [|apply wrapM_Ok, read_be_app; lia]. by apply wrapM_Ok, ReadFull_app.
Qed.

(** [decodeAKProps20] is the inverse of concatenating the four structures
    of a TPM 2.0 identity binding: it returns on every input and yields [p]
    exactly on the encoding of [p], whose first three parts are shorter than
    64 KiB. *)
Theorem decodeAKProps20_iff blob p :
  no_crash (decodeAKProps20 (NewReader blob)).1 ∧
  ((decodeAKProps20 (NewReader blob)).1 = Ok p ↔ wf_binding20 p ∧ blob = binding20 p).
Proof.
  split.
  - assert (returns decodeAKProps20) as H; [|apply H]. unfold decodeAKProps20, read_sized. eauto 40 with returns.
  - split.
    + destruct (decodeAKProps20 (NewReader blob)) as [r r'] eqn:E. cbn. intros ->. unfold decodeAKProps20 in E.
      apply bind_Ok_inv in E as (a & s1 & E1 & E). apply bind_Ok_inv in E as (b & s2 & E2 & E).
      apply bind_Ok_inv in E as (c & s3 & E3 & E). inv_ok E. cbn in *.
      apply (reads_Ok _ _ _ _ _ (proj1 (read_sized_format _ _) _)) in E1 as (? & ? & -> & -> & Ha & ->).
      apply (reads_Ok _ _ _ _ _ (proj1 (read_sized_format _ _) _)) in E2 as (? & ? & -> & -> & Hb & ->).
      apply (reads_Ok _ _ _ _ _ (proj1 (read_sized_format _ _) _)) in E3 as (? & ? & -> & -> & Hc & ->).
      apply ReadFull_Ok_inv in Hm as (rest & -> & Hl & _); [|apply zlen_nonneg].
      assert (rest = []) as ->.
      { apply zlen_0. unfold rd_len in Hl. cbn in Hl. rewrite zlen_app in Hl. lia. }
      unfold wf_binding20, binding20. cbn. by rewrite app_nil_r.
    + intros [(Ha & Hb & Hc) ->]. unfold decodeAKProps20, binding20.
      erewrite bind_Ok by (by apply (proj2 (read_sized_format _ _))).
      erewrite bind_Ok by (by apply (proj2 (read_sized_format _ _))).
      erewrite bind_Ok by (by apply (proj2 (read_sized_format _ _))).
      erewrite bind_Ok by done. erewrite bind_Ok.
      2: { apply wrapM_Ok. rewrite <- (app_nil_r (RawSignature p)) at 2. by apply ReadFull_app. }
      by destruct p.
Qed.

(** The binding is recognised by its first four bytes, which must be there. *)
Lemma decodeAKProps_returns_iff blob : no_crash (decodeAKProps blob) ↔ 4 ≤ zlen blob.
Proof.
  unfold decodeAKProps. destruct (Z.le_gt_cases 4 (zlen blob)) as [Hl|Hl].
  - rewrite (slice_prefix blob 4) by lia. cbn [mbind res_bind]. split; [done|intros _].
    case_bool_decide; [by apply decodeAKProps12_iff|by apply decodeAKProps20_iff].
  - unfold slice. rewrite (proj2 (Z.leb_gt 4 (zlen blob))) by done. cbn. split; [done|lia].
Qed.

(** A public blob of TPM 2.0 starts with a length and an algorithm that is not
    TPM_ALG_ERROR, so it is not taken for one of TPM 1.2. *)
Lemma decodeAKProps_20 p alg rest :
  wf_binding20 p → RawPublic p = alg ++ rest → length alg = 2%nat → alg ≠ [Byte.x00; Byte.x00] →
  decodeAKProps (binding20 p) = Ok p.
Proof.
  intros Hwf Hpub Hl Hne. set (l := be_bytes 2 (zlen (RawPublic p))).
  assert (∃ rest', binding20 p = l ++ alg ++ rest') as [rest' E].
  { eexists. unfold binding20, sized at 1. fold l. rewrite Hpub at 1. by rewrite <- !(assoc_L app). }
  assert (Hll : length l = 2%nat) by apply length_be_bytes.
  unfold decodeAKProps. rewrite (slice_prefix _ 4); [|lia|rewrite E; unfold zlen; rewrite !length_app; lia].
  cbn [mbind res_bind]. case_bool_decide as Ht.
  - exfalso. apply Hne. rewrite E in Ht. change (Z.to_nat 4) with 4%nat in Ht. clearbody l.
    destruct l as [|x [|y [|]]]; try done. destruct alg as [|u [|v [|]]]; try done. cbn in Ht. congruence.
  - by apply decodeAKProps20_iff.
Qed.

(** ** BCRYPT_RSAKEY_BLOB *)
Definition bcrypt_header (h : bcryptRSABlobHeader) : bytes :=
  le_bytes 4 (bh_Magic h) ++ le_bytes 4 (bh_BitLength h) ++ le_bytes 4 (bh_ExponentLen h)
    ++ le_bytes 4 (bh_ModulusLen h) ++ le_bytes 4 (bh_Prime1Len h) ++ le_bytes 4 (bh_Prime2Len h).

Lemma decode_bcrypt_header h :
  0 ≤ bh_Magic h < 2 ^ 32 → 0 ≤ bh_BitLength h < 2 ^ 32 → 0 ≤ bh_ExponentLen h < 2 ^ 32 →
  0 ≤ bh_ModulusLen h < 2 ^ 32 → 0 ≤ bh_Prime1Len h < 2 ^ 32 → 0 ≤ bh_Prime2Len h < 2 ^ 32 →
  decode_bcryptRSABlobHeader (bcrypt_header h) = h.
Proof.
  intros. unfold decode_bcryptRSABlobHeader, bcrypt_header. field_eval.
  rewrite !le_uint_le_bytes by done. by destruct h.
Qed.

Lemma Read_Ok n s b r' : 0 ≤ n → Read n (NewReader s) = (Ok b, r') ↔
  s ≠ [] ∧ b = take (Z.to_nat n) s ∧ r' = NewReader (drop (Z.to_nat n) s).
Proof. intros Hn. unfold Read. cbn. destruct s; naive_solver. Qed.

Lemma be_uint_zeros n b : be_uint (repeat Byte.x00 n ++ b) = be_uint b.
Proof.
  unfold be_uint. rewrite reverse_app.
  replace (reverse (repeat Byte.x00 n)) with (repeat Byte.x00 n); [apply le_combine_app_0|].
  induction n as [|n IH]; [done|]. cbn [repeat]. rewrite reverse_cons, <- IH. by rewrite <- repeat_cons.
Qed.

Lemma bcrypt_lengths b : let h := decode_bcryptRSABlobHeader b in 0 ≤ bh_ExponentLen h ∧ 0 ≤ bh_ModulusLen h.
Proof. cbn. split; apply le_uint_bound. Qed.

(** [decodeWindowsBcryptRSABlob] returns on every input and accepts exactly
    a 24-byte header with the magic of a public key and an exponent of at most
    8 bytes, the exponent, and a modulus of the announced length that is not
    at the end of the input if empty; the lengths in bits and of the primes,
    and what follows the modulus, are ignored, and the exponent is the
    big-endian value as a signed 64-bit integer. *)
Theorem decodeWindowsBcryptRSABlob_iff blob k :
  no_crash (decodeWindowsBcryptRSABlob (NewReader blob)).1 ∧
  ((decodeWindowsBcryptRSABlob (NewReader blob)).1 = Ok k ↔
   ∃ hdr e m rest, let h := decode_bcryptRSABlobHeader hdr in
     blob = hdr ++ e ++ m ++ rest ∧ zlen hdr = 24 ∧ bh_Magic h = 0x31415352 ∧
     zlen e = bh_ExponentLen h ∧ zlen e ≤ 8 ∧ zlen m = bh_ModulusLen h ∧ m ++ rest ≠ [] ∧
     k = mkRSA (be_uint m) (int_of_uint64 (be_uint e))).
Proof.
  split.
  { assert (returns decodeWindowsBcryptRSABlob) as H; [|apply H].
    unfold decodeWindowsBcryptRSABlob. eauto 40 with returns. }
  split.
  - destruct (decodeWindowsBcryptRSABlob _) as [r r'] eqn:E. cbn. intros ->.
    unfold decodeWindowsBcryptRSABlob in E. inv_ok E.
    cbn in Hm. injection Hm as <- <-. destruct (bcrypt_lengths a0) as [He0 Hm0'].
    apply ReadFull_Ok_inv in Hm0 as (r1 & -> & Hl & ->); [|done].
    apply Read_Ok in Hm1 as (_ & -> & ->); [|done]. apply Read_Ok in Hm2 as (Hne & -> & ->); [|done].
    set (h := decode_bcryptRSABlobHeader a0) in *.
    apply negb_false_iff, Z.eqb_eq in Hc, Hc1. apply Z.ltb_ge in Hc0.
    set (r2 := drop (Z.to_nat (bh_ExponentLen h)) r1) in *.
    assert (He : zlen (take (Z.to_nat (bh_ExponentLen h)) r1) = bh_ExponentLen h).
    { assert (length r2 ≠ 0%nat) as Hr by (by destruct r2). unfold r2 in Hr. rewrite length_drop in Hr.
      unfold zlen. rewrite length_take. lia. }
    eexists a0, (take _ r1), (take _ r2), (drop _ r2). fold h. rewrite !take_drop.
    rewrite He, Z.sub_diag. split_and!; try done; [unfold r2; by rewrite take_drop|].
    cbn [repeat Z.to_nat]. by rewrite app_nil_r, be_uint_zeros.
  - intros (hdr & e & m & rest & -> & Hl & Hmagic & He & Hle & Hm & Hne & ->).
    destruct (bcrypt_lengths hdr) as [He0 Hm0]. unfold decodeWindowsBcryptRSABlob.
    set (h := decode_bcryptRSABlobHeader hdr) in *.
    erewrite bind_Ok; [|erewrite bind_Ok by (by apply ReadFull_app); done].
    erewrite bind_Ok; [|apply reject_if_Ok; fold h; by rewrite Hmagic].
    erewrite bind_Ok; [|apply reject_if_Ok, Z.ltb_ge; fold h; lia]. fold h.
    erewrite bind_Ok; [|apply wrapM_Ok, Read_Ok; [done|]; split_and!; [|done|done]].
    2: { intros [_ Hx]%app_nil. done. }
    rewrite <- He, take_app_len, drop_app_len by (unfold zlen; lia).
    erewrite bind_Ok; [|apply wrapM_Ok, Read_Ok; done].
    rewrite <- Hm, take_app_len by (unfold zlen; lia).
    erewrite bind_Ok by (apply reject_if_Ok; by rewrite Z.eqb_refl).
    cbn. rewrite Z.sub_diag. cbn [Z.to_nat repeat]. by rewrite app_nil_r, be_uint_zeros.
Qed.

(** ** Encrypted credentials *)
Section CredentialLemmas.
Context `{GoAES}.

Lemma aes_NewCipher_returns key : no_crash (aes_NewCipher key).
Proof. unfold aes_NewCipher. by case_match. Qed.

(** The body behind the header. *)
Definition decrypt_blocks (secretKey iv cipherText : bytes) : res error bytes :=
  _ ← wrapf "aes.NewCipher failed: %v" (aes_NewCipher secretKey);
  secret ← cbc_DecryptBlocks secretKey iv cipherText;
  remove_padding secret.

Lemma decryptCredential_run secretKey scheme iv cipherText :
  zlen scheme = 4 → zlen iv = 16 →
  decryptCredential secretKey (scheme ++ iv ++ cipherText) =
    if be_uint scheme =? 2 then decrypt_blocks secretKey iv cipherText
    else Err (Errorf "can only handle CBC schemes").
Proof.
  intros Hs Hi. unfold decryptCredential, decryptCredential_body.
  erewrite bind_Ok; [|apply wrapM_Ok; unfold read_be; erewrite bind_Ok by (by apply ReadFull_app); done].
  destruct (be_uint scheme =? 2); [|done]. erewrite bind_Ok by done.
  erewrite bind_Ok by (by apply ReadFull_app).
  erewrite bind_Ok. 2: { apply wrapM_Ok. rewrite <- (app_nil_r cipherText) at 2. apply ReadFull_app.
    rewrite !zlen_app. lia. }
  unfold decrypt_blocks. unfold mbind, M_bind, lift_res, res_bind.
  destruct (wrapf _ _) as [[]| | |]; try done. by destruct (cbc_DecryptBlocks _ _ _).
Qed.

Lemma decryptCredential_short secretKey blob : zlen blob < 20 → ∃ e, decryptCredential secretKey blob = Err e.
Proof.
  intros Hl. unfold decryptCredential, decryptCredential_body. destruct (Z.lt_ge_cases (zlen blob) 4) as [H4|H4].
  { erewrite bind_Err; [by eexists|]. apply wrapM_Err, bind_Err. by apply ReadFull_short. }
  destruct (split_prefix 4 blob) as (scheme & r & -> & Hs); [lia|]. rewrite zlen_app in Hl.
  erewrite bind_Ok; [|apply wrapM_Ok; unfold read_be; erewrite bind_Ok by (by apply ReadFull_app); done].
  destruct (be_uint scheme =? 2); [|by eexists]. erewrite bind_Ok by done.
  erewrite bind_Err; [by eexists|]. apply ReadFull_short. lia.
Qed.

Lemma remove_padding_panics secret :
  panics_if (remove_padding secret)
    (match last secret with Some x => zlen secret < byte.unsigned x | None => True end).
Proof.
  unfold remove_padding. destruct (last secret) as [x|]; [|done]. unfold slice.
  pose proof (byte.unsigned_range x).
  destruct (Z.leb_spec 0 (zlen secret - byte.unsigned x)); cbn; [|lia].
  rewrite (proj2 (Z.leb_le (zlen secret - byte.unsigned x) (zlen secret))) by lia. cbn. lia.
Qed.

(** C39: [decryptCredential] returns, except that it panics exactly on a blob
    with the CBC scheme and its initialisation vector, for a valid key, whose
    ciphertext is not whole blocks, is empty, or decrypts to a last byte
    greater than its length. *)
Theorem decryptCredential_panics_iff `{!GoTPM, !GoAESLaws} secretKey blob :
  panics_if (decryptCredential secretKey blob)
    (20 ≤ zlen blob ∧ be_uint (take 4 blob) = 2 ∧ zlen secretKey ∈ [16; 24; 32] ∧
     let cipherText := drop 20 blob in
     let secret := aes_cbc_decrypt secretKey (field 4 16 blob) cipherText in
     (zlen cipherText mod 16 ≠ 0 ∨
      match last secret with Some x => zlen cipherText < byte.unsigned x | None => True end)).
Proof.
  destruct (Z.lt_ge_cases (zlen blob) 20) as [Hl|Hl].
  { destruct (decryptCredential_short secretKey blob Hl) as [e ->]. cbn. lia. }
  destruct (split_prefix 4 blob) as (scheme & r & -> & Hs); [lia|]. rewrite zlen_app in Hl.
  destruct (split_prefix 16 r) as (iv & cipherText & -> & Hi); [lia|].
  rewrite decryptCredential_run, take_app_len by (unfold zlen in *; lia).
  rewrite (field_app scheme iv) by (unfold zlen in *; lia).
  rewrite (assoc_L app), (drop_app_len (_ ++ _)) by (rewrite length_app; unfold zlen in *; lia).
  rewrite !zlen_app in *. destruct (Z.eqb_spec (be_uint scheme) 2) as [E|E]; [|cbn; tauto].
  unfold decrypt_blocks, aes_NewCipher. case_bool_decide as Hk; [|cbn; tauto]. cbn [wrapf mbind res_bind].
  unfold cbc_DecryptBlocks. rewrite Hi. cbn [Z.eqb Pos.eqb negb].
  destruct (Z.eqb_spec (zlen cipherText mod 16) 0) as [Hm|Hm]; cbn [negb];
    [|cbn; split_and!; [lia|done|done|by left]].
  cbn [res_bind]. eapply panics_if_iff; [|apply remove_padding_panics].
  assert (zlen (aes_cbc_decrypt secretKey iv cipherText) = zlen cipherText) as ->
    by (unfold zlen; by rewrite cbc_decrypt_length).
  cbv zeta. split; [intros; split_and!; [lia|done|done|by right]|]. by intros (_ & _ & _ & [?|?]).
Qed.

(** What [unpad] accepts, [remove_padding] cuts off as well. *)
Lemma remove_unpad b m : unpad b = Some m → remove_padding b = Ok m.
Proof.
  unfold unpad, remove_padding. destruct (last b) as [x|]; [|done]. cbn.
  destruct (Z.leb_spec 1 (byte.unsigned x)); [|done]. destruct (Z.leb_spec (byte.unsigned x) (zlen b)); [|done].
  cbn. case_bool_decide; [|done]. intros [= <-]. rewrite slice_prefix by lia. do 2 f_equal. unfold zlen. lia.
Qed.

Lemma decryptCredential_open `{!GoTPM, !GoAESLaws} key blob m :
  zlen key ∈ [16; 24; 32] → (zlen blob - 20) mod 16 = 0 →
  open_challenge aes_cbc_decrypt key blob = Some m → decryptCredential key blob = Ok m.
Proof.
  intros Hk Hb Ho. unfold open_challenge in Ho. destruct (Z.lt_ge_cases (zlen blob) 20) as [Hl|Hl].
  { exfalso. rewrite (drop_ge blob 20) in Ho by (unfold zlen in Hl; lia).
    pose proof (cbc_decrypt_length key (field 4 16 blob) []) as Hn.
    destruct (aes_cbc_decrypt key _ []); [|done]. by destruct (_ =? 2). }
  destruct (split_prefix 4 blob) as (scheme & r & -> & Hs); [lia|]. rewrite zlen_app in Hl.
  destruct (split_prefix 16 r) as (iv & cipherText & -> & Hi); [lia|].
  rewrite take_app_len in Ho by (unfold zlen in *; lia).
  rewrite (field_app scheme iv) in Ho by (unfold zlen in *; lia).
  rewrite (assoc_L app scheme), (drop_app_len (_ ++ _)) in Ho by (rewrite length_app; unfold zlen in *; lia).
  rewrite decryptCredential_run by done. destruct (be_uint scheme =? 2); [|done].
  unfold decrypt_blocks, aes_NewCipher. rewrite bool_decide_eq_true_2 by done. cbn [wrapf mbind res_bind].
  unfold cbc_DecryptBlocks. rewrite Hi. cbn [Z.eqb Pos.eqb negb].
  rewrite !zlen_app in Hb. replace (zlen cipherText mod 16) with 0; [by apply remove_unpad|].
  rewrite <- Hb. f_equal. lia.
Qed.

(** The challenge of [generateChallenge12] *)
Lemma challenge_decrypts `{!GoTPM, !GoCrypto, !GoAESLaws} decrypt pubkey akpub secret s asym sym :
  (∀ r m c, rsa_EncryptOAEP r pubkey m (str "TCPA") = Ok c → decrypt c = Some m) →
  (generateChallenge12 pubkey akpub secret (NewReader s)).1 = Ok (asym, sym) →
  ∃ key, tpm12_activate decrypt akpub asym = Some key ∧ zlen key = 16 ∧ decryptCredential key sym = Ok secret.
Proof.
  intros Hd Hg.
  destruct (generated_activates decrypt pubkey Hd _ _ _ _ _ Hg) as (key & iv & Hk & Hi & Ha & _ & ->).
  exists key. split; [done|]. split; [done|]. destruct (pad_eq secret 16 ltac:(lia)) as (_ & _ & _ & Hpad).
  rewrite decryptCredential_run by (done || apply zlen_be_bytes). rewrite be_uint_be_bytes by done.
  cbn [Z.eqb Pos.eqb]. unfold decrypt_blocks, aes_NewCipher.
  rewrite bool_decide_eq_true_2 by (rewrite Hk; set_solver). cbn [wrapf mbind res_bind].
  unfold cbc_DecryptBlocks. rewrite Hi. cbn [Z.eqb Pos.eqb negb].
  assert (zlen (aes_cbc_encrypt key iv (pad secret 16)) mod 16 = 0) as ->.
  { rewrite <- Hpad. f_equal. unfold zlen. rewrite <- (cbc_decrypt_length key iv). by rewrite cbc_decrypt_encrypt. }
  cbn [Z.eqb negb res_bind]. rewrite cbc_decrypt_encrypt by done. by apply remove_unpad, unpad_pad.
Qed.

(** [decryptCredential] implements the receiver's part of the TPM 1.2
    challenge: whatever [open_challenge] makes of a blob of whole blocks, it
    returns, and the secret that [generateChallenge12] encrypted comes back
    under the key that the TPM finds for the AK. *)
Theorem decryptCredential_opens `{!GoTPM, !GoCrypto, !GoAESLaws} :
  (∀ key blob m, zlen key ∈ [16; 24; 32] → (zlen blob - 20) mod 16 = 0 →
     open_challenge aes_cbc_decrypt key blob = Some m → decryptCredential key blob = Ok m) ∧
  (∀ decrypt pubkey akpub secret s asym sym,
     (∀ r m c, rsa_EncryptOAEP r pubkey m (str "TCPA") = Ok c → decrypt c = Some m) →
     (generateChallenge12 pubkey akpub secret (NewReader s)).1 = Ok (asym, sym) →
     ∃ key, tpm12_activate decrypt akpub asym = Some key ∧ decryptCredential key sym = Ok secret).
Proof.
  split; [intros; by apply decryptCredential_open|].
  intros decrypt pubkey akpub secret s asym sym Hd Hg.
  destruct (challenge_decrypts decrypt pubkey akpub secret s asym sym Hd Hg) as (key & Ha & _ & He). eauto.
Qed.
End CredentialLemmas.

(** ** On ciphers that do nothing *)
Section Witnesses.
#[local] Existing Instance sha_crypto.
#[local] Existing Instance ex_challenge_tpm.
#[local] Instance ex_identity_aes : GoAES := {| aes_cbc_decrypt _ _ m := m |}.
#[local] Instance ex_identity_laws : GoAESLaws.
Proof. by constructor. Qed.

(** A blob without ciphertext panics the client. *)
Lemma decryptCredential_panics_iff_witness :
  ∃ m, decryptCredential (repeat Byte.x11 16) (be_bytes 4 2 ++ repeat Byte.x00 16) = Panic m.
Proof.
  pose proof (decryptCredential_panics_iff (repeat Byte.x11 16) (be_bytes 4 2 ++ repeat Byte.x00 16)) as Hp.
  unfold panics_if in Hp. destruct (decryptCredential _ _) as [m|e|m|]; [| |by exists m|done].
  all: destruct Hp; split_and!; [done..|set_solver|by right].
Defined.

Lemma decryptCredential_opens_witness :
  ∃ key, tpm12_activate Some (str "ak") ex_challenge.1 = Some key ∧
    decryptCredential key ex_challenge.2 = Ok (str "secret").
Proof.
  apply ((proj2 decryptCredential_opens) Some ex_challenge_key (str "ak") (str "secret") ex_random).
  - intros r m c [= <-]. reflexivity.
  - vm_compute. reflexivity.
Defined.
End Witnesses.
