(* ===== verification/Pcp.v ===== *)
(** * The Platform Crypto Provider ([attest/pcp_windows.go])

    The calls of ncrypt.dll, crypt32.dll and Tbs.dll and the conversions of
    golang.org/x/sys/windows are the interface [Windows], over a state of the
    operating system that is left abstract; the methods of [winPCP] are written
    against it. *)
From S2P Require Import Prelude GoBytes Loops GoCrypto Attest Tpm2.
From S2P Require Import Channel.
From S2P Require Import EKCert.
From S2P Require Import Challenge.
From S2P Require Import WinBlobs.

(** ** Calls *)

(** What [r, _, msg := proc.Call(...)] yields; [msg] is never nil.  [out] is
    what the call wrote through its pointer arguments. *)
Record reply (A : Type) := mkReply { reply_r : Z; reply_msg : error; reply_out : A }.
Arguments mkReply {A}.
Arguments reply_r {A}.
Arguments reply_msg {A}.
Arguments reply_out {A}.
Definition wincall (S A : Type) : Type := S → reply A * S.
Definition Call {S A} (c : wincall S A) : M S (reply A) := λ s, let '(r, s') := c s in (Ok r, s').

(** The memory behind a [syscall.CertContext]: from [EncodedCert] on. *)
Record syscall_CertContext := mkCertContext { EncodedCert : bytes; Length : Z }.

Class Windows (S : Type) := {
  UTF16FromString : string → res error (list Z);
  UTF16ToString : list Z → string;
  (** [windows.MustLoadDLL("Tbs.dll")] and [MustFindProc] *)
  MustFind_Tbsi_GetDeviceInfo : M S ();
  NCryptOpenStorageProvider : list Z → wincall S Z;
  NCryptFreeObject : Z → wincall S ();
  (** object, property, size of the buffer (0 to ask for the size): what was
      written to the buffer, and the size reported *)
  NCryptGetProperty : Z → list Z → Z → wincall S (bytes * Z);
  NCryptSetProperty : Z → list Z → bytes → wincall S ();
  (** provider and name *)
  NCryptOpenKey : Z → list Z → wincall S Z;
  (** provider, algorithm and name *)
  NCryptCreatePersistedKey : Z → list Z → list Z → wincall S Z;
  NCryptFinalizeKey : Z → wincall S ();
  NCryptDeleteKey : Z → wincall S ();
  (** store and previous context; the result [r] is the next context *)
  CertEnumCertificatesInStore : Z → Z → wincall S ();
  CertCloseStore : Z → wincall S ();
  cert_memory : S → Z → syscall_CertContext;
  (** the structure of four 32-bit integers *)
  Tbsi_GetDeviceInfo : wincall S bytes;
  (** a bound on the certificates of a store, fuel for their enumeration *)
  enum_limit : nat;
}.

(** ** Constants *)
Definition pcpProviderName : string := "Microsoft Platform Crypto Provider".
Definition cryptENotFound : Z := 0x80092004.
Definition nCryptPropertyPCPKeyUsagePolicyIdentity : Z := 0x8.

Definition tpmErrNums : list (Z * string) :=
  [(0x80280001, "TPM_E_AUTHFAIL"%string); (0x80280002, "TPM_E_BADINDEX"%string);
   (0x80280003, "TPM_E_BAD_PARAMETER"%string); (0x80280004, "TPM_E_AUDITFAILURE"%string);
   (0x80280005, "TPM_E_CLEAR_DISABLED"%string); (0x80280006, "TPM_E_DEACTIVATED"%string);
   (0x80280007, "TPM_E_DISABLED"%string); (0x80280008, "TPM_E_DISABLED_CMD"%string);
   (0x80280009, "TPM_E_FAIL"%string); (0x8028000a, "TPM_E_BAD_ORDINAL"%string);
   (0x8028000b, "TPM_E_INSTALL_DISABLED"%string);
   (0x8028000c, "TPM_E_INVALID_KEYHANDLE"%string); (0x8028000d, "TPM_E_KEYNOTFOUND"%string);
   (0x8028000e, "TPM_E_INAPPROPRIATE_ENC"%string); (0x8028000f, "TPM_E_MIGRATEFAIL"%string);
   (0x80280010, "TPM_E_INVALID_PCR_INFO"%string); (0x80280011, "TPM_E_NOSPACE"%string);
   (0x80280012, "TPM_E_NOSRK"%string); (0x80280013, "TPM_E_NOTSEALED_BLOB"%string);
   (0x80280014, "TPM_E_OWNER_SET"%string); (0x80280015, "TPM_E_RESOURCES"%string);
   (0x80280016, "TPM_E_SHORTRANDOM"%string); (0x80280017, "TPM_E_SIZE"%string);
   (0x80280018, "TPM_E_WRONGPCRVAL"%string); (0x80280019, "TPM_E_BAD_PARAM_SIZE"%string);
   (0x8028001a, "TPM_E_SHA_THREAD"%string); (0x8028001b, "TPM_E_SHA_ERROR"%string);
   (0x8028001c, "TPM_E_FAILEDSELFTEST"%string); (0x8028001d, "TPM_E_AUTH2FAIL"%string);
   (0x8028001e, "TPM_E_BADTAG"%string); (0x8028001f, "TPM_E_IOERROR"%string);
   (0x80280020, "TPM_E_ENCRYPT_ERROR"%string); (0x80280021, "TPM_E_DECRYPT_ERROR"%string);
   (0x80280022, "TPM_E_INVALID_AUTHHANDLE"%string);
   (0x80280023, "TPM_E_NO_ENDORSEMENT"%string); (0x80280024, "TPM_E_INVALID_KEYUSAGE"%string);
   (0x80280025, "TPM_E_WRONG_ENTITYTYPE"%string);
   (0x80280026, "TPM_E_INVALID_POSTINIT"%string);
   (0x80280027, "TPM_E_INAPPROPRIATE_SIG"%string);
   (0x80280028, "TPM_E_BAD_KEY_PROPERTY"%string); (0x80280029, "TPM_E_BAD_MIGRATION"%string);
   (0x8028002a, "TPM_E_BAD_SCHEME"%string); (0x8028002b, "TPM_E_BAD_DATASIZE"%string);
   (0x8028002c, "TPM_E_BAD_MODE"%string); (0x8028002d, "TPM_E_BAD_PRESENCE"%string);
   (0x8028002e, "TPM_E_BAD_VERSION"%string); (0x8028002f, "TPM_E_NO_WRAP_TRANSPORT"%string);
   (0x80280030, "TPM_E_AUDITFAIL_UNSUCCESSFUL"%string);
   (0x80280031, "TPM_E_AUDITFAIL_SUCCESSFUL"%string);
   (0x80280032, "TPM_E_NOTRESETABLE"%string); (0x80280033, "TPM_E_NOTLOCAL"%string);
   (0x80280034, "TPM_E_BAD_TYPE"%string); (0x80280035, "TPM_E_INVALID_RESOURCE"%string);
   (0x80280036, "TPM_E_NOTFIPS"%string); (0x80280037, "TPM_E_INVALID_FAMILY"%string);
   (0x80280038, "TPM_E_NO_NV_PERMISSION"%string); (0x80280039, "TPM_E_REQUIRES_SIGN"%string);
   (0x8028003a, "TPM_E_KEY_NOTSUPPORTED"%string); (0x8028003b, "TPM_E_AUTH_CONFLICT"%string);
   (0x8028003c, "TPM_E_AREA_LOCKED"%string); (0x80280049, "TPM_E_NOOPERATOR"%string);
   (0x8028004a, "TPM_E_RESOURCEMISSING"%string); (0x8028004b, "TPM_E_DELEGATE_LOCK"%string);
   (0x8028004c, "TPM_E_DELEGATE_FAMILY"%string); (0x8028004d, "TPM_E_DELEGATE_ADMIN"%string);
   (0x8028004e, "TPM_E_TRANSPORT_NOTEXCLUSIVE"%string);
   (0x8028004f, "TPM_E_OWNER_CONTROL"%string); (0x80280050, "TPM_E_DAA_RESOURCES"%string);
   (0x80280058, "TPM_E_BAD_HANDLE"%string); (0x80280059, "TPM_E_BAD_DELEGATE"%string);
   (0x8028005a, "TPM_E_BADCONTEXT"%string); (0x8028005b, "TPM_E_TOOMANYCONTEXTS"%string);
   (0x8028005c, "TPM_E_MA_TICKET_SIGNATURE"%string);
   (0x8028005d, "TPM_E_MA_DESTINATION"%string); (0x8028005e, "TPM_E_MA_SOURCE"%string);
   (0x8028005f, "TPM_E_MA_AUTHORITY"%string); (0x80280061, "TPM_E_PERMANENTEK"%string);
   (0x80280062, "TPM_E_BAD_SIGNATURE"%string); (0x80280063, "TPM_E_NOCONTEXTSPACE"%string);
   (0x80280400, "TPM_E_COMMAND_BLOCKED"%string); (0x80280401, "TPM_E_INVALID_HANDLE"%string);
   (0x80280402, "TPM_E_DUPLICATE_VHANDLE"%string);
   (0x80280403, "TPM_E_EMBEDDED_COMMAND_BLOCKED"%string);
   (0x80280404, "TPM_E_EMBEDDED_COMMAND_UNSUPPORTED"%string);
   (0x80280800, "TPM_E_RETRY"%string); (0x80280801, "TPM_E_NEEDS_SELFTEST"%string);
   (0x80280802, "TPM_E_DOING_SELFTEST"%string);
   (0x80280803, "TPM_E_DEFEND_LOCK_RUNNING"%string);
   (0x80284001, "TBS_E_INTERNAL_ERROR"%string); (0x80284002, "TBS_E_BAD_PARAMETER"%string);
   (0x80284003, "TBS_E_INVALID_OUTPUT_POINTER"%string);
   (0x80284004, "TBS_E_INVALID_CONTEXT"%string);
   (0x80284005, "TBS_E_INSUFFICIENT_BUFFER"%string); (0x80284006, "TBS_E_IOERROR"%string);
   (0x80284007, "TBS_E_INVALID_CONTEXT_PARAM"%string);
   (0x80284008, "TBS_E_SERVICE_NOT_RUNNING"%string);
   (0x80284009, "TBS_E_TOO_MANY_TBS_CONTEXTS"%string);
   (0x8028400a, "TBS_E_TOO_MANY_RESOURCES"%string);
   (0x8028400b, "TBS_E_SERVICE_START_PENDING"%string);
   (0x8028400c, "TBS_E_PPI_NOT_SUPPORTED"%string);
   (0x8028400d, "TBS_E_COMMAND_CANCELED"%string);
   (0x8028400e, "TBS_E_BUFFER_TOO_LARGE"%string); (0x8028400f, "TBS_E_TPM_NOT_FOUND"%string);
   (0x80284010, "TBS_E_SERVICE_DISABLED"%string); (0x80284011, "TBS_E_NO_EVENT_LOG"%string);
   (0x80284012, "TBS_E_ACCESS_DENIED"%string);
   (0x80284013, "TBS_E_PROVISIONING_NOT_ALLOWED"%string);
   (0x80284014, "TBS_E_PPI_FUNCTION_UNSUPPORTED"%string);
   (0x80284015, "TBS_E_OWNERAUTH_NOT_FOUND"%string);
   (0x80284016, "TBS_E_PROVISIONING_INCOMPLETE"%string);
   (0x80290401, "TPM_E_PCP_DEVICE_NOT_READY"%string);
   (0x80290402, "TPM_E_PCP_INVALID_HANDLE"%string);
   (0x80290403, "TPM_E_PCP_INVALID_PARAMETER"%string);
   (0x80290404, "TPM_E_PCP_FLAG_NOT_SUPPORTED"%string);
   (0x80290405, "TPM_E_PCP_NOT_SUPPORTED"%string);
   (0x80290406, "TPM_E_PCP_BUFFER_TOO_SMALL"%string);
   (0x80290407, "TPM_E_PCP_INTERNAL_ERROR"%string);
   (0x80290408, "TPM_E_PCP_AUTHENTICATION_FAILED"%string);
   (0x80290409, "TPM_E_PCP_AUTHENTICATION_IGNORED"%string);
   (0x8029040a, "TPM_E_PCP_POLICY_NOT_FOUND"%string);
   (0x8029040b, "TPM_E_PCP_PROFILE_NOT_FOUND"%string);
   (0x8029040c, "TPM_E_PCP_VALIDATION_FAILED"%string); (0x80090009, "NTE_BAD_FLAGS"%string);
   (0x80090026, "NTE_INVALID_HANDLE"%string); (0x80090027, "NTE_INVALID_PARAMETER"%string);
   (0x80090029, "NTE_NOT_SUPPORTED"%string)].

(** The name of the code is kept as the cause of the error. *)
Definition maybeWinErr (errNo : Z) : option error :=
  match assoc (uint32 errNo) tpmErrNums with
  | Some code => Some (Wrapf "tpm or subsystem failure: %s" (LibErr code))
  | None => None
  end.

(** ** Memory *)

(** A buffer after a call, or [copy], has written to its start. *)
Definition overwrite (buf written : bytes) : bytes :=
  take (length buf) (written ++ drop (length written) buf).
Definition zeros (n : Z) : bytes := repeat Byte.x00 (Z.to_nat n).

(** ** Handles and properties *)
Record winPCP := mkWinPCP { hProv : Z }.

Section PCP.
Context {S : Type} `{Windows S}.

(** [make([]uint16, len(buf)/2)] is what [binary.Read] fills. *)
Definition utf16ToString (buf : bytes) : res error string :=
  b ← (ReadFull (2 * (zlen buf / 2)) (NewReader buf)).1;
  Ok (UTF16ToString (uint16s b)).

(** [if r != 0 { if tpmErr := maybeWinErr(r); tpmErr != nil { msg = tpmErr }; ... }] *)
Definition win_error {A} (rep : reply A) : error := default (reply_msg rep) (maybeWinErr (reply_r rep)).
(** A call whose failure is returned as [fmt] around [win_error] *)
Definition checked {A} (fmt : string) (c : wincall S A) : M S A :=
  rep ← Call c;
  if reply_r rep =? 0 then mret (reply_out rep) else fail (Wrapf fmt (win_error rep)).

Definition closeNCryptObject (hnd : Z) : M S () :=
  rep ← Call (NCryptFreeObject hnd);
  if reply_r rep =? 0 then mret tt
  else match maybeWinErr (reply_r rep) with
       | Some tpmErr => fail tpmErr
       | None => fail (Wrapf "NCryptFreeObject returned %X: %v" (reply_msg rep))
       end.

(** [&buff[0]] panics for a property of no bytes. *)
Definition getNCryptBufferProperty (hnd : Z) (field : string) : M S bytes :=
  wideField ← lift_res (UTF16FromString field);
  q ← checked "NCryptGetProperty returned %d,%X (%v) for key %q on size read"
        (NCryptGetProperty hnd wideField 0);
  let size := uint32 q.2 in
  let buff := zeros size in
  if size =? 0 then panic "index out of range"
  else
    w ← checked "NCryptGetProperty returned %X (%v) for key %q on data read"
          (NCryptGetProperty hnd wideField size);
    mret (overwrite buff w.1).

(** A property of [n] bytes read into a variable. *)
Definition integer_property (fmt : string) (hnd : Z) (field : string) (n : Z) : M S Z :=
  wideField ← lift_res (UTF16FromString field);
  w ← checked fmt (NCryptGetProperty hnd wideField n);
  mret (le_uint (overwrite (zeros n) w.1)).

(** The context of the TPM's command interface, a [tpmtbs.Context], which is a
    [uintptr]; the handle of a key has 32 bits. *)
Definition pcp_TPMCommandInterface (h : winPCP) : M S Z :=
  integer_property "NCryptGetProperty for platform handle returned %X (%v)" (hProv h) "PCP_PLATFORMHANDLE" 8.
Definition pcp_TPMKeyHandle (h : winPCP) (hnd : Z) : M S Z :=
  integer_property "NCryptGetProperty for hKey platform handle returned %X (%v)" hnd "PCP_PLATFORMHANDLE" 4.

Definition pcp_Close (h : winPCP) : M S () := closeNCryptObject (hProv h).

Definition pcp_DeleteKey (h : winPCP) (kh : Z) : M S () :=
  rep ← Call (NCryptDeleteKey kh);
  if reply_r rep =? 0 then mret tt else fail (Wrapf "nCryptDeleteKey returned %X: %v" (reply_msg rep)).

(** ** Certificates *)

(** The bytes are copied through an array of 1 MiB. *)
Definition copy_cert (cert : syscall_CertContext) : bytes :=
  overwrite (zeros (Length cert)) (take (Z.to_nat (2 ^ 20)) (EncodedCert cert)).

Fixpoint enum_certs (fuel : nat) (cryptCertHnd certContext : Z) (out : list bytes) : M S (list bytes) :=
  match fuel with
  | O => nofuel
  | Datatypes.S fuel =>
      rep ← Call (CertEnumCertificatesInStore cryptCertHnd certContext);
      let certContext := reply_r rep in
      if certContext =? 0 then
        match reply_msg rep with
        | Errno errno => if errno =? cryptENotFound then mret out else fail (Errno errno)
        | msg => fail msg
        end
      else
        cert ← gets (λ s, cert_memory s certContext);
        enum_certs fuel cryptCertHnd certContext (out ++ [copy_cert cert])
  end.

(** [defer crypt32CertCloseStore.Call(store, 0)] before [m] *)
Definition defer_close_store {A} (store : Z) (m : M S A) : M S A := λ s,
  let '(r, s') := m s in (r, (CertCloseStore store s').2).

Definition getPCPCerts (hProv : Z) (propertyName : string) : M S (list bytes) :=
  utf16PropName ← lift_res (UTF16FromString propertyName);
  rep ← Call (NCryptGetProperty hProv utf16PropName 8);
  if negb (reply_r rep =? 0) then fail (Wrapf "NCryptGetProperty returned %X, %v" (reply_msg rep))
  else
    let cryptCertHnd := le_uint (overwrite (zeros 8) (reply_out rep).1) in
    defer_close_store cryptCertHnd (enum_certs enum_limit cryptCertHnd 0 []).

(** [for _, der := range c] *)
Fixpoint parse_certs `{X509} (c : list bytes) (out : list Certificate) : res error (list Certificate) :=
  match c with
  | [] => Ok out
  | der :: c => cert ← ParseEKCertificate der; parse_certs c (out ++ [cert])
  end.

Definition pcp_EKCerts `{X509} (h : winPCP) : M S (list Certificate) :=
  c ← getPCPCerts (hProv h) "PCP_RSA_EKNVCERT";
  c ← try (getPCPCerts (hProv h) "PCP_ECC_EKNVCERT") (λ eccCerts, mret (c ++ eccCerts)) (λ _, mret c);
  c ← (if zlen c =? 0 then
         certs ← wrapM "Failed to read PCP_EKNVCERT: %v" (getPCPCerts (hProv h) "PCP_EKNVCERT");
         mret (c ++ certs)
       else mret c);
  lift_res (parse_certs c []).

(** ** Keys *)
Definition pcp_NewAK (h : winPCP) (name : string) : M S Z :=
  utf16Name ← lift_res (UTF16FromString name);
  utf16RSA ← lift_res (UTF16FromString "RSA");
  kh ← checked "NCryptCreatePersistedKey returned %X: %v"
         (NCryptCreatePersistedKey (hProv h) utf16RSA utf16Name);
  utf16Length ← lift_res (UTF16FromString "Length");
  _ ← checked "NCryptSetProperty (Length) returned %X: %v"
        (NCryptSetProperty kh utf16Length (le_bytes 4 2048));
  utf16KeyPolicy ← lift_res (UTF16FromString "PCP_KEY_USAGE_POLICY");
  _ ← checked "NCryptSetProperty (PCP KeyUsage Policy) returned %X: %v"
        (NCryptSetProperty kh utf16KeyPolicy (le_bytes 4 nCryptPropertyPCPKeyUsagePolicyIdentity));
  _ ← checked "NCryptFinalizeKey returned %X: %v" (NCryptFinalizeKey kh);
  mret kh.

Definition pcp_EKPub (h : winPCP) : M S bytes := getNCryptBufferProperty (hProv h) "PCP_EKPUB".

Definition pcp_AKProperties (h : winPCP) (kh : Z) : M S akProps :=
  idBlob ← getNCryptBufferProperty kh "PCP_TPM12_IDBINDING";
  lift_res (decodeAKProps idBlob).

Definition pcp_LoadKeyByName (h : winPCP) (name : string) : M S Z :=
  utf16Name ← lift_res (UTF16FromString name);
  rep ← Call (NCryptOpenKey (hProv h) utf16Name);
  if reply_r rep =? 0 then mret (reply_out rep) else fail (reply_msg rep).

(** [&activationBlob[0]] and [secretBuff[:size]] panic. *)
Definition pcp_ActivateCredential (h : winPCP) (hKey : Z) (activationBlob : bytes) : M S bytes :=
  utf16ActivationStr ← lift_res (UTF16FromString "PCP_TPM12_IDACTIVATION");
  if zlen activationBlob =? 0 then panic "index out of range"
  else
    _ ← checked "NCryptSetProperty returned %X (%v) for key activation"
          (NCryptSetProperty hKey utf16ActivationStr activationBlob);
    w ← checked "NCryptGetProperty returned %X (%v) for key activation"
          (NCryptGetProperty hKey utf16ActivationStr 256);
    lift_res (slice (overwrite (zeros 256) w.1) 0 (uint32 w.2)).

Definition openPCP : M S winPCP :=
  pname ← lift_res (UTF16FromString pcpProviderName);
  rep ← Call (NCryptOpenStorageProvider pname);
  if reply_r rep =? 0 then mret (mkWinPCP (reply_out rep)) else fail (win_error rep).
End PCP.

(** ** The state of a program: whether Tbs.dll is loaded, and the system *)
Record program (S : Type) := mkProgram { tbs_found : bool; win : S }.
Arguments mkProgram {S}.
Arguments tbs_found {S}.
Arguments win {S}.

Record tbsDeviceInfo := mkDeviceInfo {
  di_TBSVersion : Z; di_TPMVersion : Z; di_TPMInterfaceType : Z; di_TPMImplementationRevision : Z;
}.
Definition decode_tbsDeviceInfo (b : bytes) : tbsDeviceInfo :=
  let f off := le_uint (field off 4 b) in mkDeviceInfo (f 0%nat) (f 4%nat) (f 8%nat) (f 12%nat).
Record windowsTPMInfo := mkWinInfo { wi_Manufacturer : string; wi_PCPVersion : string; wi_TBSInfo : tbsDeviceInfo }.

Section Program.
Context {S : Type} `{Windows S}.

Definition os {A} (m : M S A) : M (program S) A := λ p,
  let '(r, s) := m (win p) in (r, mkProgram (tbs_found p) s).

(** [tbsGetDeviceInfo] is nil until the DLL is loaded. *)
Definition pcp_TPMInfo (h : winPCP) : M (program S) windowsTPMInfo :=
  buf ← wrapM "Failed to read PCP_PLATFORM_TYPE: %v" (os (getNCryptBufferProperty (hProv h) "PCP_PLATFORM_TYPE"));
  manufacturer ← lift_res (utf16ToString buf);
  buf ← wrapM "Failed to read PCP_PROVIDER_VERSION: %v"
          (os (getNCryptBufferProperty (hProv h) "PCP_PROVIDER_VERSION"));
  version ← lift_res (utf16ToString buf);
  found ← gets tbs_found;
  if negb found then panic "nil pointer dereference"
  else
    rep ← os (Call Tbsi_GetDeviceInfo);
    if reply_r rep =? 0
    then mret (mkWinInfo manufacturer version (decode_tbsDeviceInfo (overwrite (zeros 16) (reply_out rep))))
    else fail (Wrapf "Failed to call Tbsi_GetDeviceInfo: %v" (reply_msg rep)).
End Program.
