(* ===== verification/Windows.v ===== *)
(** * The Windows driver ([attest/tpm_windows.go], [attest/key_windows.go])

    [windowsTPM] finds, opens and uses the TPM through the Platform Crypto
    Provider; [windowsKey12] and [windowsKey20] are its keys.  Commands are sent
    over the provider's context: [WindowsTPM] has those of go-tpm for TPM 1.2,
    and the TPM 2.0 channel that belongs to a context. *)
From S2P Require Import Prelude GoBytes Loops GoCrypto GoRuntime Attest Tpm2.
From S2P Require Import Activation.
From S2P Require Import Certification.
From S2P Require Import Templates.
From S2P Require Import Channel.
From S2P Require Import EKCert.
From S2P Require Import Wrapped20.
From S2P Require Import PcrBank.
From S2P Require Import Platform.
From S2P Require Import Trousers12.
From S2P Require Import OpenTpm.
From S2P Require Import WinBlobs.
From S2P Require Import Pcp.

(** ** Commands and randomness *)
Class WindowsTPM (S : Type) := {
  (** [tpmutil.FromContext] *)
  FromContext : Z → TPM2Channel S;
  tpm1_GetManufacturer : Z → M S bytes;
  tpm1_ReadPCR : Z → Z → M S bytes;
  (** context, key, nonce, PCRs and the well-known authorization: signature and
      PCR composite *)
  tpm1_Quote : Z → Z → bytes → list Z → bytes → M S (bytes * bytes);
  tpm1_NewQuoteInfo : bytes → list Z → bytes → res error bytes;
  tpmtbs_CreateContext : M S Z;
  (** context and size of the buffer: what was written to it, and the length *)
  tpmtbs_GetTCGLog : Z → Z → M S (bytes * Z);
  tpmtbs_Close : Z → M S ();
  rand_Read : Z → M S bytes;
}.

Definition wellKnownAuth : bytes := zeros 20.

(** ** Data *)
Record windowsTPM := mkWindowsTPM { wt_version : Z; wt_pcp : winPCP }.

Record windowsKey12 := mkWindowsKey12 { k12_hnd : Z; k12_pcpKeyName : string; k12_public : bytes }.
Definition newWindowsKey12 (hnd : Z) (pcpKeyName : string) (public : bytes) : windowsKey12 :=
  mkWindowsKey12 hnd pcpKeyName public.

Record windowsKey20 := mkWindowsKey20 {
  k20_hnd : Z; k20_pcpKeyName : string; k20_public : bytes; k20_createData : bytes;
  k20_createAttestation : bytes; k20_createSignature : bytes;
}.
Definition newWindowsKey20 (hnd : Z) (pcpKeyName : string) (public createData createAttest createSig : bytes)
    : windowsKey20 :=
  mkWindowsKey20 hnd pcpKeyName public createData createAttest createSig.

(** The [ak] of this driver, and the dynamic type of a [tpmBase]. *)
Inductive windows_ak := akWindows12 (k : windowsKey12) | akWindows20 (k : windowsKey20).
Inductive windows_impl := tpmWindows (t : windowsTPM) | tpmNotWindows.

Definition windows_hnd (k : windows_ak) : Z :=
  match k with akWindows12 k => k12_hnd k | akWindows20 k => k20_hnd k end.

Definition tbsConvertVersion (info : tbsDeviceInfo) : res error Z :=
  if di_TPMVersion info =? 1 then Ok TPMVersion12
  else if di_TPMVersion info =? 2 then Ok TPMVersion20
  else Err (Errorf "TBSInfo.TPMVersion %d unsupported").

(** A call whose error is dropped. *)
Definition ignoring {S A} (m : M S A) : M S () := try m (λ _, mret tt) (λ _, mret tt).

(** ** Finding and opening the TPM *)
Section Open.
Context {S : Type} `{Windows S}.

(** [if tbs == nil { tbs = ...; tbsGetDeviceInfo = ... }] *)
Definition load_tbs : M (program S) () :=
  found ← gets tbs_found;
  if negb found then
    _ ← os MustFind_Tbsi_GetDeviceInfo;
    modify (λ p, mkProgram true (win p))
  else mret tt.

(** [defer pcp.Close()] *)
Definition defer_pcp_close {A} (h : winPCP) (m : M (program S) A) : M (program S) A := λ p,
  let '(r, p') := m p in (r, (os (pcp_Close h) p').2).

Definition win_probeSystemTPMs : M (program S) (list probedTPM) :=
  _ ← load_tbs;
  try (os openPCP)
    (λ pcp : winPCP, defer_pcp_close pcp (
       info ← wrapM "TPMInfo() failed: %v" (pcp_TPMInfo pcp);
       version ← lift_res (wrapf "tbsConvertVersion(%v) failed: %v" (tbsConvertVersion (wi_TBSInfo info)));
       mret [mkProbed version ""]))
    (λ _, mret []).

(** The probed TPM is not looked at. *)
Definition win_openTPM (tpm : probedTPM) : M (program S) windowsTPM :=
  pcp ← wrapM "openPCP() failed: %v" (os openPCP);
  info ← wrapM "TPMInfo() failed: %v" (pcp_TPMInfo pcp);
  vers ← lift_res (wrapf "tbsConvertVersion(%v) failed: %v" (tbsConvertVersion (wi_TBSInfo info)));
  mret (mkWindowsTPM vers pcp).
End Open.

(** ** The driver *)
Section Driver.
Context {S : Type} `{Windows S, WindowsTPM S, GoCrypto, GoTPM, GoRuntime, X509, Encodings, GoAES}.

Definition windows_close (t : windowsTPM) : M S () := pcp_Close (wt_pcp t).

Definition win_readTPM12VendorAttributes (tpm : Z) : M S (Z * bytes) :=
  vendor ← wrapM "tpm1.GetCapability failed: %v" (tpm1_GetManufacturer tpm);
  vendorID ← lift_res (BigEndian_Uint32 vendor);
  mret (vendorID, str (TCGVendorID_String vendorID)).

Definition windows_info (t : windowsTPM) : M S TPMInfo :=
  tpm ← pcp_TPMCommandInterface (wt_pcp t);
  if wt_version t =? TPMVersion12 then
    mv ← win_readTPM12VendorAttributes tpm;
    mret (mkTPMInfo (wt_version t) TPMInterfaceKernelManaged mv.2 mv.1 0 0)
  else if wt_version t =? TPMVersion20 then
    t2Info ← readTPM2VendorAttributes (H := FromContext tpm);
    mret (mkTPMInfo (wt_version t) TPMInterfaceKernelManaged (ti_vendor t2Info) (ti_manufacturer t2Info)
            (ti_fwMajor t2Info) (ti_fwMinor t2Info))
  else fail (Errorf "unsupported TPM version: %x").

Definition windows_ekCertificates (t : windowsTPM) : M S (list EK) :=
  ekCerts ← wrapM "could not read EKCerts: %v" (pcp_EKCerts (wt_pcp t));
  mret ((λ cert, ek_of_cert cert 0) <$> ekCerts).

Definition windows_ekPub (t : windowsTPM) : M S rsa_PublicKey :=
  p ← wrapM "could not read ekpub: %v" (pcp_EKPub (wt_pcp t));
  lift_res (wrapf "could not decode ekpub: %v" (decodeWindowsBcryptRSABlob (NewReader p)).1).

Definition windows_eks (t : windowsTPM) : M S (list EK) :=
  ekCerts ← wrapM "could not read EKCerts: %v" (pcp_EKCerts (wt_pcp t));
  if 0 <? zlen ekCerts then mret ((λ cert, ek_of_cert cert 0) <$> ekCerts)
  else
    pub ← wrapM "could not read ek public key from tpm: %v" (windows_ekPub t);
    i ← windows_info t;
    let url := if bool_decide (TCGVendorID_String (info_Manufacturer i) = manufacturerIntel)
               then intelEKURL pub else [] in
    mret [mkEK _ (Some (PubRSA pub)) None url 0].

(** *** Keys *)
Definition windows_newAK (t : windowsTPM) (opts : option AKConfig) : M S windows_ak :=
  nameHex ← wrapM "rand.Read() failed with %d/%d bytes read and error: %v" (rand_Read 5);
  _ ← reject_if (negb (zlen nameHex =? 5)) (Errorf "rand.Read() failed with %d/%d bytes read and error: %v");
  let name := ("ak-" +:+ hex_EncodeToString nameHex)%string in
  kh ← wrapM "pcp failed to mint attestation key: %v" (pcp_NewAK (wt_pcp t) name);
  try (pcp_AKProperties (wt_pcp t) kh)
    (λ props,
       if wt_version t =? TPMVersion12 then mret (akWindows12 (newWindowsKey12 kh name (RawPublic props)))
       else if wt_version t =? TPMVersion20 then
         mret (akWindows20 (newWindowsKey20 kh name (RawPublic props) (RawCreationData props)
                              (RawAttest props) (RawSignature props)))
       else fail (Errorf "cannot handle TPM version: %v"))
    (λ err,
       _ ← ignoring (closeNCryptObject kh);
       fail (Wrapf "pcp failed to read attestation key properties: %v" err)).

Definition windows_loadAK (t : windowsTPM) (opaqueBlob : bytes) : M S windows_ak :=
  sKey ← lift_res (wrapf "deserializeKey() failed: %v" (deserializeKey opaqueBlob (wt_version t)));
  _ ← reject_if (negb (sk_Encoding sKey =? keyEncodingOSManaged)) (Errorf "unsupported key encoding: %x");
  hnd ← wrapM "pcp failed to load key: %v" (pcp_LoadKeyByName (wt_pcp t) (sk_Name sKey));
  if wt_version t =? TPMVersion12 then mret (akWindows12 (newWindowsKey12 hnd (sk_Name sKey) (sk_Public sKey)))
  else if wt_version t =? TPMVersion20 then
    mret (akWindows20 (newWindowsKey20 hnd (sk_Name sKey) (sk_Public sKey) (sk_CreateData sKey)
                         (sk_CreateAttestation sKey) (sk_CreateSignature sKey)))
  else fail (Errorf "cannot handle TPM version: %v").

Definition windows_loadAKWithParent (t : windowsTPM) (opaqueBlob : bytes) (parent : ParentKeyConfig)
    : M S windows_ak := fail (Errorf "not implemented").
Definition windows_newKey (t : windowsTPM) (ak : option windows_ak) (opts : option KeyConfig) : M S Key :=
  fail (Errorf "not implemented").
Definition windows_loadKey (t : windowsTPM) (opaqueBlob : bytes) : M S Key := fail (Errorf "not implemented").
Definition windows_loadKeyWithParent (t : windowsTPM) (opaqueBlob : bytes) (parent : ParentKeyConfig)
    : M S Key := fail (Errorf "not implemented").

(** *** PCRs and the event log *)
Fixpoint win_read_pcrs12 (n : nat) (pcr : Z) (tpm : Z) (out : gmap Z bytes) : M S (gmap Z bytes) :=
  match n with
  | O => mret out
  | Datatypes.S n =>
      pcrval ← wrapM "tpm.ReadPCR() failed with err: %v" (tpm1_ReadPCR tpm (uint32 pcr));
      win_read_pcrs12 n (pcr + 1) tpm (<[uint32 pcr := pcrval]> out)
  end.
Definition win_allPCRs12 (tpm : Z) : M S (gmap Z bytes) :=
  out ← win_read_pcrs12 24 0 tpm ∅;
  _ ← reject_if (negb (Z.of_nat (size out) =? 24)) (Errorf "failed to read all PCRs, only read %d");
  mret out.

Definition windows_pcrs (t : windowsTPM) (alg : Z) : M S (list PCR) :=
  PCRs ←
    (if wt_version t =? TPMVersion12 then
       _ ← reject_if (negb (alg =? HashSHA1)) (Errorf "non-SHA1 algorithm %v is not supported on TPM 1.2");
       tpm ← wrapM "TPMCommandInterface() failed: %v" (pcp_TPMCommandInterface (wt_pcp t));
       wrapM "failed to read PCRs: %v" (win_allPCRs12 tpm)
     else if wt_version t =? TPMVersion20 then
       tpm ← wrapM "TPMCommandInterface() failed: %v" (pcp_TPMCommandInterface (wt_pcp t));
       wrapM "failed to read PCRs: %v" (readAllPCRs20 (H := FromContext tpm) (goTPMAlg alg))
     else fail (Errorf "unsupported TPM version: %x"));
  lift_res (fill_pcrs (cryptoHash alg) (map_range PCRs) (repeat (mkPCR 0 [] 0 false) (size PCRs))).

(** [defer context.Close()] *)
Definition defer_context_close {A} (context : Z) (m : M S A) : M S A := λ s,
  let '(r, s') := m s in (r, (tpmtbs_Close context s').2).

Definition windows_measurementLog : M S bytes :=
  context ← tpmtbs_CreateContext;
  defer_context_close context (
    q ← tpmtbs_GetTCGLog context 0;
    w ← tpmtbs_GetTCGLog context q.2;
    mret (overwrite (zeros q.2) w.1)).

(** ** Operations on keys *)
Definition as_windowsTPM (tb : windows_impl) : M S windowsTPM :=
  match tb with
  | tpmWindows t => mret t
  | tpmNotWindows => fail (Errorf "expected *windowsTPM, got %T")
  end.

Definition marshal12 (k : windowsKey12) : res error bytes :=
  json_Marshal (mkSerialized keyEncodingOSManaged TPMVersion12 (k12_public k) [] [] []
    (k12_pcpKeyName k) []).
Definition marshal20 (k : windowsKey20) : res error bytes :=
  json_Marshal (mkSerialized keyEncodingOSManaged TPMVersion20 (k20_public k) (k20_createData k)
    (k20_createAttestation k) (k20_createSignature k) (k20_pcpKeyName k) []).

Definition activateCredential12 (k : windowsKey12) (tb : windows_impl) (cred : EncryptedCredential)
    (ek : option EK) : M S bytes :=
  tpm ← as_windowsTPM tb;
  secretKey ← pcp_ActivateCredential (wt_pcp tpm) (k12_hnd k) (ec_Credential cred);
  lift_res (decryptCredential secretKey (ec_Secret cred)).
Definition activateCredential20 (k : windowsKey20) (tb : windows_impl) (cred : EncryptedCredential)
    (ek : option EK) : M S bytes :=
  tpm ← as_windowsTPM tb;
  pcp_ActivateCredential (wt_pcp tpm) (k20_hnd k) (ec_Credential cred ++ ec_Secret cred).

(** [selectedPCRs[:]] of a nil slice has no elements. *)
Definition key12_quote (k : windowsKey12) (tb : windows_impl) (nonce : bytes) (alg : Z)
    (selectedPCRs : option (list Z)) : M S Quote :=
  _ ← reject_if (negb (alg =? HashSHA1)) (Errorf "only SHA1 algorithms supported on TPM 1.2, not %v");
  t ← as_windowsTPM tb;
  tpmKeyHnd ← wrapM "TPMKeyHandle() failed: %v" (pcp_TPMKeyHandle (wt_pcp t) (k12_hnd k));
  tpm ← wrapM "TPMCommandInterface() failed: %v" (pcp_TPMCommandInterface (wt_pcp t));
  let selected := default [] selectedPCRs in
  sc ← wrapM "Quote() failed: %v" (tpm1_Quote tpm tpmKeyHnd nonce selected wellKnownAuth);
  quote ← lift_res (wrapf "failed to construct Quote Info: %v" (tpm1_NewQuoteInfo nonce selected sc.2));
  mret (mkQuote TPMVersion12 quote sc.1).
Definition key20_quote (k : windowsKey20) (tb : windows_impl) (nonce : bytes) (alg : Z)
    (selectedPCRs : option (list Z)) : M S Quote :=
  t ← as_windowsTPM tb;
  tpmKeyHnd ← wrapM "TPMKeyHandle() failed: %v" (pcp_TPMKeyHandle (wt_pcp t) (k20_hnd k));
  tpm ← wrapM "TPMCommandInterface() failed: %v" (pcp_TPMCommandInterface (wt_pcp t));
  quote20 (H := FromContext tpm) tpmKeyHnd (goTPMAlg alg) nonce (default [] selectedPCRs).

Definition key12_close (k : windowsKey12) (tpm : windows_impl) : M S () := closeNCryptObject (k12_hnd k).
Definition key20_close (k : windowsKey20) (tpm : windows_impl) : M S () := closeNCryptObject (k20_hnd k).

Definition attestationParameters12 (k : windowsKey12) : AttestationParameters :=
  mkAKParameters (k12_public k) false [] [] [].
Definition attestationParameters20 (k : windowsKey20) : AttestationParameters :=
  mkAKParameters (k20_public k) false (k20_createData k) (k20_createAttestation k) (k20_createSignature k).

Definition key12_certify (k : windowsKey12) (tb : windows_impl) (handle : any_handle)
    : M S CertificationParameters := fail (Errorf "not implemented").
(** Attestation keys made by the provider use SHA-1. *)
Definition key20_certify (k : windowsKey20) (tb : windows_impl) (handle : any_handle)
    : M S CertificationParameters :=
  t ← as_windowsTPM tb;
  match handle with
  | uintptr_Handle h =>
      hnd ← wrapM "TPMKeyHandle() failed: %v" (pcp_TPMKeyHandle (wt_pcp t) h);
      akHnd ← wrapM "TPMKeyHandle() failed: %v" (pcp_TPMKeyHandle (wt_pcp t) (k20_hnd k));
      tpm ← wrapM "TPMCommandInterface() failed: %v" (pcp_TPMCommandInterface (wt_pcp t));
      certify (H := FromContext tpm) hnd akHnd (mkScheme tpm2.AlgRSASSA tpm2.AlgSHA1)
  | _ => fail (Errorf "expected uinptr, got %T")
  end.

(** ** The driver as an implementation of [tpmBase] and [ak] *)
Definition windows_quote (k : windows_ak) (tb : windows_impl) (nonce : bytes) (alg : Z)
    (selectedPCRs : option (list Z)) : M S Quote :=
  match k with
  | akWindows12 k => key12_quote k tb nonce alg selectedPCRs
  | akWindows20 k => key20_quote k tb nonce alg selectedPCRs
  end.
Definition windows_key_close (k : windows_ak) (tb : windows_impl) : M S () :=
  match k with akWindows12 k => key12_close k tb | akWindows20 k => key20_close k tb end.
Definition windows_marshal (k : windows_ak) : res error bytes :=
  match k with akWindows12 k => marshal12 k | akWindows20 k => marshal20 k end.
Definition windows_activateCredential (k : windows_ak) (tb : windows_impl) (cred : EncryptedCredential)
    (ek : option EK) : M S bytes :=
  match k with
  | akWindows12 k => activateCredential12 k tb cred ek
  | akWindows20 k => activateCredential20 k tb cred ek
  end.
Definition windows_certify (k : windows_ak) (tb : windows_impl) (handle : any_handle)
    : M S CertificationParameters :=
  match k with akWindows12 k => key12_certify k tb handle | akWindows20 k => key20_certify k tb handle end.
Definition windows_attestationParameters (k : windows_ak) : AttestationParameters :=
  match k with
  | akWindows12 k => attestationParameters12 k
  | akWindows20 k => attestationParameters20 k
  end.

Definition windows_base (t : windowsTPM) : tpmBase S windows_ak := {|
  tpmVersion := wt_version t;
  base_pcrs := windows_pcrs t;
  base_measurementLog := windows_measurementLog;
  ak_quote k nonce alg sel := windows_quote k (tpmWindows t) nonce alg sel;
  ak_attestationParameters := windows_attestationParameters;
|}.

(** [OpenTPM] and [AvailableTPMs] in a Windows build; a TPM is the provider's
    or behind a command channel, whose operations are those of [Wrapped20]. *)
Inductive windows_tpm (C : Type) := OnPCP (t : windowsTPM) | OnChannel (c : C).
Definition windows_OpenTPM {C} : option (OpenConfig C) → M (program S) (windows_tpm C) :=
  OpenTPM win_probeSystemTPMs (λ tpm, t ← win_openTPM tpm; mret (OnPCP C t)) (OnChannel C).
Definition windows_AvailableTPMs {C} : option (OpenConfig C) → M (program S) (list TPMInfo) :=
  AvailableTPMs win_probeSystemTPMs win_openTPM (λ t, os (windows_close t)) (λ t, os (windows_info t)).
End Driver.
Arguments OnPCP {C}.
Arguments OnChannel {C}.
