(* ===== verification/WindowsSim.v ===== *)
(** * A simulated Windows

    A provider over any state, given by what opening and closing a handle and
    setting a property do to it, and by the values of the properties; commands
    for a TPM 1.2 and the simulated TPM 2.0 of [Channel].  It shows that the
    laws of [Windows] can hold, and the theorems are evaluated on it. *)
From S2P Require Import Prelude GoBytes Loops GoCrypto GoRuntime Attest Tpm2.
From S2P Require Import Channel.
From S2P Require Import EKCert.
From S2P Require Import Templates.
From S2P Require Import Wrapped20.
From S2P Require Import WinBlobs.
From S2P Require Import Pcp.
From S2P Require Import Windows.

(** ** Text: ASCII, ended by a zero *)
Definition ascii_units (s : string) : list Z :=
  ((λ a, Z.of_nat (Ascii.nat_of_ascii a)) <$> String.list_ascii_of_string s) ++ [0].
Fixpoint ascii_text (l : list Z) : string :=
  match l with
  | [] => EmptyString
  | c :: l => if c =? 0 then EmptyString else String (Ascii.ascii_of_nat (Z.to_nat c)) (ascii_text l)
  end.

(** ** The provider *)
Record simulated (S : Type) := mkSimulated {
  ws_open : S → Z * S;
  ws_close : Z → S → S;
  ws_set : bytes → S → S;
  ws_property : S → list Z → bytes;
  ws_device : bytes;
  ws_store : list syscall_CertContext;
  (** the message at the end of the enumeration of a store *)
  ws_ending : error;
}.
Arguments mkSimulated {S}.
Arguments ws_open {S}.
Arguments ws_close {S}.
Arguments ws_set {S}.
Arguments ws_property {S}.
Arguments ws_device {S}.
Arguments ws_store {S}.
Arguments ws_ending {S}.

Definition succeeded {A} (a : A) : reply A := mkReply 0 (Errno 0) a.

Definition sim_windows {S} (r : simulated S) : Windows S := {|
  UTF16FromString s := Ok (ascii_units s);
  UTF16ToString := ascii_text;
  MustFind_Tbsi_GetDeviceInfo := mret tt;
  NCryptOpenStorageProvider _ s := let '(h, s) := ws_open r s in (succeeded h, s);
  NCryptFreeObject h s := (succeeded tt, ws_close r h s);
  NCryptGetProperty _ n size s :=
    (succeeded (take (Z.to_nat size) (ws_property r s n), zlen (ws_property r s n)), s);
  NCryptSetProperty _ _ v s := (succeeded tt, ws_set r v s);
  NCryptOpenKey _ _ s := let '(h, s) := ws_open r s in (succeeded h, s);
  NCryptCreatePersistedKey _ _ _ s := let '(h, s) := ws_open r s in (succeeded h, s);
  NCryptFinalizeKey _ s := (succeeded tt, s);
  NCryptDeleteKey h s := (succeeded tt, ws_close r h s);
  CertEnumCertificatesInStore _ ctx s :=
    (if decide (Z.to_nat ctx < length (ws_store r))%nat
     then mkReply (Z.of_nat (Datatypes.S (Z.to_nat ctx))) (Errno 0) tt
     else mkReply 0 (ws_ending r) tt, s);
  CertCloseStore _ s := (succeeded tt, s);
  cert_memory _ ctx := default (mkCertContext [] 0) (ws_store r !! (Z.to_nat ctx - 1)%nat);
  Tbsi_GetDeviceInfo s := (succeeded (ws_device r), s);
  enum_limit := Datatypes.S (length (ws_store r));
|}.

(** ** The state of a program that opens handles *)
Definition sim_handles_of (property : list Z → bytes) (device : bytes) (store : list syscall_CertContext)
    : simulated (gset Z) :=
  mkSimulated (λ live, (fresh live, {[fresh live]} ∪ live)) (λ h live, live ∖ {[h]}) (λ _ live, live)
    (λ _, property) device store (Errno cryptENotFound).

(** Commands: the registers and the answer to a quote of TPM 1.2, and a TPM 2.0. *)
Definition sim_commands (pcr12 : Z → bytes) (r : replies) (log : bytes) : WindowsTPM (gset Z) := {|
  FromContext _ := sim r;
  tpm1_GetManufacturer _ := mret (str "IFX" ++ [Byte.x00]);
  tpm1_ReadPCR _ i := mret (pcr12 i);
  tpm1_Quote _ _ nonce sel _ := mret (str "signature", concat (pcr12 <$> sel));
  tpm1_NewQuoteInfo nonce _ composite := Ok (nonce ++ composite);
  tpmtbs_CreateContext := mret 1;
  tpmtbs_GetTCGLog _ size := mret (take (Z.to_nat size) log, zlen log);
  tpmtbs_Close _ := mret tt;
  rand_Read n := mret (zeros n);
|}.

(** ** An example *)
Definition ex_win_property (n : list Z) : bytes :=
  if bool_decide (n = ascii_units "PCP_PLATFORMHANDLE") then le_bytes 4 7
  else if bool_decide (n = ascii_units "PCP_TPM12_IDBINDING")
  then binding20 (mkAKProps (str "public") (str "creation") (str "attest") (str "signature"))
  else le_bytes 8 65.
Definition ex_store : list syscall_CertContext :=
  [mkCertContext [Byte.x30; Byte.x01; Byte.x05] 3; mkCertContext [Byte.x30; Byte.x00] 2].
Definition ex_windows (version : Z) : Windows (gset Z) :=
  sim_windows (sim_handles_of ex_win_property (le_bytes 4 1 ++ le_bytes 4 version ++ le_bytes 4 3 ++ le_bytes 4 0)
                 ex_store).

(** A codec for keys of the provider with one name, and ciphers that do nothing *)
Definition ex_os_key (public : bytes) : serializedKey :=
  mkSerialized keyEncodingOSManaged TPMVersion12 public [] [] [] "ak" [].
#[local] Instance serializedKey_decision : EqDecision serializedKey.
Proof. solve_decision. Defined.
Definition ex_os_json : Encodings := {|
  json_Marshal k := if bool_decide (k = ex_os_key (sk_Public k)) then Ok (sk_Public k) else Err (LibErr "not supported");
  json_Unmarshal b := Ok (ex_os_key b);
  asn1_Marshal_RS r s := Ok (be_bytes 4 r ++ be_bytes 4 s);
  curve_N_BitLen c := 256;
  tpm2_HashToAlgorithm h := Ok h;
|}.
Lemma ex_os_json_laws : @EncodingsLaws ex_os_json.
Proof. constructor. intros k b. cbn. case_bool_decide as E; [|done]. intros [= <-]. by rewrite <- E. Qed.

Definition ex_aes : GoAES := {| aes_cbc_decrypt _ _ m := m |}.
