(* ===== verification/WindowsSpec.v ===== *)
(** * Theorems about the Windows driver

    The version of an opened TPM and of its keys, the handles of the key storage
    provider (what is freed and what leaks), and when opening panics. *)
From S2P Require Import Prelude GoBytes Loops GoCrypto GoRuntime Attest Tpm2 Quote.
From S2P Require Import Challenge.
From S2P Require Import Activation.
From S2P Require Import Templates.
From S2P Require Import Channel.
From S2P Require Import EKCert.
From S2P Require Import Wrapped20.
From S2P Require Import KeyHandles.
From S2P Require Import PcrBank.
From S2P Require Import Platform.
From S2P Require Import Trousers12.
From S2P Require Import OpenTpm.
From S2P Require Import WinBlobs.
From S2P Require Import Pcp.
From S2P Require Import Windows.
From S2P Require Import WindowsSim.

(** ** Calls *)
Section Calls.
Context {S : Type} `{Windows S}.

Lemma checked_eq {A} fmt (c : wincall S A) s rep s' :
  c s = (rep, s') →
  checked fmt c s = (if reply_r rep =? 0 then Ok (reply_out rep) else Err (Wrapf fmt (win_error rep)), s').
Proof. intros E. unfold checked, Call, mbind, M_bind. rewrite E. by destruct (_ =? 0). Qed.

(** Calls return. *)
Lemma returns_Call {A} (c : wincall S A) : returns (Call c).
Proof. intros s. unfold Call. by destruct (c s). Qed.
Lemma returns_checked {A} fmt (c : wincall S A) : returns (checked fmt c).
Proof. intros s. destruct (c s) as [rep s'] eqn:E. rewrite (checked_eq _ _ _ _ _ E). by case_match. Qed.
Lemma returns_try {A B} (m : M S A) (f : A → M S B) g :
  returns m → (∀ a, returns (f a)) → (∀ e, returns (g e)) → returns (try m f g).
Proof.
  intros Hm Hf Hg s. specialize (Hm s). unfold try. destruct (m s) as [[] ?]; try done; [apply Hf|apply Hg].
Qed.
End Calls.
#[export] Hint Resolve returns_Call returns_checked returns_try : returns.

(** ** Handles *)

(** Opening a provider, creating and opening a key yield a new handle if they
    succeed; freeing an open handle, and deleting its key, close it; no other
    call opens or closes one. *)
Class WinHandles {S} `{Windows S} (handles : S → gset Z) : Prop := {
  call_opens : ∀ (c : wincall S Z),
    (∃ n, c = NCryptOpenStorageProvider n) ∨ (∃ p n, c = NCryptOpenKey p n) ∨
    (∃ p a n, c = NCryptCreatePersistedKey p a n) → ∀ s rep s', c s = (rep, s') →
    if reply_r rep =? 0 then reply_out rep ∉ handles s ∧ handles s' = ({[reply_out rep]} ∪ handles s)
    else handles s' = handles s;
  FreeObject_closes h s rep s' : NCryptFreeObject h s = (rep, s') → h ∈ handles s →
    reply_r rep = 0 ∧ handles s' = handles s ∖ {[h]};
  DeleteKey_closes h s rep s' : NCryptDeleteKey h s = (rep, s') →
    handles s' = if reply_r rep =? 0 then handles s ∖ {[h]} else handles s;
  GetProperty_keeps h n z s : handles (NCryptGetProperty h n z s).2 = handles s;
  SetProperty_keeps h n v s : handles (NCryptSetProperty h n v s).2 = handles s;
  FinalizeKey_keeps h s : handles (NCryptFinalizeKey h s).2 = handles s;
  EnumCertificates_keeps st c s : handles (CertEnumCertificatesInStore st c s).2 = handles s;
  CloseStore_keeps st s : handles (CertCloseStore st s).2 = handles s;
  GetDeviceInfo_keeps s : handles (Tbsi_GetDeviceInfo s).2 = handles s;
  MustFind_keeps s : handles (MustFind_Tbsi_GetDeviceInfo s).2 = handles s;
}.

Section Accounting.
Context {S : Type} `{Windows S} (handles : S → gset Z) `{!WinHandles handles}.
Implicit Types (s : S) (h : winPCP).

#[local] Abbreviation keeps := (Channel.keeps handles).

Lemma keeps_checked {A} fmt (c : wincall S A) : (∀ s, handles (c s).2 = handles s) → keeps (checked fmt c).
Proof.
  intros Hc s. specialize (Hc s). destruct (c s) as [rep s'] eqn:E. by rewrite (checked_eq _ _ _ _ _ E).
Qed.
Lemma keeps_panic {A} m : keeps (panic (A := A) m).
Proof. done. Qed.
#[local] Hint Resolve keeps_bind keeps_wrap keeps_lift keeps_ret keeps_reject keeps_checked keeps_panic
  GetProperty_keeps SetProperty_keeps FinalizeKey_keeps : win.

Lemma getNCryptBufferProperty_keeps hnd f : keeps (getNCryptBufferProperty hnd f).
Proof.
  unfold getNCryptBufferProperty. apply keeps_bind; [auto with win|]. intros w.
  apply keeps_bind; [auto with win|]. intros q. cbv zeta. case_match; auto with win.
Qed.
#[local] Hint Resolve getNCryptBufferProperty_keeps : win.
Lemma integer_property_keeps fmt hnd f n : keeps (integer_property fmt hnd f n).
Proof. unfold integer_property. auto with win. Qed.
Lemma AKProperties_keeps h kh : keeps (pcp_AKProperties h kh).
Proof. unfold pcp_AKProperties. auto with win. Qed.

(** *** The provider *)
Definition handles_p (p : program S) : gset Z := handles (win p).

Lemma os_keeps {A} (m : M S A) : keeps m → Channel.keeps handles_p (os m).
Proof. intros Hm p. specialize (Hm (win p)). unfold os, handles_p. by destruct (m (win p)). Qed.

Lemma TPMInfo_keeps h : Channel.keeps handles_p (pcp_TPMInfo h).
Proof.
  unfold pcp_TPMInfo.
  apply keeps_bind; [apply keeps_wrap, os_keeps; auto with win|intros buf].
  apply keeps_bind; [done|intros man].
  apply keeps_bind; [apply keeps_wrap, os_keeps; auto with win|intros buf2].
  apply keeps_bind; [done|intros ver]. apply keeps_bind; [done|intros found].
  destruct (negb found); [done|].
  apply keeps_bind; [apply os_keeps; intros s; pose proof (GetDeviceInfo_keeps s); unfold Call; by destruct (Tbsi_GetDeviceInfo s)|].
  intros rep. by case_match.
Qed.

(** A step that yields a handle if it succeeds *)
Lemma openPCP_opens s :
  match openPCP s with
  | (Ok h, s') => hProv h ∉ handles s ∧ handles s' = ({[hProv h]} ∪ handles s)
  | (_, s') => handles s' = handles s
  end.
Proof.
  unfold openPCP, lift_res, Call, mbind, M_bind.
  destruct (UTF16FromString pcpProviderName) as [n| | |]; try done.
  destruct (NCryptOpenStorageProvider n s) as [rep s'] eqn:E.
  pose proof (call_opens _ (or_introl (ex_intro _ n eq_refl)) _ _ _ E) as Ho. by destruct (reply_r rep =? 0).
Qed.

Lemma closeNCryptObject_closes hnd s :
  hnd ∈ handles s →
  (closeNCryptObject hnd s).1 = Ok tt ∧ handles (closeNCryptObject hnd s).2 = handles s ∖ {[hnd]}.
Proof.
  intros Hin. unfold closeNCryptObject, Call, mbind, M_bind.
  destruct (NCryptFreeObject hnd s) as [rep s1] eqn:E. destruct (FreeObject_closes _ _ _ _ E Hin) as [Hr Hs].
  rewrite Hr. by cbn.
Qed.

Lemma os_run {A} (m : M S A) p : os m p = ((m (win p)).1, mkProgram (tbs_found p) (m (win p)).2).
Proof. unfold os. by destruct (m (win p)). Qed.

Lemma keeps_after {A B} (m : M (program S) A) (f : A → M (program S) B) p :
  (∀ a, Channel.keeps handles_p (f a)) → handles_p ((m ≫= f) p).2 = handles_p (m p).2.
Proof. intros Hf. unfold mbind, M_bind. by destruct (m p) as [[a| | |] p']; [rewrite (Hf a)|..]. Qed.
Lemma keeps_lift_p {A} (r : res error A) : Channel.keeps handles_p (lift_res r).
Proof. done. Qed.
#[local] Hint Resolve keeps_lift_p TPMInfo_keeps : win.

Lemma load_tbs_keeps : Channel.keeps handles_p load_tbs.
Proof.
  unfold load_tbs. apply keeps_bind; [done|]. intros found. destruct (negb found); [|done].
  apply keeps_bind; [apply os_keeps; intros s; apply MustFind_keeps|done].
Qed.

Lemma probe_handles p : handles_p (win_probeSystemTPMs p).2 = handles_p p.
Proof.
  unfold win_probeSystemTPMs. revert p.
  assert (∀ (m : M (program S) (list probedTPM)), Channel.keeps handles_p m →
    Channel.keeps handles_p (load_tbs ≫= λ _, m)) as Hb by (intros; by apply keeps_bind; [apply load_tbs_keeps|]).
  apply Hb. clear Hb. intros p. unfold try. rewrite os_run.
  pose proof (openPCP_opens (win p)) as Ho. destruct (openPCP (win p)) as [[h|e|m|] s1]; cbn [fst snd]; try done.
  destruct Ho as [Hnew Hs]. unfold defer_pcp_close.
  match goal with |- context [let '(_, _) := ?m (mkProgram ?b s1) in _] =>
    assert (Hk : Channel.keeps handles_p m); [|specialize (Hk (mkProgram b s1)); destruct (m (mkProgram b s1)) as [r p2]] end.
  { apply keeps_bind; [apply keeps_wrap; auto with win|]. intros info. apply keeps_bind; [done|]. intros v. done. }
  cbn [fst snd] in *. unfold pcp_Close. rewrite os_run. unfold handles_p in *. cbn [win snd fst] in *.
  assert (Hin : hProv h ∈ handles (win p2)) by (rewrite Hk, Hs; set_solver).
  destruct (closeNCryptObject_closes _ _ Hin) as [_ ->]. rewrite Hk, Hs. by apply open_then_flush.
Qed.

(** The provider stays open on every outcome. *)
Lemma openTPM_handles tpm p :
  handles_p (win_openTPM tpm p).2 =
    match (openPCP (win p)).1 with Ok h => {[hProv h]} ∪ handles_p p | _ => handles_p p end ∧
  (∀ t p', win_openTPM tpm p = (Ok t, p') → openPCP (win p) = (Ok (wt_pcp t), (openPCP (win p)).2)).
Proof.
  unfold win_openTPM. split.
  - rewrite keeps_after.
    2: { intros h. apply keeps_bind; [apply keeps_wrap; auto with win|]. intros info. apply keeps_bind; [done|]. done. }
    unfold wrapM. rewrite os_run. pose proof (openPCP_opens (win p)) as Ho. unfold handles_p.
    destruct (openPCP (win p)) as [[h|e|m|] s1]; cbn in *; by destruct Ho.
  - intros t p' E. inv_ok E. rewrite os_run in Hm. injection Hm as Hm _. cbn. by rewrite <- Hm, <- surjective_pairing.
Qed.

(** *** Attestation keys *)

(** Once created the key stays open on every outcome. *)
Lemma NewAK_handles h name s n a rep s1 :
  UTF16FromString name = Ok n → UTF16FromString "RSA" = Ok a →
  NCryptCreatePersistedKey (hProv h) a n s = (rep, s1) →
  handles (pcp_NewAK h name s).2 = (if reply_r rep =? 0 then {[reply_out rep]} ∪ handles s else handles s) ∧
  (∀ kh s', pcp_NewAK h name s = (Ok kh, s') → reply_r rep = 0 ∧ kh = reply_out rep ∧ kh ∉ handles s).
Proof.
  intros Hn Ha E. unfold pcp_NewAK. rewrite Hn, Ha.
  assert (Ho : if reply_r rep =? 0 then reply_out rep ∉ handles s ∧ handles s1 = {[reply_out rep]} ∪ handles s
               else handles s1 = handles s).
  { eapply (call_opens (NCryptCreatePersistedKey (hProv h) a n)); [right; right; by do 3 eexists|exact E]. }
  erewrite bind_Ok by done. erewrite bind_Ok by done.
  pose proof (checked_eq "NCryptCreatePersistedKey returned %X: %v" _ _ _ _ E) as Ec.
  destruct (Z.eqb_spec (reply_r rep) 0) as [Hr|Hr].
  - destruct Ho as [Hnew Hs]. erewrite bind_Ok by exact Ec.
    match goal with |- handles (?m s1).2 = _ ∧ _ => assert (Hk : keeps m) by auto 20 with win end.
    split; [by rewrite Hk|]. intros kh s' E'. inv_ok E'. done.
  - erewrite bind_Err by exact Ec. split; [done|]. by intros.
Qed.

Lemma LoadKey_opens h name s :
  match pcp_LoadKeyByName h name s with
  | (Ok kh, s') => kh ∉ handles s ∧ handles s' = ({[kh]} ∪ handles s)
  | (_, s') => handles s' = handles s
  end.
Proof.
  unfold pcp_LoadKeyByName, lift_res, Call, mbind, M_bind.
  destruct (UTF16FromString name) as [n| | |]; try done.
  destruct (NCryptOpenKey (hProv h) n s) as [rep s'] eqn:E.
  assert (Ho := call_opens (NCryptOpenKey (hProv h) n) (or_intror (or_introl (ex_intro _ _ (ex_intro _ _ eq_refl)))) _ _ _ E). by destruct (reply_r rep =? 0).
Qed.
End Accounting.

(** ** The type of a TPM and of its keys *)
Definition wf_windowsTPM (t : windowsTPM) : Prop := wt_version t = TPMVersion12 ∨ wt_version t = TPMVersion20.
Definition windows_ak_version (k : windows_ak) : Z :=
  match k with akWindows12 _ => TPMVersion12 | akWindows20 _ => TPMVersion20 end.

Section Types.
Context {S : Type} `{Windows S, WindowsTPM S, GoCrypto, GoTPM, GoRuntime, X509, Encodings, GoAES}.

Lemma tbsConvertVersion_cases i v : tbsConvertVersion i = Ok v → v = TPMVersion12 ∨ v = TPMVersion20.
Proof. unfold tbsConvertVersion. do 2 (case_match; [intros [= <-]; tauto|]). done. Qed.

Lemma win_openTPM_wf tpm (p : program S) t p' : win_openTPM tpm p = (Ok t, p') → wf_windowsTPM t.
Proof. unfold win_openTPM. intros E. inv_ok E. by eapply tbsConvertVersion_cases. Qed.

Lemma probed_versions (p : program S) l p' :
  win_probeSystemTPMs p = (Ok l, p') →
  Forall (λ d, pt_Version d = TPMVersion12 ∨ pt_Version d = TPMVersion20) l.
Proof.
  unfold win_probeSystemTPMs. intros (u & p1 & _ & E)%bind_Ok_inv.
  apply try_inv in E as [(h & p2 & _ & E)|(e & p2 & _ & E)]; [|inv_ok E; constructor].
  unfold defer_pcp_close in E.
  match type of E with (let '(_, _) := ?m in _) = _ => destruct m as [r p3] eqn:E2 end.
  injection E as -> _. inv_ok E2.
  constructor; [|constructor]. by eapply tbsConvertVersion_cases.
Qed.

(** The selection by version: its third branch is not taken. *)
Lemma version_cases {A} t (x y z : A) :
  wf_windowsTPM t →
  (if wt_version t =? TPMVersion12 then x else if wt_version t =? TPMVersion20 then y else z) =
  if wt_version t =? TPMVersion12 then x else y.
Proof. by intros [->| ->]. Qed.

Lemma windows_newAK_version t opts (s : S) k s' :
  windows_newAK t opts s = (Ok k, s') → windows_ak_version k = wt_version t.
Proof.
  unfold windows_newAK. intros E. apply bind_Ok_inv in E as (nh & s1 & _ & E).
  apply bind_Ok_inv in E as (u & s2 & _ & E). apply bind_Ok_inv in E as (kh & s3 & _ & E).
  apply try_inv in E as [(props & s4 & _ & E)|(e & s4 & _ & E)].
  - destruct (Z.eqb_spec (wt_version t) TPMVersion12) as [->|]; [by inv_ok E|].
    destruct (Z.eqb_spec (wt_version t) TPMVersion20) as [->|]; [by inv_ok E|done].
  - by apply bind_Ok_inv in E as (? & ? & _ & E).
Qed.

Lemma windows_loadAK_version t b (s : S) k s' :
  windows_loadAK t b s = (Ok k, s') → windows_ak_version k = wt_version t.
Proof.
  unfold windows_loadAK. intros E. apply bind_Ok_inv in E as (sk & s1 & _ & E).
  apply bind_Ok_inv in E as (u & s2 & _ & E). apply bind_Ok_inv in E as (kh & s3 & _ & E).
  destruct (Z.eqb_spec (wt_version t) TPMVersion12) as [->|]; [by inv_ok E|].
  destruct (Z.eqb_spec (wt_version t) TPMVersion20) as [->|]; [by inv_ok E|done].
Qed.

Lemma fill_pcrs_no_error {W} h entries out (w w' : W) e : lift_res (fill_pcrs h entries out) w ≠ (Err e, w').
Proof.
  unfold lift_res. revert out. induction entries as [|[i d] l IH]; intros out; cbn; [done|].
  case_match; [apply IH|done].
Qed.
Lemma ignoring_no_error {W A} (m : M W A) w w' e : ignoring m w ≠ (Err e, w').
Proof. unfold ignoring, try. by destruct (m w) as [[] ?]. Qed.
Lemma try_err_inv {W A B} (m : M W A) (f : A → M W B) g w e w' :
  try m f g w = (Err e, w') →
  (∃ a w1, m w = (Ok a, w1) ∧ f a w1 = (Err e, w')) ∨ (∃ e1 w1, m w = (Err e1, w1) ∧ g e1 w1 = (Err e, w')).
Proof. unfold try. destruct (m w) as [[]]; naive_solver. Qed.

(** The error of a sequence of wrapped steps *)
Ltac err_inv E :=
  lazymatch type of E with
  | (mbind _ _) _ = (Err _, _) =>
      let H := fresh "H" in apply bind_Err_inv in E as [E|(? & ? & H & E)]; err_inv E
  | wrapM _ _ _ = (Err _, _) => apply wrapM_Err_inv in E as (? & -> & E)
  | reject_if ?c _ _ = (Err _, _) => destruct c; [injection E as <- _|discriminate E]
  | lift_res (wrapf _ ?r) _ = (Err _, _) => destruct r; [discriminate E|injection E as <- _|discriminate E..]
  | mret _ _ = (Err _, _) => discriminate E
  | (if ?c then _ else _) _ = (Err _, _) => destruct c eqn:?; err_inv E
  | _ => idtac
  end.

(** C17: The version of a TPM is part of its type: every TPM that probing
    reports or [openTPM] opens is a TPM 1.2 or 2.0, every attestation key that
    it makes or loads is of its version, the information it reports carries
    that version, and so the defaults of the code's version switches are dead
    code: on such a TPM the operations are their 1.2 or 2.0 branch. *)
Theorem windows_types :
  (∀ (p : program S) l p', win_probeSystemTPMs p = (Ok l, p') →
     Forall (λ d, pt_Version d = TPMVersion12 ∨ pt_Version d = TPMVersion20) l) ∧
  (∀ tpm (p : program S) t p', win_openTPM tpm p = (Ok t, p') → wf_windowsTPM t) ∧
  (∀ t opts (s : S) k s', windows_newAK t opts s = (Ok k, s') → windows_ak_version k = wt_version t) ∧
  (∀ t b (s : S) k s', windows_loadAK t b s = (Ok k, s') → windows_ak_version k = wt_version t) ∧
  (∀ t (s : S) i s', windows_info t s = (Ok i, s') → info_Version i = wt_version t) ∧
  (∀ t (s : S) e s', wf_windowsTPM t →
     (∀ alg, windows_pcrs t alg s = (Err e, s') → e ≠ Errorf "unsupported TPM version: %x") ∧
     (∀ opts, windows_newAK t opts s = (Err e, s') → e ≠ Errorf "cannot handle TPM version: %v") ∧
     (∀ b, windows_loadAK t b s = (Err e, s') → e ≠ Errorf "cannot handle TPM version: %v")).
Proof.
  split_and!; [apply probed_versions|apply win_openTPM_wf|apply windows_newAK_version|
    apply windows_loadAK_version|..].
  - unfold windows_info. intros t s i s' E. apply bind_Ok_inv in E as (tpm & s1 & _ & E).
    destruct (_ =? TPMVersion12); [by inv_ok E|]. destruct (_ =? TPMVersion20); [by inv_ok E|done].
  - intros t s e s' Hwf. split_and!.
    + intros alg E. unfold windows_pcrs in E. rewrite (version_cases t) in E by done.
      apply bind_Err_inv in E as [E|(m & s1 & _ & E)].
      * by err_inv E.
      * by apply fill_pcrs_no_error in E.
    + intros opts E. unfold windows_newAK in E. err_inv E; [done..|].
      apply try_err_inv in E as [(props & s4 & _ & E)|(e' & s4 & _ & E)].
      * rewrite version_cases in E by done. by err_inv E.
      * apply bind_Err_inv in E as [E|(? & ? & _ & [= <- _])]; [|done].
        by apply ignoring_no_error in E.
    + intros b E. unfold windows_loadAK in E. err_inv E; try done.
      destruct Hwf as [Hv|Hv]; by rewrite Hv in *.
Qed.
End Types.

(** ** What leaks *)
Section Leaks.
Context {S : Type} `{Windows S, WindowsTPM S, GoCrypto, GoTPM, GoRuntime, X509, Encodings, GoAES}.
Context (handles : S → gset Z) `{!WinHandles handles} (Hrand : ∀ n, Channel.keeps handles (rand_Read n)).

#[local] Abbreviation handles_p := (handles_p handles).

(** The key is closed if its properties cannot be read. *)
Lemma windows_newAK_handles t opts s :
  wf_windowsTPM t →
  match windows_newAK t opts s with
  | (Ok k, s') => windows_hnd k ∉ handles s ∧ handles s' = {[windows_hnd k]} ∪ handles s
  | (Err e, s') => (∃ e', e = Wrapf "pcp failed to mint attestation key: %v" e') ∨ handles s' = handles s
  | _ => True
  end.
Proof using All.
  intros Hwf. unfold windows_newAK.
  pose proof (keeps_wrap handles "rand.Read() failed with %d/%d bytes read and error: %v" _ (Hrand 5) s) as Hr.
  unfold mbind at 1, M_bind at 1.
  destruct (wrapM _ (rand_Read 5) s) as [[nh|e|m|] s1]; cbn [snd] in Hr; [|by right|done..].
  destruct (negb (zlen nh =? 5)); [by right|]. erewrite bind_Ok by done. cbv zeta.
  set (name := ("ak-" +:+ hex_EncodeToString nh)%string). unfold mbind at 1, M_bind at 1, wrapM at 1.
  destruct (pcp_NewAK (wt_pcp t) name s1) as [[kh|e|m|] s2] eqn:En; cbn [wrapf]; [|left; by eexists|done..].
  assert (kh ∉ handles s ∧ handles s2 = {[kh]} ∪ handles s) as [Hnew Hs].
  { destruct (UTF16FromString name) as [n| | |] eqn:Hn; try (unfold pcp_NewAK in En; by rewrite Hn in En).
    destruct (UTF16FromString "RSA") as [a| | |] eqn:Ha; try (unfold pcp_NewAK in En; by rewrite Hn, Ha in En).
    destruct (NCryptCreatePersistedKey (hProv (wt_pcp t)) a n s1) as [rep s3] eqn:Ec.
    destruct (NewAK_handles handles _ _ _ _ _ _ _ Hn Ha Ec) as [Hh Hok]. rewrite En in Hh, Hok.
    destruct (Hok _ _ eq_refl) as (Hz & -> & Hk). rewrite Hz in Hh. cbn in Hh. by rewrite Hh, <- Hr. }
  unfold try. pose proof (AKProperties_keeps handles (wt_pcp t) kh s2) as Hk.
  destruct (pcp_AKProperties (wt_pcp t) kh s2) as [[props|e|m|] s3]; cbn [snd] in Hk; try done.
  - rewrite (version_cases t) by done. destruct (_ =? _); cbn; by rewrite Hk.
  - unfold ignoring, try, mbind, M_bind.
    destruct (closeNCryptObject_closes handles kh s3) as [Hc1 Hc2]; [rewrite Hk, Hs; set_solver|].
    destruct (closeNCryptObject kh s3) as [r s4]. cbn in *. subst r. cbn. right. rewrite Hc2, Hk, Hs.
    by apply open_then_flush.
Qed.

(** C16: Handles on Windows: probing closes the provider it opens; [newAK]
    returns its key as the one new handle and closes the key whose properties
    cannot be read; closing a key or a TPM closes its handle.  But [openTPM]
    leaves the provider open on every error after opening it, and a key that
    was created stays open when configuring or finalizing it fails. *)
Theorem windows_handles :
  (∀ p, handles_p (win_probeSystemTPMs p).2 = handles_p p) ∧
  (∀ tpm p, handles_p (win_openTPM tpm p).2 =
     match (openPCP (win p)).1 with Ok h => {[hProv h]} ∪ handles_p p | _ => handles_p p end) ∧
  (∀ t opts s, wf_windowsTPM t →
     match windows_newAK t opts s with
     | (Ok k, s') => windows_hnd k ∉ handles s ∧ handles s' = {[windows_hnd k]} ∪ handles s
     | (Err e, s') => (∃ e', e = Wrapf "pcp failed to mint attestation key: %v" e') ∨ handles s' = handles s
     | _ => True
     end) ∧
  (∀ h name s n a rep s1,
     UTF16FromString name = Ok n → UTF16FromString "RSA" = Ok a →
     NCryptCreatePersistedKey (hProv h) a n s = (rep, s1) →
     handles (pcp_NewAK h name s).2 = if reply_r rep =? 0 then {[reply_out rep]} ∪ handles s else handles s) ∧
  (∀ k tb s, windows_hnd k ∈ handles s →
     (windows_key_close k tb s).1 = Ok tt ∧
     handles (windows_key_close k tb s).2 = handles s ∖ {[windows_hnd k]}) ∧
  (∀ t s, hProv (wt_pcp t) ∈ handles s →
     (windows_close t s).1 = Ok tt ∧ handles (windows_close t s).2 = handles s ∖ {[hProv (wt_pcp t)]}).
Proof using All.
  split_and!.
  - by apply probe_handles.
  - intros tpm p. by apply openTPM_handles.
  - intros. by apply windows_newAK_handles.
  - intros h name s n a rep s1 Hn Ha E. by destruct (NewAK_handles handles h name s n a rep s1 Hn Ha E).
  - intros [k|k] tb s Hin; by apply closeNCryptObject_closes.
  - intros t s Hin. by apply closeNCryptObject_closes.
Qed.
End Leaks.

(** ** When opening panics *)

(** Conversions return, and loading a DLL returns or panics. *)
Class WinReturns {S} `{Windows S} : Prop := {
  UTF16FromString_returns s : no_crash (UTF16FromString s);
  MustFind_ends s : (MustFind_Tbsi_GetDeviceInfo s).1 ≠ NoFuel;
}.

Section Returning.
Context {S : Type} `{Windows S, !WinReturns, WindowsTPM S, GoCrypto, GoTPM, GoRuntime, X509}.

(** [m] panics from the states of [P], and returns from the others. *)
Definition panics_from {W A} (m : M W A) (P : W → Prop) : Prop := ∀ w, panics_if (m w).1 (P w).

Lemma panics_from_bind {W A B} (m : M W A) (f : A → M W B) P (Q : A → W → Prop) :
  panics_from m P → (∀ a, panics_from (f a) (Q a)) →
  panics_from (m ≫= f) (λ w, P w ∨ ∃ a w', m w = (Ok a, w') ∧ Q a w').
Proof.
  intros Hm Hf w. specialize (Hm w). unfold mbind, M_bind. destruct (m w) as [[a|e|msg|] w']; cbn in *; try done.
  - eapply panics_if_iff; [|apply Hf]. naive_solver.
  - naive_solver.
  - by left.
Qed.
Lemma panics_from_returns {W A} (m : M W A) : returns m → panics_from m (λ _, False).
Proof. intros Hm w. apply returns_panics_if; [apply Hm|intros []]. Qed.
Lemma panics_from_iff {W A} (m : M W A) (P Q : W → Prop) :
  panics_from m P → (∀ w, P w ↔ Q w) → panics_from m Q.
Proof. intros Hm Hpq w. eapply panics_if_iff; [apply Hpq|apply Hm]. Qed.
Lemma panics_from_wrap {W A} fmt (m : M W A) P : panics_from m P → panics_from (wrapM fmt m) P.
Proof. intros Hm w. specialize (Hm w). unfold wrapM. by destruct (m w) as [[] ?]. Qed.
Lemma panics_from_os {A} (m : M S A) P : panics_from m P → panics_from (os m) (λ p, P (win p)).
Proof. intros Hm p. rewrite os_run. apply Hm. Qed.

(** *** Properties *)

(** The provider answers that the property [field] has no bytes. *)
Definition property_empty (hnd : Z) (field : string) (s : S) : Prop :=
  ∃ w, UTF16FromString field = Ok w ∧
    let rep := (NCryptGetProperty hnd w 0 s).1 in reply_r rep = 0 ∧ uint32 (reply_out rep).2 = 0.

Lemma getNCryptBufferProperty_panics hnd field :
  panics_from (getNCryptBufferProperty (S := S) hnd field) (property_empty hnd field).
Proof.
  intros s. unfold getNCryptBufferProperty, property_empty. pose proof (UTF16FromString_returns field) as Hu.
  destruct (UTF16FromString field) as [w|e| |]; try done; [|intros (? & [=] & _)].
  erewrite bind_Ok by done. destruct (NCryptGetProperty hnd w 0 s) as [rep s1] eqn:E.
  pose proof (checked_eq "NCryptGetProperty returned %d,%X (%v) for key %q on size read" _ _ _ _ E) as Hc.
  destruct (Z.eqb_spec (reply_r rep) 0) as [Hr|Hr].
  2: { erewrite bind_Err by exact Hc. cbn. intros (w' & [= <-] & Hr' & _). rewrite E in Hr'. done. }
  erewrite bind_Ok by exact Hc. cbv zeta. destruct (Z.eqb_spec (uint32 (reply_out rep).2) 0) as [Hz|Hz].
  { exists w. rewrite E. done. }
  apply returns_panics_if.
  - match goal with |- no_crash (?m s1).1 => assert (returns m) as Hm; [|apply Hm] end.
    apply returns_mbind; [apply returns_checked|]. auto with returns.
  - intros (w' & [= <-] & _ & Hz'). rewrite E in Hz'. done.
Qed.

Lemma utf16ToString_Ok buf : ∃ str, utf16ToString (S := S) buf = Ok str.
Proof.
  unfold utf16ToString, ReadFull. rewrite rd_avail_NewReader, (proj2 (Z.leb_le _ _)); [by eexists|].
  pose proof (Z.mul_div_le (zlen buf) 2). lia.
Qed.
Lemma returns_os {A} (m : M S A) : returns m → returns (os m).
Proof. intros Hm p. rewrite os_run. apply Hm. Qed.
Lemma openPCP_returns : returns (openPCP (S := S)).
Proof.
  unfold openPCP. apply returns_mbind; [apply returns_lift_res, UTF16FromString_returns|]. intros n.
  apply returns_mbind; [auto with returns|]. intros rep. case_match; auto with returns.
Qed.
Lemma tbsConvertVersion_returns i : no_crash (tbsConvertVersion i).
Proof. unfold tbsConvertVersion. by repeat case_match. Qed.
#[local] Hint Resolve returns_os : returns.

(** *** [TPMInfo] *)

(** One of its two properties is empty; both can be read. *)
Definition info_empty (h : winPCP) (s : S) : Prop :=
  property_empty (hProv h) "PCP_PLATFORM_TYPE" s ∨
  ∃ b s1, getNCryptBufferProperty (hProv h) "PCP_PLATFORM_TYPE" s = (Ok b, s1) ∧
    property_empty (hProv h) "PCP_PROVIDER_VERSION" s1.
Definition info_read (h : winPCP) (s : S) : Prop :=
  ∃ b s1 b' s2, getNCryptBufferProperty (hProv h) "PCP_PLATFORM_TYPE" s = (Ok b, s1) ∧
    getNCryptBufferProperty (hProv h) "PCP_PROVIDER_VERSION" s1 = (Ok b', s2).

(** What follows the properties panics exactly without the DLL. *)
Lemma device_info_panics manufacturer version :
  panics_from (W := program S) (
    found ← gets tbs_found;
    if negb found then panic "nil pointer dereference"
    else
      rep ← os (Call Tbsi_GetDeviceInfo);
      if reply_r rep =? 0
      then mret (mkWinInfo manufacturer version (decode_tbsDeviceInfo (overwrite (zeros 16) (reply_out rep))))
      else fail (Wrapf "Failed to call Tbsi_GetDeviceInfo: %v" (reply_msg rep)))
    (λ p, tbs_found p = false).
Proof.
  intros p. erewrite bind_Ok by done. destruct (tbs_found p) eqn:Hp; cbn [negb]; [|done].
  apply returns_panics_if; [|done].
  match goal with |- no_crash (?m p).1 => assert (returns m) as Hm; [|apply Hm] end.
  apply returns_mbind; [auto with returns|]. intros rep. case_match; auto with returns.
Qed.

Lemma read_property_panics {A} fmt h field (f : string → M (program S) A) (Q : program S → Prop) :
  (∀ str, panics_from (f str) Q) →
  panics_from (
    buf ← wrapM fmt (os (getNCryptBufferProperty h field));
    str ← lift_res (utf16ToString (S := S) buf);
    f str)
    (λ p, property_empty h field (win p) ∨
       ∃ b s1, getNCryptBufferProperty h field (win p) = (Ok b, s1) ∧ Q (mkProgram (tbs_found p) s1)).
Proof.
  intros Hf. eapply panics_from_iff.
  - apply panics_from_bind; [apply panics_from_wrap, panics_from_os, getNCryptBufferProperty_panics|].
    intros b. destruct (utf16ToString_Ok b) as [str Hs]. intros p. erewrite bind_Ok by (by apply lift_res_Ok). apply Hf.
  - intros p. cbn beta. unfold wrapM. rewrite os_run.
    destruct (getNCryptBufferProperty h field (win p)) as [[b|e|m|] s1]; cbn; naive_solver.
Qed.

Lemma TPMInfo_panics h :
  panics_from (pcp_TPMInfo h) (λ p, info_empty h (win p) ∨ tbs_found p = false ∧ info_read h (win p)).
Proof.
  unfold pcp_TPMInfo. eapply panics_from_iff.
  - apply read_property_panics. intros manufacturer. apply read_property_panics. intros version.
    apply device_info_panics.
  - intros p. unfold info_empty, info_read. cbn. split.
    + intros [?|(b & s1 & E & [?|(b' & s2 & E' & ?)])]; [by left; left|left; right; eauto|].
      right. split; [done|]. by exists b, s1, b', s2.
    + intros [[?|(b & s1 & E & ?)]|(? & b & s1 & b' & s2 & E & E')].
      * by left.
      * right. exists b, s1. auto.
      * right. exists b, s1. split; [done|]. right. by exists b', s2.
Qed.

(** *** Opening *)
Definition provider_empty (s : S) : Prop := ∃ h s1, openPCP s = (Ok h, s1) ∧ info_empty h s1.
Definition provider_read (s : S) : Prop := ∃ h s1, openPCP s = (Ok h, s1) ∧ info_read h s1.

(** Anything that looks at the TPM through a provider it opens *)
Lemma provider_panics {A} fmt (f : winPCP → windowsTPMInfo → M (program S) A) h :
  (∀ h i, returns (f h i)) →
  panics_from (i ← wrapM fmt (pcp_TPMInfo h); f h i)
    (λ p, info_empty h (win p) ∨ tbs_found p = false ∧ info_read h (win p)).
Proof.
  intros Hf. eapply panics_from_iff.
  - apply panics_from_bind; [apply panics_from_wrap, TPMInfo_panics|]. intros i. apply panics_from_returns, Hf.
  - intros p. cbn. naive_solver.
Qed.

Lemma win_openTPM_panics tpm :
  panics_from (win_openTPM tpm) (λ p, provider_empty (win p) ∨ tbs_found p = false ∧ provider_read (win p)).
Proof.
  unfold win_openTPM. eapply panics_from_iff.
  - apply panics_from_bind; [apply panics_from_wrap, panics_from_os, panics_from_returns, openPCP_returns|].
    intros h. apply (provider_panics _ (λ pcp info,
      vers ← lift_res (wrapf "tbsConvertVersion(%v) failed: %v" (tbsConvertVersion (wi_TBSInfo info)));
      mret (mkWindowsTPM vers pcp))).
    intros h' i. apply returns_mbind; [|auto with returns].
    apply returns_lift_res, wrapf_no_crash, tbsConvertVersion_returns.
  - intros p. cbn beta. unfold wrapM, provider_empty, provider_read. rewrite os_run.
    destruct (openPCP (win p)) as [[h|e|m|] s1]; cbn; naive_solver.
Qed.

(** Loading the DLL panics if it is not loaded and not found. *)
Definition dll_missing (p : program S) : Prop :=
  tbs_found p = false ∧ ∃ msg, (MustFind_Tbsi_GetDeviceInfo (win p)).1 = Panic msg.

Lemma load_tbs_panics : panics_from load_tbs dll_missing.
Proof.
  intros p. unfold load_tbs, dll_missing. erewrite bind_Ok by done.
  destruct (tbs_found p) eqn:Hp; cbn [negb]; [by intros [? _]|].
  unfold mbind, M_bind. rewrite os_run. pose proof (MustFind_ends (win p)) as Hr.
  destruct (MustFind_Tbsi_GetDeviceInfo (win p)) as [[[]|e|m|] s1]; cbn in *; try done; [..|by eauto].
  - by intros (_ & msg & ?).
  - by intros (_ & msg & ?).
Qed.
Lemma load_tbs_found p p' : load_tbs p = (Ok tt, p') → tbs_found p' = true.
Proof.
  unfold load_tbs. erewrite bind_Ok by done. destruct (tbs_found p) eqn:Hp; cbn [negb]; [by intros [= <-]|].
  intros ([] & p1 & _ & E)%bind_Ok_inv. by injection E as <-.
Qed.

(** What runs once the DLL is loaded leaves it loaded. *)
Definition keeps_dll {A} (m : M (program S) A) : Prop := ∀ p, tbs_found (m p).2 = tbs_found p.
Lemma dll_bind {A B} (m : M (program S) A) (f : A → M (program S) B) :
  keeps_dll m → (∀ a, keeps_dll (f a)) → keeps_dll (m ≫= f).
Proof.
  intros Hm Hf p. specialize (Hm p). unfold mbind, M_bind. destruct (m p) as [[a| | |] q]; cbn in *; try done.
  by rewrite Hf.
Qed.
Lemma dll_try {A B} (m : M (program S) A) (f : A → M (program S) B) g :
  keeps_dll m → (∀ a, keeps_dll (f a)) → (∀ e, keeps_dll (g e)) → keeps_dll (try m f g).
Proof.
  intros Hm Hf Hg p. specialize (Hm p). unfold try. destruct (m p) as [[a|e| |] q]; cbn in *; try done.
  - by rewrite Hf.
  - by rewrite Hg.
Qed.
Lemma dll_wrap {A} fmt (m : M (program S) A) : keeps_dll m → keeps_dll (wrapM fmt m).
Proof. intros Hm p. specialize (Hm p). unfold wrapM. by destruct (m p) as [[] ?]. Qed.
Lemma dll_os {A} (m : M S A) : keeps_dll (os m).
Proof. intros p. by rewrite os_run. Qed.
Lemma dll_close {A} h (m : M (program S) A) : keeps_dll m → keeps_dll (defer_pcp_close h m).
Proof.
  intros Hm p. specialize (Hm p). unfold defer_pcp_close. destruct (m p) as [r q]. cbn in *.
  by rewrite os_run.
Qed.
Lemma TPMInfo_dll h : keeps_dll (pcp_TPMInfo h).
Proof.
  unfold pcp_TPMInfo. repeat (apply dll_bind; [first [apply dll_wrap, dll_os|by intros ?]|intros ?]).
  case_match; [by intros ?|]. apply dll_bind; [apply dll_os|]. intros rep. by case_match; intros ?.
Qed.

(** Probing once the DLL is loaded *)
Definition probe_loaded : M (program S) (list probedTPM) :=
  try (os openPCP)
    (λ pcp : winPCP, defer_pcp_close pcp (
       info ← wrapM "TPMInfo() failed: %v" (pcp_TPMInfo pcp);
       version ← lift_res (wrapf "tbsConvertVersion(%v) failed: %v" (tbsConvertVersion (wi_TBSInfo info)));
       mret [mkProbed version ""]))
    (λ _, mret []).
Lemma probe_loaded_dll : keeps_dll probe_loaded.
Proof.
  apply dll_try; [apply dll_os| |by intros e p]. intros h. apply dll_close.
  apply dll_bind; [apply dll_wrap, TPMInfo_dll|]. intros i. apply dll_bind; [done|]. by intros v p.
Qed.
Lemma probe_loaded_panics :
  panics_from probe_loaded (λ p, provider_empty (win p) ∨ tbs_found p = false ∧ provider_read (win p)).
Proof.
  intros p. unfold probe_loaded, try, provider_empty, provider_read. rewrite os_run.
  pose proof (openPCP_returns (win p)) as Hr.
  destruct (openPCP (win p)) as [[h|e|m|] s1]; cbn in *; try done; [|naive_solver].
  match goal with |- context [defer_pcp_close h ?m] => assert (Hm : panics_from m
    (λ p, info_empty h (win p) ∨ tbs_found p = false ∧ info_read h (win p))) end.
  { apply (provider_panics _ (λ _ info,
      version ← lift_res (wrapf "tbsConvertVersion(%v) failed: %v" (tbsConvertVersion (wi_TBSInfo info)));
      mret [mkProbed version ""])).
    intros h' i. apply returns_mbind; [|auto with returns].
    apply returns_lift_res, wrapf_no_crash, tbsConvertVersion_returns. }
  specialize (Hm (mkProgram (tbs_found p) s1)). unfold defer_pcp_close. 
  match type of Hm with panics_if (?x).1 _ => destruct x as [r q] end.
  cbn in *. eapply panics_if_iff; [|exact Hm]. naive_solver.
Qed.

Lemma win_probe_panics :
  panics_from win_probeSystemTPMs (λ p, dll_missing p ∨ ∃ p1, load_tbs p = (Ok tt, p1) ∧ provider_empty (win p1)).
Proof.
  change win_probeSystemTPMs with (load_tbs ≫= λ _ : (), probe_loaded). eapply panics_from_iff.
  - apply panics_from_bind; [apply load_tbs_panics|]. intros u. apply probe_loaded_panics.
  - intros p. cbn. split.
    + intros [?|([] & p1 & E & [?|[Hf _]])]; [by left|right; eauto|]. by rewrite (load_tbs_found _ _ E) in Hf.
    + intros [?|(p1 & E & ?)]; [by left|]. right. exists tt, p1. eauto.
Qed.
Lemma probe_found p cands p1 : win_probeSystemTPMs p = (Ok cands, p1) → tbs_found p1 = true.
Proof.
  change win_probeSystemTPMs with (load_tbs ≫= λ _ : (), probe_loaded).
  intros ([] & p0 & E0 & E)%bind_Ok_inv. pose proof (probe_loaded_dll p0) as Hk. rewrite E in Hk. cbn in Hk.
  by rewrite Hk, (load_tbs_found _ _ E0).
Qed.

(** C38: When [OpenTPM] on Windows panics: exactly if Tbs.dll has to be loaded
    for probing and cannot be, or the provider answers, to probing or to opening
    the TPM found, that a property of the TPM has no bytes; it never dereferences
    the procedure of the DLL before that is loaded, and returns in every other
    case.  [openTPM] by itself does dereference it if the DLL is not loaded. *)
Theorem windows_OpenTPM_panics_iff {C} :
  (∀ (config : option (OpenConfig C)) (p : program S),
     let config' := default defaultOpenConfig config in
     panics_if (windows_OpenTPM config p).1
       (oc_CommandChannel config' = None ∧
        (dll_missing p ∨
         (∃ p1, load_tbs p = (Ok tt, p1) ∧ provider_empty (win p1)) ∨
         ∃ cands p1, win_probeSystemTPMs p = (Ok cands, p1) ∧
           is_Some (List.find (λ t, MatchesConfig t config') cands) ∧ provider_empty (win p1)))) ∧
  (∀ tpm (p : program S), panics_if (win_openTPM tpm p).1
     (provider_empty (win p) ∨ tbs_found p = false ∧ provider_read (win p))).
Proof.
  split; [|intros tpm; apply win_openTPM_panics]. intros config p config'.
  unfold windows_OpenTPM, OpenTPM. fold config'. destruct (oc_CommandChannel config') as [ch|].
  { apply returns_panics_if; [|by intros [? _]].
    match goal with |- no_crash (?m p).1 => assert (returns m) as Hm; [|apply Hm] end. auto with returns. }
  eapply panics_if_iff; [|apply (panics_from_bind _ _ (λ p, dll_missing p ∨
    ∃ p1, load_tbs p = (Ok tt, p1) ∧ provider_empty (win p1)) (λ cands p1,
      is_Some (List.find (λ t, MatchesConfig t config') cands) ∧
      (provider_empty (win p1) ∨ tbs_found p1 = false ∧ provider_read (win p1))))].
  - split; [|intuition; right; naive_solver].
    intros [Hd|(cands & p1 & E & Hs & [He|[Hf _]])]; [naive_solver..|].
    by rewrite (probe_found _ _ _ E) in Hf.
  - apply win_probe_panics.
  - intros cands p1. rewrite open_first_find. destruct (List.find _ cands) as [d|]; [|by intros [[? ?] _]].
    eapply panics_if_iff; [|apply panics_from_bind; [apply win_openTPM_panics|intros t; by apply panics_from_returns]].
    cbn. naive_solver.
Qed.
End Returning.

(** ** On the simulated Windows *)
Section Witnesses.
#[local] Existing Instance sha_crypto.
#[local] Existing Instance std_runtime.
#[local] Existing Instance ex_ptpm.
#[local] Existing Instance ex_x509.
#[local] Existing Instance ex_os_json.
#[local] Existing Instance ex_aes.
#[local] Instance ex_windows20 : Windows (gset Z) := ex_windows 2.
#[local] Instance ex_commands : WindowsTPM (gset Z) := sim_commands (λ _, []) ex_platform [].
Definition ex_unloaded : program (gset Z) := mkProgram false ∅.

Lemma sim_win_handles property device store :
  @WinHandles _ (sim_windows (sim_handles_of property device store)) id.
Proof.
  constructor; try done.
  - intros c Hc s rep s'. cbn in *. destruct Hc as [[n ->]|[(? & ? & ->)|(? & ? & ? & ->)]]; intros [= <- <-];
      (split; [apply is_fresh|done]).
  - by intros h s rep s' [= <- <-].
  - by intros h s rep s' [= <- <-].
Qed.
#[local] Instance ex_win_handles : WinHandles id := sim_win_handles _ _ _.
#[local] Instance ex_win_returns : WinReturns (S := gset Z).
Proof. by constructor. Qed.

(** A TPM 2.0 is probed and opened. *)
Lemma windows_types_witness :
  ∃ t p', win_openTPM (mkProbed TPMVersion20 "") (mkProgram true (∅ : gset Z)) = (Ok t, p') ∧
    wt_version t = TPMVersion20 ∧ wf_windowsTPM t.
Proof.
  assert (∃ t p', win_openTPM (mkProbed TPMVersion20 "") (mkProgram true (∅ : gset Z)) = (Ok t, p') ∧
    wt_version t = TPMVersion20) as (t & p' & E & Hv) by (do 2 eexists; split; vm_compute; reflexivity).
  exists t, p'. split; [exact E|]. split; [exact Hv|].
  exact (proj1 (proj2 (windows_types (S := gset Z))) _ _ _ _ E).
Defined.

(** A new key is one more open handle, and none once it is closed. *)
Lemma windows_handles_witness :
  ∃ k s, windows_newAK (mkWindowsTPM TPMVersion20 (mkWinPCP 0)) None {[0]} = (Ok k, s) ∧
    s = {[windows_hnd k]} ∪ {[0]} ∧ (windows_key_close k tpmNotWindows s).2 = s ∖ {[windows_hnd k]}.
Proof.
  assert (∃ k s, windows_newAK (mkWindowsTPM TPMVersion20 (mkWinPCP 0)) None ({[0]} : gset Z) = (Ok k, s))
    as (k & s & E) by (do 2 eexists; vm_compute; reflexivity).
  assert (∀ n, Channel.keeps id (rand_Read (S := gset Z) n)) as Hrand by (intros n s0; reflexivity).
  destruct (windows_handles id Hrand) as (_ & _ & Hnew & _ & Hclose & _).
  specialize (Hnew (mkWindowsTPM TPMVersion20 (mkWinPCP 0)) None {[0]} ltac:(by right)).
  rewrite E in Hnew. destruct Hnew as [_ Hs]. cbn in Hs. exists k, s. split; [done|]. split; [done|].
  apply (Hclose k tpmNotWindows s). cbn [id]. rewrite Hs. apply elem_of_union_l, elem_of_singleton_2, eq_refl.
Defined.

(** The same system, whose provider has no platform type *)
Definition ex_empty_windows : Windows (gset Z) :=
  sim_windows (sim_handles_of (λ _, []) (le_bytes 4 1 ++ le_bytes 4 2 ++ le_bytes 4 3 ++ le_bytes 4 0) []).

(** From a program that has not loaded the DLL, [OpenTPM] returns and [openTPM]
    does not; nor does either if the platform type is empty. *)
Lemma windows_OpenTPM_panics_iff_witness :
  no_crash (windows_OpenTPM (C := ()) None ex_unloaded).1 ∧
  panics_if (win_openTPM (mkProbed TPMVersion20 "") ex_unloaded).1 True ∧
  panics_if (windows_OpenTPM (H := ex_empty_windows) (C := ()) None ex_unloaded).1 True.
Proof.
  destruct (windows_OpenTPM_panics_iff (S := gset Z) (C := ())) as [H1 H2]. split_and!.
  - vm_compute. exact I.
  - eapply panics_if_iff; [|apply (H2 (mkProbed TPMVersion20 "") ex_unloaded)]. split; [done|]. intros _. right.
    split; [reflexivity|]. do 2 eexists. split; [reflexivity|]. do 4 eexists. split; vm_compute; reflexivity.
  - assert (@WinReturns _ ex_empty_windows) as Hw by by constructor.
    destruct (windows_OpenTPM_panics_iff (H := ex_empty_windows) (C := ())) as [H3 _].
    eapply panics_if_iff; [|apply (H3 None ex_unloaded)]. split; [done|]. intros _. split; [reflexivity|].
    right; left. eexists. split; [reflexivity|]. do 2 eexists. split; [reflexivity|]. left.
    eexists. split; [reflexivity|]. split; vm_compute; reflexivity.
Defined.
End Witnesses.
