(* ===== verification/WindowsAttest.v ===== *)
(** * Attestation on Windows

    The PCRs of either version in order, quotes of the bank asked for, and so
    attestation through the driver of [Windows] as [Platform] describes it. *)
From S2P Require Import Prelude GoBytes Loops GoCrypto GoRuntime Attest Tpm2 Quote.
From S2P Require Import Challenge.
From S2P Require Import Activation.
From S2P Require Import Templates.
From S2P Require Import Channel.
From S2P Require Import EKCert.
From S2P Require Import Wrapped20.
From S2P Require Import PcrBank.
From S2P Require Import Platform.
From S2P Require Import Trousers12.
From S2P Require Import WinBlobs.
From S2P Require Import Pcp.
From S2P Require Import Windows.
From S2P Require Import WindowsSim.
From S2P Require Import WindowsSpec.

(** ** PCRs *)
Section PCRs.
Context {S : Type} `{Windows S, WindowsTPM S, GoCrypto, GoTPM, GoRuntime, X509, Encodings, GoAES}.

Lemma read_pcrs12_lookup tpm n : ∀ pcr out (s : S) m s',
  0 ≤ pcr → pcr + Z.of_nat n ≤ 2 ^ 32 →
  win_read_pcrs12 n pcr tpm out s = (Ok m, s') →
  ∀ i, (pcr ≤ i < pcr + Z.of_nat n → is_Some (m !! i)) ∧ (i < pcr ∨ pcr + Z.of_nat n ≤ i → m !! i = out !! i).
Proof.
  induction n as [|n IH]; intros pcr out s m s' Hp Hn E i; cbn [win_read_pcrs12] in E.
  { inv_ok E. split; [lia|done]. }
  apply bind_Ok_inv in E as (v & s1 & _ & E). unfold uint32 in E. rewrite Z.mod_small in E by lia.
  assert (Hp' : 0 ≤ pcr + 1) by lia. assert (Hn' : pcr + 1 + Z.of_nat n ≤ 2 ^ 32) by lia.
  destruct (IH _ _ _ _ _ Hp' Hn' E i) as [H1' H2']. split.
  - intros Hi. destruct (decide (i = pcr)) as [->|]; [|apply H1'; lia].
    rewrite H2' by lia. rewrite lookup_insert_eq. by eexists.
  - intros Hi. rewrite H2' by lia. apply lookup_insert_ne. lia.
Qed.

(** The 24 registers of TPM 1.2 *)
Lemma allPCRs12_shape tpm (s : S) m s' :
  win_allPCRs12 tpm s = (Ok m, s') → m = bank (λ i, default [] (m !! i)).
Proof.
  unfold win_allPCRs12. intros E. inv_ok E. apply map_eq. intros i. rewrite bank_lookup.
  destruct (read_pcrs12_lookup tpm 24 0 ∅ _ _ _ ltac:(lia) ltac:(lia) Hm i) as [Hin Hout].
  unfold numPCRs. case_decide as Hi.
  - destruct (Hin Hi) as [v ->]. done.
  - rewrite Hout by lia. apply lookup_empty.
Qed.

(** Either version: a bank in order, with its hash, unverified. *)
Lemma windows_pcrs_shape t alg (s : S) out s' :
  windows_pcrs t alg s = (Ok out, s') → ∃ value, out = bank_pcrs value (cryptoHash alg).
Proof.
  unfold windows_pcrs. intros (m & s1 & Hm & E)%bind_Ok_inv. apply lift_res_Ok_inv in E as [E _].
  destruct (wt_version t =? TPMVersion12); [|destruct (wt_version t =? TPMVersion20); [|done]].
  - inv_ok Hm. apply allPCRs12_shape in Hm. rewrite Hm, fill_pcrs_bank in E.
    + injection E as <-. by eexists.
    + by rewrite repeat_length, size_bank.
  - inv_ok Hm. by eapply readAllPCRs20_shape.
Qed.

(** What is read is what the device holds. *)
Lemma read_pcrs12_values tpm value n : ∀ pcr out (s : S),
  0 ≤ pcr → pcr + Z.of_nat n ≤ 2 ^ 32 →
  (∀ i (s : S), pcr ≤ i < pcr + Z.of_nat n → (tpm1_ReadPCR tpm i s).1 = Ok (value i)) →
  ∃ m s', win_read_pcrs12 n pcr tpm out s = (Ok m, s') ∧
    ∀ i, m !! i = if decide (pcr ≤ i < pcr + Z.of_nat n) then Some (value i) else out !! i.
Proof.
  induction n as [|n IH]; intros pcr out s Hp Hn Hv; cbn [win_read_pcrs12].
  { exists out, s. split; [done|]. intros i. rewrite decide_False by lia. done. }
  unfold uint32. rewrite Z.mod_small by lia.
  pose proof (Hv pcr s ltac:(lia)) as Hr. destruct (tpm1_ReadPCR tpm pcr s) as [r s1] eqn:E. cbn in Hr. subst r.
  erewrite bind_Ok by (by apply wrapM_Ok).
  destruct (IH (pcr + 1) (<[pcr := value pcr]> out) s1) as (m & s' & -> & Hl); [lia..| |].
  { intros i s2 Hi. apply Hv. lia. }
  exists m, s'. split; [done|]. intros i. rewrite Hl. destruct (decide (i = pcr)) as [->|].
  - rewrite decide_False, decide_True by lia. apply lookup_insert_eq.
  - rewrite lookup_insert_ne by done. case_decide; case_decide; done || lia.
Qed.

Lemma windows_pcrs12_values t value (s s1 : S) tpm :
  wt_version t = TPMVersion12 → pcp_TPMCommandInterface (wt_pcp t) s = (Ok tpm, s1) →
  (∀ i (s : S), 0 ≤ i < 24 → (tpm1_ReadPCR tpm i s).1 = Ok (value i)) →
  (windows_pcrs t HashSHA1 s).1 = Ok (bank_pcrs value crypto_SHA1).
Proof.
  intros Hv Hc Hr. unfold windows_pcrs. rewrite Hv. cbn [Z.eqb Pos.eqb TPMVersion12].
  destruct (read_pcrs12_values tpm value 24 0 ∅ s1) as (m & s2 & E & Hl); [lia..| |].
  { intros i s2 Hi. apply Hr. lia. }
  assert (m = bank value) as ->.
  { apply map_eq. intros i. rewrite Hl, bank_lookup. unfold numPCRs. rewrite lookup_empty. done. }
  erewrite bind_Ok.
  2: { erewrite bind_Ok by done. erewrite bind_Ok by (by apply wrapM_Ok). apply wrapM_Ok. unfold win_allPCRs12.
       erewrite bind_Ok by exact E. rewrite size_bank. done. }
  unfold lift_res. cbn [fst]. apply fill_pcrs_bank. by rewrite repeat_length, size_bank.
Qed.
End PCRs.

(** ** The driver as an implementation of [tpmBase] *)
Section Attestation.
Context {S : Type} `{Windows S, WindowsTPM S, GoCrypto, GoTPM, GoRuntime, X509, Encodings, GoAES}.

(** A TPM 2.0 with its keys *)
Definition windows20_base (t : windowsTPM) : tpmBase S windowsKey20 := {|
  tpmVersion := TPMVersion20;
  base_pcrs := windows_pcrs t;
  base_measurementLog := windows_measurementLog;
  ak_quote k nonce alg sel := key20_quote k (tpmWindows t) nonce alg sel;
  ak_attestationParameters := attestationParameters20;
|}.

Lemma goTPMAlg_id alg : alg ∈ [HashSHA1; HashSHA256] → goTPMAlg alg = alg.
Proof. intros [->|[->|[]%not_elem_of_nil]%elem_of_cons]%elem_of_cons; reflexivity. Qed.

Lemma key20_quote_inv k t nonce alg sel (s : S) q s' :
  key20_quote k (tpmWindows t) nonce alg sel s = (Ok q, s') →
  ∃ c hnd s1, quote20 (H := FromContext c) hnd (goTPMAlg alg) nonce (default [] sel) s1 = (Ok q, s').
Proof.
  unfold key20_quote. intros (t' & s1 & [= <- <-] & E)%bind_Ok_inv.
  apply bind_Ok_inv in E as (hnd & s2 & _ & E). apply bind_Ok_inv in E as (c & s3 & _ & E). by eexists _, _, _.
Qed.

Lemma windows20_laws t :
  (∀ c, quotes_bank (H := FromContext c)) → tpmBaseLaws (windows20_base t).
Proof.
  intros Hb. constructor; cbn.
  - done.
  - intros alg s out s' [value ->]%windows_pcrs_shape. apply Forall_fmap, Forall_true. done.
  - intros k nonce alg sel s q s' (c & hnd & s1 & E)%key20_quote_inv.
    by apply (quote20_inv (H := FromContext c)) in E as [? _].
  - intros k nonce alg sel s q s' att info Halg (c & hnd & s1 & E)%key20_quote_inv Hatt Hinfo.
    apply (quote20_inv (H := FromContext c)) in E as (_ & sig & d1 & Hq).
    rewrite (Hb c _ _ _ _ _ _ _ _ _ Hq Hatt Hinfo). cbn. by apply goTPMAlg_id.
Qed.

(** The driver with a key of the TPM's version is the one for that version. *)
Lemma AttestPlatform_20 t k nonce config (s : S) :
  wt_version t = TPMVersion20 →
  AttestPlatform (tpmBase0 := windows_base t) (akWindows20 k) nonce config s =
  AttestPlatform (tpmBase0 := windows20_base t) k nonce config s.
Proof.
  intros Hv. destruct t as [v h]. cbn in Hv. subst v. unfold AttestPlatform, attestPlatform.
  cbn [tpmVersion windows_base windows20_base wt_version Z.eqb Pos.eqb TPMVersion20 attest_banks]. reflexivity.
Qed.

(** *** TPM 1.2 *)
Lemma bank_pcrs_sorted value hash :
  StronglySorted (λ x y, pcr_Index x < pcr_Index y) (bank_pcrs value hash).
Proof.
  unfold bank_pcrs. change (seqZ 0 numPCRs) with (Z.of_nat <$> seq 0 24).
  cbn. repeat (constructor; [|repeat (constructor; [cbn; lia|]); constructor]). constructor.
Qed.

Lemma validate12_bank a quote nonce value hash ps :
  validate12Quote a quote nonce (bank_pcrs value hash) = (Ok tt, ps) →
  ps = set_quoteVerified <$> bank_pcrs value hash ∧ unflag <$> ps = bank_pcrs value hash.
Proof.
  intros [_ ->]%validate12Quote_Ok.
  rewrite (sort_by_eq pcr_Index _ (bank_pcrs value hash)) by (done || apply bank_pcrs_sorted).
  split; [done|]. rewrite <- list_fmap_compose. unfold bank_pcrs. by rewrite <- list_fmap_compose.
Qed.

Lemma attestPCRs_12 t k nonce (s : S) q ps s' :
  wt_version t = TPMVersion12 →
  attestPCRs (tpmBase0 := windows_base t) (akWindows12 k) nonce HashSHA1 s = (Ok (q, ps), s') →
  ∃ a value, ParseAKPublic TPMVersion12 (k12_public k) = Ok a ∧ q_Version q = TPMVersion12 ∧
    validate12Quote a q nonce (bank_pcrs value crypto_SHA1) = (Ok tt, ps).
Proof.
  unfold attestPCRs. cbn [base_pcrs AK_Quote ak_quote tpmVersion ak_attestationParameters windows_base].
  intros Hv (pcrs & s1 & Hp & E)%bind_Ok_inv. apply wrapM_Ok_inv, windows_pcrs_shape in Hp as [value ->].
  apply bind_Ok_inv in E as (quote & s2 & Hq & E). apply wrapM_Ok_inv in Hq.
  apply bind_Ok_inv in E as (a & s3 & [Ha ->]%lift_res_Ok_inv & E). apply wrapf_Ok_inv in Ha.
  apply bind_Ok_inv in E as ([] & s4 & [Hver ->]%lift_res_Ok_inv & E). apply wrapf_Ok_inv in Hver.
  injection E as -> <- ->. rewrite Hv in Ha. exists a, value. split; [done|].
  assert (q_Version q = TPMVersion12) as Hq12.
  { unfold AK_Quote in Hq. cbn in Hq. unfold key12_quote in Hq. inv_ok Hq. done. }
  split; [done|]. unfold Quote.Verify in *. rewrite Hq12 in *. cbn [Z.eqb Pos.eqb TPMVersion12] in *.
  change (cryptoHash HashSHA1) with crypto_SHA1 in *. rewrite <- Hver. by destruct (validate12Quote _ _ _ _).
Qed.

Lemma AttestPlatform_12 t k nonce config (s : S) out s' :
  wt_version t = TPMVersion12 →
  AttestPlatform (tpmBase0 := windows_base t) (akWindows12 k) nonce config s = (Ok out, s') →
  ∃ p a q value, out = Some p ∧ pp_TPMVersion p = TPMVersion12 ∧ pp_Public p = k12_public k ∧
    match config ≫= pac_EventLog with Some el => pp_EventLog p = el | None => 28 ≤ zlen (pp_EventLog p) end ∧
    pp_Quotes p = [q] ∧ ParseAKPublic TPMVersion12 (k12_public k) = Ok a ∧ q_Version q = TPMVersion12 ∧
    validate12Quote a q nonce (bank_pcrs value crypto_SHA1) = (Ok tt, pp_PCRs p).
Proof.
  intros Hv (el & s1 & E & Hel)%AttestPlatform_inv. unfold attestPlatform in E.
  cbn [tpmVersion windows_base] in E. rewrite Hv in E. cbn [Z.eqb Pos.eqb TPMVersion12 TPMVersion20] in E.
  apply bind_Ok_inv in E as ([[quotes pcrs] lastErr] & s2 & Hb & E). cbn [attest_banks] in Hb.
  apply try_inv in Hb as [([q ps] & s3 & Hq & Hb)|(e & s3 & _ & Hb)]; injection Hb as <- <- <- _.
  - injection E as <- _. apply attestPCRs_12 in Hq as (a & value & Ha & Hq12 & Hval); [|done].
    eexists _, a, q, value. split; [done|]. by split_and!.
  - cbn in E. done.
Qed.

(** Which registers an attestation of TPM 1.2 is about *)
Definition sha1_bank (pcrs : list PCR) : Prop :=
  pcr_Index <$> pcrs = seqZ 0 24 ∧ Forall (λ x, pcr_DigestAlg x = crypto_SHA1) pcrs.

Lemma validate12_sha1_bank a quote nonce value ps :
  validate12Quote a quote nonce (bank_pcrs value crypto_SHA1) = (Ok tt, ps) → sha1_bank ps.
Proof.
  intros [-> _]%validate12_bank. split.
  - unfold bank_pcrs. rewrite <- !list_fmap_compose. apply list_fmap_id.
  - unfold bank_pcrs. rewrite <- list_fmap_compose. apply Forall_fmap, Forall_true. done.
Qed.

Lemma VerifyAll_12 a q nonce value ps :
  nonce ≠ [] → q_Version q = TPMVersion12 →
  validate12Quote a q nonce (bank_pcrs value crypto_SHA1) = (Ok tt, ps) →
  VerifyAll a [q] nonce (unflag <$> ps) = (Ok tt, ps).
Proof.
  intros Hn Hq Hval. pose proof (validate12_bank _ _ _ _ _ _ Hval) as [Hps Hu].
  assert (forallb QuoteVerified ps = true) as Hall.
  { rewrite Hps. apply forallb_forall. by intros x (y & <- & _)%in_map_iff. }
  unfold VerifyAll. erewrite bind_Ok by done.
  erewrite bind_Ok; [|apply reject_if_Ok, Z.eqb_neq; intros Hz; by apply zlen_0 in Hz].
  erewrite bind_Ok.
  2: { cbn [verify_quotes]. erewrite bind_Ok; [done|]. apply wrapM_Ok. unfold Quote.Verify.
       rewrite Hq, Hu. exact Hval. }
  erewrite bind_Ok by done. apply reject_if_Ok. unfold id.
  assert (filter (λ p, QuoteVerified p = false) ps = []) as ->; [|done].
  apply elem_of_nil_inv. intros x [Hx Hin]%list_elem_of_filter. rewrite forallb_forall in Hall.
  rewrite Hall in Hx; [done|]. by apply list_elem_of_In.
Qed.
End Attestation.

Section Attests.
Context {S : Type} `{Windows S, WindowsTPM S, GoCrypto, GoTPM, !GoTPMLaws, GoRuntime, X509, Encodings, GoAES}.

(** C15: Attestation through the Windows driver: with a key of the TPM's
    version, a nonce that is not empty and, on TPM 2.0, a TPM whose quotes name
    the bank they were asked for, what [AttestPlatform] returns is of that
    version, carries the log it was given or one of at least 28 bytes, and
    verifies with the key it carries, every PCR covered, as on the other
    systems; for TPM 1.2 it is one quote of that version, and the PCRs are the
    registers 0 to 23 of the SHA-1 bank, in order. *)
Theorem windows_attests t k nonce config (s : S) out s' :
  wf_windowsTPM t → windows_ak_version k = wt_version t →
  (wt_version t = TPMVersion20 → ∀ c, quotes_bank (H := FromContext c)) → nonce ≠ [] →
  AttestPlatform (tpmBase0 := windows_base t) k nonce config s = (Ok out, s') →
  ∃ p a, out = Some p ∧ pp_TPMVersion p = wt_version t ∧
    match config ≫= pac_EventLog with Some el => pp_EventLog p = el | None => 28 ≤ zlen (pp_EventLog p) end ∧
    ParseAKPublic (pp_TPMVersion p) (pp_Public p) = Ok a ∧
    VerifyAll a (pp_Quotes p) nonce (unflag <$> pp_PCRs p) = (Ok tt, pp_PCRs p) ∧
    (wt_version t = TPMVersion12 →
       (∃ q, pp_Quotes p = [q] ∧ q_Version q = TPMVersion12) ∧ sha1_bank (pp_PCRs p)).
Proof.
  intros [Hv|Hv] Hk Hb Hn E; rewrite Hv in Hk; destruct k as [k|k]; try done.
  - apply AttestPlatform_12 in E as (p & a & q & value & -> & Hpv & Hpub & Hel & Hq & Ha & Hq12 & Hval); [|done].
    exists p, a. rewrite Hpv, Hpub, Hq, Hv. split_and!; [done..|by eapply VerifyAll_12|]. intros _.
    split; [by exists q|by eapply validate12_sha1_bank].
  - rewrite AttestPlatform_20 in E by done.
    apply (attested_verifies (base := windows20_base t) (tpmBaseLaws0 := windows20_laws t (Hb Hv))) in E
      as (p & a & -> & Hpv & Hel & _ & Ha & _ & _ & _ & Hver); [|done].
    exists p, a. rewrite Hv. by split_and!.
Qed.
End Attests.

(** ** On the simulated Windows *)
Section Witnesses.
#[local] Existing Instance sha_crypto.
#[local] Existing Instance std_runtime.
#[local] Existing Instance ex_x509.
#[local] Existing Instance ex_os_json.
#[local] Existing Instance ex_aes.

(** A TPM 2.0 whose SHA-1 bank is disabled *)
#[local] Existing Instance ex_ptpm.
#[local] Existing Instance ex_plaws.
Definition ex_win_tpm (version : Z) : windowsTPM := mkWindowsTPM version (mkWinPCP 0).
Definition ex_win_commands (pcr12 : Z → bytes) : WindowsTPM (gset Z) :=
  sim_commands pcr12 ex_platform (repeat Byte.x00 32).
Definition ex_win_attest20 : res error (option PlatformParameters) * gset Z :=
  AttestPlatform (tpmBase0 := windows_base (H := ex_windows 2) (H0 := ex_win_commands ex_value)
                    (ex_win_tpm TPMVersion20))
    (akWindows20 (newWindowsKey20 5 "ak" (str "public") [] [] [])) ex_pnonce None ∅.

(** A TPM 1.2 *)
Definition ex_value12 (i : Z) : bytes := repeat (byte.of_Z i) 20.
Definition ex_tpm12 : GoTPM :=
  fixed_tpm (mkPublic 0 0 0 None None) ex_patt ex_psig crypto_SHA1
    (mkRawAttestation [] fixedQuote
       (sha1_Sum (pack_composite (mkComposite 3 [255; 255; 255] (concat (ex_value12 <$> seqZ 0 24)))))
       (sha1_Sum ex_pnonce))
    (mkRSA (2 ^ 2047 + 1) 65537) (λ _ s, bool_decide (s = str "signature")).
Lemma ex_laws12 : GoTPMLaws (H0 := ex_tpm12).
Proof. apply fixed_tpm_laws; [reflexivity|by eexists|done|done|done|done]. Qed.
Definition ex_win_attest12 : res error (option PlatformParameters) * gset Z :=
  AttestPlatform (H0 := ex_tpm12)
    (tpmBase0 := windows_base (H := ex_windows 1) (H0 := ex_win_commands ex_value12)
                    (ex_win_tpm TPMVersion12))
    (akWindows12 (newWindowsKey12 5 "ak" (str "public"))) ex_pnonce None ∅.

(** On both versions; the quote of TPM 1.2 is over the registers that were read. *)
Lemma windows_attests_witness :
  (∃ p a, ex_win_attest20.1 = Ok (Some p) ∧ length (pp_PCRs p) = 24%nat ∧
     VerifyAll a (pp_Quotes p) ex_pnonce (unflag <$> pp_PCRs p) = (Ok tt, pp_PCRs p)) ∧
  (∃ p a q, ex_win_attest12.1 = Ok (Some p) ∧ pcr_Digest <$> pp_PCRs p = ex_value12 <$> seqZ 0 24 ∧
     pp_Quotes p = [q] ∧ sha1_bank (pp_PCRs p) ∧
     VerifyAll (H0 := ex_tpm12) a [q] ex_pnonce (unflag <$> pp_PCRs p) = (Ok tt, pp_PCRs p)).
Proof.
  split.
  - assert (∃ p, ex_win_attest20.1 = Ok (Some p) ∧ length (pp_PCRs p) = 24%nat)
      as (p & Ep & H24) by (eexists; split; [vm_compute; reflexivity|vm_compute; done]).
    destruct (windows_attests (H := ex_windows 2) (H0 := ex_win_commands ex_value)
      (ex_win_tpm TPMVersion20) (akWindows20 (newWindowsKey20 5 "ak" (str "public") [] [] [])) ex_pnonce None
      ∅ (Some p) ex_win_attest20.2) as (p' & a & Hp & _ & _ & _ & Hv & _);
      [by right|done|intros _ c; apply ex_base_quotes|done| |].
    + rewrite <- Ep. unfold ex_win_attest20. by destruct (AttestPlatform _ _ _ _).
    + injection Hp as <-. eauto 10.
  - assert (∃ p, ex_win_attest12.1 = Ok (Some p) ∧ pcr_Digest <$> pp_PCRs p = ex_value12 <$> seqZ 0 24)
      as (p & Ep & Hd) by (eexists; split; vm_compute; reflexivity).
    destruct (windows_attests (H := ex_windows 1) (H2 := ex_tpm12) (H3 := ex_laws12)
      (H0 := ex_win_commands ex_value12)
      (ex_win_tpm TPMVersion12) (akWindows12 (newWindowsKey12 5 "ak" (str "public"))) ex_pnonce None
      ∅ (Some p) ex_win_attest12.2) as (p' & a & Hp & _ & _ & _ & Hv & H12); [by left|done|done|done| |].
    + rewrite <- Ep. unfold ex_win_attest12. by destruct (AttestPlatform _ _ _ _).
    + injection Hp as <-. destruct (H12 eq_refl) as [(q & Eq & _) Hb]. rewrite Eq in Hv. eauto 15.
Defined.
End Witnesses.
