(* ===== verification/WindowsKeys.v ===== *)
(** * Keys, credentials and certificates on Windows

    Keys are stored by name and loaded again by the provider; a challenge made
    for a key is opened with the session key the provider finds; certificates
    are enumerated from the stores of the provider. *)
From S2P Require Import Prelude GoBytes Loops GoCrypto GoRuntime Attest Tpm2.
From S2P Require Import Challenge.
From S2P Require Import Activation.
From S2P Require Import Templates.
From S2P Require Import Channel.
From S2P Require Import EKCert.
From S2P Require Import Wrapped20.
From S2P Require Import WinBlobs.
From S2P Require Import Pcp.
From S2P Require Import Windows.
From S2P Require Import WindowsSim.
From S2P Require Import WindowsSpec.

Lemma drop_repeat {A} (x : A) n m : drop n (repeat x m) = repeat x (m - n).
Proof. revert m. by induction n as [|n IH]; intros [|m]; cbn. Qed.

(** A buffer of zeros after a write that fits *)
Lemma overwrite_zeros n w : zlen w ≤ n → overwrite (zeros n) w = w ++ zeros (n - zlen w).
Proof.
  intros Hn. unfold overwrite, zeros, zlen in *. rewrite repeat_length.
  rewrite take_ge by (rewrite length_app, length_drop, repeat_length; lia).
  rewrite drop_repeat. do 2 f_equal. lia.
Qed.

(** ** Stored keys *)
Section Keys.
Context {S : Type} `{Windows S, WindowsTPM S, GoCrypto, GoTPM, GoRuntime, X509, Encodings, !EncodingsLaws, GoAES}.

Definition key_name (k : windows_ak) : string :=
  match k with akWindows12 k => k12_pcpKeyName k | akWindows20 k => k20_pcpKeyName k end.
Definition with_hnd (k : windows_ak) (hnd : Z) : windows_ak :=
  match k with
  | akWindows12 k => akWindows12 (newWindowsKey12 hnd (k12_pcpKeyName k) (k12_public k))
  | akWindows20 k => akWindows20 (newWindowsKey20 hnd (k20_pcpKeyName k) (k20_public k) (k20_createData k)
                                    (k20_createAttestation k) (k20_createSignature k))
  end.

(** A stored key of the version asked for is read back. *)
Lemma deserialize_windows k b :
  windows_marshal k = Ok b →
  ∃ sk, json_Unmarshal b = Ok sk ∧ sk_TPMVersion sk = windows_ak_version k ∧
    sk_Encoding sk = keyEncodingOSManaged ∧ sk_Name sk = key_name k ∧
    ∀ hnd, with_hnd k hnd =
      (if windows_ak_version k =? TPMVersion12 then akWindows12 (newWindowsKey12 hnd (sk_Name sk) (sk_Public sk))
       else akWindows20 (newWindowsKey20 hnd (sk_Name sk) (sk_Public sk) (sk_CreateData sk)
                           (sk_CreateAttestation sk) (sk_CreateSignature sk))).
Proof. destruct k as [k|k]; intros E%json_roundtrip; rewrite E; eexists; by split_and!. Qed.

(** A stored key is the key loaded: for a key of the TPM's version, loading
    what [Marshal] stored opens the key of that name and returns the same key
    under the handle of the provider; two keys with the same blob differ in
    their handles only; a key of another TPM version, or one not managed by the
    operating system, is refused before the provider is called. *)
Theorem windows_keys_roundtrip t k b (s : S) :
  (windows_marshal k = Ok b → windows_ak_version k = wt_version t →
   windows_loadAK t b s =
     (hnd ← wrapM "pcp failed to load key: %v" (pcp_LoadKeyByName (wt_pcp t) (key_name k));
      mret (with_hnd k hnd)) s) ∧
  (∀ k', windows_marshal k = Ok b → windows_marshal k' = Ok b → k' = with_hnd k (windows_hnd k')) ∧
  (windows_marshal k = Ok b → windows_ak_version k ≠ wt_version t →
   windows_loadAK t b s = (Err (Wrapf "deserializeKey() failed: %v"
     (Errorf "key for different TPM version: %v")), s)) ∧
  (∀ sk, json_Unmarshal b = Ok sk → sk_TPMVersion sk = wt_version t → sk_Encoding sk ≠ keyEncodingOSManaged →
   windows_loadAK t b s = (Err (Errorf "unsupported key encoding: %x"), s)).
Proof.
  unfold windows_loadAK, deserializeKey. split_and!.
  - intros (sk & E & Hv & He & Hn & Hk)%deserialize_windows Ht. rewrite E. cbn [wrapf mbind res_bind].
    rewrite Hv, Ht, Z.eqb_refl. cbn [negb reject mbind res_bind wrapf].
    erewrite bind_Ok by (by apply lift_res_Ok). rewrite He. erewrite bind_Ok by done. rewrite Hn.
    unfold mbind, M_bind. destruct (wrapM _ _ s) as [[hnd| | |] s']; try done. rewrite Hk, Ht, Hn.
    destruct (Z.eqb_spec (wt_version t) TPMVersion12) as [|H12]; [done|].
    rewrite (proj2 (Z.eqb_eq _ TPMVersion20)); [done|]. rewrite <- Ht in *. by destruct k.
  - destruct k as [k|k]; intros [k'|k'] E%json_roundtrip E'%json_roundtrip; rewrite E in E'; try done;
      destruct k, k'; cbn in *; by simplify_eq.
  - intros (sk & E & Hv & _)%deserialize_windows Ht. rewrite E. cbn [wrapf mbind res_bind].
    cbn [negb reject]. apply Z.eqb_neq in Ht. by rewrite Hv, Ht.
  - intros sk E Hv He. rewrite E. cbn [wrapf mbind res_bind]. rewrite Hv, Z.eqb_refl.
    cbn [negb reject mbind res_bind wrapf]. erewrite bind_Ok by (by apply lift_res_Ok).
    apply Z.eqb_neq in He. by rewrite He.
Qed.
End Keys.

(** ** Credential activation *)
Section Activating.
Context {S : Type} `{Windows S, WindowsTPM S, GoCrypto, GoTPM, GoRuntime, X509, Encodings, GoAES}.

(** What [ActivateCredential] does with the answers of the two calls *)
Lemma ActivateCredential_run h hKey act blob s rep1 s1 rep2 s2 :
  UTF16FromString "PCP_TPM12_IDACTIVATION" = Ok act → blob ≠ [] →
  NCryptSetProperty hKey act blob s = (rep1, s1) → reply_r rep1 = 0 →
  NCryptGetProperty hKey act 256 s1 = (rep2, s2) → reply_r rep2 = 0 →
  pcp_ActivateCredential h hKey blob s =
    (slice (overwrite (zeros 256) (reply_out rep2).1) 0 (uint32 (reply_out rep2).2), s2).
Proof.
  intros Ha Hb E1 Hr1 E2 Hr2. unfold pcp_ActivateCredential.
  erewrite bind_Ok by (by apply lift_res_Ok).
  rewrite (proj2 (Z.eqb_neq _ _)) by (intros Hz; by apply zlen_0 in Hz).
  erewrite bind_Ok by (erewrite checked_eq by exact E1; by rewrite Hr1).
  erewrite bind_Ok by (erewrite checked_eq by exact E2; by rewrite Hr2). done.
Qed.

Lemma slice_overwrite n key :
  zlen key ≤ n → slice (overwrite (zeros n) key) 0 (zlen key) = Ok key.
Proof.
  intros Hn. pose proof (zlen_nonneg key). rewrite overwrite_zeros by done.
  rewrite slice_prefix by (rewrite ?zlen_app; pose proof (zlen_nonneg (zeros (n - zlen key))); lia).
  unfold zlen. by rewrite take_app_len by lia.
Qed.

(** The provider holds the EK's private key: asked to activate the key [hnd]
    with public part [akpub], it answers with the session key. *)
Definition provider_activates (decrypt : bytes → option bytes) (hnd : Z) (akpub : bytes) : Prop :=
  ∃ act, UTF16FromString "PCP_TPM12_IDACTIVATION" = Ok act ∧
  ∀ blob key (s : S), tpm12_activate decrypt akpub blob = Some key → zlen key ≤ 256 →
    ∃ rep1 s1 rep2 s2, NCryptSetProperty hnd act blob s = (rep1, s1) ∧ reply_r rep1 = 0 ∧
      NCryptGetProperty hnd act 256 s1 = (rep2, s2) ∧ reply_r rep2 = 0 ∧ reply_out rep2 = (key, zlen key).

Lemma provider_session_key decrypt h hnd akpub blob key (s : S) :
  provider_activates decrypt hnd akpub → blob ≠ [] → zlen key ≤ 256 →
  tpm12_activate decrypt akpub blob = Some key → (pcp_ActivateCredential h hnd blob s).1 = Ok key.
Proof.
  intros (act & Ha & Hp) Hb Hl Hk.
  destruct (Hp _ _ s Hk Hl) as (rep1 & s1 & rep2 & s2 & E1 & Hr1 & E2 & Hr2 & Ho).
  erewrite ActivateCredential_run by done. rewrite Ho. cbn [fst snd]. unfold uint32. pose proof (zlen_nonneg key).
  rewrite Z.mod_small by lia. by apply slice_overwrite.
Qed.

(** C14: Credential activation from end to end, for TPM 1.2 on Windows: for a
    challenge made by [ActivationParameters.Generate] from the parameters of the
    key, [ActivateCredential] on the platform whose provider holds the EK
    returns the secret of the challenge. *)
Theorem windows_activates `{!GoAESLaws} decrypt t k ek ekCert p given system secret ec (s : S) :
  act_TPMVersion p = TPMVersion12 → act_EK p = Some (PubRSA ek) → act_AK p = attestationParameters12 k →
  (Generate p (fresh given system)).1 = Ok (secret, ec) →
  (∀ r m c, rsa_EncryptOAEP r ek m (str "TCPA") = Ok c → decrypt c = Some m) →
  provider_activates decrypt (k12_hnd k) (k12_public k) → ec_Credential ec ≠ [] →
  (windows_activateCredential (akWindows12 k) (tpmWindows t) ec ekCert s).1 = Ok secret.
Proof.
  intros Hv He Ha (_ & ek' & rest & He' & _ & _ & Hc)%activation_Generate_run Hd Hp Hne.
  rewrite He in He'. injection He' as <-. destruct Hc as [(_ & k' & [= <-] & Hc)|[Hv' _]]; [|by rewrite Hv in Hv'].
  rewrite Ha in Hc. cbn [attestationParameters12 ap_UseTCSDActivationFormat ap_Public] in Hc.
  destruct (challenge_decrypts decrypt ek (k12_public k) secret rest _ _ Hd Hc) as (key & Hk & Hl & Hdec).
  cbn. unfold activateCredential12. erewrite bind_Ok by done.
  pose proof (provider_session_key decrypt (wt_pcp t) _ _ _ key s Hp Hne ltac:(lia) Hk) as Hr.
  unfold mbind, M_bind. destruct (pcp_ActivateCredential _ _ _ _) as [r s']. cbn in Hr. subst r. apply Hdec.
Qed.
End Activating.

(** ** Certificates *)

(** Certificate stores are finite lists: [remaining s store ctx] is what follows
    the context [ctx] in [store], all of it if [ctx] is nil, and
    [ending s store ctx] the message with which the enumeration ends. *)
Class WinStores {S} `{Windows S} (remaining : S → Z → Z → list syscall_CertContext)
    (ending : S → Z → Z → error) : Prop := {
  enum_next store ctx s rep s' : CertEnumCertificatesInStore store ctx s = (rep, s') →
    match remaining s store ctx with
    | [] => reply_r rep = 0 ∧ reply_msg rep = ending s store ctx
    | c :: rest => reply_r rep ≠ 0 ∧ cert_memory s' (reply_r rep) = c ∧
        remaining s' store (reply_r rep) = rest ∧ ending s' store (reply_r rep) = ending s store ctx
    end;
  enum_bound s store : Z.of_nat (length (remaining s store 0)) < Z.of_nat enum_limit;
}.

(** The certificates [certs] found by an enumeration that ends with [msg] *)
Definition enumerated (msg : error) (certs : list bytes) : res error (list bytes) :=
  match msg with
  | Errno errno => if errno =? cryptENotFound then Ok certs else Err msg
  | _ => Err msg
  end.

Section Certificates.
Context {S : Type} `{Windows S} (remaining : S → Z → Z → list syscall_CertContext)
  (ending : S → Z → Z → error) `{!WinStores remaining ending}.

Lemma enum_certs_run fuel store : ∀ ctx out s,
  (length (remaining s store ctx) < fuel)%nat →
  ∃ s', enum_certs fuel store ctx out s =
    (enumerated (ending s store ctx) (out ++ (copy_cert <$> remaining s store ctx)), s').
Proof using All.
  induction fuel as [|fuel IH]; intros ctx out s Hf; [lia|]. cbn [enum_certs].
  destruct (CertEnumCertificatesInStore store ctx s) as [rep s1] eqn:E.
  pose proof (enum_next store ctx s rep s1 E) as Hn.
  erewrite bind_Ok by (unfold Call; rewrite E; done). cbv zeta.
  destruct (remaining s store ctx) as [|c rest].
  - destruct Hn as [-> ->]. cbn. rewrite app_nil_r. exists s1.
    unfold enumerated. by destruct (ending s store ctx); try case_match.
  - destruct Hn as (Hr & Hc & Hrest & He). rewrite (proj2 (Z.eqb_neq _ _)) by done.
    erewrite bind_Ok by done. rewrite Hc.
    destruct (IH (reply_r rep) (out ++ [copy_cert c]) s1) as [s' ->].
    { rewrite Hrest. cbn in Hf. lia. }
    exists s'. by rewrite He, Hrest, <- (assoc_L app).
Qed.

Lemma copy_cert_fits c : Length c = zlen (EncodedCert c) → zlen (EncodedCert c) ≤ 2 ^ 20 → copy_cert c = EncodedCert c.
Proof.
  intros Hl Hm. unfold copy_cert. rewrite take_ge by (unfold zlen in Hm; lia).
  rewrite overwrite_zeros, Hl, Z.sub_diag by lia. unfold zeros. cbn. by rewrite app_nil_r.
Qed.
Lemma copy_cert_long c : Length c = zlen (EncodedCert c) → 2 ^ 20 ≤ zlen (EncodedCert c) →
  copy_cert c = take (Z.to_nat (2 ^ 20)) (EncodedCert c) ++ zeros (Length c - 2 ^ 20).
Proof.
  intros Hl Hm. assert (zlen (take (Z.to_nat (2 ^ 20)) (EncodedCert c)) = 2 ^ 20) as Ht.
  { unfold zlen in *. rewrite length_take. lia. }
  unfold copy_cert. rewrite overwrite_zeros by lia. by rewrite Ht.
Qed.

(** C40: The enumeration of a certificate store ends: if the property names a
    store, [getPCPCerts] runs through it once and closes it, and returns the
    copies of all its certificates, in order, exactly if the enumeration ended
    with CRYPT_E_NOT_FOUND; any other message at its end is returned as an
    error, whatever was found.  The copies are the certificates, except that one
    of more than 1 MiB is cut there and filled with zeros. *)
Theorem getPCPCerts_enumerates h prop w rep (s s1 : S) :
  UTF16FromString prop = Ok w → NCryptGetProperty h w 8 s = (rep, s1) →
  let store := le_uint (overwrite (zeros 8) (reply_out rep).1) in
  let certs := copy_cert <$> remaining s1 store 0 in
  (reply_r rep ≠ 0 → ∃ e, getPCPCerts h prop s = (Err e, s1)) ∧
  (reply_r rep = 0 → ∃ r s2, getPCPCerts h prop s = (r, (CertCloseStore store s2).2) ∧
     (ending s1 store 0 = Errno cryptENotFound → r = Ok certs) ∧
     (ending s1 store 0 ≠ Errno cryptENotFound → r = Err (ending s1 store 0))) ∧
  (∀ c, Length c = zlen (EncodedCert c) →
     copy_cert c = if zlen (EncodedCert c) <=? 2 ^ 20 then EncodedCert c
                   else take (Z.to_nat (2 ^ 20)) (EncodedCert c) ++ zeros (Length c - 2 ^ 20)).
Proof using All.
  intros Hw E store certs. split_and!.
  - intros Hr. unfold getPCPCerts. erewrite bind_Ok by (by apply lift_res_Ok).
    erewrite bind_Ok by (unfold Call; rewrite E; done). rewrite (proj2 (Z.eqb_neq _ _)) by done. by eexists.
  - intros Hr.
    destruct (enum_certs_run enum_limit store 0 [] s1 ltac:(pose proof (enum_bound s1 store); lia)) as [s2 E2].
    exists (enumerated (ending s1 store 0) certs), s2. split; [|split].
    + unfold getPCPCerts. erewrite bind_Ok by (by apply lift_res_Ok).
      erewrite bind_Ok by (unfold Call; rewrite E; done). rewrite Hr. cbn [Z.eqb negb].
      unfold defer_close_store. fold store. by rewrite E2.
    + by intros ->.
    + intros He. unfold enumerated. destruct (ending s1 store 0) as [| | | | | |n| |]; try done.
      destruct (Z.eqb_spec n cryptENotFound) as [->|]; done.
  - intros c Hl. destruct (Z.leb_spec (zlen (EncodedCert c)) (2 ^ 20)); [by apply copy_cert_fits|].
    apply copy_cert_long; [done|lia].
Qed.
End Certificates.

(** ** On the simulated Windows *)
Section Witnesses.
#[local] Existing Instance sha_crypto.
#[local] Existing Instance std_runtime.
#[local] Existing Instance ex_x509.
#[local] Existing Instance ex_aes.
#[local] Existing Instance ex_os_json.
#[local] Existing Instance ex_os_json_laws.
#[local] Instance ex_act_tpm : GoTPM :=
  fixed_tpm (mkPublic 0 0 0 None None) (mkAttestation 0 0 [] None None None) (mkSignature 0 None None)
    crypto_SHA1 (mkRawAttestation [] [] [] []) (mkRSA (2 ^ 2047) 65537) (λ _ _, true).
#[local] Instance ex_act_laws : GoAESLaws.
Proof. by constructor. Qed.

(** A key stored by one program is loaded by another. *)
Lemma windows_keys_roundtrip_witness :
  let k := akWindows12 (newWindowsKey12 5 "ak" (str "public")) in
  windows_marshal k = Ok (str "public") ∧
  (windows_loadAK (H := ex_windows 1) (mkWindowsTPM TPMVersion12 (mkWinPCP 0)) (str "public") ({[0]} : gset Z)).1
    = Ok (with_hnd k 1).
Proof.
  cbn zeta. split; [reflexivity|].
  destruct (windows_keys_roundtrip (H := ex_windows 1) (mkWindowsTPM TPMVersion12 (mkWinPCP 0))
    (akWindows12 (newWindowsKey12 5 "ak" (str "public"))) (str "public") ({[0]} : gset Z)) as (Hl & _).
  rewrite Hl by reflexivity. vm_compute. reflexivity.
Defined.

(** A provider that remembers what it was asked to activate *)
Definition ex_akpub : bytes := str "ak".
#[local] Instance ex_activating : Windows bytes :=
  sim_windows (mkSimulated (λ s, (0, s)) (λ _ s, s) (λ v _, v)
    (λ s _, default [] (tpm12_activate Some ex_akpub s)) [] [] (Errno cryptENotFound)).
Lemma ex_provider_activates : provider_activates Some 5 ex_akpub.
Proof.
  exists (ascii_units "PCP_TPM12_IDACTIVATION"). split; [done|]. intros blob key s Hk Hl.
  do 4 eexists. split; [reflexivity|]. split; [done|]. split; [reflexivity|]. split; [done|].
  cbn [succeeded reply_out ws_property ws_set]. rewrite Hk. cbn [default].
  assert (length key ≤ Z.to_nat 256)%nat as Hn by (unfold zlen in Hl; lia). by rewrite take_ge.
Qed.

Definition ex_act_params : ActivationParameters :=
  mkActivation TPMVersion12 (Some (PubRSA (mkRSA 3233 17)))
    (attestationParameters12 (newWindowsKey12 5 "ak" ex_akpub)).
Definition ex_act_random : bytes := repeat Byte.x07 100.

Lemma windows_activates_witness :
  ∃ secret ec, (Generate ex_act_params (fresh None ex_act_random)).1 = Ok (secret, ec) ∧
    (windows_activateCredential (akWindows12 (newWindowsKey12 5 "ak" ex_akpub))
       (tpmWindows (mkWindowsTPM TPMVersion12 (mkWinPCP 0))) ec None []).1 = Ok secret.
Proof.
  assert (∃ secret ec, (Generate ex_act_params (fresh None ex_act_random)).1 = Ok (secret, ec) ∧ ec_Credential ec ≠ [])
    as (secret & ec & E & Hne) by (do 2 eexists; split; [vm_compute; reflexivity|done]).
  exists secret, ec. split; [exact E|].
  eapply (windows_activates Some) with (p := ex_act_params) (ek := mkRSA 3233 17).
  1-3: reflexivity.
  - exact E.
  - intros r m c [= <-]. reflexivity.
  - exact ex_provider_activates.
  - exact Hne.
Defined.

(** The same system, whose enumerations end with [msg] *)
Definition ex_ending (msg : error) : Windows (gset Z) :=
  sim_windows (mkSimulated (λ live, (0, live)) (λ h live, live) (λ _ live, live) (λ _, ex_win_property) []
                 ex_store msg).

Lemma ex_stores msg : @WinStores _ (ex_ending msg) (λ _ _ ctx, drop (Z.to_nat ctx) ex_store) (λ _ _ _, msg).
Proof.
  constructor.
  - intros store ctx s rep s' [= <- <-]. cbv beta. destruct (drop (Z.to_nat ctx) ex_store) as [|c rest] eqn:Hd.
    + apply (f_equal length) in Hd. rewrite length_drop in Hd. cbn [length] in Hd.
      change (length ex_store) with 2%nat in Hd. by rewrite decide_False by lia.
    + rewrite decide_True. 2: { apply (f_equal length) in Hd. rewrite length_drop in Hd. cbn [length] in Hd.
        change (length ex_store) with 2%nat in Hd. lia. }
      cbn [reply_r cert_memory ex_ending sim_windows]. rewrite Nat2Z.id, Nat.sub_1_r. cbn [Nat.pred].
      split; [done|].
      assert (ex_store !! Z.to_nat ctx = Some c) as Hc.
      { rewrite <- (Nat.add_0_r (Z.to_nat ctx)), <- lookup_drop, Hd. done. }
      cbn [ws_store]. split; [by rewrite Hc|]. split; [|done]. erewrite drop_S in Hd by exact Hc. congruence.
  - intros s store. vm_compute. reflexivity.
Qed.

(** Two certificates are enumerated; they are lost if access is denied then. *)
Lemma getPCPCerts_enumerates_witness :
  (getPCPCerts (H := ex_ending (Errno cryptENotFound)) 0 "PCP_RSA_EKNVCERT" (∅ : gset Z)).1
    = Ok [[Byte.x30; Byte.x01; Byte.x05]; [Byte.x30; Byte.x00]] ∧
  (getPCPCerts (H := ex_ending (Errno 5)) 0 "PCP_RSA_EKNVCERT" (∅ : gset Z)).1 = Err (Errno 5).
Proof.
  split.
  - pose proof (ex_stores (Errno cryptENotFound)) as Hs.
    destruct (getPCPCerts_enumerates (H := ex_ending (Errno cryptENotFound)) _ _ 0
      "PCP_RSA_EKNVCERT" (ascii_units "PCP_RSA_EKNVCERT") _ ∅ ∅ eq_refl eq_refl) as (_ & Hok & _).
    destruct (Hok eq_refl) as (r & s2 & E & Hr & _). rewrite E. cbn [fst]. rewrite Hr by reflexivity.
    vm_compute. reflexivity.
  - pose proof (ex_stores (Errno 5)) as Hs.
    destruct (getPCPCerts_enumerates (H := ex_ending (Errno 5)) _ _ 0
      "PCP_RSA_EKNVCERT" (ascii_units "PCP_RSA_EKNVCERT") _ ∅ ∅ eq_refl eq_refl) as (_ & Hok & _).
    destruct (Hok eq_refl) as (r & s2 & E & _ & Hr). rewrite E. cbn [fst]. rewrite Hr by discriminate. reflexivity.
Defined.
End Witnesses.
