(* ===== verification/Driver.v ===== *)
(** * The package's interface ([TPM] in [attest/tpm.go], [AK] in [attest/attest.go])

    All methods of the interfaces [tpmBase] and [ak], as the class [tpmDriver]
    over the part of it that attestation uses; the exported methods of [TPM]
    and [AK], which a client sees, written against it; and the three drivers as
    instances.  [DriverHandles] says what becomes of the handles of keys. *)
From stdpp Require Import pretty.
From S2P Require Import Prelude GoBytes GoCrypto GoRuntime Attest Tpm2.
From S2P Require Import Activation.
From S2P Require Import Certification.
From S2P Require Import Templates.
From S2P Require Import Channel.
From S2P Require Import EKCert.
From S2P Require Import Wrapped20.
From S2P Require Import KeyHandles.
From S2P Require Import Platform.
From S2P Require Import KeyOps.
From S2P Require Import Trousers12.
From S2P Require Import WinBlobs.
From S2P Require Import Pcp.
From S2P Require Import Windows.

(** ** The interfaces *)
Class tpmDriver (W K : Type) `{X509} := {
  #[global] driver_base :: tpmBase W K;
  base_close : M W ();
  base_eks : M W (list EK);
  base_ekCertificates : M W (list EK);
  base_info : M W TPMInfo;
  base_loadAK : bytes → M W K;
  base_loadAKWithParent : bytes → ParentKeyConfig → M W K;
  base_newAK : option AKConfig → M W K;
  base_loadKey : bytes → M W Key;
  base_loadKeyWithParent : bytes → ParentKeyConfig → M W Key;
  base_newKey : K → option KeyConfig → M W Key;
  ak_close : K → M W ();
  ak_marshal : K → res error bytes;
  ak_activateCredential : K → EncryptedCredential → option EK → M W bytes;
  ak_certify : K → any_handle → M W CertificationParameters;
}.

(** ** Methods of [AK] and [TPM]

    [Quote], [QuotePCRs], [MeasurementLog] and [AttestPlatform] are in
    [Platform]. *)
Section Methods.
Context {W K : Type} `{X509, !tpmDriver W K}.

Definition AK_Close (k : K) : M W () := ak_close k.
Definition AK_Marshal (k : K) : res error bytes := ak_marshal k.
Definition AK_ActivateCredential (k : K) (cred : EncryptedCredential) : M W bytes :=
  ak_activateCredential k cred None.
Definition AK_ActivateCredentialWithEK (k : K) (cred : EncryptedCredential) (ek : EK) : M W bytes :=
  ak_activateCredential k cred (Some ek).
Definition AK_AttestationParameters (k : K) : AttestationParameters := ak_attestationParameters k.
Definition AK_Certify (k : K) (handle : any_handle) : M W CertificationParameters := ak_certify k handle.

Definition TPM_Close : M W () := base_close.
Definition TPM_EKs : M W (list EK) := base_eks.
Definition TPM_EKCertificates : M W (list EK) := base_ekCertificates.
Definition TPM_Info : M W TPMInfo := base_info.
Definition TPM_LoadAK (opaqueBlob : bytes) : M W K := base_loadAK opaqueBlob.
Definition TPM_LoadAKWithParent (opaqueBlob : bytes) (parent : ParentKeyConfig) : M W K :=
  base_loadAKWithParent opaqueBlob parent.
Definition TPM_NewAK (opts : option AKConfig) : M W K := base_newAK opts.
Definition TPM_LoadKey (opaqueBlob : bytes) : M W Key := base_loadKey opaqueBlob.
Definition TPM_NewKey (k : K) (opts : option KeyConfig) : M W Key :=
  let opts := default defaultConfig opts in
  let opts := if bool_decide (kc_Algorithm opts = ""%string) && (kc_Size opts =? 0)
              then defaultConfig else opts in
  base_newKey k (Some opts).
Definition TPM_PCRs (alg : Z) : M W (list PCR) := base_pcrs alg.
Definition TPM_Version : Z := tpmVersion.
End Methods.

(** ** Methods of [Key]

    Only the TPM 2.0 driver makes application keys. *)
Section Keys.
Context {D : Type} `{TPM2Channel D}.

Definition Key_Public (k : Key) : PublicKey := key_pub k.
Definition Key_Close (k : Key) : M (world D) () := key_close (key_key k) tpmWrapped20.
Definition Key_Marshal `{Encodings} (k : Key) : res error bytes := marshal (key_key k).
Definition Key_CertificationParameters (k : Key) : CertificationParameters :=
  certificationParameters (key_key k).
(** [wrappedKey20.blobs]: the public and the private part, and no error *)
Definition key_blobs (k : wrappedKey20) : bytes * bytes := (wk_public k, wk_blob k).
Definition key_decrypt (k : wrappedKey20) (tb : tpm_impl) (ctxt : bytes) : M (world D) bytes :=
  fail (Errorf "not implemented").
Definition Key_Blobs (k : Key) : bytes * bytes := key_blobs (key_key k).
End Keys.

(** ** Names *)
Definition keyEncoding_String (e : Z) : string :=
  if e =? keyEncodingInvalid then "invalid"
  else if e =? keyEncodingOSManaged then "os-managed"
  else if e =? keyEncodingEncrypted then "encrypted"
  else if e =? keyEncodingParameterized then "parameterized"
  else "keyEncoding<" +:+ pretty e +:+ ">".
Definition HashAlg_String (a : Z) : string :=
  if a =? HashSHA1 then "SHA1"
  else if a =? HashSHA256 then "SHA256"
  else "HashAlg<" +:+ pretty a +:+ ">".

(** ** The drivers *)
Section Drivers.
Context `{GoCrypto, GoTPM, GoRuntime, X509, Encodings}.

#[export] Instance wrapped20_driver {D} `{TPM2Channel D} (interf : Z) : tpmDriver (world D) wrappedKey20 := {|
  driver_base := wrappedTPM20_base;
  base_close := tpm_close;
  base_eks := eks interf;
  base_ekCertificates := ekCertificates;
  base_info := info interf;
  base_loadAK := loadAK;
  base_loadAKWithParent := loadAKWithParent;
  base_newAK := newAK;
  base_loadKey := loadKey;
  base_loadKeyWithParent := loadKeyWithParent;
  base_newKey k := newKey (akWrapped20 k);
  ak_close k := key_close k tpmWrapped20;
  ak_marshal := marshal;
  ak_activateCredential k := activateCredential k tpmWrapped20;
  ak_certify k := key_certify k tpmWrapped20;
|}.

Definition trousers_driver {D} `{Tspi D} : tpmDriver D trousersKey12 := {|
  driver_base := trousers_base;
  base_close := trousers_close;
  base_eks := trousers_eks;
  base_ekCertificates := trousers_ekCertificates;
  base_info := trousers_info;
  base_loadAK := trousers_loadAK;
  base_loadAKWithParent := trousers_loadAKWithParent;
  base_newAK := trousers_newAK;
  base_loadKey := trousers_loadKey;
  base_loadKeyWithParent := trousers_loadKeyWithParent;
  base_newKey k := trousers_newKey (Some k);
  ak_close k := trousers_key_close k tpmTrousers;
  ak_marshal := trousers_marshal;
  ak_activateCredential k := trousers_activateCredential k tpmTrousers;
  ak_certify k := trousers_certify k tpmTrousers;
|}.

Definition windows_driver {S} `{Windows S, WindowsTPM S, GoAES} (t : windowsTPM) : tpmDriver S windows_ak := {|
  driver_base := windows_base t;
  base_close := windows_close t;
  base_eks := windows_eks t;
  base_ekCertificates := windows_ekCertificates t;
  base_info := windows_info t;
  base_loadAK := windows_loadAK t;
  base_loadAKWithParent := windows_loadAKWithParent t;
  base_newAK := windows_newAK t;
  base_loadKey := windows_loadKey t;
  base_loadKeyWithParent := windows_loadKeyWithParent t;
  base_newKey k := windows_newKey t (Some k);
  ak_close k := windows_key_close k (tpmWindows t);
  ak_marshal := windows_marshal;
  ak_activateCredential k := windows_activateCredential k (tpmWindows t);
  ak_certify k := windows_certify k (tpmWindows t);
|}.
End Drivers.

(** ** Handles of attestation keys *)
Section Handles.
Context {W : Type} (handles : W → gset Z).

(** What leaves the handles alone, and what leaves a new one open if it
    succeeds; nothing is said of a panic. *)
Definition settles {A} (m : M W A) : Prop := ∀ w,
  match m w with (Ok _, w') | (Err _, w') => handles w' = handles w | _ => True end.
Definition yields {K} (hnd : K → Z) (m : M W K) : Prop := ∀ w,
  match m w with
  | (Ok k, w') => hnd k ∉ handles w ∧ handles w' = ({[hnd k]} ∪ handles w)
  | (Err _, w') => handles w' = handles w
  | _ => True
  end.

Lemma settles_bind {A B} (m : M W A) (f : A → M W B) :
  settles m → (∀ a, settles (f a)) → settles (m ≫= f).
Proof.
  intros Hm Hf s. specialize (Hm s). unfold mbind, M_bind. destruct (m s) as [[a|e|pm|] s1]; try done.
  specialize (Hf a s1). by rewrite Hm in Hf.
Qed.
Lemma settles_wrap {A} fmt (m : M W A) : settles m → settles (wrapM fmt m).
Proof. intros Hm s. specialize (Hm s). unfold wrapM. by destruct (m s) as [[] ?]. Qed.
Lemma settles_try {A B} (m : M W A) (f : A → M W B) g :
  settles m → (∀ a, settles (f a)) → (∀ e, settles (g e)) → settles (try m f g).
Proof.
  intros Hm Hf Hg s. specialize (Hm s). unfold try. destruct (m s) as [[a|e|pm|] s1]; try done.
  - specialize (Hf a s1). by rewrite Hm in Hf.
  - specialize (Hg e s1). by rewrite Hm in Hg.
Qed.
Lemma settles_lift {A} (r : res error A) : settles (lift_res r).
Proof. intros s. by destruct r. Qed.
Lemma settles_ret {A} (a : A) : settles (mret a).
Proof. done. Qed.
Lemma settles_fail {A} e : settles (fail (A := A) e).
Proof. done. Qed.
Lemma settles_reject c e : settles (reject_if c e).
Proof. by destruct c. Qed.
End Handles.
Create HintDb settles discriminated.
#[export] Hint Resolve settles_bind settles_wrap settles_try settles_lift settles_ret settles_fail
  settles_reject : settles.

Class DriverHandles {W K} `{X509} (driver : tpmDriver W K) (handles : W → gset Z) (hnd : K → Z) : Prop := {
  newAK_yields opts : yields handles hnd (base_newAK opts);
  loadAK_yields b : yields handles hnd (base_loadAK b);
  ak_close_closes k w : hnd k ∈ handles w → handles (ak_close k w).2 = handles w ∖ {[hnd k]};
  eks_settles : settles handles base_eks;
  info_settles : settles handles base_info;
  pcrs_settles alg : settles handles (base_pcrs alg);
  measurementLog_settles : settles handles base_measurementLog;
  quote_settles k nonce alg sel : settles handles (ak_quote k nonce alg sel);
  activateCredential_settles k cred ek : settles handles (ak_activateCredential k cred ek);
}.

(** The TPM 2.0 driver implements it. *)
Section Handles20.
Context {D : Type} `{TPM2Channel D, GoCrypto, GoTPM, GoRuntime, X509, Encodings}.
Context (loaded : D → gset Z) `{!TPM2Handles loaded}.

Lemma balanced_settles {A} (m : M (world D) A) : balanced loaded m → settles (open_handles loaded) m.
Proof. intros Hm w. specialize (Hm w). by destruct (m w) as [[] ?]. Qed.

#[export] Instance wrapped20_handles interf :
  DriverHandles (wrapped20_driver interf) (open_handles loaded) wk_hnd.
Proof.
  constructor; cbn.
  - intros opts w. pose proof (newAK_accounted loaded opts w) as Ha. unfold accounted in Ha.
    destruct (newAK opts w) as [[k|e| |] w']; [done| |done..]. apply Ha. by intros [].
  - intros b w. pose proof (loadAK_opens loaded b defaultParentConfig w) as Ho. unfold opened in Ho.
    unfold loadAK. by destruct (loadAKWithParent b defaultParentConfig w) as [[] ?].
  - intros k w Hk. unfold key_close. cbn. by apply flush_closes.
  - by apply balanced_settles, eks_balanced.
  - by apply balanced_settles, info_balanced.
  - intros. by apply balanced_settles, pcrs_balanced.
  - apply balanced_settles. unfold measurementLog. auto with handles.
  - intros k nonce alg sel. change (settles (open_handles loaded) (key_quote k tpmWrapped20 nonce alg (default [] sel))).
    by apply balanced_settles, key_quote_balanced.
  - intros k cred ek. change (settles (open_handles loaded) (activateCredential k tpmWrapped20 cred ek)).
    by apply balanced_settles, activateCredential_balanced.
Qed.
End Handles20.

(** Attestation neither opens nor closes a handle. *)
Section Attesting.
Context {W K : Type} `{X509, GoCrypto, GoTPM, GoRuntime} (driver : tpmDriver W K).
Context (handles : W → gset Z) (hnd : K → Z) `{!DriverHandles driver handles hnd}.
#[local] Hint Resolve pcrs_settles quote_settles measurementLog_settles : settles.

Lemma MeasurementLog_settles : settles handles MeasurementLog.
Proof using All. unfold MeasurementLog. eauto 10 with settles. Qed.
Lemma AK_Quote_settles (k : K) nonce alg : settles handles (AK_Quote k nonce alg).
Proof using All. apply quote_settles. Qed.
#[local] Hint Resolve MeasurementLog_settles AK_Quote_settles : settles.

Lemma attestPCRs_settles (k : K) nonce alg : settles handles (attestPCRs k nonce alg).
Proof using All. unfold attestPCRs. eauto 20 with settles. Qed.
Lemma attest_banks_settles (k : K) nonce algs : ∀ quotes pcrs lastErr,
  settles handles (attest_banks k nonce algs quotes pcrs lastErr).
Proof using All.
  induction algs as [|alg algs IH]; intros; cbn [attest_banks]; [apply settles_ret|].
  apply settles_try; [apply attestPCRs_settles|auto..].
Qed.
Lemma AttestPlatform_settles (k : K) nonce config : settles handles (AttestPlatform k nonce config).
Proof using All.
  unfold AttestPlatform, attestPlatform. apply settles_bind; [case_match; auto with settles|].
  intros el. cbv zeta. apply settles_bind; [apply attest_banks_settles|]. intros [[quotes pcrs] lastErr].
  repeat case_match; auto with settles.
Qed.
End Attesting.

(** ** The fake channel of the tests ([attest/tpm_fake.go]) *)
Definition testLog : bytes := byte.of_Z <$>
  [0x0; 0x0; 0x0; 0x0; 0x3; 0x0; 0x0; 0x0; 0x0; 0x0; 0x0;
   0x0; 0x0; 0x0; 0x0; 0x0; 0x0; 0x0; 0x0; 0x0; 0x0; 0x0; 0x0; 0x0; 0x0; 0x0;
   0x0; 0x0; 0x21; 0x0; 0x0; 0x0; 0x53; 0x70; 0x65; 0x63; 0x20; 0x49; 0x44;
   0x20; 0x45; 0x76; 0x65; 0x6e; 0x74; 0x30; 0x33; 0x0; 0x0; 0x0; 0x0; 0x0;
   0x0; 0x2; 0x0; 0x2; 0x1; 0x0; 0x0; 0x0; 0xb; 0x0; 0x20; 0x0; 0x0].
Definition fakeCmdChannel_MeasurementLog {D} : M D bytes := mret testLog.
