(* ===== verification/AttestTool.v ===== *)
(** * The command line tool ([attest/attest-tool/attest-tool.go],
    [attest/attest-tool/internal/internal.go])

    [main], [runCommand] and the self test, over any driver ([tpmDriver]).  The
    state is the TPM's, with the system's randomness, the files and what was
    printed; the flags are an argument.  PEM is written out; encoding/json at
    the type [Dump] and the DER encodings of crypto/x509 are an interface. *)
From stdpp Require Import pretty.
From S2P Require Import Prelude GoBytes GoCrypto GoRuntime Attest EventLog Replay Verify.
From S2P Require Import Tpm2 Quote Attestation.
From S2P Require Import Activation.
From S2P Require Import Templates.
From S2P Require Import Channel.
From S2P Require Import EKCert.
From S2P Require Import Wrapped20.
From S2P Require Import Platform.
From S2P Require Import PcrBank.
From S2P Require Import KeyOps.
From S2P Require Import Driver.

(** ** Data *)
Record flags := mkFlags {
  fl_args : list string;
  keyPath : string;
  nonceHex : string;
  randomNonce : bool;
  useSHA256 : bool;
}.
Definition flag_Arg0 (fl : flags) : string := default ""%string (head (fl_args fl)).

(** [internal.Dump] *)
Record Dump := mkDump {
  dump_TPMVersion : Z;
  dump_EKPem : bytes;
  dump_AK : AttestationParameters;
  dump_Nonce : bytes;
  dump_Alg : Z;
  dump_Quote : bytes;
  dump_Signature : bytes;
  dump_PCRs : list PCR;
  dump_PCRAlg : Z;
  dump_Raw : bytes;
}.

Class ToolFiles (F : Type) := {
  os_ReadFile : string → M F bytes;
  os_WriteFile : string → bytes → M F ();
}.
Class ToolEncodings `{X509} := {
  cert_Raw : Certificate → bytes;
  x509_MarshalPKIXPublicKey : PublicKey → res error bytes;
  x509_MarshalPKCS1PublicKey : rsa_PublicKey → bytes;
  json_EncodeDump : Dump → res error bytes;
}.

(** ** Hexadecimal and PEM *)
Definition fromHexChar (c : Ascii.ascii) : option Z :=
  let n := Z.of_nat (Ascii.nat_of_ascii c) in
  if (48 <=? n) && (n <=? 57) then Some (n - 48)
  else if (97 <=? n) && (n <=? 102) then Some (n - 97 + 10)
  else if (65 <=? n) && (n <=? 70) then Some (n - 65 + 10)
  else None.
Fixpoint hex_DecodeString (s : string) : res error bytes :=
  match s with
  | EmptyString => Ok []
  | String c EmptyString =>
      if fromHexChar c then Err (LibErr "encoding/hex: odd length hex string")
      else Err (LibErr "encoding/hex: invalid byte")
  | String c (String c' s) =>
      match fromHexChar c, fromHexChar c' with
      | Some a, Some b => r ← hex_DecodeString s; Ok (byte.of_Z (16 * a + b) :: r)
      | _, _ => Err (LibErr "encoding/hex: invalid byte")
      end
  end.

Definition base64_alphabet : bytes :=
  str "ABCDEFGHIJKLMNOPQRSTUVWXYZabcdefghijklmnopqrstuvwxyz0123456789+/".
Definition base64_digit (d : Z) : Byte.byte := default Byte.x00 (base64_alphabet !! Z.to_nat (d mod 64)).
Fixpoint base64_Encode (b : bytes) : bytes :=
  let u := byte.unsigned in
  match b with
  | [] => []
  | [x] => [base64_digit (u x / 4); base64_digit (u x mod 4 * 16)] ++ str "=="
  | [x; y] =>
      [base64_digit (u x / 4); base64_digit (u x mod 4 * 16 + u y / 16); base64_digit (u y mod 16 * 4)] ++ str "="
  | x :: y :: z :: b =>
      [base64_digit (u x / 4); base64_digit (u x mod 4 * 16 + u y / 16);
       base64_digit (u y mod 16 * 4 + u z / 64); base64_digit (u z)] ++ base64_Encode b
  end.
Definition newline : bytes := [Byte.x0a].
(** Lines of 64 characters, each with its end *)
Fixpoint break_lines (fuel : nat) (b : bytes) : bytes :=
  match fuel, b with
  | Datatypes.S fuel, _ :: _ => take 64 b ++ newline ++ break_lines fuel (drop 64 b)
  | _, _ => []
  end.
Definition pem_EncodeToMemory (ty : string) (data : bytes) : bytes :=
  str "-----BEGIN " ++ str ty ++ str "-----" ++ newline ++
  break_lines (Datatypes.S (length (base64_Encode data))) (base64_Encode data) ++
  str "-----END " ++ str ty ++ str "-----" ++ newline.

(** ** The state of the tool *)
Record tool (W F : Type) := mkTool {
  t_tpm : W;
  t_rand : reader;
  t_files : F;
  t_out : bytes;
  t_err : list error;
}.
Arguments mkTool {W F}.
Arguments t_tpm {W F}.
Arguments t_rand {W F}.
Arguments t_files {W F}.
Arguments t_out {W F}.
Arguments t_err {W F}.

Section State.
Context {W F : Type}.

Definition on_tpm {A} (m : M W A) : M (tool W F) A := λ s,
  let '(r, w) := m (t_tpm s) in (r, mkTool w (t_rand s) (t_files s) (t_out s) (t_err s)).
Definition on_files {A} (m : M F A) : M (tool W F) A := λ s,
  let '(r, f) := m (t_files s) in (r, mkTool (t_tpm s) (t_rand s) f (t_out s) (t_err s)).
(** A challenge without a [Rand] of its own *)
Definition on_rand {A} (m : M randomness A) : M (tool W F) A := λ s,
  let '(r, g) := m (mkRandomness None (t_rand s)) in
  (r, mkTool (t_tpm s) (rnd_system g) (t_files s) (t_out s) (t_err s)).
Definition print (b : bytes) : M (tool W F) () :=
  modify (λ s, mkTool (t_tpm s) (t_rand s) (t_files s) (t_out s ++ b) (t_err s)).
Definition println (s : string) : M (tool W F) () := print (str s ++ newline).
Definition print_error (e : error) : M (tool W F) () :=
  modify (λ s, mkTool (t_tpm s) (t_rand s) (t_files s) (t_out s) (t_err s ++ [e])).
(** [rand.Read(n)] of [n] bytes, its error dropped *)
Definition rand_Read_bytes (n : Z) : M (tool W F) bytes := λ s,
  let b := take (Z.to_nat n) (rd_buf (t_rand s)) in
  (Ok (b ++ repeat Byte.x00 (Z.to_nat (n - zlen b))),
   mkTool (t_tpm s) (NewReader (drop (Z.to_nat n) (rd_buf (t_rand s)))) (t_files s) (t_out s) (t_err s)).
End State.

(** ** Commands *)
Section Commands.
Context {W K F : Type} `{X509, !tpmDriver W K, ToolFiles F, !ToolEncodings, GoCrypto, GoTPM, GoRuntime}.

(** [defer k.Close(tpm)]: its error is dropped, its panic is not. *)
Definition defer_ak_close {A} (k : K) (m : M (tool W F) A) : M (tool W F) A := λ s,
  let '(r, s') := m s in
  match on_tpm (AK_Close k) s' with
  | (Ok _, s'') | (Err _, s'') => (r, s'')
  | (Panic msg, s'') => (Panic msg, s'')
  | (NoFuel, s'') => (NoFuel, s'')
  end.

Definition selftestCredentialActivation (ak : K) : M (tool W F) () :=
  eks ← wrapM "EKs() failed: %v" (on_tpm TPM_EKs);
  match eks with
  | [] => fail (Errorf "no EK present")
  | ek :: _ =>
      let ap := mkActivation TPM_Version (ek_Public ek) (AK_AttestationParameters ak) in
      sec ← wrapM "failed to generate activation challenge: %v" (on_rand (Generate ap));
      decryptedSecret ← wrapM "failed to generate activate credential: %v" (on_tpm (AK_ActivateCredential ak sec.2));
      reject_if (bool_decide (sec.1 ≠ decryptedSecret)) (Errorf "credential activation produced incorrect secret")
  end.

Definition selftest_nonce : bytes := byte.of_Z <$> [1; 2; 3; 4; 5; 6; 7; 8; 1; 2; 3; 4; 5; 6; 7; 8].

(** [for i, quote := range attestation.Quotes], on the PCRs in place *)
Fixpoint selftest_quotes (pub : AKPublic) (quotes : list Quote) (nonce : bytes) : M (list PCR) () :=
  match quotes with
  | [] => mret tt
  | quote :: quotes =>
      _ ← wrapM "failed to verify quote[%d]: %v" (Quote.Verify pub quote nonce);
      selftest_quotes pub quotes nonce
  end.

(** The error [EventLog.Verify] returns, as an [error] *)
Definition verify_error (r : res verifyError (list Event)) : res error (list Event) :=
  match r with
  | Ok evs => Ok evs
  | Err (VError e) => Err e
  | Err (VReplay _) => Err (Errorf "event log failed to verify: the following registers failed to replay: %v")
  | Panic m => Panic m
  | NoFuel => NoFuel
  end.

Definition selftestAttest (ak : K) : M (tool W F) () :=
  let nonce := selftest_nonce in
  pub ← lift_res (wrapf "failed to parse ak public: %v"
          (ParseAKPublic TPM_Version (ap_Public (AK_AttestationParameters ak))));
  _ ← wrapM "no event log available: %v" (on_tpm MeasurementLog);
  attestation ← wrapM "failed to attest: %v" (on_tpm (AttestPlatform ak nonce None));
  attestation ← lift_res (deref attestation);
  let checked := selftest_quotes pub (pp_Quotes attestation) nonce (pp_PCRs attestation) in
  _ ← lift_res checked.1;
  el ← lift_res (wrapf "failed to parse event log: %v" (ParseEventLog (pp_EventLog attestation)));
  _ ← lift_res (wrapf "event log failed to verify: %v" (verify_error (Verify.Verify el checked.2)));
  mret tt.

Definition selftest : M (tool W F) () :=
  ak ← wrapM "NewAK() failed: %v" (on_tpm (TPM_NewAK None));
  defer_ak_close ak (
    _ ← wrapM "credential activation failed: %v" (selftestCredentialActivation ak);
    wrapM "state attestation failed: %v" (selftestAttest ak)).

Definition encodeEK (ek : EK) : res error bytes :=
  match ek_Certificate ek with
  | Some cert => Ok (pem_EncodeToMemory "CERTIFICATE" (cert_Raw cert))
  | None =>
      match ek_Public ek with
      | Some (PubECDSA _ _ _ as pub) =>
          data ← wrapf "marshaling ec public key: %v" (x509_MarshalPKIXPublicKey pub);
          Ok (pem_EncodeToMemory "EC PUBLIC KEY" data)
      | Some (PubRSA pub) => Ok (pem_EncodeToMemory "RSA PUBLIC KEY" (x509_MarshalPKCS1PublicKey pub))
      | _ => Err (Errorf "unsupported public key type %T")
      end
  end.

(** The first RSA key among the EKs *)
Fixpoint first_rsa (eks : list EK) : option rsa_PublicKey :=
  match eks with
  | [] => None
  | ek :: eks => match ek_Public ek with Some (PubRSA pub) => Some pub | _ => first_rsa eks end
  end.
Definition rsaEKPEM : M (tool W F) bytes :=
  eks ← wrapM "failed to read EKs: %v" (on_tpm TPM_EKs);
  match first_rsa eks with
  | None => fail (Errorf "no EK available")
  | Some pk => mret (pem_EncodeToMemory "RSA PUBLIC KEY" (x509_MarshalPKCS1PublicKey pk))
  end.

Definition chosen_alg (fl : flags) : Z := if useSHA256 fl then HashSHA256 else HashSHA1.

(** The fields of [out] that are not set keep their zero value. *)
Definition runDump (fl : flags) : M (tool W F) Dump :=
  ekPem ← rsaEKPEM;
  k ← wrapM "failed to mint an AK: %v" (on_tpm (TPM_NewAK None));
  defer_ak_close k (
    nonce ← lift_res (wrapf "failed decoding nonce hex: %v" (hex_DecodeString (nonceHex fl)));
    let alg := chosen_alg fl in
    q ← wrapM "failed to generate quote: %v" (on_tpm (AK_Quote k nonce alg));
    raw ← wrapM "failed to read measurement log: %v" (on_tpm MeasurementLog);
    pcrs ← wrapM "failed to read PCRs: %v" (on_tpm (TPM_PCRs alg));
    mret (mkDump TPM_Version ekPem (AK_AttestationParameters k) nonce alg (q_Quote q) (q_Signature q) pcrs 0 raw)).

(** [for _, ek := range eks], and [for _, pcr := range pcrs] *)
Fixpoint print_eks (eks : list EK) : M (tool W F) () :=
  match eks with
  | [] => mret tt
  | ek :: eks =>
      data ← lift_res (wrapf "encoding ek: %v" (encodeEK ek));
      _ ← print (data ++ newline);
      print_eks eks
  end.
Fixpoint print_pcrs (pcrs : list PCR) : M (tool W F) () :=
  match pcrs with
  | [] => mret tt
  | pcr :: pcrs =>
      _ ← println ("PCR[" +:+ pretty (pcr_Index pcr) +:+ "]: " +:+ hex_EncodeToString (pcr_Digest pcr));
      print_pcrs pcrs
  end.

Definition run_info : M (tool W F) () :=
  info ← on_tpm TPM_Info;
  _ ← println ("Version: " +:+ pretty (info_Version info));
  _ ← println ("Interface: " +:+ pretty (info_Interface info));
  _ ← println ("VendorInfo: " +:+ hex_EncodeToString (info_VendorInfo info));
  println ("Manufacturer: " +:+ TCGVendorID_String (info_Manufacturer info)).

Definition run_make_ak (fl : flags) : M (tool W F) () :=
  k ← wrapM "failed to mint an AK: %v" (on_tpm (TPM_NewAK None));
  defer_ak_close k (
    b ← lift_res (AK_Marshal k);
    on_files (os_WriteFile (keyPath fl) b)).

Definition run_quote (fl : flags) : M (tool W F) () :=
  b ← on_files (os_ReadFile (keyPath fl));
  k ← wrapM "failed to load AK: %v" (on_tpm (TPM_LoadAK b));
  defer_ak_close k (
    nonce ← lift_res (hex_DecodeString (nonceHex fl));
    q ← wrapM "failed to generate quote: %v" (on_tpm (AK_Quote k nonce (chosen_alg fl)));
    _ ← println ("Quote: " +:+ hex_EncodeToString (q_Quote q));
    println ("Signature: " +:+ hex_EncodeToString (q_Signature q))).

Definition runCommand (fl : flags) : M (tool W F) () :=
  let arg := flag_Arg0 fl in
  if bool_decide (arg = "info"%string) then run_info
  else if bool_decide (arg = "make-ak"%string ∨ arg = "make-aik"%string) then run_make_ak fl
  else if bool_decide (arg = "quote"%string) then run_quote fl
  else if bool_decide (arg = "list-eks"%string) then
    eks ← wrapM "failed to read EKs: %v" (on_tpm TPM_EKs);
    print_eks eks
  else if bool_decide (arg = "list-pcrs"%string) then
    pcrs ← wrapM "failed to read PCRs: %v" (on_tpm (TPM_PCRs (chosen_alg fl)));
    print_pcrs pcrs
  else if bool_decide (arg = "measurement-log"%string) then
    b ← wrapM "failed to read the measurement log: %v" (on_tpm MeasurementLog);
    println (hex_EncodeToString b)
  else if bool_decide (arg = "dump"%string) then
    dumpData ← runDump fl;
    b ← lift_res (json_EncodeDump dumpData);
    print b
  else if bool_decide (arg = "self-test"%string) then
    try selftest
      (λ _, println "PASS")
      (λ err, _ ← println "FAIL"; fail err)
  else fail (Errorf "no such command %q").

End Commands.

(** The exit status; [openTPM] is [OpenTPM(nil)], and the TPM it opens the
    driver that the commands use. *)
Definition main {W K F T : Type} `{X509, ToolFiles F, !ToolEncodings, GoCrypto, GoTPM, GoRuntime}
    (openTPM : M W T) (driver : T → tpmDriver W K) (fl : flags) : M (tool W F) Z :=
  nonce ← (if randomNonce fl then n ← rand_Read_bytes 8; mret (hex_EncodeToString n) else mret (nonceHex fl));
  let fl := mkFlags (fl_args fl) (keyPath fl) nonce (randomNonce fl) (useSHA256 fl) in
  try (on_tpm openTPM)
    (λ t,
       let close := ( _ ← try (on_tpm (@TPM_Close W K _ (driver t))) (λ _, mret tt) (λ _, mret tt); mret tt) in
       try (@runCommand W K F _ (driver t) _ _ _ _ _ fl)
         (λ _, _ ← close; mret 0)
         (λ err, _ ← close; _ ← print_error err; mret 1))
    (λ err, _ ← print_error (Wrapf "Error opening the TPM: %v" err); mret 1).

(** ** Nonces *)
Lemma fromHexChar_digit d : 0 ≤ d < 16 → fromHexChar (hex_digit d) = Some d.
Proof.
  intros Hd. assert (Forall (λ d, fromHexChar (hex_digit d) = Some d) (seqZ 0 16)) as HF by repeat constructor.
  rewrite Forall_forall in HF. apply HF, elem_of_seqZ. lia.
Qed.

(** The random nonce of [main] is the one that is quoted. *)
Lemma hex_DecodeString_Encode b : hex_DecodeString (hex_EncodeToString b) = Ok b.
Proof.
  induction b as [|x b IH]; [done|]. cbn [hex_EncodeToString hex_DecodeString].
  pose proof (byte.unsigned_range x) as Hx.
  rewrite !fromHexChar_digit by (split; [apply Z.div_pos || apply Z.mod_pos_bound|apply Z.div_lt_upper_bound || apply Z.mod_pos_bound]; lia).
  rewrite IH. cbn [mbind res_bind]. rewrite <- Z.div_mod by lia. by rewrite byte.of_Z_unsigned.
Qed.

(** ** Quotes that are verified once more *)
Section Again.
Context `{GoCrypto, GoTPM, !GoTPMLaws, GoRuntime}.

(** The same values, and at least the flags *)
Definition more (p p' : PCR) : Prop :=
  unflag p = unflag p' ∧ (QuoteVerified p = true → QuoteVerified p' = true).

#[local] Instance more_preorder : PreOrder more.
Proof. split; [done|]. intros p q r [Hpq Hp] [Hqr Hq]. split; [by rewrite Hpq|auto]. Qed.

Lemma more_unflag l l' : Forall2 more l l' → unflag <$> l = unflag <$> l'.
Proof. induction 1 as [|p p' l l' [Hp _] _ IH]; [done|]. by rewrite !fmap_cons, Hp, IH. Qed.

Lemma more_mark quotePCRs alg l : Forall2 more l (mark_quoted quotePCRs alg <$> l).
Proof.
  apply Forall2_fmap_r, Forall_Forall2_diag, Forall_true. intros p. unfold compose, mark_quoted.
  by destruct (_ && _).
Qed.

Lemma mark_more quotePCRs alg l l' :
  Forall2 more (mark_quoted quotePCRs alg <$> l) l' → mark_quoted quotePCRs alg <$> l' = l'.
Proof.
  revert l'. induction l as [|p l IH]; intros l' HF; [by apply Forall2_nil_inv_l in HF as ->|].
  rewrite fmap_cons in HF. apply Forall2_cons_inv_l in HF as (p' & l2 & [Hu Hv] & HF & ->).
  rewrite fmap_cons, IH by done. f_equal. unfold mark_quoted in *. destruct p as [i d a v], p' as [i' d' a' v'].
  destruct (bool_decide (i ∈ quotePCRs) && (a =? alg)) eqn:E; cbn [pcr_Index pcr_DigestAlg] in *;
    rewrite E in Hu, Hv; cbn in Hu, Hv; injection Hu as <- <- <-; rewrite E; [|done].
  by rewrite (Hv eq_refl).
Qed.

Lemma quote20_ok_unflag a quote nonce pcrs pcrs' alg sel :
  unflag <$> pcrs = unflag <$> pcrs' →
  quote20_ok a quote nonce pcrs alg sel → quote20_ok a quote nonce pcrs' alg sel.
Proof.
  intros Hu (pub & sg & sr & att & info & ds & ? & ? & ? & ? & ? & ? & ? & ? & ? & ? & Hm & Hf & ?).
  exists pub, sg, sr, att, info, ds. split_and!; try done.
  - rewrite <- Hm. apply mapM_ext_lookup. intros i. by rewrite <- (last_digest_unflag _ pcrs), Hu, last_digest_unflag.
  - assert (Forall (λ p, pcr_DigestAlg p = alg → pcr_Index p ∈ sel) (unflag <$> pcrs)) as Hf' by (by apply Forall_fmap).
    rewrite Hu in Hf'. by apply Forall_fmap in Hf'.
Qed.

Lemma validate20_again a quote nonce pcrs0 pcrs1 pcrs :
  hash_available (ak_Hash a) = true → validate20Quote a quote nonce pcrs0 = (Ok tt, pcrs1) →
  Forall2 more pcrs1 pcrs → validate20Quote a quote nonce pcrs = (Ok tt, pcrs).
Proof.
  intros Ha (alg & sel & Hq & ->)%validate20Quote_Ok HF; [|done].
  apply validate20Quote_Ok; [done|]. exists alg, sel. split; [|by rewrite (mark_more _ _ _ _ HF)].
  eapply quote20_ok_unflag; [|exact Hq].
  by rewrite <- (more_unflag _ _ HF), <- (more_unflag _ _ (more_mark _ _ pcrs0)).
Qed.

Lemma verify_quotes_more a quotes nonce pcrs0 pcrs :
  hash_available (ak_Hash a) = true → Forall (λ q, q_Version q = TPMVersion20) quotes →
  verify_quotes a quotes nonce pcrs0 = (Ok tt, pcrs) → Forall2 more pcrs0 pcrs.
Proof.
  intros Ha. revert pcrs0. induction quotes as [|q quotes IH]; intros pcrs0 Hv E.
  { injection E as ->. by apply Forall_Forall2_diag, Forall_true. }
  apply Forall_cons in Hv as [Hq Hv]. cbn [verify_quotes] in E.
  apply bind_Ok_inv in E as ([] & pcrs1 & E1 & E). apply wrapM_Ok_inv in E1.
  unfold Quote.Verify in E1. rewrite Hq in E1. cbn in E1.
  apply validate20Quote_Ok in E1 as (alg & sel & _ & ->); [|done].
  etransitivity; [apply more_mark|by apply IH].
Qed.

Lemma verify_quotes_again a quotes nonce pcrs0 pcrs pcrs' :
  hash_available (ak_Hash a) = true → Forall (λ q, q_Version q = TPMVersion20) quotes →
  verify_quotes a quotes nonce pcrs0 = (Ok tt, pcrs) → Forall2 more pcrs pcrs' →
  selftest_quotes a quotes nonce pcrs' = (Ok tt, pcrs').
Proof.
  intros Ha. revert pcrs0. induction quotes as [|q quotes IH]; intros pcrs0 Hv E HF; [done|].
  apply Forall_cons in Hv as [Hq Hv]. cbn [verify_quotes selftest_quotes] in *.
  apply bind_Ok_inv in E as ([] & pcrs1 & E1 & E). apply wrapM_Ok_inv in E1.
  pose proof (verify_quotes_more _ _ _ _ _ Ha Hv E) as Hm.
  erewrite bind_Ok; [by eapply IH|]. apply wrapM_Ok. unfold Quote.Verify in *. rewrite Hq in *. cbn in *.
  eapply validate20_again; [done|exact E1|]. by etransitivity.
Qed.
End Again.

(** ** The self test and the verifier *)
Section SelfTest.
Context {W K F : Type} `{X509} (driver : tpmDriver W K) `{ToolFiles F, !ToolEncodings}.
Context `{GoCrypto, GoTPM, !GoTPMLaws, GoRuntime, !tpmBaseLaws (driver_base (tpmDriver := driver))}.

(** The part of the self test that looks at the log *)
Definition log_verdict (log : bytes) (pcrs : list PCR) : res error () :=
  el ← wrapf "failed to parse event log: %v" (ParseEventLog log);
  _ ← wrapf "event log failed to verify: %v" (verify_error (Verify.Verify el pcrs));
  Ok tt.

Definition with_tpm (s : tool W F) (w : W) : tool W F :=
  mkTool w (t_rand s) (t_files s) (t_out s) (t_err s).

(** What is attested verifies again, so the outcome is that of the log. *)
Lemma selftestAttest_run (k : K) (s : tool W F) el w1 p w2 :
  MeasurementLog (t_tpm s) = (Ok el, w1) → AttestPlatform k selftest_nonce None w1 = (Ok (Some p), w2) →
  ∃ a, ParseAKPublic (pp_TPMVersion p) (pp_Public p) = Ok a ∧
    VerifyAll a (pp_Quotes p) selftest_nonce (unflag <$> pp_PCRs p) = (Ok tt, pp_PCRs p) ∧
    selftestAttest k s = (log_verdict (pp_EventLog p) (pp_PCRs p), with_tpm s w2).
Proof using All.
  intros El Ea. assert (selftest_nonce ≠ []) as Hn by done.
  destruct (attested_verifies _ _ _ _ _ _ Hn Ea)
    as (p' & a & [= <-] & Hv & _ & Hpub & Ha & Hav & Hq & Hver & Hall).
  exists a. split_and!; [done..|].
  pose proof (verify_quotes_again a _ _ _ _ (pp_PCRs p) Hav Hq Hver
    ltac:(apply Forall_Forall2_diag, Forall_true; done)) as Hagain.
  unfold selftestAttest. cbv zeta. rewrite Hpub, Hv in Ha.
  erewrite bind_Ok; [|apply lift_res_Ok; unfold TPM_Version, AK_AttestationParameters; by rewrite base_version, Ha].
  erewrite bind_Ok; [|apply wrapM_Ok; unfold on_tpm; rewrite El; done].
  erewrite bind_Ok; [|apply wrapM_Ok; unfold on_tpm; cbn [t_tpm]; rewrite Ea; done].
  erewrite bind_Ok by done. rewrite Hagain. erewrite bind_Ok by done. cbn [snd].
  unfold log_verdict, mbind, M_bind, lift_res, res_bind.
  destruct (wrapf _ (ParseEventLog _)) as [el'| | |]; try done.
  by destruct (wrapf _ (verify_error _)).
Qed.

Lemma on_tpm_Ok_inv {A} (m : M W A) (s : tool W F) a s' :
  on_tpm m s = (Ok a, s') → ∃ w, m (t_tpm s) = (Ok a, w) ∧ s' = with_tpm s w.
Proof. unfold on_tpm. destruct (m (t_tpm s)) as [r w]. intros [= -> <-]. by exists w. Qed.
Lemma on_tpm_Ok {A} (m : M W A) (s : tool W F) a w :
  m (t_tpm s) = (Ok a, w) → on_tpm m s = (Ok a, with_tpm s w).
Proof. unfold on_tpm. by intros ->. Qed.

(** The first EK's challenge to the AK, which the TPM answers with the secret *)
Definition passes_activation (ak : K) (s s' : tool W F) : Prop :=
  ∃ ek eks w1 secret challenge g w2,
    TPM_EKs (K := K) (t_tpm s) = (Ok (ek :: eks), w1) ∧
    Generate (mkActivation TPM_Version (ek_Public ek) (AK_AttestationParameters ak))
      (mkRandomness None (t_rand s)) = (Ok (secret, challenge), g) ∧
    AK_ActivateCredential ak challenge w1 = (Ok secret, w2) ∧
    s' = mkTool w2 (rnd_system g) (t_files s) (t_out s) (t_err s).

Lemma selftestCredentialActivation_Ok ak (s s' : tool W F) :
  selftestCredentialActivation ak s = (Ok tt, s') ↔ passes_activation ak s s'.
Proof using All.
  unfold selftestCredentialActivation. split.
  - intros (l & s1 & (w1 & He & ->)%wrapM_Ok_inv%on_tpm_Ok_inv & E)%bind_Ok_inv. destruct l as [|ek eks]; [done|].
    cbv zeta in E. apply bind_Ok_inv in E as ([secret challenge] & s2 & Hg%wrapM_Ok_inv & E).
    unfold on_rand in Hg. cbn [t_rand with_tpm] in Hg. destruct (Generate _ _) as [r g] eqn:Eg.
    injection Hg as -> <-.
    apply bind_Ok_inv in E as (d & s3 & (w2 & Ha & ->)%wrapM_Ok_inv%on_tpm_Ok_inv & E).
    apply reject_if_Ok_inv in E as [Hs ->]. apply bool_decide_eq_false, dec_stable in Hs. cbn in Hs, Ha. subst d.
    by exists ek, eks, w1, secret, challenge, g, w2.
  - intros (ek & eks & w1 & secret & challenge & g & w2 & He & Hg & Ha & ->).
    erewrite bind_Ok by (by apply wrapM_Ok, on_tpm_Ok). cbv beta iota zeta.
    erewrite bind_Ok; [|apply wrapM_Ok; unfold on_rand; cbn [t_rand with_tpm]; by rewrite Hg].
    erewrite bind_Ok by (apply wrapM_Ok, on_tpm_Ok; exact Ha).
    apply reject_if_Ok. cbn. apply bool_decide_eq_false_2. by intros [].
Qed.

(** What the verifier of the parameters says is what the tool finds. *)
Lemma selftestAttest_Ok (k : K) (s s' : tool W F) :
  selftestAttest k s = (Ok tt, s') ↔
  ∃ el w1 p w2 a evs,
    MeasurementLog (t_tpm s) = (Ok el, w1) ∧ AttestPlatform k selftest_nonce None w1 = (Ok (Some p), w2) ∧
    s' = with_tpm s w2 ∧ ParseAKPublic (pp_TPMVersion p) (pp_Public p) = Ok a ∧
    check_attestation a (pp_Quotes p) selftest_nonce (pp_EventLog p) (unflag <$> pp_PCRs p) = Ok evs.
Proof using All.
  assert (∀ a p, VerifyAll a (pp_Quotes p) selftest_nonce (unflag <$> pp_PCRs p) = (Ok tt, pp_PCRs p) →
    log_verdict (pp_EventLog p) (pp_PCRs p) = Ok tt ↔
    ∃ evs, check_attestation a (pp_Quotes p) selftest_nonce (pp_EventLog p) (unflag <$> pp_PCRs p) = Ok evs) as Hlog.
  { intros a p Hall. unfold check_attestation, log_verdict. rewrite Hall.
    destruct (ParseEventLog (pp_EventLog p)) as [el'|e|m|]; cbn; [|split; [done|by intros []]..].
    destruct (Verify.Verify el' (pp_PCRs p)) as [evs|[e|e]|m|]; cbn; [|split; [done|by intros []]..].
    split; eauto. }
  split.
  - intros E. pose proof E as Hrun. unfold selftestAttest in E. cbv zeta in E.
    apply bind_Ok_inv in E as (pub & s1 & [_ ->]%lift_res_Ok_inv & E).
    apply bind_Ok_inv in E as (el & s1 & (w1 & El & ->)%wrapM_Ok_inv%on_tpm_Ok_inv & E).
    apply bind_Ok_inv in E as (att & s1 & (w2 & Ea & _)%wrapM_Ok_inv%on_tpm_Ok_inv & E).
    apply bind_Ok_inv in E as (p & s2 & [Hp _]%lift_res_Ok_inv & _).
    destruct att as [p'|]; [|done]. injection Hp as ->.
    destruct (selftestAttest_run k s el w1 p w2 El Ea) as (a & Ha & Hall & Hr).
    rewrite Hr in Hrun. injection Hrun as Hl <-. destruct (proj1 (Hlog a p Hall) Hl) as [evs Hv].
    by exists el, w1, p, w2, a, evs.
  - intros (el & w1 & p & w2 & a & evs & El & Ea & -> & Ha & Hc).
    destruct (selftestAttest_run k s el w1 p w2 El Ea) as (a' & Ha' & Hall & ->).
    rewrite Ha in Ha'. injection Ha' as <-. f_equal. apply (Hlog a p Hall). by exists evs.
Qed.

Lemma defer_ak_close_Ok {A} k (m : M (tool W F) A) s a :
  (defer_ak_close k m s).1 = Ok a ↔ ∃ s', m s = (Ok a, s') ∧ no_crash (AK_Close k (t_tpm s')).1.
Proof using All.
  unfold defer_ak_close, on_tpm. destruct (m s) as [r s'].
  split.
  - intros E. exists s'. destruct (AK_Close k (t_tpm s')) as [[] w]; cbn in *; try done; by subst r.
  - intros (s'' & [= -> <-] & Hc). by destruct (AK_Close k (t_tpm s')) as [[] w].
Qed.

(** C18: The self test passes exactly if an attestation key is made, the TPM
    answers the challenge generated for it and its first EK with the secret,
    the platform is attested, and the verifier that receives the parameters,
    whose PCRs carry no flags, accepts them; closing the key, whose error is
    dropped, must not panic.  The driver satisfies the laws of TPM 2.0. *)
Theorem selftest_agrees (s : tool W F) :
  (selftest (K := K) s).1 = Ok tt ↔
  ∃ (ak : K) w0 s1 el w1 p w2 a evs,
    TPM_NewAK None (t_tpm s) = (Ok ak, w0) ∧ passes_activation ak (with_tpm s w0) s1 ∧
    MeasurementLog (t_tpm s1) = (Ok el, w1) ∧ AttestPlatform ak selftest_nonce None w1 = (Ok (Some p), w2) ∧
    ParseAKPublic (pp_TPMVersion p) (pp_Public p) = Ok a ∧
    check_attestation a (pp_Quotes p) selftest_nonce (pp_EventLog p) (unflag <$> pp_PCRs p) = Ok evs ∧
    no_crash (AK_Close ak w2).1.
Proof using All.
  split.
  - destruct (selftest s) as [r s'] eqn:E. cbn [fst]. intros ->. unfold selftest in E.
    apply bind_Ok_inv in E as (ak & s0 & (w0 & Hk & ->)%wrapM_Ok_inv%on_tpm_Ok_inv & E).
    apply (f_equal fst), defer_ak_close_Ok in E as (s2 & E & Hc).
    apply bind_Ok_inv in E as ([] & s1 & Hact%wrapM_Ok_inv%selftestCredentialActivation_Ok & E).
    apply wrapM_Ok_inv, selftestAttest_Ok in E as (el & w1 & p & w2 & a & evs & El & Ea & -> & Ha & Hv).
    exists ak, w0, s1, el, w1, p, w2, a, evs. by split_and!.
  - intros (ak & w0 & s1 & el & w1 & p & w2 & a & evs & Hk & Hact & El & Ea & Ha & Hv & Hc).
    unfold selftest. erewrite bind_Ok by (by apply wrapM_Ok, on_tpm_Ok).
    apply defer_ak_close_Ok. exists (with_tpm s1 w2). split; [|done].
    erewrite bind_Ok by (by apply wrapM_Ok, selftestCredentialActivation_Ok).
    apply wrapM_Ok, selftestAttest_Ok. by exists el, w1, p, w2, a, evs.
Qed.
End SelfTest.

(** ** Handles *)
Section Handles.
Context {W K F : Type} `{X509} (driver : tpmDriver W K) `{ToolFiles F, !ToolEncodings, GoCrypto, GoTPM, GoRuntime}.
Context (handles : W → gset Z) (hnd : K → Z) `{!DriverHandles driver handles hnd}.

Definition tool_handles (s : tool W F) : gset Z := handles (t_tpm s).
#[local] Abbreviation settles := (Driver.settles tool_handles).

Lemma settles_on_tpm {A} (m : M W A) : Driver.settles handles m → settles (on_tpm m).
Proof. intros Hm s. specialize (Hm (t_tpm s)). unfold on_tpm, tool_handles. by destruct (m (t_tpm s)) as [[] ?]. Qed.
Lemma settles_on_files {A} (m : M F A) : settles (on_files m).
Proof. intros s. unfold on_files. by destruct (m (t_files s)) as [[] ?]. Qed.
Lemma settles_on_rand {A} (m : M randomness A) : settles (on_rand m).
Proof. intros s. unfold on_rand. by destruct (m _) as [[] ?]. Qed.
Lemma settles_print b : settles (print b).
Proof. done. Qed.
#[local] Hint Resolve settles_on_tpm settles_on_files settles_on_rand settles_print : settles.

(** A key that is made or loaded, used, and closed at the end *)
Lemma settles_key {A} fmt (m : M W K) (f : K → M (tool W F) A) :
  yields handles hnd m → (∀ k, settles (f k)) →
  settles (k ← wrapM fmt (on_tpm m); defer_ak_close k (f k)).
Proof using All.
  intros Hm Hf s. specialize (Hm (t_tpm s)). unfold mbind, M_bind, wrapM, on_tpm.
  destruct (m (t_tpm s)) as [[k|e|pm|] w1]; cbn [wrapf]; try done.
  destruct Hm as [Hnew Hw]. unfold defer_ak_close.
  specialize (Hf k (mkTool w1 (t_rand s) (t_files s) (t_out s) (t_err s))).
  destruct (f k _) as [r s2]. unfold on_tpm, tool_handles in *. cbn [t_tpm] in *.
  assert (handles (t_tpm s2) = handles w1 → handles (AK_Close k (t_tpm s2)).2 = handles (t_tpm s)) as Hc.
  { intros Hs. unfold AK_Close. rewrite ak_close_closes by (rewrite Hs, Hw; set_solver).
    rewrite Hs, Hw. by apply open_then_flush. }
  destruct (AK_Close k (t_tpm s2)) as [rc w3]. cbn [snd t_tpm fst] in *.
  destruct rc, r; try done; by apply Hc.
Qed.

Lemma print_eks_settles l : settles (print_eks l).
Proof. induction l as [|ek l IH]; cbn [print_eks]; auto 10 with settles. Qed.
Lemma print_pcrs_settles l : settles (print_pcrs l).
Proof. induction l as [|p l IH]; cbn [print_pcrs]; unfold println; auto 10 with settles. Qed.
Lemma tool_operations_settle :
  Driver.settles handles (TPM_EKs (K := K)) ∧ Driver.settles handles (TPM_Info (K := K)) ∧
  (∀ alg, Driver.settles handles (TPM_PCRs (K := K) alg)) ∧ Driver.settles handles (MeasurementLog (K := K)) ∧
  (∀ (k : K) cred, Driver.settles handles (AK_ActivateCredential k cred)) ∧
  (∀ (k : K) nonce alg, Driver.settles handles (AK_Quote k nonce alg)) ∧
  (∀ (k : K) nonce config, Driver.settles handles (AttestPlatform k nonce config)) ∧
  (∀ opts, yields handles hnd (TPM_NewAK opts)) ∧ (∀ b, yields handles hnd (TPM_LoadAK b)).
Proof using All.
  split_and!; intros.
  - apply eks_settles.
  - apply info_settles.
  - apply pcrs_settles.
  - by eapply MeasurementLog_settles.
  - apply activateCredential_settles.
  - apply quote_settles.
  - by eapply AttestPlatform_settles.
  - apply newAK_yields.
  - apply loadAK_yields.
Qed.
Lemma rsaEKPEM_settles : settles (rsaEKPEM (K := K)).
Proof using All.
  destruct tool_operations_settle as (He & _). unfold rsaEKPEM. apply settles_bind; [auto with settles|].
  intros l. case_match; auto with settles.
Qed.
#[local] Hint Resolve print_eks_settles print_pcrs_settles settles_key rsaEKPEM_settles : settles.

Lemma selftest_settles : settles (selftest (K := K)).
Proof using All.
  destruct tool_operations_settle as (He & _ & _ & Hl & Ha & _ & Hp & Hn & _).
  unfold selftest. apply settles_key; [apply Hn|]. intros k.
  apply settles_bind; [apply settles_wrap|intros _; apply settles_wrap].
  - unfold selftestCredentialActivation. apply settles_bind; [auto with settles|].
    intros [|ek l]; cbv zeta; auto 10 with settles.
  - unfold selftestAttest. cbv zeta. eauto 20 with settles.
Qed.
#[local] Hint Resolve selftest_settles : settles.

Lemma command_settles fl : settles (runCommand (K := K) fl).
Proof using All.
  destruct tool_operations_settle as (He & Hi & Hp & Hl & _ & Hq & _ & Hn & Hk).
  unfold runCommand, run_info, run_make_ak, run_quote, runDump, println. cbv zeta.
  repeat case_bool_decide; eauto 20 with settles.
Qed.
End Handles.

Section Handles20.
Context {D F : Type} `{TPM2Channel D, X509, ToolFiles F, !ToolEncodings, GoCrypto, GoTPM, GoRuntime, Encodings}.
Context (loaded : D → gset Z) `{!TPM2Handles loaded}.

(** C19: On the TPM 2.0 driver no command of the tool that returns, with a
    result or an error, leaves a handle open or closes one that is not its own:
    every attestation key that is made or loaded is closed again.  (A panic of
    the command ends the process.  The driver for Windows does not promise
    this: [WindowsSpec.windows_handles].) *)
Theorem runCommand_settles interf fl (s : tool (world D) F) :
  let '(r, s') := runCommand (tpmDriver0 := wrapped20_driver interf) fl s in
  no_crash r → open_handles loaded (t_tpm s') = open_handles loaded (t_tpm s).
Proof.
  pose proof (command_settles (wrapped20_driver interf) (open_handles loaded) wk_hnd fl s) as Hs.
  by destruct (runCommand fl s) as [[] s'].
Qed.
End Handles20.

(** ** A TPM whose SHA-1 bank is disabled, with the log of the tests *)
Section Witnesses.
#[local] Existing Instance sha_crypto.
#[local] Existing Instance std_runtime.
#[local] Existing Instance ex_x509.
#[local] Existing Instance ex_json.

(** A library that decodes what the TPM attests by its bytes: the creation of the
    attestation key, or a quote *)
Definition ex_creation_blob : bytes := str "creation".
Definition ex_tool_att (b : bytes) : AttestationData :=
  if bool_decide (b = ex_creation_blob)
  then mkAttestation tpm20GeneratedMagic tpm2.TagAttestCreation [] None None
         (Some (mkCreationInfo (mkName None (Some (mkHashValue tpm2.AlgSHA256 []))) (Sha.sha256 [])))
  else mkAttestation 0xff544347 tpm2.TagAttestQuote selftest_nonce
         (Some (mkQuoteInfo (mkSelection tpm2.AlgSHA256 (seqZ 0 24)) ex_quoted)) None None.
Definition ex_tool_pub : Public :=
  mkPublic tpm2.AlgRSA tpm2.AlgSHA256 0x00010072
    (Some (mkRSAParams (Some (mkScheme 0x14 tpm2.AlgSHA256)) 2048 65537 (2 ^ 2047 + 1))) None.
#[local] Instance ex_tool_tpm : GoTPM := {|
  tpm2_DecodePublic _ := Ok ex_tool_pub;
  tpm2_DecodeCreationData _ := Ok tt;
  tpm2_DecodeAttestationData b := Ok (ex_tool_att b);
  tpm2_DecodeSignature _ := Ok ex_psig;
  Algorithm_Hash _ := Ok crypto_SHA256;
  Public_Key _ := Ok (PubRSA (mkRSA (2 ^ 2047 + 1) 65537));
  Public_Name _ := Ok (mkName None (Some (mkHashValue tpm2.AlgSHA256 [])));
  MatchesPublic _ _ := Ok true;
  Unpack_rawAttestationData _ := Err (LibErr "not supported");
  Pack_rawPCRComposite c := Ok (pack_composite c);
  tpm1_UnmarshalPubRSAPublicKey _ := Err (LibErr "not supported");
  credactivation_Generate _ _ _ _ secret := Ok (be_bytes 2 32 ++ secret, be_bytes 2 0);
  verification_GenerateChallengeEx _ _ _ _ := Err (LibErr "not supported");
  rsa_VerifyPKCS1v15 _ _ _ s := if bool_decide (s = str "signature") then Ok tt else Err (LibErr "verification error");
  rsa_EncryptOAEP _ _ m _ := Ok m;
  aes_cbc_encrypt _ _ m := m;
|}.
#[local] Instance ex_tool_laws : GoTPMLaws.
Proof.
  constructor; cbn; try done.
  - intros. by case_bool_decide.
  - intros b att [= <-]. unfold ex_tool_att. case_bool_decide; [done|by eexists].
  - intros b att [= <-]. unfold ex_tool_att. by case_bool_decide.
  - intros b att [= <-]. unfold ex_tool_att. case_bool_decide; [by eexists|done].
  - intros ? ? [= <-]. by eexists.
  - by intros ? ? [= <-].
  - by intros ? ? [= <-].
  - intros c c' b Hw Hw' [= <-] E. apply pack_composite_inj; [done..|]. congruence.
Qed.

Definition ex_tool_replies : replies := {|
  rep_public _ := Err (LibErr "no such handle");
  rep_created := mkCreated (str "private") (str "public") [] [] [];
  rep_certified := (ex_creation_blob, str "signature");
  rep_activated := repeat Byte.x00 32;
  rep_quote _ sel := if sel_Hash sel =? tpm2.AlgSHA256 then Ok (str "quote", ex_psig)
                     else Err (LibErr "no such bank");
  rep_pcrs := rep_pcrs ex_bank;
  rep_nv _ := Ok [Byte.x30; Byte.x02; Byte.xaa; Byte.xbb];
  rep_signature _ := ex_psig;
  rep_property _ := [];
  rep_log := testLog;
|}.
#[local] Instance ex_tool_channel : TPM2Channel (gset Z) := sim ex_tool_replies.
Definition ex_tool_driver : tpmDriver (world (gset Z)) wrappedKey20 :=
  wrapped20_driver TPMInterfaceDirect.
#[local] Instance ex_tool_base : tpmBaseLaws (driver_base (tpmDriver := ex_tool_driver)).
Proof.
  apply wrappedTPM20_laws. intros k nonce sel d quote sig d' att info. cbn. unfold lift_res.
  destruct (Z.eqb_spec (sel_Hash sel) tpm2.AlgSHA256) as [Hs|]; [|done].
  intros [= <- _ _] [= <-]. unfold ex_tool_att. rewrite bool_decide_eq_false_2 by done.
  intros [= <-]. by rewrite Hs.
Qed.
#[local] Instance ex_files : ToolFiles (gmap string bytes) := {|
  os_ReadFile p := λ f, (from_option Ok (Err (LibErr "no such file")) (f !! p), f);
  os_WriteFile p b := modify <[p := b]>;
|}.
#[local] Instance ex_tool_encodings : ToolEncodings := {|
  cert_Raw c := c;
  x509_MarshalPKIXPublicKey _ := Ok [];
  x509_MarshalPKCS1PublicKey k := be_bytes 4 (rsa_E k);
  json_EncodeDump d := Ok (dump_Quote d);
|}.

Definition ex_tool : tool (world (gset Z)) (gmap string bytes) :=
  mkTool (mkWorld init_heap None None ∅) (NewReader (repeat Byte.x00 64)) ∅ [] [].

(** The test passes: the secret is drawn from the system's randomness. *)
Lemma selftest_agrees_witness :
  (selftest (tpmDriver0 := ex_tool_driver) ex_tool).1 = Ok tt ∧
  ∃ (ak : wrappedKey20) w0 s1 w1 p w2 a evs,
    TPM_NewAK (tpmDriver0 := ex_tool_driver) None (t_tpm ex_tool) = (Ok ak, w0) ∧
    AttestPlatform (tpmBase0 := driver_base (tpmDriver := ex_tool_driver)) ak selftest_nonce None w1
      = (Ok (Some p), w2) ∧
    passes_activation ex_tool_driver ak (with_tpm ex_tool w0) s1 ∧
    check_attestation a (pp_Quotes p) selftest_nonce (pp_EventLog p) (unflag <$> pp_PCRs p) = Ok evs.
Proof.
  assert ((selftest (tpmDriver0 := ex_tool_driver) ex_tool).1 = Ok tt) as Hok by (vm_compute; reflexivity).
  split; [exact Hok|].
  destruct (proj1 (selftest_agrees ex_tool_driver ex_tool) Hok)
    as (ak & w0 & s1 & el & w1 & p & w2 & a & evs & Hk & Hact & _ & Ha & _ & Hc & _).
  exists ak, w0, s1, w1, p, w2, a, evs. exact (conj Hk (conj Ha (conj Hact Hc))).
Defined.

(** [self-test] makes a key, passes and leaves no handle open. *)
Lemma runCommand_settles_witness :
  let fl := mkFlags ["self-test"%string] "" "" false false in
  ∃ s, runCommand (tpmDriver0 := ex_tool_driver) fl ex_tool = (Ok tt, s) ∧
    t_out s = str "PASS" ++ newline ∧ w_dev (t_tpm s) = ∅.
Proof.
  cbn zeta. pose proof (runCommand_settles id (TPM2Handles0 := sim_handles ex_tool_replies) TPMInterfaceDirect
    (mkFlags ["self-test"%string] "" "" false false) ex_tool) as Hs.
  assert ((runCommand (tpmDriver0 := ex_tool_driver) (mkFlags ["self-test"%string] "" "" false false) ex_tool).1
    = Ok tt) as Hr by (vm_compute; reflexivity).
  assert (t_out (runCommand (tpmDriver0 := ex_tool_driver)
    (mkFlags ["self-test"%string] "" "" false false) ex_tool).2 = str "PASS" ++ newline)
    as Ho by (vm_compute; reflexivity).
  destruct (runCommand _ ex_tool) as [r s]. cbn [fst snd] in Hr, Ho. subst r. exists s.
  split; [done|]. split; [exact Ho|exact (Hs I)].
Defined.
End Witnesses.
