(* ===== verification/GenEKCert.v ===== *)
(** * The generator of test certificates ([ci/gen_ekcert.go])

    It certifies the EK of a TPM 1.2 emulator with a throw-away key and stores
    the certificate in NVRAM, with the header that [ParseEKCertificate] takes
    off.  The commands it runs, crypto/rsa, crypto/x509, the clock and the file
    are the interface [CiSystem]; an error stands for the message and
    [os.Exit(1)]. *)
From S2P Require Import Prelude GoBytes GoCrypto Attest Tpm2.
From S2P Require Import Channel.
From S2P Require Import EKCert.
From S2P Require Import AttestTool.

(** ** Data *)
Record cert_template (T : Type) := mkTemplate {
  ct_SerialNumber : Z;
  ct_Organization : list string;
  ct_NotBefore : T;
  ct_NotAfter : T;
  ct_KeyUsage : Z;
  ct_ExtKeyUsage : list Z;
  ct_BasicConstraintsValid : bool;
}.
Arguments mkTemplate {T}.

(** Of crypto/x509 *)
Definition KeyUsageDigitalSignature : Z := 1.
Definition KeyUsageKeyEncipherment : Z := 4.
Definition ExtKeyUsageServerAuth : Z := 1.

Class CiSystem (S T K : Type) := {
  (** [exec.Command("tpm_getpubek", "-z").Output()] *)
  exec_tpm_getpubek : M S string;
  rsa_GenerateKey : Z → M S K;
  rand_Int : Z → M S Z;
  time_Now : M S T;
  time_AddDate : T → Z → Z → Z → T;
  (** template, parent, public key and signing key *)
  x509_CreateCertificate : cert_template T → cert_template T → rsa_PublicKey → K → M S bytes;
  (** [os.OpenFile(path, os.O_RDWR|os.O_TRUNC|os.O_CREATE, 0755)] *)
  os_OpenFile : string → M S ();
  file_Write : bytes → M S ();
  file_Close : M S ();
  (** [exec.Command("tpm_nvwrite", "-z", "-i", index, "-f", path).Run()] *)
  exec_tpm_nvwrite : Z → string → M S ();
}.

(** ** The program *)
Section Program.
Context {S T K : Type} `{CiSystem S T K}.

(** [strings.Split(s, sep)[1]] *)
Definition split_second (sep s : string) : res error string :=
  match String.index 0 sep s with
  | None => Panic "index out of range"
  | Some i =>
      let rest := String.substring (i + String.length sep) (String.length s) s in
      Ok match String.index 0 sep rest with
         | None => rest
         | Some j => String.substring 0 j rest
         end
  end.

(** The replacer of white space by nothing *)
Definition is_blank (c : Ascii.ascii) : bool :=
  let n := Ascii.nat_of_ascii c in
  (n =? 32)%nat || (n =? 10)%nat || (n =? 13)%nat || (n =? 9)%nat.
Fixpoint strip_blanks (s : string) : string :=
  match s with
  | EmptyString => EmptyString
  | String c s => if is_blank c then strip_blanks s else String c (strip_blanks s)
  end.

Definition ekPub : M S rsa_PublicKey :=
  out ← exec_tpm_getpubek;
  spl1 ← lift_res (split_second "Public Key:" out);
  let hexKey := strip_blanks spl1 in
  modBytes ← lift_res (hex_DecodeString hexKey);
  mret (mkRSA (be_uint modBytes) 65537).

(** The clock is read twice. *)
Definition generateCertificate (pub : rsa_PublicKey) : M S bytes :=
  priv ← rsa_GenerateKey 2048;
  serialNumber ← rand_Int (Z.shiftl 1 128);
  notBefore ← time_Now;
  now ← time_Now;
  let template := mkTemplate serialNumber ["Acme Co"%string] notBefore (time_AddDate now 1 0 0)
    (Z.lor KeyUsageKeyEncipherment KeyUsageDigitalSignature) [ExtKeyUsageServerAuth] true in
  x509_CreateCertificate template template pub priv.

(** Calls whose errors the code drops *)
Definition dropping {A} (m : M S A) : M S () := try m (λ _, mret tt) (λ _, mret tt).

Definition ekcert_path : string := "/tmp/ekcert".
Definition ekcert_index : Z := 268496896.

Definition main : M S () :=
  pub ← ekPub;
  certBytes ← generateCertificate pub;
  _ ← os_OpenFile ekcert_path;
  _ ← dropping (file_Write [Byte.x10; Byte.x01; Byte.x00]);
  let certLength := be_bytes 2 (uint16 (zlen certBytes)) in
  _ ← dropping (file_Write certLength);
  _ ← dropping (file_Write certBytes);
  _ ← dropping file_Close;
  exec_tpm_nvwrite ekcert_index ekcert_path.
End Program.

(** ** The certificate in NVRAM *)

(** The file can be written and closed, and NVRAM holds what the command read
    from it. *)
Class CiLaws {S T K} `{CiSystem S T K} (contents : S → bytes) (nvram : S → Z → bytes) : Prop := {
  OpenFile_truncates p s s' : os_OpenFile p s = (Ok tt, s') → contents s' = [];
  Write_appends b s : ∃ s', file_Write b s = (Ok tt, s') ∧ contents s' = contents s ++ b;
  Close_keeps s : no_crash (file_Close s).1 ∧ contents (file_Close s).2 = contents s;
  nvwrite_writes i s s' :
    exec_tpm_nvwrite i ekcert_path s = (Ok tt, s') → nvram s' i = contents s;
}.

Section Theorems.
Context {S T K : Type} `{CiSystem S T K} (contents : S → bytes) (nvram : S → Z → bytes) `{!CiLaws contents nvram}.
Context `{X509}.

Lemma dropping_write b s : ∃ s', dropping (file_Write b) s = (Ok tt, s') ∧ contents s' = contents s ++ b.
Proof using All.
  destruct (Write_appends b s) as (s' & E & Hc). exists s'. split; [|done]. unfold dropping, try. by rewrite E.
Qed.
Lemma dropping_close s : ∃ s', dropping file_Close s = (Ok tt, s') ∧ contents s' = contents s.
Proof using All.
  destruct (Close_keeps s) as [Hr Hc]. unfold dropping, try. exists (file_Close s).2.
  by destruct (file_Close s) as [[] s'].
Qed.

(** When the generator succeeds NVRAM holds the certificate behind its length
    in 16 bits, and [ParseEKCertificate] makes of it, whatever follows, what it
    makes of the certificate alone, if that is shorter than 64 KiB. *)
Theorem generated_certificate_parses s s' :
  main s = (Ok tt, s') →
  ∃ pub der s1 s2, ekPub s = (Ok pub, s1) ∧ generateCertificate pub s1 = (Ok der, s2) ∧
    nvram s' ekcert_index = nvram_header (zlen der mod 2 ^ 16) ++ der ∧
    (0 < zlen der < 2 ^ 16 → ∀ rest,
       ParseEKCertificate (nvram s' ekcert_index ++ rest) = parse_certificate der).
Proof using All.
  unfold main. intros E. apply bind_Ok_inv in E as (pub & s1 & E1 & E).
  apply bind_Ok_inv in E as (der & s2 & E2 & E). apply bind_Ok_inv in E as ([] & s3 & E3 & E).
  exists pub, der, s1, s2. split; [done|]. split; [done|].
  destruct (dropping_write [Byte.x10; Byte.x01; Byte.x00] s3) as (s4 & W1 & C1).
  destruct (dropping_write (be_bytes 2 (uint16 (zlen der))) s4) as (s5 & W2 & C2).
  destruct (dropping_write der s5) as (s6 & W3 & C3).
  destruct (dropping_close s6) as (s7 & W4 & C4).
  rewrite (bind_Ok _ _ _ _ _ W1) in E. cbv zeta in E. rewrite (bind_Ok _ _ _ _ _ W2) in E.
  rewrite (bind_Ok _ _ _ _ _ W3), (bind_Ok _ _ _ _ _ W4) in E.
  apply nvwrite_writes in E. apply OpenFile_truncates in E3.
  assert (nvram s' ekcert_index = nvram_header (zlen der mod 2 ^ 16) ++ der) as Hnv.
  { rewrite E, C4, C3, C2, C1, E3. unfold nvram_header. by rewrite <- app_assoc. }
  split; [done|]. intros Hder rest. rewrite Hnv, <- app_assoc, Z.mod_small by lia.
  unfold ParseEKCertificate. rewrite unwrap_header by (rewrite ?zlen_app; unfold zlen in *; lia).
  rewrite (proj2 (Z.ltb_ge _ _)) by (rewrite zlen_app; unfold zlen; lia).
  cbn [mbind res_bind]. by rewrite take_app_le, take_ge by (unfold zlen; lia).
Qed.
End Theorems.

Section Witnesses.
#[local] Existing Instance ex_x509.

(** An emulator with a one-byte key; certificates are the key in DER. *)
#[local] Instance ex_ci : CiSystem (bytes * gmap Z bytes) () () := {|
  exec_tpm_getpubek := mret ("Public Endorsement Key:" +:+ " Public Key: c5")%string;
  rsa_GenerateKey _ := mret tt;
  rand_Int n := mret (n - 1);
  time_Now := mret tt;
  time_AddDate t _ _ _ := t;
  x509_CreateCertificate template _ pub _ := mret [Byte.x30; Byte.x01; byte.of_Z (rsa_N pub)];
  os_OpenFile _ := λ s, (Ok tt, ([], s.2));
  file_Write b := λ s, (Ok tt, (s.1 ++ b, s.2));
  file_Close := mret tt;
  exec_tpm_nvwrite i _ := λ s, (Ok tt, (s.1, <[i := s.1]> s.2));
|}.
#[local] Instance ex_ci_laws : CiLaws (fst : bytes * gmap Z bytes → bytes) (λ s i, default [] (s.2 !! i)).
Proof.
  constructor.
  - by intros p [f nv] s' [= <-].
  - intros b [f nv]. by eexists.
  - by intros [f nv].
  - intros i [f nv] s' [= <-]. cbn. by rewrite lookup_insert_eq.
Qed.

Lemma generated_certificate_parses_witness :
  ∃ s, main ([], ∅) = (Ok tt, s) ∧
    ParseEKCertificate (default [] (s.2 !! ekcert_index) ++ str "old") = parse_certificate [Byte.x30; Byte.x01; Byte.xc5].
Proof.
  destruct (main ([], ∅)) as [r s] eqn:E.
  assert (r = Ok tt) as -> by (apply (f_equal fst) in E; cbn [fst] in E; subst r; vm_compute; reflexivity).
  exists s. split; [done|].
  destruct (generated_certificate_parses _ _ _ _ E) as (pub & der & s1 & s2 & E1 & E2 & _ & Hp).
  injection E1 as <- <-. injection E2 as <- _. by apply Hp.
Defined.
End Witnesses.
