(* ===== verification/Oid.v ===== *)
(** * Object identifiers ([oid/oid.go])

    The X.509 and TCG object identifiers; they are referred to with the name of
    this file in front, as the code does. *)
From S2P Require Import Prelude.

Definition TPMManufacturer : list Z := [2; 23; 133; 2; 1].
Definition TPMModel : list Z := [2; 23; 133; 2; 2].
Definition TPMVersion : list Z := [2; 23; 133; 2; 3].
Definition TCGPlatformSpecification : list Z := [2; 23; 133; 2; 17].
Definition TBBSecurityAssertions : list Z := [2; 23; 133; 2; 19].
Definition TPMSpecification : list Z := [2; 23; 133; 2; 16].
Definition TCGCredentialSpecification : list Z := [2; 23; 133; 2; 23].
Definition TCGCredentialType : list Z := [2; 23; 133; 2; 25].
Definition PlatformManufacturerStr : list Z := [2; 23; 133; 5; 1; 1].
Definition PlatformManufacturerID : list Z := [2; 23; 133; 5; 1; 2].
Definition PlatformConfigURI : list Z := [2; 23; 133; 5; 1; 3].
Definition PlatformModel : list Z := [2; 23; 133; 5; 1; 4].
Definition PlatformVersion : list Z := [2; 23; 133; 5; 1; 5].
Definition PlatformSerial : list Z := [2; 23; 133; 5; 1; 6].
Definition PlatformConfigurationV1 : list Z := [2; 23; 133; 5; 1; 7; 1].
Definition PlatformConfigurationV2 : list Z := [2; 23; 133; 5; 1; 7; 2].
Definition EKCertificate : list Z := [2; 23; 133; 8; 1].
Definition VerifiedTPMRestricted : list Z := [2; 23; 133; 11; 1; 3].
Definition EKPermIDSHA256 : list Z := [2; 23; 133; 12; 1].
Definition SubjectDirectoryAttributes : list Z := [2; 5; 29; 9].
Definition SubjectAltName : list Z := [2; 5; 29; 17].
Definition CertificatePolicies : list Z := [2; 5; 29; 32].
Definition PermanentIdentifier : list Z := [1; 3; 6; 1; 5; 5; 7; 8; 3].
Definition CloudComputeInstanceIdentifier : list Z := [1; 3; 6; 1; 4; 1; 11129; 2; 1; 21].
