(* ===== verification/Asn1.v ===== *)
(** * DER as encoding/asn1 reads and writes it

    The part of Go's standard library behind [x509ext] and [attributecert]:
    tags and lengths, raw values, object identifiers and UTF-8 strings, with
    the checks the decoder makes, and that it inverts the encoder. *)
From S2P Require Import Prelude GoBytes.

Definition SyntaxError (msg : string) : error := LibErr ("asn1: syntax error: " +:+ msg).
Definition StructuralError (msg : string) : error := LibErr ("asn1: structure error: " +:+ msg).

(** ** Tags *)
Definition TagBoolean : Z := 1.
Definition TagInteger : Z := 2.
Definition TagBitString : Z := 3.
Definition TagOctetString : Z := 4.
Definition TagOID : Z := 6.
Definition TagEnum : Z := 10.
Definition TagUTF8String : Z := 12.
Definition TagSequence : Z := 16.
Definition TagSet : Z := 17.
Definition TagNumericString : Z := 18.
Definition TagPrintableString : Z := 19.
Definition TagT61String : Z := 20.
Definition TagIA5String : Z := 22.
Definition TagUTCTime : Z := 23.
Definition TagGeneralizedTime : Z := 24.
Definition TagGeneralString : Z := 27.
Definition TagBMPString : Z := 30.
Definition ClassUniversal : Z := 0.
Definition ClassContextSpecific : Z := 2.

(** ** Base-128 integers *)
Definition MaxInt32 : Z := 2 ^ 31 - 1.

(** [parseBase128Int], after [shifted] bytes that gave [ret]. *)
Fixpoint parseBase128Int (shifted ret : Z) (b : bytes) : res error (Z * bytes) :=
  match b with
  | [] => Err (SyntaxError "truncated base 128 integer")
  | x :: b =>
      if shifted =? 5 then Err (StructuralError "base 128 integer too large")
      else
        let x := byte.unsigned x in
        if (shifted =? 0) && (x =? 0x80) then Err (SyntaxError "integer is not minimally encoded")
        else
          let ret := Z.lor (Z.shiftl ret 7) (Z.land x 0x7f) in
          if Z.land x 0x80 =? 0 then
            if MaxInt32 <? ret then Err (StructuralError "base 128 integer too large")
            else Ok (ret, b)
          else parseBase128Int (shifted + 1) ret b
  end.

(** [appendBase128Int]: [l] groups of 7 bits, all but the last flagged. *)
Fixpoint base128_groups (l : nat) (n : Z) : bytes :=
  match l with
  | O => []
  | S l' =>
      byte.of_Z (Z.lor (Z.land (Z.shiftr n (7 * Z.of_nat l')) 0x7f) (if (l' =? 0)%nat then 0 else 0x80))
        :: base128_groups l' n
  end.
Definition base128IntLength (n : Z) : nat :=
  if n =? 0 then 1%nat else if n <? 0 then 0%nat else Z.to_nat (Z.log2 n / 7 + 1).
Definition appendBase128Int (n : Z) : bytes := base128_groups (base128IntLength n) n.

(** ** Tag and length *)
Record tagAndLength := mkTag { tl_class : Z; tl_tag : Z; tl_length : Z; tl_isCompound : bool }.

Fixpoint parse_length (numBytes : nat) (length : Z) (b : bytes) : res error (Z * bytes) :=
  match numBytes with
  | O => Ok (length, b)
  | S numBytes =>
      match b with
      | [] => Err (SyntaxError "truncated tag or length")
      | x :: b =>
          if 2 ^ 23 <=? length then Err (StructuralError "length too large")
          else
            let length := Z.lor (Z.shiftl length 8) (byte.unsigned x) in
            if length =? 0 then Err (StructuralError "superfluous leading zeros in length")
            else parse_length numBytes length b
      end
  end.

(** The length octets, after the tag. *)
Definition parse_der_length (b : bytes) : res error (Z * bytes) :=
  match b with
  | [] => Err (SyntaxError "truncated tag or length")
  | x :: b =>
      let x := byte.unsigned x in
      if Z.land x 0x80 =? 0 then Ok (Z.land x 0x7f, b)
      else
        let numBytes := Z.land x 0x7f in
        if numBytes =? 0 then Err (SyntaxError "indefinite length found (not DER)")
        else
          lb ← parse_length (Z.to_nat numBytes) 0 b;
          if lb.1 <? 0x80 then Err (StructuralError "non-minimal length") else Ok lb
  end.

Definition parseTagAndLength (b : bytes) : res error (tagAndLength * bytes) :=
  match b with
  | [] => Err (LibErr "asn1: internal error in parseTagAndLength")
  | x :: b =>
      let x := byte.unsigned x in
      let class := Z.shiftr x 6 in
      let isCompound := Z.land x 0x20 =? 0x20 in
      tb ← (if Z.land x 0x1f =? 0x1f then
              tb ← parseBase128Int 0 0 b;
              if tb.1 <? 0x1f then Err (SyntaxError "non-minimal tag") else Ok tb
            else Ok (Z.land x 0x1f, b));
      lb ← parse_der_length tb.2;
      Ok (mkTag class tb.1 lb.1 isCompound, lb.2)
  end.

Definition lengthLength (i : Z) : nat := Z.to_nat (Z.log2 (Z.max 1 i) / 8 + 1).
Definition append_length (length : Z) : bytes :=
  if 128 <=? length then
    byte.of_Z (Z.lor 0x80 (Z.of_nat (lengthLength length))) :: be_bytes (lengthLength length) length
  else [byte.of_Z length].
Definition appendTagAndLength (t : tagAndLength) : bytes :=
  let b := Z.lor (Z.shiftl (tl_class t) 6) (if tl_isCompound t then 0x20 else 0) in
  (if 31 <=? tl_tag t then byte.of_Z (Z.lor b 0x1f) :: appendBase128Int (tl_tag t)
   else [byte.of_Z (Z.lor b (tl_tag t))])
  ++ append_length (tl_length t).

(** A value with its tag and length in front. *)
Definition tlv (class tag : Z) (isCompound : bool) (body : bytes) : bytes :=
  appendTagAndLength (mkTag class tag (zlen body) isCompound) ++ body.

(** ** Values *)
Record RawValue := mkRaw {
  rv_Class : Z; rv_Tag : Z; rv_IsCompound : bool; rv_Bytes : bytes; rv_FullBytes : bytes;
}.

(** The contents of an element, and what follows it. *)
Definition contents (t : tagAndLength) (b : bytes) : res error (bytes * bytes) :=
  if zlen b <? tl_length t then Err (SyntaxError "data truncated")
  else Ok (take (Z.to_nat (tl_length t)) b, drop (Z.to_nat (tl_length t)) b).

(** [asn1.Unmarshal(b, &v)] for a [RawValue] *)
Definition Unmarshal_RawValue (b : bytes) : res error (RawValue * bytes) :=
  if zlen b =? 0 then Err (SyntaxError "sequence truncated")
  else
    tb ← parseTagAndLength b;
    cr ← contents tb.1 tb.2;
    Ok (mkRaw (tl_class tb.1) (tl_tag tb.1) (tl_isCompound tb.1) cr.1
          (take (length b - length cr.2) b), cr.2).

(** ** Object identifiers *)
Fixpoint parse_arcs (fuel : nat) (b : bytes) : res error (list Z) :=
  match fuel with
  | O => NoFuel
  | S fuel =>
      match b with
      | [] => Ok []
      | _ =>
          vb ← parseBase128Int 0 0 b;
          arcs ← parse_arcs fuel vb.2;
          Ok (vb.1 :: arcs)
      end
  end.

Definition parseObjectIdentifier (b : bytes) : res error (list Z) :=
  match b with
  | [] => Err (SyntaxError "zero length OBJECT IDENTIFIER")
  | _ =>
      vb ← parseBase128Int 0 0 b;
      arcs ← parse_arcs (S (length vb.2)) vb.2;
      Ok ((if vb.1 <? 80 then [vb.1 / 40; vb.1 mod 40] else [2; vb.1 - 80]) ++ arcs)
  end.

Definition makeObjectIdentifier (oid : list Z) : res error bytes :=
  match oid with
  | a :: b :: arcs =>
      if (2 <? a) || ((a <? 2) && (40 <=? b)) then Err (StructuralError "invalid object identifier")
      else Ok (appendBase128Int (40 * a + b) ++ concat (appendBase128Int <$> arcs))
  | _ => Err (StructuralError "invalid object identifier")
  end.

(** ** Simple values *)
Definition parseBool (b : bytes) : res error bool :=
  match b with
  | [x] =>
      if byte.unsigned x =? 0 then Ok false
      else if byte.unsigned x =? 0xff then Ok true
      else Err (SyntaxError "invalid boolean")
  | _ => Err (SyntaxError "invalid boolean")
  end.

(** The contents of an INTEGER must be minimal. *)
Definition checkInteger (b : bytes) : res error () :=
  match b with
  | [] => Err (StructuralError "empty integer")
  | [_] => Ok tt
  | x :: y :: _ =>
      let x := byte.unsigned x in
      let y := byte.unsigned y in
      if (x =? 0) && (y <? 0x80) || (x =? 0xff) && (0x80 <=? y)
      then Err (StructuralError "integer not minimally-encoded") else Ok tt
  end.
(** Two's complement, big endian *)
Definition twos_complement (b : bytes) : Z :=
  let v := be_uint b in
  if 2 * v <? 2 ^ (8 * zlen b) then v else v - 2 ^ (8 * zlen b).
Definition parseBigInt (b : bytes) : res error Z := _ ← checkInteger b; Ok (twos_complement b).
Definition parseInt64 (b : bytes) : res error Z :=
  _ ← checkInteger b;
  if 8 <? zlen b then Err (StructuralError "integer too large") else Ok (twos_complement b).
Definition parseInt32 (b : bytes) : res error Z :=
  _ ← checkInteger b;
  v ← parseInt64 b;
  if (- 2 ^ 31 <=? v) && (v <? 2 ^ 31) then Ok v else Err (StructuralError "integer too large").

Record BitString := mkBits { bs_Bytes : bytes; bs_BitLength : Z }.

Definition parseBitString (b : bytes) : res error BitString :=
  match b with
  | [] => Err (SyntaxError "zero length BIT STRING")
  | x :: bits =>
      let paddingBits := byte.unsigned x in
      if (7 <? paddingBits) || (zlen b =? 1) && (0 <? paddingBits)
         || negb (Z.land (byte.unsigned (List.last b Byte.x00)) (Z.shiftl 1 paddingBits - 1) =? 0)
      then Err (SyntaxError "invalid padding bits in BIT STRING")
      else Ok (mkBits bits ((zlen b - 1) * 8 - paddingBits))
  end.

(** [BitString.RightAlign] *)
Fixpoint shift_right (shift carry : Z) (b : bytes) : bytes :=
  match b with
  | [] => []
  | x :: b =>
      byte.of_Z (Z.lor (uint8 (Z.shiftl carry (8 - shift))) (Z.shiftr (byte.unsigned x) shift))
        :: shift_right shift (byte.unsigned x) b
  end.
Definition RightAlign (b : BitString) : bytes :=
  let shift := 8 - bs_BitLength b mod 8 in
  if (shift =? 8) || (zlen (bs_Bytes b) =? 0) then bs_Bytes b
  else shift_right shift 0 (bs_Bytes b).

(** ** Strings: a Go string is its bytes *)
Definition isPrintable (allowAsterisk allowAmpersand : bool) (b : Z) : bool :=
  (97 <=? b) && (b <=? 122) || (65 <=? b) && (b <=? 90) || (48 <=? b) && (b <=? 57)
  || (39 <=? b) && (b <=? 41) || (43 <=? b) && (b <=? 47)
  || (b =? 32) || (b =? 58) || (b =? 61) || (b =? 63)
  || allowAsterisk && (b =? 42) || allowAmpersand && (b =? 38).
Definition isNumeric (b : Z) : bool := (48 <=? b) && (b <=? 57) || (b =? 32).

Definition check_chars (ok : Z → bool) (e : error) (b : bytes) : res error bytes :=
  if forallb (λ x, ok (byte.unsigned x)) b then Ok b else Err e.
Definition parsePrintableString : bytes → res error bytes :=
  check_chars (isPrintable true true) (SyntaxError "PrintableString contains invalid character").
Definition parseNumericString : bytes → res error bytes :=
  check_chars isNumeric (SyntaxError "NumericString contains invalid character").
Definition parseIA5String : bytes → res error bytes :=
  check_chars (λ x, x <? 0x80) (SyntaxError "IA5String contains invalid character").
Definition parseT61String (b : bytes) : res error bytes := Ok b.

(** [utf8.Valid]: the ranges of the continuation bytes still expected *)
Definition utf8_first (x : Z) : option (list (Z * Z)) :=
  let cont := (0x80, 0xbf) in
  if x <? 0x80 then Some []
  else if x <? 0xc2 then None
  else if x <? 0xe0 then Some [cont]
  else if x =? 0xe0 then Some [(0xa0, 0xbf); cont]
  else if x =? 0xed then Some [(0x80, 0x9f); cont]
  else if x <? 0xf0 then Some [cont; cont]
  else if x =? 0xf0 then Some [(0x90, 0xbf); cont; cont]
  else if x <? 0xf4 then Some [cont; cont; cont]
  else if x =? 0xf4 then Some [(0x80, 0x8f); cont; cont]
  else None.
Fixpoint utf8_run (expected : list (Z * Z)) (b : bytes) : bool :=
  match b with
  | [] => match expected with [] => true | _ => false end
  | x :: b =>
      let x := byte.unsigned x in
      match expected with
      | (lo, hi) :: expected => (lo <=? x) && (x <=? hi) && utf8_run expected b
      | [] => match utf8_first x with Some expected => utf8_run expected b | None => false end
      end
  end.
Definition utf8_Valid (b : bytes) : bool := utf8_run [] b.
Definition parseUTF8String (b : bytes) : res error bytes :=
  if utf8_Valid b then Ok b else Err (LibErr "asn1: invalid UTF-8 string").

(** [string(runes)] *)
Definition utf8_encode (r : Z) : bytes :=
  let cont n := byte.of_Z (0x80 + Z.shiftr r n mod 64) in
  if r <? 0x80 then [byte.of_Z r]
  else if r <? 0x800 then [byte.of_Z (0xc0 + Z.shiftr r 6); cont 0]
  else if r <? 0x10000 then [byte.of_Z (0xe0 + Z.shiftr r 12); cont 6; cont 0]
  else [byte.of_Z (0xf0 + Z.shiftr r 18); cont 12; cont 6; cont 0].
Fixpoint be_uint16s (b : bytes) : list Z :=
  match b with
  | x :: y :: b => be_uint [x; y] :: be_uint16s b
  | _ => []
  end.
Definition parseBMPString (b : bytes) : res error bytes :=
  if negb (zlen b mod 2 =? 0) then Err (LibErr "pkcs12: odd-length BMP string")
  else
    let b := if bool_decide (drop (length b - 2) b = [Byte.x00; Byte.x00]) then take (length b - 2) b else b in
    Ok (concat (utf8_encode <$> utf16_Decode (be_uint16s b))).

(** ** Integers of several groups

    How the loops of the decoder and the encoder take an integer apart. *)
Lemma lor_shiftl a c n : 0 ≤ n → 0 ≤ c < 2 ^ n → Z.lor (Z.shiftl a n) c = a * 2 ^ n + c.
Proof.
  intros Hn Hc. rewrite Z.shiftl_mul_pow2 by done. symmetry. apply Z.add_nocarry_lor.
  rewrite <-Z.shiftl_mul_pow2 by done. apply Z.bits_inj'. intros i Hi.
  rewrite Z.land_spec, Z.bits_0. destruct (Z.lt_ge_cases i n).
  - by rewrite Z.shiftl_spec_low by done.
  - rewrite <-(Z.mod_small c (2 ^ n)), Z.mod_pow2_bits_high by lia. apply andb_false_r.
Qed.

Lemma byte_bits x :
  Z.land (byte.unsigned x) 0x7f = byte.unsigned x mod 128 ∧
  (Z.land (byte.unsigned x) 0x80 =? 0) = (byte.unsigned x <? 128) ∧
  Z.land (byte.unsigned x) 0x1f = byte.unsigned x mod 32 ∧
  (Z.land (byte.unsigned x) 0x20 =? 0x20) = (32 <=? byte.unsigned x mod 64) ∧
  Z.shiftr (byte.unsigned x) 6 = byte.unsigned x / 64.
Proof. by destruct x. Qed.

Lemma unsigned_range x : 0 ≤ byte.unsigned x < 256.
Proof. apply byte.unsigned_range. Qed.

Lemma unsigned_of_Z_small z : 0 ≤ z < 256 → byte.unsigned (byte.of_Z z) = z.
Proof. intros. rewrite byte.unsigned_of_Z. by apply Z.mod_small. Qed.

Lemma of_Z_unsigned_eq x z : byte.unsigned x = z → x = byte.of_Z z.
Proof. intros <-. by rewrite byte.of_Z_unsigned. Qed.

Lemma base128_groups_S l n :
  base128_groups (S l) n
  = byte.of_Z ((n / 128 ^ Z.of_nat l) mod 128 + (if (l =? 0)%nat then 0 else 128)) :: base128_groups l n.
Proof.
  cbn [base128_groups]. f_equal. f_equal.
  change 0x7f with (Z.ones 7). rewrite Z.land_ones, Z.shiftr_div_pow2, Z.pow_mul_r by lia.
  change (2 ^ 7) with 128. set (d := _ mod 128).
  assert (0 ≤ d < 128) by (apply Z.mod_pos_bound; lia).
  destruct (l =? 0)%nat; [by rewrite Z.lor_0_r, Z.add_0_r|].
  rewrite Z.lor_comm. change (Z.lor 0x80 d) with (Z.lor (Z.shiftl 1 7) d). rewrite lor_shiftl; lia.
Qed.

(** The leading group and the others. *)
Lemma split_group (B : Z) l n :
  0 < B → n mod B ^ Z.of_nat (S l) = (n / B ^ Z.of_nat l) mod B * B ^ Z.of_nat l + n mod B ^ Z.of_nat l.
Proof.
  intros HB. rewrite Nat2Z.inj_succ, Z.pow_succ_r by lia.
  assert (0 < B ^ Z.of_nat l) by (apply Z.pow_pos_nonneg; lia).
  rewrite (Z.mul_comm B), Z.rem_mul_r by lia. lia.
Qed.

Lemma parse_groups l : ∀ s r n rest,
  0 ≤ r → 0 ≤ s → s + Z.of_nat l < 5 →
  (s = 0 → l ≠ 0%nat → (n / 128 ^ Z.of_nat l) mod 128 ≠ 0) →
  r * 128 ^ Z.of_nat (S l) + n mod 128 ^ Z.of_nat (S l) ≤ MaxInt32 →
  parseBase128Int s r (base128_groups (S l) n ++ rest)
  = Ok (r * 128 ^ Z.of_nat (S l) + n mod 128 ^ Z.of_nat (S l), rest).
Proof.
  induction l as [|l IH]; intros s r n rest Hr Hs Hl Hd Hmax; rewrite base128_groups_S;
    cbn [app parseBase128Int Nat.eqb]; rewrite (proj2 (Z.eqb_neq s 5)) by lia;
    set (d := _ mod 128) in *; assert (0 ≤ d < 128) by (apply Z.mod_pos_bound; lia);
    set (x := byte.of_Z _); destruct (byte_bits x) as (-> & -> & _);
    rewrite split_group in Hmax |- * by lia; fold d in Hmax |- *.
  - assert (Hx : byte.unsigned x = d) by (unfold x; rewrite unsigned_of_Z_small; lia).
    rewrite Hx, (proj2 (Z.eqb_neq d 0x80)), andb_false_r, (proj2 (Z.ltb_lt d 128)) by lia.
    rewrite Z.mod_small, lor_shiftl by lia. change (2 ^ 7) with 128.
    change (128 ^ Z.of_nat 1) with 128 in *. change (128 ^ Z.of_nat 0) with 1 in *.
    rewrite Z.mod_1_r in *. rewrite (proj2 (Z.ltb_ge _ _)) by lia.
    cbn [base128_groups app]. do 2 f_equal. lia.
  - assert (Hx : byte.unsigned x = d + 128) by (unfold x; rewrite unsigned_of_Z_small; lia).
    rewrite Hx, (proj2 (Z.ltb_ge _ 128)) by lia.
    replace ((s =? 0) && (d + 128 =? 0x80)) with false; cycle 1.
    { symmetry. apply andb_false_iff. destruct (Z.eq_dec s 0) as [Es|]; [right|left]; apply Z.eqb_neq; [|lia].
      specialize (Hd Es ltac:(done)). lia. }
    replace ((d + 128) mod 128) with d by (Z.div_mod_to_equations; lia).
    rewrite lor_shiftl by lia. change (2 ^ 7) with 128.
    assert (Hpow : 128 ^ Z.of_nat (S (S l)) = 128 * 128 ^ Z.of_nat (S l))
      by (rewrite (Nat2Z.inj_succ (S l)), Z.pow_succ_r; lia).
    rewrite Hpow in *. rewrite IH; [|nia|lia|lia|lia|lia].
    do 2 f_equal. lia.
Qed.

Lemma parse_groups_inv b : ∀ s r v rest,
  0 ≤ r → 0 ≤ s ≤ 5 → parseBase128Int s r b = Ok (v, rest) →
  ∃ l, b = base128_groups (S l) v ++ rest ∧ s + Z.of_nat l < 5 ∧ v ≤ MaxInt32 ∧
       v = r * 128 ^ Z.of_nat (S l) + v mod 128 ^ Z.of_nat (S l) ∧
       (s = 0 → l ≠ 0%nat → (v / 128 ^ Z.of_nat l) mod 128 ≠ 0).
Proof.
  induction b as [|x b IH]; intros s r v rest Hr Hs; cbn [parseBase128Int]; [done|].
  destruct (Z.eqb_spec s 5) as [|Hs5]; [done|].
  destruct (_ && _) eqn:Hmin; [done|].
  destruct (byte_bits x) as (-> & -> & _). pose proof (unsigned_range x) as Hx.
  set (d := byte.unsigned x mod 128). assert (0 ≤ d < 128) by (apply Z.mod_pos_bound; lia).
  rewrite lor_shiftl by lia. change (2 ^ 7) with 128.
  destruct (Z.ltb_spec (byte.unsigned x) 128) as [Hlt|Hge].
  - destruct (Z.ltb_spec MaxInt32 (r * 128 + d)); [done|]. intros [= <- <-]. exists 0%nat.
    change (128 ^ Z.of_nat 1) with 128.
    assert (Hd : (r * 128 + d) mod 128 = d) by (Z.div_mod_to_equations; lia).
    split; [|split; [lia|split; [lia|split; [lia|by intros _ ?]]]].
    rewrite base128_groups_S. cbn [Nat.eqb app base128_groups].
    change (128 ^ Z.of_nat 0) with 1. rewrite Z.div_1_r, Hd, Z.add_0_r.
    f_equal. apply of_Z_unsigned_eq. unfold d. rewrite Z.mod_small; lia.
  - intros (l & -> & Hl & Hmax & Hv & _)%IH; [|lia|lia]. exists (S l).
    assert (Hpow : 128 ^ Z.of_nat (S (S l)) = 128 * 128 ^ Z.of_nat (S l))
      by (rewrite (Nat2Z.inj_succ (S l)), Z.pow_succ_r; lia).
    assert (0 < 128 ^ Z.of_nat (S l)) by (apply Z.pow_pos_nonneg; lia).
    assert (Hvd : v / 128 ^ Z.of_nat (S l) = r * 128 + d).
    { pose proof (Z.div_mod v (128 ^ Z.of_nat (S l)) ltac:(lia)). nia. }
    assert (Hd : (r * 128 + d) mod 128 = d) by (Z.div_mod_to_equations; lia).
    split; [|split; [lia|split; [done|split]]].
    + rewrite (base128_groups_S (S l)), Hvd, Hd. cbn [Nat.eqb app]. f_equal.
      apply of_Z_unsigned_eq. unfold d. Z.div_mod_to_equations; lia.
    + rewrite (split_group 128 (S l)) by lia. rewrite Hvd, Hd, Hpow. rewrite Hv at 1. ring.
    + intros Es _. rewrite Hvd, Hd. intros Hd0. apply andb_false_iff in Hmin.
      destruct Hmin as [Hmin|Hmin]; apply Z.eqb_neq in Hmin; [lia|].
      unfold d in Hd0. Z.div_mod_to_equations; lia.
Qed.

(** *** How many groups *)
Lemma digits_log2 k n :
  0 < k → 0 < n → 2 ^ (k * (Z.log2 n / k)) ≤ n < 2 ^ (k * (Z.log2 n / k + 1)).
Proof.
  intros Hk Hn. pose proof (Z.log2_spec n Hn) as [H1 H2]. pose proof (Z.log2_nonneg n).
  pose proof (Z.div_mod (Z.log2 n) k ltac:(lia)). pose proof (Z.mod_pos_bound (Z.log2 n) k Hk).
  split.
  - etransitivity; [apply Z.pow_le_mono_r|exact H1]; lia.
  - eapply Z.lt_le_trans; [exact H2|apply Z.pow_le_mono_r; lia].
Qed.

Lemma digits_unique k n l :
  0 < k → 0 ≤ l → 0 < n → 2 ^ (k * l) ≤ n → n < 2 ^ (k * (l + 1)) → Z.log2 n / k = l.
Proof.
  intros Hk Hl Hn H1 H2. pose proof (digits_log2 k n Hk Hn) as [H3 H4].
  pose proof (Z.log2_nonneg n). assert (0 ≤ Z.log2 n / k) by (apply Z.div_pos; lia).
  assert (k * l < k * (Z.log2 n / k + 1)) by (apply (Z.pow_lt_mono_r_iff 2); lia).
  assert (k * (Z.log2 n / k) < k * (l + 1)) by (apply (Z.pow_lt_mono_r_iff 2); lia).
  nia.
Qed.

Lemma pow_base B k l : 0 ≤ k → B = 2 ^ k → B ^ Z.of_nat l = 2 ^ (k * Z.of_nat l).
Proof. intros ? ->. rewrite Z.pow_mul_r; lia. Qed.

Lemma base128IntLength_spec n :
  0 ≤ n → ∃ l, base128IntLength n = S l ∧ n < 128 ^ Z.of_nat (S l) ∧
               (l ≠ 0%nat → 128 ^ Z.of_nat l ≤ n).
Proof.
  intros Hn. unfold base128IntLength. destruct (Z.eqb_spec n 0) as [->|Hn0].
  { exists 0%nat. done. }
  rewrite (proj2 (Z.ltb_ge n 0)) by lia.
  pose proof (digits_log2 7 n ltac:(lia) ltac:(lia)) as [H1 H2].
  pose proof (Z.log2_nonneg n). assert (0 ≤ Z.log2 n / 7) by (apply Z.div_pos; lia).
  exists (Z.to_nat (Z.log2 n / 7)). rewrite !(pow_base 128 7) by done.
  rewrite Nat2Z.inj_succ, Z2Nat.id by done. repeat split; [lia|done|done].
Qed.

Lemma base128IntLength_unique n l :
  0 ≤ n < 128 ^ Z.of_nat (S l) → (l ≠ 0%nat → 128 ^ Z.of_nat l ≤ n) → base128IntLength n = S l.
Proof.
  intros Hn Hl. unfold base128IntLength.
  assert (0 < 128 ^ Z.of_nat l) by (apply Z.pow_pos_nonneg; lia).
  destruct (Z.eqb_spec n 0) as [->|Hn0].
  { destruct l; [done|]. specialize (Hl ltac:(done)). lia. }
  rewrite (proj2 (Z.ltb_ge n 0)) by lia.
  rewrite (digits_unique 7 n (Z.of_nat l)); [lia|lia|lia|lia| |].
  - rewrite <-(pow_base 128) by done. destruct l; [cbn; lia|]. by apply Hl.
  - rewrite (pow_base 128 7) in Hn by done. replace (Z.of_nat l + 1) with (Z.of_nat (S l)) by lia. apply Hn.
Qed.

Lemma parse_appendBase128Int n rest :
  0 ≤ n ≤ MaxInt32 → parseBase128Int 0 0 (appendBase128Int n ++ rest) = Ok (n, rest).
Proof.
  intros Hn. unfold appendBase128Int.
  destruct (base128IntLength_spec n) as (l & -> & Hlt & Hle); [lia|].
  assert (Hl5 : (l < 5)%nat).
  { destruct (decide (l < 5)%nat) as [|Hge]; [done|]. specialize (Hle ltac:(lia)).
    assert (128 ^ 5 ≤ 128 ^ Z.of_nat l) by (apply Z.pow_le_mono_r; lia).
    cbn in *. unfold MaxInt32 in Hn. lia. }
  rewrite parse_groups; rewrite ?Z.mod_small by lia; try done; try lia.
  intros _ Hl0. specialize (Hle Hl0).
  assert (0 < 128 ^ Z.of_nat l) by (apply Z.pow_pos_nonneg; lia).
  rewrite Nat2Z.inj_succ, Z.pow_succ_r in Hlt by lia.
  assert (1 ≤ n / 128 ^ Z.of_nat l) by (apply Z.div_le_lower_bound; lia).
  assert (n / 128 ^ Z.of_nat l < 128) by (apply Z.div_lt_upper_bound; lia).
  rewrite Z.mod_small; lia.
Qed.

Lemma parseBase128Int_inv b v rest :
  parseBase128Int 0 0 b = Ok (v, rest) → b = appendBase128Int v ++ rest ∧ 0 ≤ v ≤ MaxInt32.
Proof.
  intros (l & -> & Hl & Hmax & Hv & Hd)%parse_groups_inv; [|lia|lia].
  rewrite Z.add_0_l in Hv.
  assert (0 < 128 ^ Z.of_nat l) by (apply Z.pow_pos_nonneg; lia).
  assert (0 ≤ v < 128 ^ Z.of_nat (S l)).
  { rewrite Hv. apply Z.mod_pos_bound. apply Z.pow_pos_nonneg; lia. }
  split; [|lia]. unfold appendBase128Int. rewrite (base128IntLength_unique v l); [done|done|].
  intros Hl0. specialize (Hd eq_refl Hl0).
  destruct (Z.lt_ge_cases v (128 ^ Z.of_nat l)); [|done].
  by rewrite Z.div_small in Hd by lia.
Qed.

(** *** Length octets *)
Lemma be_bytes_S n z : be_bytes (S n) z = byte.of_Z (z / 256 ^ Z.of_nat n) :: be_bytes n z.
Proof.
  unfold be_bytes. revert z. induction n as [|n IH]; intros z.
  - cbn. by rewrite Z.div_1_r.
  - change (le_split (S (S n)) z) with (byte.of_Z z :: le_split (S n) (Z.shiftr z 8)).
    change (le_split (S n) z) with (byte.of_Z z :: le_split n (Z.shiftr z 8)).
    rewrite !(reverse_cons _ (byte.of_Z z)), IH. cbn [app]. f_equal. f_equal.
    rewrite Z.shiftr_div_pow2, Nat2Z.inj_succ, Z.pow_succ_r, Z.div_div by lia. done.
Qed.

Lemma lor_80 c : 0 ≤ c < 128 → Z.lor 0x80 c = 128 + c.
Proof. intros. change (Z.lor 0x80 c) with (Z.lor (Z.shiftl 1 7) c). rewrite lor_shiftl; lia. Qed.

Lemma of_Z_mod z : byte.unsigned (byte.of_Z z) = z mod 256.
Proof. apply byte.unsigned_of_Z. Qed.

Lemma parse_be_length n : ∀ acc z rest,
  0 ≤ acc → (acc = 0 → n ≠ 0%nat → (z / 256 ^ (Z.of_nat n - 1)) mod 256 ≠ 0) →
  acc * 256 ^ Z.of_nat n + z mod 256 ^ Z.of_nat n < 2 ^ 31 →
  parse_length n acc (be_bytes n z ++ rest)
  = Ok (acc * 256 ^ Z.of_nat n + z mod 256 ^ Z.of_nat n, rest).
Proof.
  induction n as [|n IH]; intros acc z rest Hacc Hd Hmax; cbn [parse_length].
  { cbn. rewrite Z.mod_1_r. do 2 f_equal. lia. }
  rewrite be_bytes_S. cbn [app].
  assert (0 < 256 ^ Z.of_nat n) by (apply Z.pow_pos_nonneg; lia).
  rewrite split_group in Hmax |- * by lia.
  replace (Z.of_nat (S n) - 1) with (Z.of_nat n) in Hd by lia.
  rewrite of_Z_mod. set (d := _ mod 256) in *. assert (0 ≤ d < 256) by (apply Z.mod_pos_bound; lia).
  pose proof (Z.mod_pos_bound z (256 ^ Z.of_nat n) ltac:(lia)).
  assert (Hpow : 256 ^ Z.of_nat (S n) = 256 * 256 ^ Z.of_nat n)
    by (rewrite Nat2Z.inj_succ, Z.pow_succ_r; lia).
  rewrite Hpow in *.
  assert (acc * 256 * 1 ≤ acc * 256 * 256 ^ Z.of_nat n) by (apply Z.mul_le_mono_nonneg_l; lia).
  assert (0 ≤ d * 256 ^ Z.of_nat n) by (apply Z.mul_nonneg_nonneg; lia).
  rewrite (proj2 (Z.leb_gt _ _)) by lia.
  rewrite lor_shiftl by lia. change (2 ^ 8) with 256.
  assert (acc * 256 + d ≠ 0).
  { intros ?. assert (acc = 0) as Ha by lia. specialize (Hd Ha ltac:(done)). lia. }
  rewrite (proj2 (Z.eqb_neq _ 0)) by done. rewrite IH; [|lia|lia|lia]. do 2 f_equal. lia.
Qed.

Lemma parse_length_inv n : ∀ acc b v rest,
  0 ≤ acc → parse_length n acc b = Ok (v, rest) →
  b = be_bytes n v ++ rest ∧ v = acc * 256 ^ Z.of_nat n + v mod 256 ^ Z.of_nat n ∧
  (n ≠ 0%nat → v < 2 ^ 31) ∧
  (acc = 0 → n ≠ 0%nat → (v / 256 ^ (Z.of_nat n - 1)) mod 256 ≠ 0).
Proof.
  induction n as [|n IH]; intros acc b v rest Hacc; cbn [parse_length].
  { intros [= <- <-]. cbn. rewrite Z.mod_1_r. repeat split; try done; lia. }
  destruct b as [|x b]; [done|]. destruct (Z.leb_spec (2 ^ 23) acc); [done|].
  pose proof (unsigned_range x) as Hx. rewrite lor_shiftl by lia. change (2 ^ 8) with 256.
  destruct (Z.eqb_spec (acc * 256 + byte.unsigned x) 0) as [|Hne]; [done|].
  intros (-> & Hv & Hmax & _)%IH; [|lia].
  assert (0 < 256 ^ Z.of_nat n) by (apply Z.pow_pos_nonneg; lia).
  assert (Hpow : 256 ^ Z.of_nat (S n) = 256 * 256 ^ Z.of_nat n)
    by (rewrite Nat2Z.inj_succ, Z.pow_succ_r; lia).
  assert (Hvd : v / 256 ^ Z.of_nat n = acc * 256 + byte.unsigned x).
  { pose proof (Z.div_mod v (256 ^ Z.of_nat n) ltac:(lia)). nia. }
  assert (Hd : (acc * 256 + byte.unsigned x) mod 256 = byte.unsigned x)
    by (Z.div_mod_to_equations; lia).
  split; [|split; [|split]].
  - rewrite be_bytes_S, Hvd. cbn [app]. f_equal.
    rewrite <-(byte.of_Z_unsigned x) at 1. apply byte.unsigned_inj. by rewrite !of_Z_mod, Hd, Z.mod_small.
  - rewrite split_group, Hvd, Hd, Hpow by lia. rewrite Hv at 1. ring.
  - intros _. destruct n; [|by apply Hmax]. cbn in Hv. rewrite Z.mod_1_r in Hv. lia.
  - intros -> _. replace (Z.of_nat (S n) - 1) with (Z.of_nat n) by lia. rewrite Hvd, Hd. lia.
Qed.

Lemma lengthLength_spec v :
  0 < v → ∃ n, lengthLength v = S n ∧ 256 ^ Z.of_nat n ≤ v < 256 ^ Z.of_nat (S n).
Proof.
  intros Hv. unfold lengthLength. rewrite Z.max_r by lia.
  pose proof (digits_log2 8 v ltac:(lia) ltac:(lia)) as H.
  pose proof (Z.log2_nonneg v). assert (0 ≤ Z.log2 v / 8) by (apply Z.div_pos; lia).
  exists (Z.to_nat (Z.log2 v / 8)). rewrite !(pow_base 256 8) by done.
  rewrite Nat2Z.inj_succ, Z2Nat.id by done. split; [lia|done].
Qed.

Lemma lengthLength_unique v n :
  256 ^ Z.of_nat n ≤ v < 256 ^ Z.of_nat (S n) → lengthLength v = S n.
Proof.
  intros H. assert (0 < 256 ^ Z.of_nat n) by (apply Z.pow_pos_nonneg; lia).
  unfold lengthLength. rewrite Z.max_r by lia. rewrite !(pow_base 256 8) in H by done.
  rewrite (digits_unique 8 v (Z.of_nat n)); [lia|lia|lia|lia|apply H|].
  replace (Z.of_nat n + 1) with (Z.of_nat (S n)) by lia. apply H.
Qed.

(** The leading octet of a number of [S n] octets. *)
Lemma leading_octet v n :
  256 ^ Z.of_nat n ≤ v < 256 ^ Z.of_nat (S n) → 1 ≤ v / 256 ^ Z.of_nat n < 256.
Proof.
  intros H. rewrite Nat2Z.inj_succ, Z.pow_succ_r in H by lia.
  assert (0 < 256 ^ Z.of_nat n) by (apply Z.pow_pos_nonneg; lia).
  split; [apply Z.div_le_lower_bound|apply Z.div_lt_upper_bound]; lia.
Qed.

Lemma parse_append_length v rest :
  0 ≤ v < 2 ^ 31 → parse_der_length (append_length v ++ rest) = Ok (v, rest).
Proof.
  intros Hv. unfold append_length. destruct (Z.leb_spec 128 v) as [Hge|Hlt].
  - destruct (lengthLength_spec v) as (n & -> & Hn); [lia|]. cbn [app parse_der_length].
    assert (Hn4 : (n < 4)%nat).
    { destruct (decide (n < 4)%nat) as [|]; [done|].
      assert (256 ^ 4 ≤ 256 ^ Z.of_nat n) by (apply Z.pow_le_mono_r; lia). lia. }
    set (x := byte.of_Z _).
    assert (Hx : byte.unsigned x = 128 + Z.of_nat (S n)).
    { unfold x. rewrite lor_80, unsigned_of_Z_small; lia. }
    destruct (byte_bits x) as (-> & -> & _). rewrite Hx, (proj2 (Z.ltb_ge _ _)) by lia.
    replace ((128 + Z.of_nat (S n)) mod 128) with (Z.of_nat (S n)) by (Z.div_mod_to_equations; lia).
    rewrite (proj2 (Z.eqb_neq _ 0)), Nat2Z.id by lia.
    pose proof (leading_octet v n Hn).
    rewrite parse_be_length; rewrite ?Z.mod_small by lia; try lia; cycle 1.
    { intros _ _. replace (Z.of_nat (S n) - 1) with (Z.of_nat n) by lia. rewrite Z.mod_small; lia. }
    rewrite Z.mul_0_l, Z.add_0_l. cbn. by rewrite (proj2 (Z.ltb_ge v 128)) by lia.
  - cbn [app parse_der_length]. destruct (byte_bits (byte.of_Z v)) as (-> & -> & _).
    rewrite unsigned_of_Z_small, (proj2 (Z.ltb_lt v 128)), Z.mod_small; [done|lia..].
Qed.

Lemma parse_der_length_inv b v rest :
  parse_der_length b = Ok (v, rest) → b = append_length v ++ rest ∧ 0 ≤ v < 2 ^ 31.
Proof.
  destruct b as [|x b]; cbn [parse_der_length]; [done|].
  destruct (byte_bits x) as (-> & -> & _). pose proof (unsigned_range x) as Hx.
  unfold append_length. destruct (Z.ltb_spec (byte.unsigned x) 128) as [Hlt|Hge].
  - rewrite Z.mod_small by lia. intros [= <- <-]. rewrite (proj2 (Z.leb_gt 128 _)) by lia.
    cbn [app]. rewrite byte.of_Z_unsigned. split; [done|lia].
  - set (n := byte.unsigned x mod 128). assert (0 ≤ n < 128) by (apply Z.mod_pos_bound; lia).
    destruct (Z.eqb_spec n 0) as [|Hn0]; [done|].
    intros ([v' rest'] & Hp & Hle)%res_bind_Ok_inv. cbn in Hle.
    destruct (Z.ltb_spec v' 128) as [|H128]; [done|]. injection Hle as -> ->.
    apply parse_length_inv in Hp as (-> & Hv & Hmax & Hd); [|lia].
    specialize (Hmax ltac:(lia)). specialize (Hd eq_refl ltac:(lia)).
    rewrite Z.mul_0_l, Z.add_0_l in Hv.
    destruct (Z.to_nat n) as [|m] eqn:Em; [lia|].
    replace (Z.of_nat (S m) - 1) with (Z.of_nat m) in Hd by lia.
    assert (0 < 256 ^ Z.of_nat m) by (apply Z.pow_pos_nonneg; lia).
    assert (Hm : 256 ^ Z.of_nat m ≤ v < 256 ^ Z.of_nat (S m)).
    { split.
      - destruct (Z.lt_ge_cases v (256 ^ Z.of_nat m)); [|done].
        by rewrite Z.div_small in Hd by lia.
      - rewrite Hv. apply Z.mod_pos_bound. apply Z.pow_pos_nonneg; lia. }
    rewrite (lengthLength_unique v m Hm), (proj2 (Z.leb_le 128 v)) by lia.
    assert (Hm4 : (m < 4)%nat).
    { destruct (decide (m < 4)%nat) as [|]; [done|].
      assert (256 ^ 4 ≤ 256 ^ Z.of_nat m) by (apply Z.pow_le_mono_r; lia). lia. }
    split; [|lia]. cbn [app]. f_equal. apply of_Z_unsigned_eq.
    rewrite lor_80 by lia.
    unfold n in Em. Z.div_mod_to_equations; lia.
Qed.

(** ** Tag and length: the decoder inverts the encoder, and only that *)
Definition wf_tag (class tag : Z) : Prop := 0 ≤ class < 4 ∧ 0 ≤ tag ≤ MaxInt32.
Definition wf_header (t : tagAndLength) : Prop :=
  wf_tag (tl_class t) (tl_tag t) ∧ 0 ≤ tl_length t < 2 ^ 31.

Lemma header_byte class (isCompound : bool) low :
  0 ≤ class < 4 → 0 ≤ low < 32 →
  byte.unsigned (byte.of_Z (Z.lor (Z.lor (Z.shiftl class 6) (if isCompound then 0x20 else 0)) low))
  = class * 64 + (if isCompound then 32 else 0) + low.
Proof.
  intros Hc Hl. rewrite lor_shiftl by (destruct isCompound; lia). change (2 ^ 6) with 64.
  replace (class * 64 + (if isCompound then 0x20 else 0))
    with (Z.shiftl (class * 2 + (if isCompound then 1 else 0)) 5)
    by (rewrite Z.shiftl_mul_pow2 by lia; destruct isCompound; lia).
  rewrite lor_shiftl by lia. rewrite Z.shiftl_mul_pow2 by lia. change (2 ^ 5) with 32. rewrite unsigned_of_Z_small; destruct isCompound; lia.
Qed.

Lemma parse_appendTagAndLength t rest :
  wf_header t → parseTagAndLength (appendTagAndLength t ++ rest) = Ok (t, rest).
Proof.
  intros [[Hc Ht] Hl]. destruct t as [class tag len comp]; cbn in *.
  unfold appendTagAndLength; cbn [tl_class tl_tag tl_length tl_isCompound].
  assert (Hh : ∀ low, 0 ≤ low < 32 →
    let x := byte.of_Z (Z.lor (Z.lor (Z.shiftl class 6) (if comp then 0x20 else 0)) low) in
    Z.shiftr (byte.unsigned x) 6 = class ∧ Z.land (byte.unsigned x) 0x1f = low ∧
    (Z.land (byte.unsigned x) 0x20 =? 0x20) = comp).
  { intros low Hlow x. destruct (byte_bits x) as (_ & _ & -> & -> & ->).
    unfold x. rewrite header_byte by done.
    destruct comp; (split; [|split]); Z.div_mod_to_equations; lia. }
  destruct (Z.leb_spec 31 tag) as [Hge|Hlt]; cbn [app parseTagAndLength].
  - destruct (Hh 0x1f) as (-> & -> & ->); [lia|]. rewrite Z.eqb_refl, <-app_assoc.
    rewrite parse_appendBase128Int by lia. cbn.
    rewrite (proj2 (Z.ltb_ge tag 31)) by lia. cbn. by rewrite parse_append_length.
  - destruct (Hh tag) as (-> & -> & ->); [lia|]. rewrite (proj2 (Z.eqb_neq tag 0x1f)) by lia.
    cbn. by rewrite parse_append_length.
Qed.

Lemma parseTagAndLength_inv b t rest :
  parseTagAndLength b = Ok (t, rest) → b = appendTagAndLength t ++ rest ∧ wf_header t.
Proof.
  destruct b as [|x b]; cbn [parseTagAndLength]; [done|].
  pose proof (unsigned_range x) as Hx. destruct (byte_bits x) as (_ & _ & -> & -> & ->).
  set (low := byte.unsigned x mod 32). assert (0 ≤ low < 32) by (apply Z.mod_pos_bound; lia).
  set (comp := 32 <=? byte.unsigned x mod 64).
  intros ([tag b1] & Htag & ([len b2] & Hlen & Ht)%res_bind_Ok_inv)%res_bind_Ok_inv.
  cbn in Hlen, Ht. injection Ht as <- <-.
  apply parse_der_length_inv in Hlen as [-> Hlen].
  assert (Hb : byte.of_Z (Z.lor (Z.lor (Z.shiftl (byte.unsigned x / 64) 6) (if comp then 0x20 else 0)) low) = x).
  { apply byte.unsigned_inj. rewrite header_byte by (Z.div_mod_to_equations; lia).
    unfold comp, low. destruct (Z.leb_spec 32 (byte.unsigned x mod 64)); Z.div_mod_to_equations; lia. }
  unfold appendTagAndLength, wf_header, wf_tag; cbn [tl_class tl_tag tl_length tl_isCompound].
  assert (0 ≤ byte.unsigned x / 64 < 4) by (Z.div_mod_to_equations; lia).
  destruct (Z.eqb_spec low 0x1f) as [E|E].
  - apply res_bind_Ok_inv in Htag as ([tag' b'] & Hp & Hge). cbn in Hge.
    destruct (Z.ltb_spec tag' 0x1f) as [|Hge']; [done|]. injection Hge as -> ->.
    apply parseBase128Int_inv in Hp as [-> Hp]. rewrite E in Hb.
    rewrite (proj2 (Z.leb_le 31 tag)), Hb by lia. split; [|done]. cbn. by rewrite <-app_assoc.
  - injection Htag as <- ->. rewrite (proj2 (Z.leb_gt 31 low)), Hb by lia.
    split; [done|]. unfold MaxInt32. lia.
Qed.

(** ** Values *)
Definition wf_raw (v : RawValue) : Prop :=
  wf_tag (rv_Class v) (rv_Tag v) ∧ zlen (rv_Bytes v) < 2 ^ 31 ∧
  rv_FullBytes v = tlv (rv_Class v) (rv_Tag v) (rv_IsCompound v) (rv_Bytes v).
(** The value with this tag, form and contents. *)
Definition raw (class tag : Z) (isCompound : bool) (body : bytes) : RawValue :=
  mkRaw class tag isCompound body (tlv class tag isCompound body).

Lemma contents_Ok t b body rest :
  0 ≤ tl_length t → contents t b = Ok (body, rest) ↔ b = body ++ rest ∧ tl_length t = zlen body.
Proof.
  intros Hl. unfold contents, zlen. destruct (Z.ltb_spec (Z.of_nat (length b)) (tl_length t)) as [Hs|Hs].
  - split; [done|]. intros [-> Hlen]. rewrite length_app in Hs. lia.
  - split.
    + intros [= <- <-]. rewrite take_drop. split; [done|]. rewrite length_take. lia.
    + intros [-> Hlen]. rewrite take_app_len, drop_app_len by lia. done.
Qed.

Lemma tlv_nonempty class tag comp body rest : zlen (tlv class tag comp body ++ rest) =? 0 = false.
Proof.
  apply Z.eqb_neq. unfold tlv, appendTagAndLength. rewrite !zlen_app. unfold zlen.
  destruct (31 <=? _); cbn; lia.
Qed.

Lemma header_tlv class tag comp body rest :
  wf_tag class tag → zlen body < 2 ^ 31 →
  parseTagAndLength (tlv class tag comp body ++ rest)
  = Ok (mkTag class tag (zlen body) comp, body ++ rest).
Proof.
  intros Ht Hl. unfold tlv. rewrite <-app_assoc. apply parse_appendTagAndLength.
  split; [done|]. cbn. auto with go.
Qed.

Lemma Unmarshal_RawValue_tlv class tag comp body rest :
  wf_tag class tag → zlen body < 2 ^ 31 →
  Unmarshal_RawValue (tlv class tag comp body ++ rest) = Ok (raw class tag comp body, rest).
Proof.
  intros Ht Hl. unfold Unmarshal_RawValue. rewrite tlv_nonempty, header_tlv by done. cbn.
  rewrite (proj2 (contents_Ok (mkTag class tag (zlen body) comp) (body ++ rest) body rest (zlen_nonneg _)))
    by done.
  cbn. rewrite take_app_len; [done|]. rewrite length_app. lia.
Qed.

Lemma Unmarshal_RawValue_inv b v rest :
  Unmarshal_RawValue b = Ok (v, rest) → b = rv_FullBytes v ++ rest ∧ wf_raw v.
Proof.
  unfold Unmarshal_RawValue. destruct (_ =? 0); [done|].
  intros ([t b1] & Ht & ([body b2] & Hc & H)%res_bind_Ok_inv)%res_bind_Ok_inv.
  cbn in Hc, H. injection H as <- <-. apply parseTagAndLength_inv in Ht as [-> [Hw Hl]].
  apply contents_Ok in Hc as [-> Hlen]; [|lia].
  destruct t as [class tag len comp]; cbn in *. subst len.
  unfold wf_raw; cbn. rewrite app_assoc, take_app_len by (rewrite !length_app; lia).
  split; [done|]. split; [done|]. split; [apply Hl|done].
Qed.

(** ** Object identifiers *)
Definition wf_oid (oid : list Z) : Prop :=
  match oid with
  | a :: b :: arcs =>
      0 ≤ a ∧ 0 ≤ b ∧ 40 * a + b ≤ MaxInt32 ∧ Forall (λ x, 0 ≤ x ≤ MaxInt32) arcs
  | _ => False
  end.

Lemma appendBase128Int_cons n : 0 ≤ n → ∃ x b, appendBase128Int n = x :: b.
Proof.
  intros Hn. unfold appendBase128Int. destruct (base128IntLength_spec n Hn) as (l & -> & _).
  rewrite base128_groups_S. eauto.
Qed.

Lemma parseBase128Int_returns b : ∀ s r, no_crash (parseBase128Int s r b).
Proof.
  induction b as [|x b IH]; intros s r; cbn [parseBase128Int]; [done|].
  destruct (s =? 5); [done|]. destruct (_ && _); [done|].
  destruct (_ =? 0); [by destruct (_ <? _)|apply IH].
Qed.

Lemma parse_arcs_append arcs : ∀ fuel,
  Forall (λ x, 0 ≤ x ≤ MaxInt32) arcs →
  (length (concat (appendBase128Int <$> arcs)) < fuel)%nat →
  parse_arcs fuel (concat (appendBase128Int <$> arcs)) = Ok arcs.
Proof.
  induction arcs as [|a arcs IH]; intros [|fuel] Ha Hf; try lia; cbn [parse_arcs fmap list_fmap concat];
    [done|].
  apply Forall_cons in Ha as [Ha Harcs]. cbn in Hf. rewrite length_app in Hf.
  destruct (appendBase128Int_cons a) as (x & b & Hx); [lia|].
  destruct (appendBase128Int a ++ _) eqn:E; [by rewrite Hx in E|]. rewrite <-E.
  rewrite parse_appendBase128Int by done. cbn. rewrite IH; [done|done|].
  rewrite Hx in Hf. cbn in Hf. lia.
Qed.

Lemma parse_arcs_inv fuel : ∀ b arcs,
  parse_arcs fuel b = Ok arcs →
  b = concat (appendBase128Int <$> arcs) ∧ Forall (λ x, 0 ≤ x ≤ MaxInt32) arcs.
Proof.
  induction fuel as [|fuel IH]; intros b arcs; cbn [parse_arcs]; [done|].
  destruct b as [|x b]; [by intros [= <-]|].
  intros ([v rest] & Hv & (arcs' & Harcs & H)%res_bind_Ok_inv)%res_bind_Ok_inv. injection H as <-.
  apply parseBase128Int_inv in Hv as [-> Hv]. apply IH in Harcs as [Hr Ha]. cbn in *.
  split; [by rewrite Hr|by constructor].
Qed.

Lemma parse_arcs_returns fuel : ∀ b, (length b < fuel)%nat → no_crash (parse_arcs fuel b).
Proof.
  induction fuel as [|fuel IH]; intros b Hf; cbn [parse_arcs]; [lia|].
  destruct b as [|x b]; [done|]. apply no_crash_bind.
  - apply parseBase128Int_returns.
  - intros [v rest] Hv. apply no_crash_bind; [|done]. apply IH. cbn.
    apply parseBase128Int_inv in Hv as [E Hv]. destruct (appendBase128Int_cons v) as (y & c & Hy); [lia|].
    rewrite Hy in E. injection E as -> ->. cbn in Hf. rewrite length_app in Hf. lia.
Qed.

Lemma parse_makeObjectIdentifier oid b :
  wf_oid oid → makeObjectIdentifier oid = Ok b → parseObjectIdentifier b = Ok oid.
Proof.
  destruct oid as [|a1 [|a2 arcs]]; try done. intros (Ha & Hb & Hab & Harcs).
  cbn [makeObjectIdentifier]. destruct (_ || _) eqn:Hc; [done|]. intros [= <-].
  apply orb_false_iff in Hc as [Hc1 Hc2].
  destruct (appendBase128Int_cons (40 * a1 + a2)) as (x & b & Hx); [lia|].
  unfold parseObjectIdentifier. destruct (appendBase128Int _ ++ _) eqn:E; [by rewrite Hx in E|].
  rewrite <-E, parse_appendBase128Int by lia. cbn [mbind res_bind fst snd].
  rewrite parse_arcs_append; [|done|lia]. cbn [mbind res_bind].
  destruct (Z.ltb_spec (40 * a1 + a2) 80).
  - assert (a1 < 2 ∧ a2 < 40) as [? ?] by lia.
    replace ((40 * a1 + a2) / 40) with a1 by (Z.div_mod_to_equations; lia).
    by replace ((40 * a1 + a2) mod 40) with a2 by (Z.div_mod_to_equations; lia).
  - assert (a1 = 2) as -> by lia. by replace (40 * 2 + a2 - 80) with a2 by lia.
Qed.

Lemma parseObjectIdentifier_inv b oid :
  parseObjectIdentifier b = Ok oid → makeObjectIdentifier oid = Ok b ∧ wf_oid oid.
Proof.
  destruct b as [|x b]; [done|]. unfold parseObjectIdentifier.
  intros ([v rest] & Hv & (arcs & Harcs & H)%res_bind_Ok_inv)%res_bind_Ok_inv. injection H as <-.
  apply parseBase128Int_inv in Hv as [-> Hv]. apply parse_arcs_inv in Harcs as [Hr Ha]. cbn in Hr |- *.
  destruct (Z.ltb_spec v 80); cbn.
  - assert (Hv2 : 40 * (v / 40) + v mod 40 = v) by (Z.div_mod_to_equations; lia).
    assert (0 ≤ v / 40 < 2 ∧ 0 ≤ v mod 40 < 40) by (Z.div_mod_to_equations; lia).
    rewrite Hv2, Hr. destruct (_ || _) eqn:Hc; [lia|]. split; [done|]. split_and!; try lia; done.
  - replace (40 * 2 + (v - 80)) with v by lia. split; [by rewrite Hr|]. unfold wf_oid. split_and!; try lia; done.
Qed.

Lemma parseObjectIdentifier_returns b : no_crash (parseObjectIdentifier b).
Proof.
  unfold parseObjectIdentifier. destruct b as [|x b]; [done|].
  apply no_crash_bind; [apply parseBase128Int_returns|]. intros [v rest] _.
  apply no_crash_bind; [|done]. apply parse_arcs_returns. lia.
Qed.

(** ** Decoding returns *)
Lemma parse_length_returns n : ∀ acc b, no_crash (parse_length n acc b).
Proof.
  induction n as [|n IH]; intros acc [|x b]; cbn [parse_length]; try done.
  destruct (_ <=? _); [done|]. by destruct (_ =? 0).
Qed.

Lemma parseTagAndLength_returns b : no_crash (parseTagAndLength b).
Proof.
  destruct b as [|x b]; [done|]. cbn [parseTagAndLength]. apply no_crash_bind.
  - destruct (_ =? 0x1f); [|done]. apply no_crash_bind; [apply parseBase128Int_returns|].
    intros tb _. by destruct (_ <? _).
  - intros tb _. apply no_crash_bind; [|done]. unfold parse_der_length.
    destruct tb.2 as [|y c]; [done|]. destruct (_ =? 0); [done|]. destruct (_ =? 0); [done|].
    apply no_crash_bind; [apply parse_length_returns|]. intros lb _. by destruct (_ <? _).
Qed.

Lemma contents_returns t b : no_crash (contents t b).
Proof. unfold contents. by destruct (_ <? _). Qed.

Lemma checkInteger_returns b : no_crash (checkInteger b).
Proof. destruct b as [|x [|y b]]; try done. cbn. by destruct (_ || _). Qed.

Lemma parseInt64_returns b : no_crash (parseInt64 b).
Proof. apply no_crash_bind; [apply checkInteger_returns|]. intros _ _. by destruct (_ <? _). Qed.

Lemma parseInt32_returns b : no_crash (parseInt32 b).
Proof.
  apply no_crash_bind; [apply checkInteger_returns|]. intros _ _.
  apply no_crash_bind; [apply parseInt64_returns|]. intros v _. by destruct (_ && _).
Qed.

Lemma parseBigInt_returns b : no_crash (parseBigInt b).
Proof. by apply no_crash_bind; [apply checkInteger_returns|]. Qed.

Lemma parseBool_returns b : no_crash (parseBool b).
Proof. destruct b as [|x [|y b]]; try done. cbn. destruct (_ =? 0); [done|]. by destruct (_ =? 0xff). Qed.

Lemma parseBitString_returns b : no_crash (parseBitString b).
Proof. destruct b as [|x b]; [done|]. cbn. by destruct (_ || _). Qed.

Lemma check_chars_returns ok e b : no_crash (check_chars ok e b).
Proof. unfold check_chars. by destruct (forallb _ _). Qed.

Lemma parseUTF8String_returns b : no_crash (parseUTF8String b).
Proof. unfold parseUTF8String. by destruct (utf8_Valid b). Qed.

Lemma parseBMPString_returns b : no_crash (parseBMPString b).
Proof. unfold parseBMPString. by destruct (negb _). Qed.

Create HintDb asn1.
#[export] Hint Resolve parseTagAndLength_returns contents_returns parseBool_returns parseInt64_returns
  parseInt32_returns parseBigInt_returns parseBitString_returns check_chars_returns
  parseUTF8String_returns parseBMPString_returns parseObjectIdentifier_returns : asn1.
