(* ===== verification/Asn1Types.v ===== *)
(** * encoding/asn1 at Go types

    [asn1.Unmarshal] and [asn1.Marshal] are driven by the Go type of the value
    and the tags of its fields.  [gotype] describes those types: a structure
    lists its fields with their parameters, and the record the description is
    for is its index, so that decoding yields the record itself.  [parseField]
    is the decoder by recursion on the description; like the code, it updates
    the value it is given, so optional fields that are absent keep it. *)
From S2P Require Import Prelude GoBytes Loops Asn1.

(** The parts of [time] behind [asn1]: a time and how the two formats parse. *)
Class GoTime := {
  Time : Type;
  time_zero : Time;
  parseUTCTime : bytes → res error Time;
  parseGeneralizedTime : bytes → res error Time;
  (** whether a time is the zero time, and its encoding with the tag used *)
  time_is_zero : Time → bool;
  makeTime : Time → res error (Z * bytes);
}.
Class GoTimeLaws `{GoTime} : Prop := {
  parseUTCTime_returns b : no_crash (parseUTCTime b);
  parseGeneralizedTime_returns b : no_crash (parseGeneralizedTime b);
}.

(** ** Types *)

(** [fieldParameters], of the parameters used here *)
Record fieldParameters := mkParams {
  p_optional : bool; p_explicit : bool; p_set : bool; p_tag : option Z;
  p_defaultValue : option Z; p_stringType : Z;
}.
Definition plain : fieldParameters := mkParams false false false None None 0.
Definition optional : fieldParameters := mkParams true false false None None 0.
Definition optional_tag (t : Z) : fieldParameters := mkParams true false false (Some t) None 0.
Definition implicit_tag (t : Z) : fieldParameters := mkParams false false false (Some t) None 0.
Definition explicit_tag (t : Z) : fieldParameters := mkParams false true false (Some t) None 0.

Section Types.
Context {T : GoTime}.

(** The dynamic value of an [interface{}] *)
Inductive any :=
| AnyNil
| AnyString (s : bytes)
| AnyInt64 (n : Z)
| AnyBitString (b : BitString)
| AnyOID (oid : list Z)
| AnyTime (t : Time)
| AnyBytes (b : bytes).

(** A structure [A] lists its fields in order, with the projection that reads
    them; [C] is the type of the constructor that remains to be applied. *)
Inductive gotype : Type → Type :=
| GBool : gotype bool
| GInt : gotype Z
| GEnumerated : gotype Z
| GBigInt : gotype (option Z)
| GString : gotype bytes
| GBytes : gotype bytes
| GOID : gotype (list Z)
| GBitString : gotype BitString
| GTime : gotype Time
| GRawValue : gotype RawValue
| GInterface : gotype any
| GStruct {C A} (mk : C) (fs : gofields C A) : gotype A
| GSlice {A} (isSet : bool) (elem : gotype A) : gotype (list A)
with gofields : Type → Type → Type :=
| FNil {A} : gofields A A
| FRaw {C A} (get : A → bytes) (fs : gofields C A) : gofields (bytes → C) A
| FCons {B C A} (params : fieldParameters) (get : A → B) (t : gotype B) (fs : gofields C A)
    : gofields (B → C) A.

(** [reflect.Zero] *)
Fixpoint zero {A} (t : gotype A) : A :=
  match t in gotype A return A with
  | GBool => false
  | GInt => 0
  | GEnumerated => 0
  | GBigInt => None
  | GString => []
  | GBytes => []
  | GOID => []
  | GBitString => mkBits [] 0
  | GTime => time_zero
  | GRawValue => mkRaw 0 0 false [] []
  | GInterface => AnyNil
  | GStruct mk fs => zero_fields fs mk
  | GSlice _ _ => []
  end
with zero_fields {C A} (fs : gofields C A) : C → A :=
  match fs in gofields C A return C → A with
  | FNil => λ a, a
  | FRaw _ fs => λ mk, zero_fields fs (mk [])
  | FCons _ _ t fs => λ mk, zero_fields fs (mk (zero t))
  end.

(** [getUniversalType]: whether any tag will do, the tag and the form *)
Record universal := mkUniversal { u_matchAny : bool; u_tag : Z; u_compound : bool }.
Definition getUniversalType {A} (t : gotype A) : option universal :=
  match t with
  | GBool => Some (mkUniversal false TagBoolean false)
  | GInt => Some (mkUniversal false TagInteger false)
  | GEnumerated => Some (mkUniversal false TagEnum false)
  | GBigInt => Some (mkUniversal false TagInteger false)
  | GString => Some (mkUniversal false TagPrintableString false)
  | GBytes => Some (mkUniversal false TagOctetString false)
  | GOID => Some (mkUniversal false TagOID false)
  | GBitString => Some (mkUniversal false TagBitString false)
  | GTime => Some (mkUniversal false TagUTCTime false)
  | GRawValue => Some (mkUniversal true (-1) false)
  | GInterface => None
  | GStruct _ _ => Some (mkUniversal false TagSequence true)
  | GSlice isSet _ => Some (mkUniversal false (if isSet then TagSet else TagSequence) true)
  end.

(** ** Decoding *)

(** [setDefaultValue]: the value of an absent optional field *)
Definition setDefaultValue {A} (t : gotype A) (params : fieldParameters) (v : A) : option A :=
  if negb (p_optional params) then None
  else
    match p_defaultValue params with
    | None => Some v
    | Some d =>
        Some (match t in gotype A return A → A with
              | GInt => λ _, d
              | GEnumerated => λ _, d
              | _ => λ v, v
              end v)
    end.

Definition isStringTag (tag : Z) : bool :=
  bool_decide (tag ∈ [TagIA5String; TagGeneralString; TagT61String; TagUTF8String; TagNumericString; TagBMPString]).

(** What the header of a field says: the field is there, with its contents and
    the universal tag to decode them by, or another one is. *)
Inductive header :=
| Present (universalTag : Z) (t : tagAndLength) (inner rest : bytes)
| Absent (e : error).

(** The explicit tag in front of the element, if the field has one *)
Definition explicit_header (params : fieldParameters) (isRaw : bool) (t : tagAndLength) (b : bytes)
  : res error (option (tagAndLength * bytes)) :=
  if negb (p_explicit params) then Ok (Some (t, b))
  else if zlen b =? 0 then Err (StructuralError "explicit tag has no child")
  else if (tl_class t =? ClassContextSpecific) && bool_decide (p_tag params = Some (tl_tag t))
          && ((tl_length t =? 0) || tl_isCompound t) then
    if isRaw then Ok (Some (t, b))
    else if 0 <? tl_length t then tb ← parseTagAndLength b; Ok (Some tb)
    else Err (StructuralError "zero length explicit tag was not an asn1.Flag")
  else Ok None.

(** The universal tag to expect, given the one found *)
Definition universal_tag (params : fieldParameters) (u : universal) (t : tagAndLength) : Z :=
  let tag :=
    if u_tag u =? TagPrintableString then
      if tl_class t =? ClassUniversal then if isStringTag (tl_tag t) then tl_tag t else u_tag u
      else if negb (p_stringType params =? 0) then p_stringType params else u_tag u
    else if u_tag u =? TagUTCTime then
      if (tl_class t =? ClassUniversal) && (tl_tag t =? TagGeneralizedTime) then TagGeneralizedTime else u_tag u
    else u_tag u in
  if p_set params then TagSet else tag.

Definition match_header (params : fieldParameters) (isRaw : bool) (u : universal) (b : bytes)
  : res error header :=
  tb ← parseTagAndLength b;
  o ← explicit_header params isRaw tb.1 tb.2;
  match o with
  | None => Ok (Absent (StructuralError "explicitly tagged member didn't match"))
  | Some (t, b) =>
      let universalTag := universal_tag params u t in
      let '(matchAnyClassAndTag, expectedClass, expectedTag) :=
        match p_tag params with
        | Some tag => if negb (p_explicit params) then (false, ClassContextSpecific, tag)
                      else (u_matchAny u, ClassUniversal, universalTag)
        | None => (u_matchAny u, ClassUniversal, universalTag)
        end in
      if negb matchAnyClassAndTag && (negb (tl_class t =? expectedClass) || negb (tl_tag t =? expectedTag))
         || negb (u_matchAny u) && negb (Bool.eqb (tl_isCompound t) (u_compound u))
      then Ok (Absent (StructuralError "tags don't match"))
      else cr ← contents t b; Ok (Present universalTag t cr.1 cr.2)
  end.

(** A value stored on success *)
Definition store {A} (v : A) (r : res error A) : A * res error () :=
  match r with
  | Ok a => (a, Ok tt)
  | Err e => (v, Err e)
  | Panic m => (v, Panic m)
  | NoFuel => (v, NoFuel)
  end.

Definition parseString (universalTag : Z) (b : bytes) : res error bytes :=
  if universalTag =? TagPrintableString then parsePrintableString b
  else if universalTag =? TagNumericString then parseNumericString b
  else if universalTag =? TagIA5String then parseIA5String b
  else if universalTag =? TagT61String then parseT61String b
  else if universalTag =? TagUTF8String then parseUTF8String b
  else if universalTag =? TagGeneralString then parseT61String b
  else if universalTag =? TagBMPString then parseBMPString b
  else Err (SyntaxError "internal error: unknown string type").

(** A field of type [interface{}] *)
Definition parse_any (v : any) (b : bytes) : any * res error bytes :=
  let r :=
    tb ← parseTagAndLength b;
    cr ← contents tb.1 tb.2;
    let t := tb.1 in
    let inner := cr.1 in
    o ← (if tl_isCompound t || negb (tl_class t =? ClassUniversal) then Ok None
         else if tl_tag t =? TagPrintableString then s ← parsePrintableString inner; Ok (Some (AnyString s))
         else if tl_tag t =? TagNumericString then s ← parseNumericString inner; Ok (Some (AnyString s))
         else if tl_tag t =? TagIA5String then s ← parseIA5String inner; Ok (Some (AnyString s))
         else if tl_tag t =? TagT61String then s ← parseT61String inner; Ok (Some (AnyString s))
         else if tl_tag t =? TagUTF8String then s ← parseUTF8String inner; Ok (Some (AnyString s))
         else if tl_tag t =? TagInteger then n ← parseInt64 inner; Ok (Some (AnyInt64 n))
         else if tl_tag t =? TagBitString then s ← parseBitString inner; Ok (Some (AnyBitString s))
         else if tl_tag t =? TagOID then o ← parseObjectIdentifier inner; Ok (Some (AnyOID o))
         else if tl_tag t =? TagUTCTime then t ← parseUTCTime inner; Ok (Some (AnyTime t))
         else if tl_tag t =? TagGeneralizedTime then t ← parseGeneralizedTime inner; Ok (Some (AnyTime t))
         else if tl_tag t =? TagOctetString then Ok (Some (AnyBytes inner))
         else if tl_tag t =? TagBMPString then s ← parseBMPString inner; Ok (Some (AnyString s))
         else Ok None);
    Ok (o, cr.2) in
  match r with
  | Ok (o, rest) => (default v o, Ok rest)
  | Err e => (v, Err e)
  | Panic m => (v, Panic m)
  | NoFuel => (v, NoFuel)
  end.

(** The first pass of [parseSequenceOf]: the number of elements *)
Fixpoint count_elements (fuel : nat) (u : universal) (b : bytes) : res error nat :=
  match b with
  | [] => Ok 0%nat
  | _ =>
      match fuel with
      | O => NoFuel
      | S fuel =>
          tb ← parseTagAndLength b;
          let t := tb.1 in
          let tag :=
            if isStringTag (tl_tag t) then TagPrintableString
            else if bool_decide (tl_tag t ∈ [TagGeneralizedTime; TagUTCTime]) then TagUTCTime
            else tl_tag t in
          if negb (u_matchAny u)
             && (negb (tl_class t =? ClassUniversal) || negb (Bool.eqb (tl_isCompound t) (u_compound u))
                 || negb (tag =? u_tag u))
          then Err (StructuralError "sequence tag mismatch")
          else if zlen tb.2 <? tl_length t then Err (SyntaxError "truncated sequence")
          else
            n ← count_elements fuel u (drop (Z.to_nat (tl_length t)) tb.2);
            Ok (S n)
      end
  end.

(** The second pass: [n] elements one after the other *)
Fixpoint parse_elements {A} (parse : bytes → A * res error bytes) (n : nat) (b : bytes)
  : res error (list A) :=
  match n with
  | O => Ok []
  | S n =>
      let '(a, r) := parse b in
      rest ← r;
      l ← parse_elements parse n rest;
      Ok (a :: l)
  end.

Definition is_raw {A} (t : gotype A) : bool := match t with GRawValue => true | _ => false end.

(** The fields after one that failed are not touched. *)
Fixpoint keep_fields {C A} (fs : gofields C A) (mk : C) (v : A) {struct fs} : A :=
  match fs in gofields C A return C → A → A with
  | FNil => λ a _, a
  | FRaw get fs => λ mk v, keep_fields fs (mk (get v)) v
  | FCons _ get _ fs => λ mk v, keep_fields fs (mk (get v)) v
  end mk v.

(** The part of [parseField] that is the same for all types: the element, or
    its absence, is found, and [body] decodes its contents. *)
Definition parse_frame {A} (t : gotype A) (params : fieldParameters)
    (body : Z → tagAndLength → bytes → bytes → A → A * res error ()) (v : A) (b : bytes)
  : A * res error bytes :=
  let default_or (e : error) : A * res error bytes :=
    match setDefaultValue t params v with
    | Some v => (v, Ok b)
    | None => (v, Err e)
    end in
  if zlen b =? 0 then default_or (SyntaxError "sequence truncated")
  else
    match getUniversalType t with
    | None =>
        match t in gotype A return A → A * res error bytes with
        | GInterface => λ v, parse_any v b
        | _ => λ v, (v, Err (StructuralError "unknown Go type"))
        end v
    | Some u =>
        match match_header params (is_raw t) u b with
        | Err e => (v, Err e)
        | Panic m => (v, Panic m)
        | NoFuel => (v, NoFuel)
        | Ok (Absent e) => default_or e
        | Ok (Present universalTag h inner rest) =>
            let '(v, r) := body universalTag h (take (length b - length rest) b) inner v in
            (v, _ ← r; Ok rest)
        end
    end.

(** The contents of an element: [full] is the element, [inner] its contents. *)
Fixpoint parse_body {A} (t : gotype A) (universalTag : Z) (h : tagAndLength) (full inner : bytes)
  {struct t} : A → A * res error () :=
  match t in gotype A return A → A * res error () with
  | GBool => λ v, store v (parseBool inner)
  | GInt => λ v, store v (parseInt64 inner)
  | GEnumerated => λ v, store v (parseInt32 inner)
  | GBigInt => λ v, store v (n ← parseBigInt inner; Ok (Some n))
  | GString => λ v, store v (parseString universalTag inner)
  | GBytes => λ v, (inner, Ok tt)
  | GOID => λ v, store v (parseObjectIdentifier inner)
  | GBitString => λ v, store v (parseBitString inner)
  | GTime => λ v,
      store v (if universalTag =? TagUTCTime then parseUTCTime inner else parseGeneralizedTime inner)
  | GRawValue => λ v, (mkRaw (tl_class h) (tl_tag h) (tl_isCompound h) inner full, Ok tt)
  | GInterface => λ v, (v, Ok tt)
  | GStruct mk fs => λ v, parse_fields fs full mk v inner
  | GSlice _ elem => λ v,
      store v
        (match getUniversalType elem with
         | None => Err (StructuralError "unknown Go type for slice")
         | Some u =>
             n ← count_elements (length inner) u inner;
             parse_elements (parse_frame elem plain (parse_body elem) (zero elem)) n inner
         end)
  end
with parse_fields {C A} (fs : gofields C A) (full : bytes) {struct fs}
  : C → A → bytes → A * res error () :=
  match fs in gofields C A return C → A → bytes → A * res error () with
  | FNil => λ a _ _, (a, Ok tt)
  | FRaw _ fs => λ mk v b, parse_fields fs full (mk full) v b
  | FCons params get t fs => λ mk v b,
      let '(x, r) := parse_frame t params (parse_body t) (get v) b in
      match r with
      | Ok rest => parse_fields fs full (mk x) v rest
      | Err e => (keep_fields fs (mk x) v, Err e)
      | Panic m => (keep_fields fs (mk x) v, Panic m)
      | NoFuel => (keep_fields fs (mk x) v, NoFuel)
      end
  end.

(** [parseField(v, bytes, offset, params)] on the bytes from the offset on *)
Definition parseField {A} (t : gotype A) (params : fieldParameters) (v : A) (b : bytes)
  : A * res error bytes :=
  parse_frame t params (parse_body t) v b.

(** [asn1.UnmarshalWithParams(b, &v, params)], [asn1.Unmarshal(b, &v)] *)
Definition UnmarshalWithParams {A} (t : gotype A) (params : fieldParameters) (v : A) (b : bytes)
  : A * res error bytes :=
  parseField t params v b.
Definition Unmarshal {A} (t : gotype A) (v : A) (b : bytes) : A * res error bytes :=
  UnmarshalWithParams t plain v b.
(** into a new variable *)
Definition decode {A} (t : gotype A) (params : fieldParameters) (b : bytes) : res error (A * bytes) :=
  let '(v, r) := UnmarshalWithParams t params (zero t) b in
  rest ← r; Ok (v, rest).
End Types.

(** ** Decoding is local

    What a field decodes to depends on the bytes it consumes only. *)
Section Local.
Context {T : GoTime}.

Lemma header_local b t b1 :
  parseTagAndLength b = Ok (t, b1) →
  ∃ h, b = h ++ b1 ∧ h ≠ [] ∧ 0 ≤ tl_length t ∧ ∀ b2, parseTagAndLength (h ++ b2) = Ok (t, b2).
Proof.
  intros [-> Hw]%parseTagAndLength_inv. exists (appendTagAndLength t). split; [done|].
  split; [|split; [apply Hw|intros; by apply parse_appendTagAndLength]].
  unfold appendTagAndLength. by destruct (31 <=? _).
Qed.

Lemma contents_local t b body rest :
  0 ≤ tl_length t → contents t b = Ok (body, rest) →
  b = body ++ rest ∧ ∀ rest', contents t (body ++ rest') = Ok (body, rest').
Proof. intros Hl [-> Hlen]%contents_Ok; [|done]. split; [done|]. intros. by apply contents_Ok. Qed.

Lemma explicit_header_local params t b t' b1 :
  explicit_header params false t b = Ok (Some (t', b1)) → 0 ≤ tl_length t →
  ∃ h, b = h ++ b1 ∧ 0 ≤ tl_length t' ∧
       ∀ b2, explicit_header params false t (h ++ b2) = Ok (Some (t', b2)).
Proof.
  unfold explicit_header. intros H Hl. destruct (negb (p_explicit params)).
  { injection H as <- <-. by exists []. }
  destruct (zlen b =? 0); [done|]. destruct (_ && _); [|done]. destruct (0 <? tl_length t); [|done].
  apply res_bind_Ok_inv in H as (tb & Htb & [= ->]).
  apply header_local in Htb as (h & -> & Hne & Hl' & Hh). exists h. split; [done|]. split; [done|].
  intros b2. rewrite (proj2 (Z.eqb_neq _ 0)), Hh; [done|].
  rewrite zlen_app. destruct h; [done|]. rewrite zlen_cons. pose proof (zlen_nonneg h).
  pose proof (zlen_nonneg b2). lia.
Qed.

Lemma match_header_local params raw u b ut t inner rest :
  raw = false ∨ p_explicit params = false →
  match_header params raw u b = Ok (Present ut t inner rest) →
  ∃ x, b = x ++ rest ∧ x ≠ [] ∧
       ∀ rest', match_header params raw u (x ++ rest') = Ok (Present ut t inner rest').
Proof.
  intros Hraw H. unfold match_header in H.
  apply res_bind_Ok_inv in H as ([t0 b0] & H0 & H).
  apply res_bind_Ok_inv in H as ([[t1 b1]|] & H1 & H); [|done].
  apply header_local in H0 as (h0 & -> & Hne & Hl0 & Hh0). cbn [fst snd] in H1.
  assert (He : ∃ h1, b0 = h1 ++ b1 ∧ 0 ≤ tl_length t1 ∧
             ∀ b2, explicit_header params raw t0 (h1 ++ b2) = Ok (Some (t1, b2))).
  { destruct Hraw as [->|Hx]; [by apply explicit_header_local|].
    unfold explicit_header in *. rewrite Hx in *. cbn in *. injection H1 as <- <-. by exists []. }
  destruct He as (h1 & -> & Hl1 & Hh1). clear H1.
  destruct (match p_tag params with Some _ => _ | None => _ end) as [[anyCT class] tag] eqn:Ecl.
  destruct (_ || _) eqn:Em; [done|].
  apply res_bind_Ok_inv in H as ([body r] & Hc & [= <- -> -> ->]).
  apply contents_local in Hc as [-> Hc]; [|done].
  exists (h0 ++ h1 ++ inner). split; [by rewrite <-!app_assoc|]. split; [by destruct h0|].
  intros rest'. unfold match_header. rewrite <-!app_assoc, Hh0. cbn [mbind res_bind fst snd].
  rewrite Hh1. cbn [mbind res_bind]. rewrite Ecl, Em, Hc. done.
Qed.

Lemma parse_any_local v b v' rest :
  parse_any v b = (v', Ok rest) →
  ∃ x, b = x ++ rest ∧ x ≠ [] ∧ ∀ rest', parse_any v (x ++ rest') = (v', Ok rest').
Proof.
  unfold parse_any.
  destruct (parseTagAndLength b) as [[t b1]| | |] eqn:Ht; try done.
  apply header_local in Ht as (h & -> & Hne & Hl & Hh). cbn [mbind res_bind fst snd].
  destruct (contents t b1) as [[inner r]| | |] eqn:Hc; try done.
  apply contents_local in Hc as [-> Hc]; [|done]. cbn [mbind res_bind fst snd].
  set (o := if _ || _ then _ else _). intros H.
  exists (h ++ inner). split.
  { destruct o; cbn in H; try done. injection H as <- <-. by rewrite app_assoc. }
  split; [by destruct h|]. intros rest'. rewrite <-app_assoc, Hh. cbn [mbind res_bind fst snd].
  rewrite Hc. cbn [mbind res_bind fst snd]. fold o. destruct o; cbn in *; try done.
  by injection H as <- <-.
Qed.

Lemma zlen_eqb_0 {A} (l : list A) : l ≠ [] → (zlen l =? 0) = false.
Proof. intros Hl. apply Z.eqb_neq. rewrite zlen_0. done. Qed.

Lemma parse_frame_local {A} (t : gotype A) params body v b v' rest :
  is_raw t = false ∨ p_explicit params = false →
  parse_frame t params body v b = (v', Ok rest) →
  (rest = b ∧ setDefaultValue t params v = Some v') ∨
  ∃ x, b = x ++ rest ∧ x ≠ [] ∧ ∀ rest', parse_frame t params body v (x ++ rest') = (v', Ok rest').
Proof.
  intros Hraw. unfold parse_frame at 1.
  assert (Hdef : ∀ e : error, match setDefaultValue t params v with
                 | Some v => (v, @Ok error bytes b) | None => (v, Err e) end = (v', Ok rest) →
                 rest = b ∧ setDefaultValue t params v = Some v').
  { intros e. destruct (setDefaultValue t params v); [by intros [= <- <-]|done]. }
  destruct (zlen b =? 0); [intros H; left; by eapply Hdef|].
  destruct (getUniversalType t) as [u|] eqn:Hu; cycle 1.
  - intros H. right. destruct t; try done.
    apply parse_any_local in H as (x & -> & Hx & Hl). exists x. split; [done|]. split; [done|].
    intros rest'. unfold parse_frame. rewrite zlen_eqb_0 by (by destruct x). apply Hl.
  - destruct (match_header _ _ _ _) as [[ut h inner r|e]| | |] eqn:Hm; try done;
      [|intros H; left; by eapply Hdef].
    apply match_header_local in Hm as (x & -> & Hx & Hl); [|done].
    rewrite length_app, take_app_len by lia.
    destruct (body ut h x inner v) as [v1 r1] eqn:Hb. intros H. injection H as -> H.
    apply res_bind_Ok_inv in H as ([] & -> & [= ->]).
    right. exists x. split; [done|]. split; [done|]. intros rest'.
    unfold parse_frame. rewrite zlen_eqb_0 by (by destruct x). rewrite Hu, Hl.
    by rewrite length_app, take_app_len, Hb by lia.
Qed.

(** A field is absent, or the bytes it consumes decide on its value. *)
Lemma parseField_local {A} (t : gotype A) params v b v' rest :
  is_raw t = false ∨ p_explicit params = false →
  parseField t params v b = (v', Ok rest) →
  (rest = b ∧ setDefaultValue t params v = Some v') ∨
  ∃ x, b = x ++ rest ∧ x ≠ [] ∧ ∀ rest', parseField t params v (x ++ rest') = (v', Ok rest').
Proof.
  apply parse_frame_local.
Qed.

Lemma decode_local {A} (t : gotype A) params b v rest :
  p_optional params = false → p_explicit params = false →
  decode t params b = Ok (v, rest) →
  ∃ x, b = x ++ rest ∧ x ≠ [] ∧ ∀ rest', decode t params (x ++ rest') = Ok (v, rest').
Proof.
  unfold decode, UnmarshalWithParams. intros Ho He.
  destruct (parseField t params (zero t) b) as [v1 r] eqn:H. intros (rest' & -> & [= <- <-])%res_bind_Ok_inv.
  apply parseField_local in H as [[_ H]|(x & -> & Hx & Hl)]; [| |by right].
  - unfold setDefaultValue in H. by rewrite Ho in H.
  - exists x. split; [done|]. split; [done|]. intros. by rewrite Hl.
Qed.
End Local.

(** ** Decoding returns *)
Scheme gotype_mut := Induction for gotype Sort Prop
  with gofields_mut := Induction for gofields Sort Prop.
Combined Scheme gotype_gofields_ind from gotype_mut, gofields_mut.

Section Returns.
Context `{TL : GoTimeLaws}.

Hint Resolve parseUTCTime_returns parseGeneralizedTime_returns : asn1.

Lemma explicit_header_returns params raw t b : no_crash (explicit_header params raw t b).
Proof.
  unfold explicit_header. destruct (negb _); [done|]. destruct (_ =? 0); [done|].
  destruct (_ && _); [|done]. destruct raw; [done|]. destruct (_ <? _); [|done].
  apply no_crash_bind; auto with asn1; done.
Qed.

Lemma match_header_returns params raw u b : no_crash (match_header params raw u b).
Proof.
  unfold match_header. apply no_crash_bind; [auto with asn1|]. intros tb _.
  apply no_crash_bind; [apply explicit_header_returns|]. intros [[t b']|] _; [|done].
  destruct (match p_tag params with Some _ => _ | None => _ end) as [[anyCT class] tag].
  destruct (_ || _); [done|]. apply no_crash_bind; auto with asn1; done.
Qed.

Lemma parseString_returns tag b : no_crash (parseString tag b).
Proof.
  unfold parseString, parsePrintableString, parseNumericString, parseIA5String, parseT61String.
  repeat (match goal with |- no_crash (if ?c then _ else _) => destruct c end); auto with asn1; done.
Qed.

Lemma parse_any_returns v b : no_crash (parse_any v b).2.
Proof.
  unfold parse_any. match goal with |- no_crash (match ?r with _ => _ end).2 => set (m := r) end.
  assert (Hm : no_crash m); [|destruct m as [[]| | |]; done].
  apply no_crash_bind; [auto with asn1|]. intros tb _.
  apply no_crash_bind; [auto with asn1|]. intros cr _. cbv zeta.
  apply no_crash_bind; [|done].
  unfold parsePrintableString, parseNumericString, parseIA5String, parseT61String.
  repeat (match goal with |- no_crash (if ?c then _ else _) => destruct c end);
    try done; apply no_crash_bind; auto with asn1; done.
Qed.

Lemma store_returns {A} (v : A) r : no_crash r → no_crash (store v r).2.
Proof. by destruct r. Qed.

Lemma count_elements_returns fuel : ∀ u b,
  (length b ≤ fuel)%nat → no_crash (count_elements fuel u b).
Proof.
  induction fuel as [|fuel IH]; intros u [|x b] Hf; cbn [count_elements]; try done;
    [cbn in Hf; lia|].
  apply no_crash_bind; [auto with asn1|]. intros [t b'] Ht. cbv zeta. cbn [fst snd].
  destruct (negb _ && _); [done|]. destruct (_ <? _); [done|].
  apply no_crash_bind; [|done]. apply IH. rewrite length_drop.
  apply header_local in Ht as (h & E & Hh & _). apply (f_equal length) in E.
  rewrite length_app in E. destruct h; [done|]. cbn in *. lia.
Qed.

Lemma parse_elements_returns {A} (parse : bytes → A * res error bytes) n : ∀ b,
  (∀ b, no_crash (parse b).2) → no_crash (parse_elements parse n b).
Proof.
  induction n as [|n IH]; intros b Hp; cbn [parse_elements]; [done|].
  specialize (Hp b) as Hb. destruct (parse b) as [a r]. apply no_crash_bind; [done|].
  intros rest _. apply no_crash_bind; [by apply IH|done].
Qed.

Lemma parse_frame_returns {A} (t : gotype A) params body v b :
  (∀ ut h full inner v, no_crash (body ut h full inner v).2) →
  no_crash (parse_frame t params body v b).2.
Proof.
  intros Hbody. unfold parse_frame.
  destruct (zlen b =? 0); [by destruct (setDefaultValue t params v)|].
  destruct (getUniversalType t) as [u|].
  - pose proof (match_header_returns params (is_raw t) u b) as Hm.
    destruct (match_header _ _ _ _) as [[ut h inner rest|e]| | |]; try done;
      [|by destruct (setDefaultValue t params v)].
    specialize (Hbody ut h (take (length b - length rest) b) inner v).
    destruct (body _ _ _ _ v) as [v' r]. cbn. by apply no_crash_bind.
  - destruct t; try done. apply parse_any_returns.
Qed.

Lemma parse_returns :
  (∀ A (t : gotype A) ut h full inner v, no_crash (parse_body t ut h full inner v).2) ∧
  (∀ C A (fs : gofields C A) full mk v b, no_crash (parse_fields fs full mk v b).2).
Proof.
  apply gotype_gofields_ind; intros; cbn [parse_body parse_fields]; try (apply store_returns);
    auto with asn1; try done.
  - by apply no_crash_bind; [auto with asn1|].
  - apply parseString_returns.
  - case_match; auto with asn1.
  - destruct (getUniversalType elem); [|done]. apply no_crash_bind; [by apply count_elements_returns|].
    intros n _. apply parse_elements_returns. intros b. by apply parse_frame_returns.
  - pose proof (parse_frame_returns t params (parse_body t) (get v) b) as Hf.
    destruct (parse_frame t params _ _ b) as [x r]. specialize (Hf ltac:(done)).
    by destruct r.
Qed.

Lemma parseField_returns {A} (t : gotype A) params v b : no_crash (parseField t params v b).2.
Proof. apply parse_frame_returns. intros. apply parse_returns. Qed.

Lemma decode_returns {A} (t : gotype A) params b : no_crash (decode t params b).
Proof.
  unfold decode, UnmarshalWithParams. pose proof (parseField_returns t params (zero t) b).
  destruct (parseField _ _ _ b) as [v r]. by apply no_crash_bind.
Qed.
End Returns.

(** ** Structures *)
Section Structures.
Context {T : GoTime}.

Lemma decode_Ok {A} (t : gotype A) params b v rest :
  decode t params b = Ok (v, rest) ↔ parseField t params (zero t) b = (v, Ok rest).
Proof.
  unfold decode, UnmarshalWithParams. destruct (parseField t params (zero t) b) as [v' [r| | |]]; cbn;
    naive_solver.
Qed.

Lemma parse_fields_cons {B C A} params (get : A → B) t (fs : gofields C A) full mk v b a :
  parse_fields (FCons params get t fs) full mk v b = (a, Ok tt) →
  ∃ x rest, parseField t params (get v) b = (x, Ok rest) ∧
            parse_fields fs full (mk x) v rest = (a, Ok tt).
Proof.
  cbn [parse_fields]. unfold parseField.
  destruct (parse_frame t params _ _ b) as [x [rest| | |]]; [eauto|done..].
Qed.

Lemma parse_fields_raw {C A} (get : A → bytes) (fs : gofields C A) full mk v b :
  parse_fields (FRaw get fs) full mk v b = parse_fields fs full (mk full) v b.
Proof. done. Qed.

(** The element of a structure: a SEQUENCE of its fields *)
Lemma parse_struct {C A} (mk : C) (fs : gofields C A) params v b a rest :
  p_explicit params = false → p_set params = false → p_optional params = false →
  parseField (GStruct mk fs) params v b = (a, Ok rest) →
  ∃ class tag body, b = tlv class tag true body ++ rest ∧ wf_tag class tag ∧ zlen body < 2 ^ 31 ∧
    (class, tag) = match p_tag params with
                   | Some tag => (ClassContextSpecific, tag) | None => (ClassUniversal, TagSequence) end ∧
    parse_fields fs (tlv class tag true body) mk v body = (a, Ok tt).
Proof.
  intros He Hs Ho. unfold parseField, parse_frame.
  destruct (zlen b =? 0).
  { unfold setDefaultValue. by rewrite Ho. }
  cbn [getUniversalType is_raw]. unfold match_header, explicit_header. rewrite He. cbn [negb].
  destruct (parseTagAndLength b) as [[t b1]| | |] eqn:Ht; try done. cbn [mbind res_bind fst snd].
  apply parseTagAndLength_inv in Ht as [-> [Hw Hl]].
  assert (Hu : universal_tag params (mkUniversal false TagSequence true) t = TagSequence).
  { unfold universal_tag. by rewrite Hs. }
  rewrite Hu. cbn [u_matchAny u_compound].
  set (ct := match p_tag params with Some _ => _ | None => _ end).
  assert (Hct : ct = (false, (match p_tag params with
                   | Some tag => (ClassContextSpecific, tag) | None => (ClassUniversal, TagSequence) end).1,
                  (match p_tag params with
                   | Some tag => (ClassContextSpecific, tag) | None => (ClassUniversal, TagSequence) end).2))
    by (unfold ct; by destruct (p_tag params)).
  rewrite Hct. clear ct Hct. set (ct := match p_tag params with Some tag => _ | None => _ end).
  destruct (negb false && _ || _) eqn:Em; [unfold setDefaultValue; by rewrite Ho|].
  destruct (contents t b1) as [[inner r]| | |] eqn:Hc; try done.
  apply contents_Ok in Hc as [-> Hlen]; [|lia]. cbn [mbind res_bind fst snd].
  cbn [parse_body].
  destruct (parse_fields _ _ _ _ inner) as [a' r'] eqn:Hf. intros H. injection H as -> H.
  apply res_bind_Ok_inv in H as ([] & -> & [= ->]).
  apply orb_false_iff in Em as [Em1 Em2]. cbn in Em1, Em2.
  apply orb_false_iff in Em1 as [Ec Et]. apply negb_false_iff in Ec, Et, Em2.
  apply Z.eqb_eq in Ec, Et. apply Bool.eqb_prop in Em2.
  destruct t as [class tag len comp]; cbn in *. subst len comp.
  exists class, tag, inner. unfold tlv. rewrite <-app_assoc. split; [done|]. split; [done|].
  split; [lia|]. split; [rewrite Ec, Et; by destruct ct|].
  rewrite app_assoc, length_app, take_app_len in Hf by lia. exact Hf.
Qed.
End Structures.

(** ** Decoding consumes input *)
Section Consumes.
Context {T : GoTime}.

Lemma decode_consumes {A} (t : gotype A) b v rest :
  decode t plain b = Ok (v, rest) → (length rest < length b)%nat.
Proof.
  intros (x & -> & Hx & _)%decode_local; [|done|done]. rewrite length_app. destruct x; [done|]. cbn. lia.
Qed.
End Consumes.
