(* ===== verification/Asn1Marshal.v ===== *)
(** * encoding/asn1: the encoder

    [asn1.Marshal] at the Go types of [Asn1Types], and what decoding its output
    gives: strings, object identifiers, structures and sequences. *)
From S2P Require Import Prelude GoBytes Asn1 Asn1Types.

(** ** Sets are sorted by their encodings ([setEncoder]) *)
Fixpoint bytes_leb (a b : bytes) : bool :=
  match a, b with
  | [], _ => true
  | _ :: _, [] => false
  | x :: a, y :: b =>
      (byte.unsigned x <? byte.unsigned y) || (byte.unsigned x =? byte.unsigned y) && bytes_leb a b
  end.
Fixpoint insert_bytes (a : bytes) (l : list bytes) : list bytes :=
  match l with
  | [] => [a]
  | b :: l => if bytes_leb a b then a :: b :: l else b :: insert_bytes a l
  end.
Definition sort_bytes (l : list bytes) : list bytes := foldr insert_bytes [] l.

Section Marshal.
Context {T : GoTime}.

(** [reflect.DeepEqual] with the zero value *)
Definition is_zero_raw (v : RawValue) : bool :=
  (rv_Class v =? 0) && (rv_Tag v =? 0) && negb (rv_IsCompound v)
  && (zlen (rv_Bytes v) =? 0) && (zlen (rv_FullBytes v) =? 0).
Fixpoint is_zero {A} (t : gotype A) : A → bool :=
  match t in gotype A return A → bool with
  | GBool => negb
  | GInt => λ v, v =? 0
  | GEnumerated => λ v, v =? 0
  | GBigInt => λ v, bool_decide (v = None)
  | GString => λ v, zlen v =? 0
  | GBytes => λ v, zlen v =? 0
  | GOID => λ v, zlen v =? 0
  | GBitString => λ v, (zlen (bs_Bytes v) =? 0) && (bs_BitLength v =? 0)
  | GTime => time_is_zero
  | GRawValue => is_zero_raw
  | GInterface => λ v, match v with AnyNil => true | _ => false end
  | GStruct _ fs => is_zero_fields fs
  | GSlice _ _ => λ v, zlen v =? 0
  end
with is_zero_fields {C A} (fs : gofields C A) : A → bool :=
  match fs in gofields C A return A → bool with
  | FNil => λ _, true
  | FRaw get fs => λ v, (zlen (get v) =? 0) && is_zero_fields fs v
  | FCons _ get t fs => λ v, is_zero t (get v) && is_zero_fields fs v
  end.

(** The shortest two's complement encoding *)
Definition makeInt (n : Z) : bytes :=
  let m := if n <? 0 then - n - 1 else n in
  let l := if m =? 0 then 1%nat else Z.to_nat ((Z.log2 m + 1) / 8 + 1) in
  be_bytes l n.

(** The tag of a string without a string type *)
Definition string_tag (params : fieldParameters) (s : bytes) : res error Z :=
  if negb (p_stringType params =? 0) then Ok (p_stringType params)
  else if forallb (λ x, isPrintable false false (byte.unsigned x)) s then Ok TagPrintableString
  else if utf8_Valid s then Ok TagUTF8String
  else Err (LibErr "asn1: string not valid UTF-8").
Definition makeString (params : fieldParameters) (s : bytes) : res error bytes :=
  let check ok e := if forallb (λ x, ok (byte.unsigned x)) s then Ok s else Err (StructuralError e) in
  if p_stringType params =? TagIA5String then check (λ x, x <=? 127) "IA5String contains invalid character"
  else if p_stringType params =? TagPrintableString then
    check (isPrintable true false) "PrintableString contains invalid character"
  else if p_stringType params =? TagNumericString then
    check isNumeric "NumericString contains invalid character"
  else Ok s.

(** Header and body of an element, under the tags its parameters ask for *)
Definition tagged (params : fieldParameters) (tag : Z) (isCompound : bool) (body : bytes) : bytes :=
  match p_tag params with
  | Some t =>
      if p_explicit params then
        tlv ClassContextSpecific t true (tlv ClassUniversal tag isCompound body)
      else tlv ClassContextSpecific t isCompound body
  | None => tlv ClassUniversal tag isCompound body
  end.

(** Optional fields that hold their default value are left out. *)
Definition omitted {A} (t : gotype A) (params : fieldParameters) (v : A) : bool :=
  p_optional params
  && match p_defaultValue params with
     | None => is_zero t v
     | Some d => match t in gotype A return A → bool with
                 | GInt => λ v, v =? d
                 | GEnumerated => λ v, v =? d
                 | _ => λ _, false
                 end v
     end.

Definition marshal_string (params : fieldParameters) (s : bytes) : res error bytes :=
  tag ← string_tag params s;
  body ← makeString params s;
  Ok (tagged params tag false body).
Definition marshal_time (params : fieldParameters) (v : Time) : res error bytes :=
  tb ← makeTime v; Ok (tagged params tb.1 false tb.2).
Definition marshal_oid (params : fieldParameters) (v : list Z) : res error bytes :=
  body ← makeObjectIdentifier v; Ok (tagged params TagOID false body).
Definition marshal_bits (params : fieldParameters) (v : BitString) : res error bytes :=
  Ok (tagged params TagBitString false
        (byte.of_Z ((8 - bs_BitLength v mod 8) mod 8) :: bs_Bytes v)).
(** A value whose type is only known at run time *)
Definition marshal_any (params : fieldParameters) (v : any) : res error bytes :=
  match v with
  | AnyNil => Err (LibErr "asn1: cannot marshal nil value")
  | AnyString s => marshal_string params s
  | AnyInt64 n => Ok (tagged params TagInteger false (makeInt n))
  | AnyBitString b => marshal_bits params b
  | AnyOID o => marshal_oid params o
  | AnyTime t => marshal_time params t
  | AnyBytes b => Ok (tagged params TagOctetString false b)
  end.
Definition marshal_raw (v : RawValue) : bytes :=
  if negb (zlen (rv_FullBytes v) =? 0) then rv_FullBytes v
  else tlv (rv_Class v) (rv_Tag v) (rv_IsCompound v) (rv_Bytes v).

Fixpoint marshal_list {A} (f : A → res error bytes) (l : list A) : res error (list bytes) :=
  match l with
  | [] => Ok []
  | a :: l => b ← f a; bs ← marshal_list f l; Ok (b :: bs)
  end.

(** [makeField(v, params)] *)
Fixpoint makeField {A} (t : gotype A) (params : fieldParameters) (v : A) {struct t} : res error bytes :=
  if omitted t params v then Ok []
  else
    match t in gotype A return A → res error bytes with
    | GBool => λ v, Ok (tagged params TagBoolean false [if v then Byte.xff else Byte.x00])
    | GInt => λ v, Ok (tagged params TagInteger false (makeInt v))
    | GEnumerated => λ v, Ok (tagged params TagEnum false (makeInt v))
    | GBigInt => λ v,
        match v with
        | Some n => Ok (tagged params TagInteger false (makeInt n))
        | None => Err (StructuralError "empty integer")
        end
    | GString => marshal_string params
    | GBytes => λ v, Ok (tagged params TagOctetString false v)
    | GOID => marshal_oid params
    | GBitString => marshal_bits params
    | GTime => marshal_time params
    | GRawValue => λ v, Ok (marshal_raw v)
    | GInterface => marshal_any params
    | GStruct _ fs => λ v,
        bodies ← make_fields fs v;
        Ok (tagged params (if p_set params then TagSet else TagSequence) true (concat bodies))
    | GSlice isSet elem => λ v,
        bodies ← marshal_list (makeField elem plain) v;
        let set := p_set params || isSet in
        Ok (tagged params (if set then TagSet else TagSequence) true
              (concat (if set then sort_bytes bodies else bodies)))
    end v
with make_fields {C A} (fs : gofields C A) (v : A) {struct fs} : res error (list bytes) :=
  match fs in gofields C A return A → res error (list bytes) with
  | FNil => λ _, Ok []
  | FRaw get fs => λ v, if 0 <? zlen (get v) then Ok [get v] else make_fields fs v
  | FCons params get t fs => λ v,
      b ← makeField t params (get v);
      bs ← make_fields fs v;
      Ok (b :: bs)
  end v.

(** [asn1.MarshalWithParams(v, params)], [asn1.Marshal(v)] *)
Definition MarshalWithParams {A} (t : gotype A) (params : fieldParameters) (v : A) : res error bytes :=
  makeField t params v.
Definition Marshal {A} (t : gotype A) (v : A) : res error bytes := MarshalWithParams t plain v.
End Marshal.

(** ** Decoding what was encoded *)
Section Roundtrip.
Context {T : GoTime}.

Lemma zlen_tlv class tag comp body : zlen body ≤ zlen (tlv class tag comp body).
Proof. unfold tlv. rewrite zlen_app. pose proof (zlen_nonneg (appendTagAndLength (mkTag class tag (zlen body) comp))). lia. Qed.

(** The header the decoder finds in front of the contents *)
Definition found_header (params : fieldParameters) (tag : Z) (comp : bool) (body : bytes) : tagAndLength :=
  match p_tag params with
  | Some t => if p_explicit params then mkTag ClassUniversal tag (zlen body) comp
              else mkTag ClassContextSpecific t (zlen body) comp
  | None => mkTag ClassUniversal tag (zlen body) comp
  end.
Definition wf_params (params : fieldParameters) : Prop :=
  match p_tag params with Some t => 0 ≤ t ≤ MaxInt32 | None => p_explicit params = false end.

Lemma match_header_tagged params u tag body rest :
  wf_params params → 0 ≤ tag ≤ MaxInt32 → zlen (tagged params tag (u_compound u) body) < 2 ^ 31 →
  let h := found_header params tag (u_compound u) body in
  (tl_class h = ClassUniversal → u_matchAny u = false → universal_tag params u h = tag) →
  u_matchAny u = false →
  match_header params false u (tagged params tag (u_compound u) body ++ rest)
  = Ok (Present (universal_tag params u h) h body rest).
Proof.
  intros Hp Htag Hlen h Hu Hany. unfold match_header, tagged, wf_params, found_header in *.
  destruct (p_tag params) as [t|] eqn:Et; [destruct (p_explicit params) eqn:Ee|].
  - set (inner := tlv ClassUniversal tag _ body) in *.
    pose proof (zlen_tlv ClassContextSpecific t true inner). pose proof (zlen_tlv ClassUniversal tag (u_compound u) body).
    fold inner in H0. rewrite header_tlv; [|by split|lia]. cbn [mbind res_bind fst snd].
    unfold explicit_header. rewrite Ee. cbn [negb tl_class tl_tag tl_length tl_isCompound].
    unfold inner at 1. rewrite tlv_nonempty, Et, bool_decide_eq_true_2 by done. rewrite orb_true_r. cbn [Z.eqb andb].
    assert (0 <? zlen inner = true) as ->.
    { apply Z.ltb_lt. pose proof (tlv_nonempty ClassUniversal tag (u_compound u) body []) as Hne.
      rewrite app_nil_r in Hne. fold inner in Hne. apply Z.eqb_neq in Hne. pose proof (zlen_nonneg inner). lia. }
    unfold inner. rewrite header_tlv; [|by split|lia]. rewrite Z.eqb_refl. cbn [andb mbind res_bind fst snd].
    fold h. rewrite Hany, Hu by done. cbn [negb andb]. unfold h. cbn [tl_class tl_tag tl_isCompound].
    rewrite !Z.eqb_refl, Bool.eqb_reflx. cbn [negb orb].
    rewrite (proj2 (contents_Ok (mkTag ClassUniversal tag (zlen body) (u_compound u)) (body ++ rest) body rest (zlen_nonneg _)))
      by done. done.
  - pose proof (zlen_tlv ClassContextSpecific t (u_compound u) body).
    rewrite header_tlv; [|by split|lia]. cbn [mbind res_bind fst snd].
    unfold explicit_header. rewrite Ee. cbn [negb mbind res_bind]. fold h. rewrite Hany. cbn [negb andb].
    unfold h at 1 2 3. cbn [tl_class tl_tag tl_isCompound]. rewrite !Z.eqb_refl, Bool.eqb_reflx. cbn [negb orb].
    rewrite (proj2 (contents_Ok h (body ++ rest) body rest (zlen_nonneg _))) by done. done.
  - pose proof (zlen_tlv ClassUniversal tag (u_compound u) body).
    rewrite header_tlv; [|by split|lia]. cbn [mbind res_bind fst snd].
    unfold explicit_header. rewrite Hp. cbn [negb mbind res_bind]. fold h. rewrite Hany, Hu by done. cbn [negb andb].
    unfold h at 1 2 3. cbn [tl_class tl_tag tl_isCompound]. rewrite !Z.eqb_refl, Bool.eqb_reflx. cbn [negb orb].
    rewrite (proj2 (contents_Ok h (body ++ rest) body rest (zlen_nonneg _))) by done. done.
Qed.

Lemma tagged_nonempty params tag comp body rest : zlen (tagged params tag comp body ++ rest) =? 0 = false.
Proof. unfold tagged. destruct (p_tag params); [destruct (p_explicit params)|]; apply tlv_nonempty. Qed.

(** A field that is there *)
Lemma parseField_tagged {A} (t : gotype A) params u tag body v rest :
  getUniversalType t = Some u → is_raw t = false → u_matchAny u = false →
  wf_params params → 0 ≤ tag ≤ MaxInt32 → zlen (tagged params tag (u_compound u) body) < 2 ^ 31 →
  let h := found_header params tag (u_compound u) body in
  (tl_class h = ClassUniversal → universal_tag params u h = tag) →
  parseField t params v (tagged params tag (u_compound u) body ++ rest)
  = let '(v, r) := parse_body t (universal_tag params u h) h (tagged params tag (u_compound u) body) body v in
    (v, _ ← r; Ok rest).
Proof.
  intros Hu Hraw Hany Hp Htag Hlen h Hut. unfold parseField, parse_frame.
  rewrite tagged_nonempty, Hu, Hraw, match_header_tagged by auto.
  by rewrite length_app, take_app_len by lia.
Qed.

(** *** Strings and object identifiers *)
Lemma isPrintable_weaken b : isPrintable false false b = true → isPrintable true true b = true.
Proof. unfold isPrintable. rewrite !andb_false_l, !orb_false_r. intros ->. by rewrite !orb_true_l. Qed.

Lemma check_printable s :
  forallb (λ x, isPrintable false false (byte.unsigned x)) s = true → parsePrintableString s = Ok s.
Proof.
  intros H. unfold parsePrintableString, check_chars. replace (forallb _ s) with true; [done|].
  symmetry. apply forallb_forall. intros x Hx. apply isPrintable_weaken.
  by apply (proj1 (forallb_forall _ _) H).
Qed.

(** A string without a string type, or of type UTF8String *)
Definition string_params (params : fieldParameters) : Prop :=
  p_tag params = None ∧ p_explicit params = false ∧ p_set params = false ∧
  (p_stringType params = 0 ∨ p_stringType params = TagUTF8String).

Lemma marshal_string_Ok params s b :
  string_params params → (p_stringType params = TagUTF8String → utf8_Valid s = true) →
  marshal_string params s = Ok b →
  ∃ tag, b = tlv ClassUniversal tag false s ∧ (tag = TagPrintableString ∨ tag = TagUTF8String) ∧
         parseString tag s = Ok s.
Proof.
  intros (Ht & He & Hs & Hty) Hv. unfold marshal_string, tagged, string_tag, makeString. rewrite Ht.
  destruct Hty as [Hty|Hty]; rewrite Hty in *.
  - change (negb (0 =? 0)) with false. change (0 =? TagIA5String) with false. change (0 =? TagPrintableString) with false.
    change (0 =? TagNumericString) with false.
    destruct (forallb (λ x, isPrintable false false _) s) eqn:Hp.
    + cbn [mbind res_bind]. intros [= <-]. exists TagPrintableString. split; [done|]. split; [by left|]. by apply check_printable.
    + destruct (utf8_Valid s) eqn:Hu; [|done]. cbn [mbind res_bind]. intros [= <-]. exists TagUTF8String.
      split; [done|]. split; [by right|]. unfold parseString. cbn. unfold parseUTF8String. by rewrite Hu.
  - change (negb (TagUTF8String =? 0)) with true. cbn [mbind res_bind].
    change (TagUTF8String =? TagIA5String) with false. change (TagUTF8String =? TagPrintableString) with false.
    change (TagUTF8String =? TagNumericString) with false. cbn [mbind res_bind]. intros [= <-]. exists TagUTF8String. split; [done|]. split; [by right|].
    unfold parseString. cbn. unfold parseUTF8String. by rewrite Hv.
Qed.

Lemma parse_marshalled_string params s b v rest :
  string_params params → (p_stringType params = TagUTF8String → utf8_Valid s = true) →
  marshal_string params s = Ok b → zlen b < 2 ^ 31 →
  parseField GString params v (b ++ rest) = (s, Ok rest).
Proof.
  intros Hp Hv Hm Hlen. destruct (marshal_string_Ok _ _ _ Hp Hv Hm) as (tag & -> & Htag & Hparse).
  destruct Hp as (Ht & He & Hs & _).
  assert (Htl : tlv ClassUniversal tag false s = tagged params tag false s) by (unfold tagged; by rewrite Ht).
  rewrite Htl in *.
  rewrite (parseField_tagged GString params (mkUniversal false TagPrintableString false)); try done.
  - cbn [u_compound u_matchAny u_tag parse_body]. unfold found_header. rewrite Ht.
    unfold universal_tag. rewrite Hs. cbn [u_tag tl_class tl_tag].
    replace (if isStringTag tag then tag else TagPrintableString) with tag by (destruct Htag as [->| ->]; done).
    cbn. by rewrite Hparse.
  - unfold wf_params. by rewrite Ht.
  - destruct Htag as [->| ->]; by split.
  - intros _. unfold found_header. rewrite Ht. unfold universal_tag. rewrite Hs. cbn.
    by destruct Htag as [->| ->].
Qed.

Lemma parse_marshalled_any s b v rest :
  marshal_any plain (AnyString s) = Ok b → zlen b < 2 ^ 31 → parse_any v (b ++ rest) = (AnyString s, Ok rest).
Proof.
  intros Hm Hlen. apply marshal_string_Ok in Hm as (tag & -> & Htag & Hparse); [|by repeat split; left|done].
  unfold parse_any. pose proof (zlen_tlv ClassUniversal tag false s).
  rewrite header_tlv; [|destruct Htag as [->| ->]; by repeat split|lia].
  cbn [mbind res_bind fst snd].
  rewrite (proj2 (contents_Ok (mkTag ClassUniversal tag (zlen s) false) (s ++ rest) s rest (zlen_nonneg _))) by done.
  cbn [mbind res_bind fst snd tl_isCompound tl_class tl_tag]. rewrite Z.eqb_refl. cbn [orb negb].
  destruct Htag as [->| ->]; cbn in Hparse |- *; by rewrite Hparse.
Qed.

Lemma parse_marshalled_oid params o b v rest :
  wf_oid o → p_tag params = None → p_explicit params = false → p_set params = false →
  marshal_oid params o = Ok b → zlen b < 2 ^ 31 →
  parseField GOID params v (b ++ rest) = (o, Ok rest).
Proof.
  intros Ho Ht He Hs (body & Hb & [= <-])%res_bind_Ok_inv Hlen.
  rewrite (parseField_tagged GOID params (mkUniversal false TagOID false)); try done.
  - cbn [parse_body]. by rewrite (parse_makeObjectIdentifier o body).
  - unfold wf_params. by rewrite Ht.
  - intros _. unfold universal_tag. rewrite Hs. done.
Qed.

(** *** Optional fields that are left out *)
Lemma absent_at_end {A} (t : gotype A) params v :
  p_optional params = true → p_defaultValue params = None → parseField t params v [] = (v, Ok []).
Proof. intros Ho Hd. unfold parseField, parse_frame, setDefaultValue. cbn. by rewrite Ho, Hd. Qed.

(** *** Sequences *)
Definition header_matches (u : universal) (b : bytes) : Prop :=
  ∃ class tag comp body, b = tlv class tag comp body ∧ wf_tag class tag ∧ zlen body < 2 ^ 31 ∧
    (u_matchAny u = true ∨
     class = ClassUniversal ∧ comp = u_compound u ∧ tag = u_tag u ∧ isStringTag tag = false ∧
     bool_decide (tag ∈ [TagGeneralizedTime; TagUTCTime]) = false).

Lemma count_elements_concat u bs : ∀ fuel,
  Forall (header_matches u) bs → (length (concat bs) ≤ fuel)%nat →
  count_elements fuel u (concat bs) = Ok (length bs).
Proof.
  induction bs as [|b bs IH]; intros fuel Hbs Hf; [by destruct fuel|].
  apply Forall_cons in Hbs as [(class & tag & comp & body & -> & Hw & Hlen & Hm) Hbs].
  cbn [concat] in *. destruct fuel as [|fuel].
  { pose proof (tlv_nonempty class tag comp body (concat bs)) as Hne. apply Z.eqb_neq in Hne.
    unfold zlen in Hne. lia. }
  assert (Hc : ∀ r, count_elements (S fuel) u (tlv class tag comp body ++ r)
             = tb ← parseTagAndLength (tlv class tag comp body ++ r);
               let t := tb.1 in
               let tag := if isStringTag (tl_tag t) then TagPrintableString
                          else if bool_decide (tl_tag t ∈ [TagGeneralizedTime; TagUTCTime]) then TagUTCTime
                          else tl_tag t in
               if negb (u_matchAny u)
                  && (negb (tl_class t =? ClassUniversal) || negb (Bool.eqb (tl_isCompound t) (u_compound u))
                      || negb (tag =? u_tag u))
               then Err (StructuralError "sequence tag mismatch")
               else if zlen tb.2 <? tl_length t then Err (SyntaxError "truncated sequence")
               else n ← count_elements fuel u (drop (Z.to_nat (tl_length t)) tb.2); Ok (S n)).
  { intros r. destruct (tlv class tag comp body ++ r) eqn:E; [|done].
    pose proof (tlv_nonempty class tag comp body r) as Hne. by rewrite E in Hne. }
  rewrite Hc, header_tlv by done. cbn [mbind res_bind fst snd tl_class tl_tag tl_isCompound tl_length].
  replace (negb (u_matchAny u) && _) with false; cycle 1.
  { destruct Hm as [->|(-> & -> & -> & -> & ->)]; [done|].
    by rewrite !Z.eqb_refl, Bool.eqb_reflx, andb_false_r. }
  rewrite (proj2 (Z.ltb_ge _ _)) by (rewrite zlen_app; pose proof (zlen_nonneg (concat bs)); lia).
  unfold zlen at 1. rewrite Nat2Z.id, drop_app_length.
  rewrite length_app in Hf. rewrite IH; [done|done|].
  pose proof (tlv_nonempty class tag comp body []) as Hne. apply Z.eqb_neq in Hne.
  rewrite app_nil_r in Hne. unfold zlen in Hne. lia.
Qed.

Lemma parse_elements_concat {A} (parse : bytes → A * res error bytes) bs vs :
  Forall2 (λ (b : bytes) v, ∀ rest : bytes, parse (b ++ rest) = (v, Ok rest)) bs vs →
  parse_elements parse (length bs) (concat bs) = Ok vs.
Proof.
  induction 1 as [|b v bs vs Hb _ IH]; cbn [parse_elements length concat]; [done|].
  rewrite Hb. cbn [mbind res_bind]. by rewrite IH.
Qed.

(** A list whose elements decode to what was encoded *)
Lemma parse_marshalled_list {A} (isSet : bool) (elem : gotype A) u params bs vs v rest :
  getUniversalType elem = Some u →
  Forall (header_matches u) bs →
  Forall2 (λ (b : bytes) v, ∀ rest : bytes, parseField elem plain (zero elem) (b ++ rest) = (v, Ok rest)) bs vs →
  let tag := if isSet then TagSet else TagSequence in
  wf_params params → p_set params = false →
  zlen (tagged params tag true (concat bs)) < 2 ^ 31 →
  parseField (GSlice isSet elem) params v (tagged params tag true (concat bs) ++ rest) = (vs, Ok rest).
Proof.
  intros Hu Hbs Hvs tag Hp Hs Hlen.
  rewrite (parseField_tagged (GSlice isSet elem) params (mkUniversal false tag true)); try done.
  - cbn [parse_body]. rewrite Hu, count_elements_concat by done. cbn [mbind res_bind].
    by rewrite (parse_elements_concat _ bs vs Hvs :
      parse_elements (parse_frame elem plain (parse_body elem) (zero elem)) _ _ = _).
  - unfold tag. destruct isSet; by split.
  - intros _. unfold universal_tag. rewrite Hs. unfold tag. by destruct isSet.
Qed.

Lemma marshal_list_Forall2 {A} (f : A → res error bytes) l bs :
  marshal_list f l = Ok bs → Forall2 (λ b a, f a = Ok b) bs l.
Proof.
  revert bs. induction l as [|a l IH]; intros bs; cbn; [by intros [= <-]|].
  intros (b & Hb & (bs' & Hbs & [= <-])%res_bind_Ok_inv)%res_bind_Ok_inv. constructor; auto.
Qed.

Lemma zlen_concat_le (b : bytes) bs : b ∈ bs → zlen b ≤ zlen (concat bs).
Proof.
  intros (l1 & l2 & ->)%list_elem_of_split. rewrite concat_app. cbn. rewrite !zlen_app.
  pose proof (zlen_nonneg (concat l1)). pose proof (zlen_nonneg (concat l2)). lia.
Qed.

Lemma zlen_tagged params tag comp body : zlen body ≤ zlen (tagged params tag comp body).
Proof.
  unfold tagged. destruct (p_tag params); [destruct (p_explicit params)|]; try apply zlen_tlv.
  etransitivity; [|apply zlen_tlv]. apply zlen_tlv.
Qed.
End Roundtrip.
