(* ===== verification/Pkix.v ===== *)
(** * Names and extensions ([crypto/x509/pkix])

    The structures of the standard library that X.509 extensions and attribute
    certificates are made of, with their ASN.1 descriptions, and the two
    conversions between a [Name] and its sequence of distinguished names. *)
From S2P Require Import Prelude GoBytes Asn1 Asn1Types.

(** A structure's fields, one per line: parameters, projection, type. *)
Declare Scope gofields_scope.
Delimit Scope gofields_scope with gofields.
Notation "p '⟦' get ':' t '⟧' ; fs" := (FCons p get t fs)
  (at level 60, get at level 9, t at level 9, right associativity) : gofields_scope.
Notation "'⟦Raw' get '⟧' ; fs" := (FRaw get fs)
  (at level 60, get at level 9, right associativity) : gofields_scope.
Notation "⟦⟧" := FNil : gofields_scope.
Notation "'struct' mk fs" := (GStruct mk fs%gofields) (at level 10, mk at level 9, fs at level 9).

Section Pkix.
Context {T : GoTime}.

Record AlgorithmIdentifier := mkAlgorithmIdentifier { ai_Algorithm : list Z; ai_Parameters : RawValue }.
Definition AlgorithmIdentifier_type : gotype AlgorithmIdentifier :=
  struct mkAlgorithmIdentifier
    (plain ⟦ai_Algorithm : GOID⟧; optional ⟦ai_Parameters : GRawValue⟧; ⟦⟧).

Record Extension := mkExtension { ext_Id : list Z; ext_Critical : bool; ext_Value : bytes }.
Definition Extension_type : gotype Extension :=
  struct mkExtension
    (plain ⟦ext_Id : GOID⟧; optional ⟦ext_Critical : GBool⟧; plain ⟦ext_Value : GBytes⟧; ⟦⟧).

Record AttributeTypeAndValue := mkATV { atv_Type : list Z; atv_Value : any }.
Definition AttributeTypeAndValue_type : gotype AttributeTypeAndValue :=
  struct mkATV (plain ⟦atv_Type : GOID⟧; plain ⟦atv_Value : GInterface⟧; ⟦⟧).

Definition RDNSequence : Type := list (list AttributeTypeAndValue).
Definition RDNSequence_type : gotype RDNSequence := GSlice false (GSlice true AttributeTypeAndValue_type).

Record Name := mkName {
  n_Country : list bytes; n_Organization : list bytes; n_OrganizationalUnit : list bytes;
  n_Locality : list bytes; n_Province : list bytes; n_StreetAddress : list bytes;
  n_PostalCode : list bytes; n_SerialNumber : bytes; n_CommonName : bytes;
  n_Names : list AttributeTypeAndValue; n_ExtraNames : list AttributeTypeAndValue;
}.
Definition no_name : Name := mkName [] [] [] [] [] [] [] [] [] [] [].

(** One attribute of [FillFromRDNSequence] *)
Definition fill_attribute (n : Name) (atv : AttributeTypeAndValue) : Name :=
  let 'mkName c o ou l p sa pc sn cn names extra := n in
  let names := names ++ [atv] in
  let same := mkName c o ou l p sa pc sn cn names extra in
  match atv_Value atv with
  | AnyString value =>
      match atv_Type atv with
      | [2; 5; 4; t] =>
          if t =? 3 then mkName c o ou l p sa pc sn value names extra
          else if t =? 5 then mkName c o ou l p sa pc value cn names extra
          else if t =? 6 then mkName (c ++ [value]) o ou l p sa pc sn cn names extra
          else if t =? 7 then mkName c o ou (l ++ [value]) p sa pc sn cn names extra
          else if t =? 8 then mkName c o ou l (p ++ [value]) sa pc sn cn names extra
          else if t =? 9 then mkName c o ou l p (sa ++ [value]) pc sn cn names extra
          else if t =? 10 then mkName c (o ++ [value]) ou l p sa pc sn cn names extra
          else if t =? 11 then mkName c o (ou ++ [value]) l p sa pc sn cn names extra
          else if t =? 17 then mkName c o ou l p sa (pc ++ [value]) sn cn names extra
          else same
      | _ => same
      end
  | _ => same
  end.
Definition FillFromRDNSequence (n : Name) (rdns : RDNSequence) : Name :=
  foldl (foldl fill_attribute) n rdns.

Definition appendRDNs (extra : list AttributeTypeAndValue) (rdns : RDNSequence) (values : list bytes)
    (oid : list Z) : RDNSequence :=
  if (zlen values =? 0) || existsb (λ atv, bool_decide (atv_Type atv = oid)) extra then rdns
  else rdns ++ [(λ v, mkATV oid (AnyString v)) <$> values].
Definition nonempty (s : bytes) : list bytes := if 0 <? zlen s then [s] else [].
Definition ToRDNSequence (n : Name) : RDNSequence :=
  let add := appendRDNs (n_ExtraNames n) in
  let ret := add [] (n_Country n) [2; 5; 4; 6] in
  let ret := add ret (n_Organization n) [2; 5; 4; 10] in
  let ret := add ret (n_OrganizationalUnit n) [2; 5; 4; 11] in
  let ret := add ret (n_Locality n) [2; 5; 4; 7] in
  let ret := add ret (n_Province n) [2; 5; 4; 8] in
  let ret := add ret (n_StreetAddress n) [2; 5; 4; 9] in
  let ret := add ret (n_PostalCode n) [2; 5; 4; 17] in
  let ret := add ret (nonempty (n_CommonName n)) [2; 5; 4; 3] in
  let ret := add ret (nonempty (n_SerialNumber n)) [2; 5; 4; 5] in
  ret ++ ((λ atv, [atv]) <$> n_ExtraNames n).
End Pkix.
