(* ===== verification/X509Ext.v ===== *)
(** * X.509 extensions ([x509/x509ext.go])

    Subject alternative names with directory names and permanent identifiers:
    reading and writing the extension. *)
From S2P Require Import Prelude GoBytes Loops Oid Asn1 Asn1Types Asn1Marshal Pkix.

Definition oidPermanentIdentifier : list Z := [1; 3; 6; 1; 5; 5; 7; 8; 3].

Section X509Ext.
Context {T : GoTime}.

Record otherName := mkOtherName { on_TypeID : list Z; on_Value : RawValue }.
Definition otherName_type : gotype otherName :=
  struct mkOtherName (plain ⟦on_TypeID : GOID⟧; plain ⟦on_Value : GRawValue⟧; ⟦⟧).

(** [asn1.RawValue{FullBytes: b}] *)
Definition full_bytes (b : bytes) : RawValue := mkRaw 0 0 false [] b.

Definition marshalOtherName {A} (typeID : list Z) (t : gotype A) (value : A) : res error RawValue :=
  valueBytes ← MarshalWithParams t (explicit_tag 0) value;
  b ← MarshalWithParams otherName_type (implicit_tag 0) (mkOtherName typeID (full_bytes valueBytes));
  Ok (full_bytes b).

Record PermanentIdentifier := mkPermanentIdentifier { pid_IdentifierValue : bytes; pid_Assigner : list Z }.
Definition PermanentIdentifier_type : gotype PermanentIdentifier :=
  struct mkPermanentIdentifier
    ((mkParams true false false None None TagUTF8String) ⟦pid_IdentifierValue : GString⟧;
     optional ⟦pid_Assigner : GOID⟧; ⟦⟧).

Definition parsePermanentIdentifier (der : bytes) : res error PermanentIdentifier :=
  pr ← decode PermanentIdentifier_type (explicit_tag 0) der; Ok pr.1.

Record SubjectAltName := mkSAN {
  san_DirectoryNames : list Name; san_PermanentIdentifiers : list PermanentIdentifier;
}.

(** [forEachSAN]: the callback updates a state. *)
Definition forEachSAN {S} (extension : bytes) (callback : S → RawValue → res error S) (s : S) : res error S :=
  sr ← decode GRawValue plain extension;
  let seq := sr.1 in
  if negb (zlen sr.2 =? 0) then Err (Errorf "x509: trailing data after X.509 extension")
  else if negb (rv_IsCompound seq) || negb (rv_Tag seq =? 16) || negb (rv_Class seq =? 0)
  then Err (StructuralError "bad SAN sequence")
  else
    der_loop (length (rv_Bytes seq))
      (λ s rest, vr ← decode GRawValue plain rest; s ← callback s vr.1; Ok (s, vr.2)) s (rv_Bytes seq).

Definition general_name (s : list Name * list otherName) (generalName : RawValue)
  : res error (list Name * list otherName) :=
  let '(dirNames, otherNames) := s in
  if rv_Tag generalName =? 0 then
    pr ← wrapf "OtherName: asn1.UnmarshalWithParams: %v"
           (decode otherName_type (implicit_tag 0) (rv_FullBytes generalName));
    Ok (dirNames, otherNames ++ [pr.1])
  else if rv_Tag generalName =? 4 then
    pr ← wrapf "DirectoryName: asn1.Unmarshal: %v" (decode RDNSequence_type plain (rv_Bytes generalName));
    Ok (dirNames ++ [FillFromRDNSequence no_name pr.1], otherNames)
  else Err (Errorf "expected tag %d").

Definition parseSubjectAltName (ext : Extension) : res error (list Name * list otherName) :=
  forEachSAN (ext_Value ext) general_name ([], []).

Definition permanent_identifier (l : list PermanentIdentifier) (o : otherName)
  : res error (list PermanentIdentifier) :=
  if bool_decide (on_TypeID o = oidPermanentIdentifier) then
    permID ← wrapf "parsePermanentIdentifier: %v" (parsePermanentIdentifier (rv_FullBytes (on_Value o)));
    Ok (l ++ [permID])
  else Ok l.

Definition ParseSubjectAltName (ext : Extension) : res error SubjectAltName :=
  names ← wrapf "parseSubjectAltName: %v" (parseSubjectAltName ext);
  permIDs ← for_each permanent_identifier [] names.2;
  Ok (mkSAN names.1 permIDs).

Definition marshal_permanent_identifier (generalNames : list RawValue) (permID : PermanentIdentifier)
  : res error (list RawValue) :=
  val ← marshalOtherName oidPermanentIdentifier PermanentIdentifier_type permID;
  Ok (generalNames ++ [val]).
Definition marshal_directory_name (generalNames : list RawValue) (dirName : Name) : res error (list RawValue) :=
  b ← MarshalWithParams RDNSequence_type (explicit_tag 4) (ToRDNSequence dirName);
  Ok (generalNames ++ [full_bytes b]).

Definition MarshalSubjectAltName (san : SubjectAltName) (critical : bool) : res error Extension :=
  generalNames ← for_each marshal_permanent_identifier [] (san_PermanentIdentifiers san);
  generalNames ← for_each marshal_directory_name generalNames (san_DirectoryNames san);
  val ← Marshal (GSlice false GRawValue) generalNames;
  Ok (mkExtension Oid.SubjectAltName critical val).
End X509Ext.

(** ** Raw values, one after the other *)
Section Spec.
Context {T : GoTime}.

Lemma parse_raw_value class tag comp body v rest :
  wf_tag class tag → zlen body < 2 ^ 31 →
  parseField GRawValue plain v (tlv class tag comp body ++ rest) = (raw class tag comp body, Ok rest).
Proof.
  intros Hw Hl. unfold parseField, parse_frame. rewrite tlv_nonempty. cbn [getUniversalType is_raw].
  unfold match_header. rewrite header_tlv by done. cbn [mbind res_bind fst snd].
  unfold explicit_header. cbn [plain p_explicit negb mbind res_bind p_tag u_matchAny andb orb].
  rewrite (proj2 (contents_Ok (mkTag class tag (zlen body) comp) (body ++ rest) body rest (zlen_nonneg _))) by done.
  cbn [mbind res_bind fst snd parse_body tl_class tl_tag tl_isCompound].
  by rewrite length_app, take_app_len by lia.
Qed.

Lemma decode_raw_value_inv b v rest :
  decode GRawValue plain b = Ok (v, rest) → b = rv_FullBytes v ++ rest ∧ wf_raw v.
Proof.
  intros H%decode_Ok. unfold parseField, parse_frame in H. destruct (zlen b =? 0); [done|].
  cbn [getUniversalType is_raw] in H. unfold match_header in H.
  destruct (parseTagAndLength b) as [[t b1]| | |] eqn:Ht; try done. cbn [mbind res_bind fst snd] in H.
  apply parseTagAndLength_inv in Ht as [-> [Hw Hl]].
  unfold explicit_header in H. cbn [plain p_explicit negb mbind res_bind p_tag u_matchAny andb orb] in H.
  destruct (contents t b1) as [[body r]| | |] eqn:Hc; try done. apply contents_Ok in Hc as [-> Hlen]; [|lia].
  cbn [mbind res_bind fst snd parse_body] in H. injection H as <- <-.
  destruct t as [class tag len comp]; cbn in *. subst len. unfold wf_raw, tlv; cbn.
  rewrite app_assoc, length_app, take_app_len by lia. split; [done|]. split; [done|]. split; [lia|done].
Qed.

Definition all_bytes (vs : list RawValue) : bytes := concat (rv_FullBytes <$> vs).

Section Loop.
Context {S : Type} (callback : S → RawValue → res error S).
Let step s rest := vr ← decode GRawValue plain rest; s ← callback s vr.1; Ok (s, vr.2).

Lemma raw_loop vs : ∀ fuel s,
  Forall wf_raw vs → (length (all_bytes vs) ≤ fuel)%nat →
  der_loop fuel step s (all_bytes vs) = for_each callback s vs.
Proof.
  induction vs as [|v vs IH]; intros fuel s Hw Hf; [by destruct fuel|].
  apply Forall_cons in Hw as [Hv Hw]. destruct Hv as (Ht & Hl & Hfull).
  pose proof (tlv_nonempty (rv_Class v) (rv_Tag v) (rv_IsCompound v) (rv_Bytes v) []) as Hne.
  rewrite app_nil_r, <-Hfull in Hne. apply Z.eqb_neq in Hne. unfold zlen in Hne.
  unfold all_bytes in *. cbn [fmap list_fmap concat] in *. fold (all_bytes vs) in *.
  rewrite length_app in Hf. destruct fuel as [|fuel]; [lia|].
  assert (Hstep : step s (rv_FullBytes v ++ all_bytes vs) = s ← callback s v; Ok (s, all_bytes vs)).
  { unfold step. rewrite Hfull.
    rewrite (proj2 (decode_Ok GRawValue plain _ _ _) (parse_raw_value _ _ _ _ _ _ Ht Hl)). cbn [mbind res_bind fst snd].
    replace (raw _ _ _ _) with v; [done|]. destruct v. cbn in *. by rewrite Hfull. }
  cbn [der_loop for_each].
  destruct (rv_FullBytes v ++ all_bytes vs) eqn:E; [by destruct (rv_FullBytes v)|]. rewrite Hstep.
  destruct (callback s v) as [s'| | |]; cbn [mbind res_bind fst snd]; try done.
  apply IH; [done|]. unfold all_bytes in *. lia.
Qed.

Lemma raw_loop_inv fuel : ∀ s s' rest,
  der_loop fuel step s rest = Ok s' →
  ∃ vs, rest = all_bytes vs ∧ Forall wf_raw vs ∧ for_each callback s vs = Ok s'.
Proof.
  induction fuel as [|fuel IH]; intros s s' [|x rest] H; cbn [der_loop] in H; try done;
    try (injection H as <-; by exists []).
  apply res_bind_Ok_inv in H as ([s1 r] & H1 & H).
  apply res_bind_Ok_inv in H1 as ([v r'] & Hv & (s2 & Hs & [= -> ->])%res_bind_Ok_inv). cbn in Hs.
  apply decode_raw_value_inv in Hv as [Hb Hw]. apply IH in H as (vs & Hr & Hvs & Hfe). cbn in Hr.
  exists (v :: vs). split; [by rewrite Hb, Hr|]. split; [by constructor|]. cbn. by rewrite Hs.
Qed.

(** [forEachSAN] runs over the values of a SEQUENCE. *)
Lemma forEachSAN_Ok b s s' :
  forEachSAN b callback s = Ok s' ↔
  ∃ vs, b = tlv 0 16 true (all_bytes vs) ∧ zlen (all_bytes vs) < 2 ^ 31 ∧ Forall wf_raw vs ∧
        for_each callback s vs = Ok s'.
Proof.
  unfold forEachSAN. split.
  - intros ([seq rest] & Hd & H)%res_bind_Ok_inv. cbv zeta in H. cbn [fst snd] in H.
    apply decode_raw_value_inv in Hd as (-> & Ht & Hl & Hfull).
    destruct (zlen rest =? 0) eqn:Er; [|done]. apply Z.eqb_eq, zlen_0 in Er as ->. cbn [negb] in H.
    destruct (_ || _ || _) eqn:E; [done|]. apply orb_false_iff in E as [[E1 E2]%orb_false_iff E3].
    apply negb_false_iff in E1, E2, E3. apply Z.eqb_eq in E2, E3.
    apply raw_loop_inv in H as (vs & Hb & Hvs & Hfe). exists vs.
    rewrite app_nil_r, Hfull, E1, E2, E3, Hb in *. done.
  - intros (vs & -> & Hl & Hvs & Hfe).
    rewrite <-(app_nil_r (tlv 0 16 true _)).
    rewrite (proj2 (decode_Ok GRawValue plain _ _ _) (parse_raw_value 0 16 true (all_bytes vs) _ [] ltac:(by repeat split) Hl)).
    cbn [mbind res_bind fst snd raw rv_IsCompound rv_Tag rv_Class rv_Bytes]. cbn. by rewrite raw_loop.
Qed.
End Loop.

(** ** Parsing accepts sequences of general names it understands *)

(** What one general name contributes: directory names and identifiers *)
Definition general_name_of (v : RawValue) : res error (list Name * list PermanentIdentifier) :=
  if rv_Tag v =? 0 then
    pr ← decode otherName_type (implicit_tag 0) (rv_FullBytes v);
    if bool_decide (on_TypeID pr.1 = oidPermanentIdentifier) then
      p ← parsePermanentIdentifier (rv_FullBytes (on_Value pr.1)); Ok ([], [p])
    else Ok ([], [])
  else if rv_Tag v =? 4 then
    pr ← decode RDNSequence_type plain (rv_Bytes v);
    Ok ([FillFromRDNSequence no_name pr.1], [])
  else Err (Errorf "expected tag %d").

Lemma general_name_extends vs : ∀ d o names,
  for_each general_name (d, o) vs = Ok names → ∃ k, names.2 = o ++ k.
Proof.
  induction vs as [|v vs IH]; intros d o names; cbn [for_each].
  - intros [= <-]. exists []. by rewrite app_nil_r.
  - intros ([d1 o1] & H1 & H)%res_bind_Ok_inv. apply IH in H as [k ->]. unfold general_name in H1.
    destruct (_ =? 0); [|destruct (_ =? 4); [|done]]; apply res_bind_Ok_inv in H1 as (pr & _ & [= <- <-]);
      eexists; by rewrite <-?app_assoc.
Qed.

Lemma permanent_identifier_Ok l o l' :
  permanent_identifier l o = Ok l' ↔
  ∃ p, (if bool_decide (on_TypeID o = oidPermanentIdentifier) then
          p ← parsePermanentIdentifier (rv_FullBytes (on_Value o)); Ok [p]
        else Ok []) = Ok p ∧ l' = l ++ p.
Proof.
  unfold permanent_identifier. case_bool_decide.
  - unfold wrapf. destruct (parsePermanentIdentifier _) as [p| | |]; cbn; naive_solver.
  - split; [intros [= <-]; exists []; by rewrite app_nil_r|by intros (p & [= <-] & ->); rewrite app_nil_r].
Qed.

(** What reading the general names [vs] yields, from names [d0], other names
    [o0] and identifiers [l0] read before. *)
Definition collects (vs : list RawValue) (d0 : list Name) (o0 : list otherName) (l0 : list PermanentIdentifier)
    (d : list Name) (l : list PermanentIdentifier) : Prop :=
  (∃ o, for_each general_name (d0, o0) vs = Ok (d, o) ∧ for_each permanent_identifier [] o = Ok l) ↔
  ∃ parts, Forall2 (λ v p, general_name_of v = Ok p) vs parts ∧
           d = d0 ++ concat parts.*1 ∧ l = l0 ++ concat parts.*2.

Lemma collects_cons v vs d0 o0 l0 d l d1 o1 p :
  general_name (d0, o0) v = Ok (d1, o1) → general_name_of v = Ok p → d1 = d0 ++ p.1 →
  collects vs d1 o1 (l0 ++ p.2) d l → collects (v :: vs) d0 o0 l0 d l.
Proof.
  unfold collects. intros Hg Hof -> IH. cbn [for_each]. rewrite Hg. cbn [mbind res_bind]. rewrite IH. split.
  - intros (parts & Hp & -> & ->). exists (p :: parts). split; [by constructor|]. cbn. by rewrite !app_assoc.
  - intros (parts & Hp & -> & ->). inversion Hp as [|? p' ? parts' Hp1 Hp2]; subst.
    rewrite Hof in Hp1. injection Hp1 as <-. exists parts'. split; [done|]. cbn. by rewrite !app_assoc.
Qed.

Lemma general_names_collect vs : ∀ d0 o0 l0 d l,
  for_each permanent_identifier [] o0 = Ok l0 →
  (∃ o, for_each general_name (d0, o0) vs = Ok (d, o) ∧ for_each permanent_identifier [] o = Ok l) ↔
  ∃ parts, Forall2 (λ v p, general_name_of v = Ok p) vs parts ∧
           d = d0 ++ concat parts.*1 ∧ l = l0 ++ concat parts.*2.
Proof.
  induction vs as [|v vs IH]; intros d0 o0 l0 d l Hl0; cbn [for_each].
  { split.
    - intros (o & [= <- <-] & Ho). exists []. cbn. rewrite !app_nil_r. split_and!; [constructor|done|congruence].
    - intros (parts & Hp & -> & ->). inversion Hp; subst. cbn. rewrite !app_nil_r. eauto. }
  assert (∀ d1 o1 p, general_name (d0, o0) v = Ok (d1, o1) → general_name_of v = Ok p →
            d1 = d0 ++ p.1 → for_each permanent_identifier [] o1 = Ok (l0 ++ p.2) →
            collects (v :: vs) d0 o0 l0 d l) as Hstep.
  { intros d1 o1 p Hg Hof Hd Ho. eapply collects_cons; [done..|]. by apply IH. }
  unfold collects in Hstep. cbn [for_each] in Hstep.
  destruct (general_name (d0, o0) v) as [[d1 o1]| | |] eqn:Hg; cycle 1.
  1-3: split; [by intros (o & [=] & _)|]; intros (parts & Hp & _); inversion Hp as [|? p ? ? Hof]; subst;
    unfold general_name, general_name_of in *;
    destruct (_ =? 0); [|destruct (_ =? 4); [|done]];
    match type of Hg with context [decode ?t ?p ?b] => destruct (decode t p b) as [[]| | |]; done end.
  unfold general_name in Hg. unfold general_name_of in Hstep at 1.
  destruct (rv_Tag v =? 0) eqn:E0; [|destruct (rv_Tag v =? 4) eqn:E4; [|done]].
  - apply res_bind_Ok_inv in Hg as ([on r] & Hd%wrapf_Ok_inv & [= <- <-]). rewrite Hd in Hstep. cbn [mbind res_bind fst] in Hstep.
    set (one := if bool_decide (on_TypeID on = oidPermanentIdentifier) then
          p ← parsePermanentIdentifier (rv_FullBytes (on_Value on)); Ok [p] else Ok []).
    assert (Hone : (if bool_decide (on_TypeID on = oidPermanentIdentifier) then
                      p ← parsePermanentIdentifier (rv_FullBytes (on_Value on)); Ok ([], [p])
                    else Ok ([], [])) = p ← one; Ok (@nil Name, p)).
    { unfold one. case_bool_decide; [|done]. by destruct (parsePermanentIdentifier _). }
    rewrite Hone in Hstep. assert (Hdec : (∃ p, one = Ok p) ∨ ¬ ∃ p, one = Ok p)
      by (destruct one; [left; eauto|right; by intros [? ?]..]).
    destruct Hdec as [[p Hp]|Hno].
    + apply (Hstep d0 (o0 ++ [on]) ([], p)); [done|by rewrite Hp|by rewrite app_nil_r|].
      apply for_each_snoc_Ok. exists l0. split; [done|]. apply permanent_identifier_Ok. eauto.
    + split.
      * intros (o & Hfe & Ho). cbn [mbind res_bind] in Hfe.
        destruct (general_name_extends _ _ _ _ Hfe) as [k Hk]. cbn in Hk. subst o.
        rewrite for_each_app in Ho. apply res_bind_Ok_inv in Ho as (l1 & H1 & _).
        apply for_each_snoc_Ok in H1 as (l2 & H2 & H3). apply permanent_identifier_Ok in H3 as (p & Hp & _).
        destruct Hno. by exists p.
      * intros (parts & Hp & _). inversion Hp as [|? p ? ? Hof]; subst. unfold general_name_of in Hof.
        rewrite E0, Hd in Hof. cbn [mbind res_bind fst] in Hof. rewrite Hone in Hof.
        apply res_bind_Ok_inv in Hof as (p' & Hp' & _). destruct Hno. by exists p'.
  - apply res_bind_Ok_inv in Hg as ([rdns r] & Hd%wrapf_Ok_inv & [= <- <-]). rewrite Hd in Hstep.
    by eapply (Hstep _ o0 ([FillFromRDNSequence no_name rdns], [])); [..|rewrite app_nil_r].
Qed.

Lemma ParseSubjectAltName_Ok ext san :
  ParseSubjectAltName ext = Ok san ↔
  ∃ vs parts, ext_Value ext = tlv 0 16 true (all_bytes vs) ∧ zlen (all_bytes vs) < 2 ^ 31 ∧ Forall wf_raw vs ∧
    Forall2 (λ v p, general_name_of v = Ok p) vs parts ∧
    san = mkSAN (concat parts.*1) (concat parts.*2).
Proof.
  unfold ParseSubjectAltName, parseSubjectAltName.
  transitivity (∃ vs d l, ext_Value ext = tlv 0 16 true (all_bytes vs) ∧ zlen (all_bytes vs) < 2 ^ 31 ∧
    Forall wf_raw vs ∧ (∃ o, for_each general_name ([], []) vs = Ok (d, o) ∧ for_each permanent_identifier [] o = Ok l) ∧
    san = mkSAN d l).
  - split.
    + intros ([d o] & Hn%wrapf_Ok_inv & (l & Hl & [= <-])%res_bind_Ok_inv)%res_bind_Ok_inv.
      apply forEachSAN_Ok in Hn as (vs & Hb & Hlen & Hw & Hfe). exists vs, d, l. eauto 10.
    + intros (vs & d & l & Hb & Hlen & Hw & (o & Hfe & Ho) & ->).
      rewrite (proj2 (forEachSAN_Ok general_name (ext_Value ext) ([], []) (d, o))) by eauto.
      cbn [wrapf mbind res_bind snd fst]. by rewrite Ho.
  - split.
    + intros (vs & d & l & Hb & Hlen & Hw & Hfe & ->).
      apply (general_names_collect vs [] [] [] d l) in Hfe as (parts & Hp & -> & ->); [|done].
      exists vs, parts. done.
    + intros (vs & parts & Hb & Hlen & Hw & Hp & ->).
      exists vs, (concat parts.*1), (concat parts.*2). split; [done|]. split; [done|]. split; [done|].
      split; [|done]. apply (general_names_collect vs [] [] [] _ _); [done|]. by exists parts.
Qed.

(** ** Encoding and decoding again *)
Definition valid_oid (o : list Z) : Prop := wf_oid o ∧ ∃ b, makeObjectIdentifier o = Ok b.
Definition wf_permanent_identifier (p : PermanentIdentifier) : Prop :=
  utf8_Valid (pid_IdentifierValue p) = true ∧ (pid_Assigner p = [] ∨ valid_oid (pid_Assigner p)).
(** A name as parsing builds it, with one value for each attribute *)
Definition wf_directory_name (n : Name) : Prop :=
  FillFromRDNSequence no_name (ToRDNSequence n) = n ∧
  Forall (λ rdn, ∃ o s, rdn = [mkATV o (AnyString s)] ∧ valid_oid o ∧ utf8_Valid s = true) (ToRDNSequence n).

Lemma parse_struct_tagged {C A} (mk : C) (fs : gofields C A) params v body a rest :
  wf_params params → p_set params = false → zlen (tagged params TagSequence true body) < 2 ^ 31 →
  parse_fields fs (tagged params TagSequence true body) mk v body = (a, Ok tt) →
  parseField (GStruct mk fs) params v (tagged params TagSequence true body ++ rest) = (a, Ok rest).
Proof.
  intros Hp Hs Hl Hf.
  rewrite (parseField_tagged (GStruct mk fs) params (mkUniversal false TagSequence true)); try done.
  - cbn [parse_body u_compound]. by rewrite Hf.
  - intros _. unfold universal_tag. by rewrite Hs.
Qed.

Lemma parse_fields_cons_Ok {B C A} params (get : A → B) t (fs : gofields C A) full mk v b x rest a :
  parseField t params (get v) b = (x, Ok rest) → parse_fields fs full (mk x) v rest = (a, Ok tt) →
  parse_fields (FCons params get t fs) full mk v b = (a, Ok tt).
Proof. cbn [parse_fields]. unfold parseField. by intros ->. Qed.

Lemma marshal_valid_string params s :
  utf8_Valid s = true → string_params params → ∃ b, marshal_string params s = Ok b.
Proof.
  intros Hu (_ & _ & _ & Hty). unfold marshal_string, string_tag, makeString. rewrite Hu.
  destruct Hty as [->| ->].
  - change (negb (0 =? 0)) with false. destruct (forallb (λ x, isPrintable false false _) s); cbn; eauto.
  - cbn. eauto.
Qed.

(** *** Distinguished names *)
Lemma marshal_atv o s :
  valid_oid o → utf8_Valid s = true →
  ∃ body, makeField AttributeTypeAndValue_type plain (mkATV o (AnyString s)) = Ok (tlv 0 16 true body) ∧
    (zlen body < 2 ^ 31 → zlen (tlv 0 16 true body) < 2 ^ 31 → ∀ v rest,
     parseField AttributeTypeAndValue_type plain v (tlv 0 16 true body ++ rest)
     = (mkATV o (AnyString s), Ok rest)).
Proof.
  intros [Ho [ob Hob]] Hs. destruct (marshal_valid_string plain s) as [sb Hsb]; [done|by repeat split; left|].
  exists (tlv 0 6 false ob ++ sb). split.
  - cbn [makeField AttributeTypeAndValue_type omitted plain p_optional andb make_fields atv_Type atv_Value].
    unfold marshal_oid, marshal_any. rewrite Hob. cbn [mbind res_bind]. rewrite Hsb. cbn [mbind res_bind].
    cbn [concat]. by rewrite app_nil_r.
  - intros Hl Hl' v rest. change (tlv 0 16 true _) with (tagged plain TagSequence true (tlv 0 6 false ob ++ sb)).
    unfold AttributeTypeAndValue_type. apply parse_struct_tagged; [done|done|done|].
    rewrite zlen_app in Hl. pose proof (zlen_nonneg sb). pose proof (zlen_nonneg (tlv 0 6 false ob)).
    eapply parse_fields_cons_Ok.
    { apply parse_marshalled_oid; [done|done|done|done|unfold marshal_oid; by rewrite Hob|lia]. }
    eapply parse_fields_cons_Ok; [|done].
    rewrite <-(app_nil_r sb). unfold parseField, parse_frame.
    assert (Hne : zlen (sb ++ []) =? 0 = false).
    { apply marshal_string_Ok in Hsb as (tag & -> & _); [|by repeat split; left|done]. apply tlv_nonempty. }
    rewrite Hne. cbn [getUniversalType]. apply parse_marshalled_any; [done|lia].
Qed.

Lemma marshal_rdn o s :
  valid_oid o → utf8_Valid s = true →
  ∃ body, makeField (GSlice true AttributeTypeAndValue_type) plain [mkATV o (AnyString s)] = Ok (tlv 0 17 true body) ∧
    (zlen (tlv 0 17 true body) < 2 ^ 31 → ∀ v rest,
     parseField (GSlice true AttributeTypeAndValue_type) plain v (tlv 0 17 true body ++ rest)
     = ([mkATV o (AnyString s)], Ok rest)).
Proof.
  intros Ho Hs. destruct (marshal_atv o s Ho Hs) as (inner & Hm & Hp). exists (tlv 0 16 true inner). split.
  - cbn [makeField omitted plain p_optional andb marshal_list]. rewrite Hm. cbn [mbind res_bind]. cbn.
    by rewrite app_nil_r.
  - intros Hl v rest. pose proof (zlen_tlv 0 17 true (tlv 0 16 true inner)). pose proof (zlen_tlv 0 16 true inner).
    assert (zlen inner < 2 ^ 31 ∧ zlen (tlv 0 16 true inner) < 2 ^ 31) as [? ?] by lia.
    rewrite <-(app_nil_r (tlv 0 16 true inner)) in Hl |- *.
    apply (parse_marshalled_list true AttributeTypeAndValue_type (mkUniversal false TagSequence true) plain
             [tlv 0 16 true inner] [mkATV o (AnyString s)]); try done.
    + constructor; [|done]. exists 0, 16, true, inner. split_and!; try done; try lia; by right.
    + constructor; [|done]. intros. apply Hp; lia.
Qed.

Lemma marshal_name n :
  wf_directory_name n →
  ∃ body, MarshalWithParams RDNSequence_type (explicit_tag 4) (ToRDNSequence n) = Ok (tlv 2 4 true body) ∧
    (zlen body < 2 ^ 31 → decode RDNSequence_type plain body = Ok (ToRDNSequence n, [])).
Proof.
  intros [_ Hrdns]. set (rdns := ToRDNSequence n) in *. clearbody rdns.
  assert (H : ∃ bs, marshal_list (makeField (GSlice true AttributeTypeAndValue_type) plain) rdns = Ok bs ∧
    (zlen (concat bs) < 2 ^ 31 →
      Forall (header_matches (mkUniversal false TagSet true)) bs ∧
      Forall2 (λ b v, ∀ rest, parseField (GSlice true AttributeTypeAndValue_type) plain [] (b ++ rest) = (v, Ok rest)) bs rdns)).
  { induction Hrdns as [|rdn rdns (o & s & -> & Ho & Hs) _ (bs & Hbs & IH)]; [by exists []|].
    destruct (marshal_rdn o s Ho Hs) as (body & Hm & Hp). exists (tlv 0 17 true body :: bs).
    cbn [marshal_list]. rewrite Hm. cbn [mbind res_bind]. rewrite Hbs. split; [done|].
    cbn [concat]. rewrite zlen_app. intros Hl. pose proof (zlen_tlv 0 17 true body).
    pose proof (zlen_nonneg (concat bs)). pose proof (zlen_nonneg (tlv 0 17 true body)).
    destruct IH as [IH1 IH2]; [lia|]. split; constructor; auto.
    + exists 0, 17, true, body. split_and!; try done; try lia; by right.
    + intros. apply Hp. lia. }
  destruct H as (bs & Hm & H). exists (tlv 0 16 true (concat bs)). split.
  - unfold MarshalWithParams, RDNSequence_type.
    change (makeField (GSlice false (GSlice true AttributeTypeAndValue_type)) (explicit_tag 4) rdns)
      with (bodies ← marshal_list (makeField (GSlice true AttributeTypeAndValue_type) plain) rdns;
            Ok (tlv 2 4 true (tlv 0 16 true (concat bodies)))).
    by rewrite Hm.
  - intros Hl. pose proof (zlen_tlv 0 16 true (concat bs)). destruct H as [H1 H2]; [lia|].
    apply decode_Ok. rewrite <-(app_nil_r (tlv 0 16 true _)).
    by apply (parse_marshalled_list false (GSlice true AttributeTypeAndValue_type) (mkUniversal false TagSet true) plain bs rdns).
Qed.

(** *** Permanent identifiers *)
Definition utf8_optional : fieldParameters := mkParams true false false None None TagUTF8String.

(** An optional string in front of an object identifier, or of nothing *)
Lemma string_absent b :
  b = [] ∨ (∃ ob, b = tlv 0 6 false ob ∧ zlen ob < 2 ^ 31) →
  parseField GString utf8_optional [] b = ([], Ok b).
Proof.
  intros [->|(ob & -> & Hl)]; [by apply absent_at_end|].
  unfold parseField, parse_frame. rewrite <-(app_nil_r (tlv 0 6 false ob)), tlv_nonempty.
  cbn [getUniversalType is_raw]. unfold match_header. rewrite header_tlv; [|by repeat split|done].
  cbn [mbind res_bind fst snd]. unfold explicit_header, universal_tag. cbn. done.
Qed.

Lemma marshal_permanent_id p :
  wf_permanent_identifier p →
  ∃ body, MarshalWithParams PermanentIdentifier_type (explicit_tag 0) p = Ok (tlv 2 0 true body) ∧
    (zlen (tlv 2 0 true body) < 2 ^ 31 → parsePermanentIdentifier (tlv 2 0 true body) = Ok p).
Proof.
  intros [Hu Ha]. destruct p as [id asg]; cbn [pid_IdentifierValue pid_Assigner] in *.
  assert (Hi : ∃ ib, makeField GString utf8_optional id = Ok ib ∧ (id = [] ∧ ib = [] ∨ id ≠ [] ∧ marshal_string utf8_optional id = Ok ib)).
  { cbn [makeField]. unfold omitted. cbn [utf8_optional p_optional p_defaultValue is_zero andb].
    destruct (zlen id =? 0) eqn:Ez.
    - apply Z.eqb_eq, zlen_0 in Ez. exists []. split; [done|by left].
    - apply Z.eqb_neq in Ez. rewrite zlen_0 in Ez.
      destruct (marshal_valid_string utf8_optional id Hu) as [ib Hib]; [by repeat split; right|].
      exists ib. split; [done|by right]. }
  assert (Ho : ∃ ob, makeField GOID optional asg = Ok ob ∧
             (asg = [] ∧ ob = [] ∨ ∃ x, ob = tlv 0 6 false x ∧ wf_oid asg ∧ marshal_oid optional asg = Ok ob)).
  { cbn [makeField]. unfold omitted. cbn [optional p_optional p_defaultValue is_zero andb].
    destruct Ha as [->|[Hw [x Hx]]]; [exists []; split; [done|by left]|].
    destruct asg as [|a asg]; [done|]. rewrite (proj2 (Z.eqb_neq (zlen (a :: asg)) 0)) by (by rewrite zlen_0).
    exists (tlv 0 6 false x). unfold marshal_oid. rewrite Hx. split; [done|]. right. by exists x. }
  destruct Hi as (ib & Hib & Hi), Ho as (ob & Hob & Ho).
  exists (tlv 0 16 true (ib ++ ob)). split.
  - unfold MarshalWithParams, PermanentIdentifier_type.
    change (makeField (GStruct mkPermanentIdentifier _) (explicit_tag 0) (mkPermanentIdentifier id asg))
      with (bodies ← (b ← makeField GString utf8_optional id;
                      bs ← (b ← makeField GOID optional asg; Ok [b]); Ok (b :: bs));
            Ok (tlv 2 0 true (tlv 0 16 true (concat bodies)))).
    rewrite Hib. cbn [mbind res_bind]. rewrite Hob. cbn [mbind res_bind concat]. by rewrite app_nil_r.
  - intros Hl. pose proof (zlen_tlv 2 0 true (tlv 0 16 true (ib ++ ob))). pose proof (zlen_tlv 0 16 true (ib ++ ob)) as H0.
    rewrite zlen_app in H0. pose proof (zlen_nonneg ib). pose proof (zlen_nonneg ob).
    unfold parsePermanentIdentifier.
    rewrite (proj2 (decode_Ok PermanentIdentifier_type (explicit_tag 0) _ (mkPermanentIdentifier id asg) [])); [done|].
    rewrite <-(app_nil_r (tlv 2 0 true _)).
    apply (parse_struct_tagged mkPermanentIdentifier _ (explicit_tag 0) _ (ib ++ ob)); [done|done|done|].
    eapply (parse_fields_cons_Ok _ _ _ _ _ _ _ _ id ob).
    { destruct Hi as [[-> ->]|[_ Hm]].
      - apply string_absent. destruct Ho as [[_ ->]|(x & -> & _)]; [by left|right].
        exists x. split; [done|]. pose proof (zlen_tlv 0 6 false x). lia.
      - apply parse_marshalled_string; [by repeat split; right|done|done|lia]. }
    eapply (parse_fields_cons_Ok _ _ _ _ _ _ _ _ asg []); [|done].
    destruct Ho as [[-> ->]|(x & -> & Hw & Hm)]; [by apply absent_at_end|].
    rewrite <-(app_nil_r (tlv 0 6 false x)). by apply (parse_marshalled_oid optional); [..|lia].
Qed.

Lemma marshal_other_name p :
  wf_permanent_identifier p →
  ∃ body, marshalOtherName oidPermanentIdentifier PermanentIdentifier_type p = Ok (full_bytes (tlv 2 0 true body)) ∧
    (zlen (tlv 2 0 true body) < 2 ^ 31 → general_name_of (raw 2 0 true body) = Ok ([], [p])).
Proof.
  intros Hw. destruct (marshal_permanent_id p Hw) as (inner & Hm & Hp). set (vb := tlv 2 0 true inner) in *.
  destruct (makeObjectIdentifier oidPermanentIdentifier) as [ob| | |] eqn:Hob; [|by vm_compute in Hob..].
  assert (Hne : zlen vb =? 0 = false) by (unfold vb; rewrite <-(app_nil_r (tlv 2 0 true inner)); apply tlv_nonempty).
  exists (tlv 0 6 false ob ++ vb). split.
  - unfold marshalOtherName. rewrite Hm. cbn [mbind res_bind].
    unfold MarshalWithParams, otherName_type.
    cbn [makeField omitted implicit_tag p_optional plain andb make_fields on_TypeID on_Value].
    unfold marshal_oid. rewrite Hob. cbn [mbind res_bind]. unfold marshal_raw. cbn [full_bytes rv_FullBytes].
    rewrite Hne. cbn [negb]. cbn [concat]. by rewrite app_nil_r.
  - intros Hl. pose proof (zlen_tlv 2 0 true (tlv 0 6 false ob ++ vb)) as H. rewrite zlen_app in H.
    pose proof (zlen_nonneg (tlv 0 6 false ob)). pose proof (zlen_nonneg vb).
    pose proof (zlen_tlv 2 0 true inner) as Hvb. fold vb in Hvb.
    assert (Hd : decode otherName_type (implicit_tag 0) (tlv 2 0 true (tlv 0 6 false ob ++ vb))
               = Ok (mkOtherName oidPermanentIdentifier (raw 2 0 true inner), [])).
    { apply decode_Ok. rewrite <-(app_nil_r (tlv 2 0 true (_ ++ _))).
      apply (parse_struct_tagged mkOtherName _ (implicit_tag 0) _ (tlv 0 6 false ob ++ vb)); [done|done|done|].
      eapply (parse_fields_cons_Ok _ _ _ _ _ _ _ _ oidPermanentIdentifier vb).
      { apply (parse_marshalled_oid plain); [by repeat constructor|done|done|done| |lia].
        unfold marshal_oid. by rewrite Hob. }
      eapply (parse_fields_cons_Ok _ _ _ _ _ _ _ _ (raw 2 0 true inner) []); [|done].
      rewrite <-(app_nil_r vb). apply parse_raw_value; [by repeat split|lia]. }
    unfold general_name_of. cbn [raw rv_Tag rv_FullBytes]. rewrite Z.eqb_refl, Hd. cbn [mbind res_bind fst on_TypeID on_Value].
    rewrite bool_decide_eq_true_2 by done. cbn [raw rv_FullBytes]. fold vb. by rewrite Hp by lia.
Qed.

(** *** The extension *)
Lemma marshal_permanent_identifiers ps : ∀ l,
  Forall wf_permanent_identifier ps →
  ∃ bodies, for_each marshal_permanent_identifier l ps = Ok (l ++ ((λ b, full_bytes (tlv 2 0 true b)) <$> bodies)) ∧
    Forall2 (λ b p, zlen (tlv 2 0 true b) < 2 ^ 31 → general_name_of (raw 2 0 true b) = Ok ([], [p])) bodies ps.
Proof.
  intros l H. revert l. induction H as [|p ps Hp _ IH]; intros l.
  { exists []. cbn. by rewrite app_nil_r. }
  destruct (marshal_other_name p Hp) as (b & Hm & Hg).
  destruct (IH (l ++ [full_bytes (tlv 2 0 true b)])) as (bodies & Hb & Hps).
  exists (b :: bodies). cbn [for_each].
  assert (marshal_permanent_identifier l p = Ok (l ++ [full_bytes (tlv 2 0 true b)])) as ->
    by (unfold marshal_permanent_identifier; by rewrite Hm). cbn [mbind res_bind].
  rewrite Hb, <-app_assoc. split; [done|by constructor].
Qed.

Lemma marshal_directory_names ns : ∀ l,
  Forall wf_directory_name ns →
  ∃ bodies, for_each marshal_directory_name l ns = Ok (l ++ ((λ b, full_bytes (tlv 2 4 true b)) <$> bodies)) ∧
    Forall2 (λ b n, zlen (tlv 2 4 true b) < 2 ^ 31 → general_name_of (raw 2 4 true b) = Ok ([n], [])) bodies ns.
Proof.
  intros l H. revert l. induction H as [|n ns Hn _ IH]; intros l.
  { exists []. cbn. by rewrite app_nil_r. }
  destruct (marshal_name n Hn) as (b & Hm & Hg).
  destruct (IH (l ++ [full_bytes (tlv 2 4 true b)])) as (bodies & Hb & Hns).
  exists (b :: bodies). cbn [for_each].
  assert (marshal_directory_name l n = Ok (l ++ [full_bytes (tlv 2 4 true b)])) as ->
    by (unfold marshal_directory_name; by rewrite Hm). cbn [mbind res_bind].
  rewrite Hb, <-app_assoc. split; [done|]. constructor; [|done]. intros Hl. pose proof (zlen_tlv 2 4 true b).
  unfold general_name_of. cbn [raw rv_Tag rv_Bytes]. change (4 =? 0) with false. rewrite Z.eqb_refl, Hg by lia.
  cbn [mbind res_bind fst]. by rewrite (proj1 Hn).
Qed.

Lemma marshal_list_full (ds : list (Z * bytes)) :
  marshal_list (makeField GRawValue plain) ((λ d, full_bytes (tlv 2 d.1 true d.2)) <$> ds)
  = Ok ((λ d, tlv 2 d.1 true d.2) <$> ds).
Proof.
  induction ds as [|[t b] ds IH]; [done|]. cbn [fmap list_fmap marshal_list]. rewrite IH.
  cbn [makeField omitted plain p_optional andb]. unfold marshal_raw. cbn [full_bytes rv_FullBytes fst snd].
  pose proof (tlv_nonempty 2 t true b []) as Hne. rewrite app_nil_r in Hne. by rewrite Hne.
Qed.

Lemma Forall2_bounded {A B} (P : A → Prop) (Q : A → B → Prop) l k :
  Forall2 (λ a b, P a → Q a b) l k → (∀ a, a ∈ l → P a) → Forall2 Q l k.
Proof. induction 1; constructor; set_solver. Qed.

(** The two kinds of names in the order they are written *)
Definition tagged_bodies (pbs dbs : list bytes) : list (Z * bytes) :=
  ((λ b, (0, b)) <$> pbs) ++ ((λ b, (4, b)) <$> dbs).

Lemma MarshalSubjectAltName_value san critical :
  Forall wf_permanent_identifier (san_PermanentIdentifiers san) →
  Forall wf_directory_name (san_DirectoryNames san) →
  ∃ pbs dbs,
    MarshalSubjectAltName san critical
    = Ok (mkExtension Oid.SubjectAltName critical
            (tlv 0 16 true (concat ((λ d, tlv 2 d.1 true d.2) <$> tagged_bodies pbs dbs)))) ∧
    Forall2 (λ b p, zlen (tlv 2 0 true b) < 2 ^ 31 → general_name_of (raw 2 0 true b) = Ok ([], [p]))
      pbs (san_PermanentIdentifiers san) ∧
    Forall2 (λ b n, zlen (tlv 2 4 true b) < 2 ^ 31 → general_name_of (raw 2 4 true b) = Ok ([n], []))
      dbs (san_DirectoryNames san).
Proof.
  intros Hp Hd. destruct (marshal_permanent_identifiers _ [] Hp) as (pbs & Hpm & Hpg).
  set (l := [] ++ _) in Hpm. destruct (marshal_directory_names _ l Hd) as (dbs & Hdm & Hdg).
  exists pbs, dbs. split; [|done]. unfold MarshalSubjectAltName. rewrite Hpm. cbn [mbind res_bind].
  rewrite Hdm. cbn [mbind res_bind]. unfold l. cbn [app].
  replace (((λ b, full_bytes (tlv 2 0 true b)) <$> pbs) ++ ((λ b, full_bytes (tlv 2 4 true b)) <$> dbs))
    with ((λ d, full_bytes (tlv 2 d.1 true d.2)) <$> tagged_bodies pbs dbs)
    by (unfold tagged_bodies; rewrite fmap_app, <-!list_fmap_compose; done).
  unfold Marshal, MarshalWithParams.
  change (makeField (GSlice false GRawValue) plain ?l)
    with (bodies ← marshal_list (makeField GRawValue plain) l; Ok (tlv 0 16 true (concat bodies))).
  by rewrite marshal_list_full.
Qed.

(** C13: Parsing undoes marshalling: an extension can be made from valid
    permanent identifiers and directory names, and it parses to the same
    structure (below 2 GiB). *)
Theorem ParseSubjectAltName_Marshal san critical :
  Forall wf_permanent_identifier (san_PermanentIdentifiers san) →
  Forall wf_directory_name (san_DirectoryNames san) →
  ∃ ext, MarshalSubjectAltName san critical = Ok ext ∧
         ext_Id ext = Oid.SubjectAltName ∧ ext_Critical ext = critical ∧
         (zlen (ext_Value ext) < 2 ^ 31 → ParseSubjectAltName ext = Ok san).
Proof.
  intros Hp Hd. destruct (MarshalSubjectAltName_value san critical Hp Hd) as (pbs & dbs & -> & Hpg & Hdg).
  eexists. split; [done|]. split; [done|]. split; [done|]. cbn [ext_Value]. intros Hl.
  apply ParseSubjectAltName_Ok. cbn [ext_Value].
  set (vs := (λ d, raw 2 d.1 true d.2) <$> tagged_bodies pbs dbs).
  assert (Hall : concat ((λ d, tlv 2 d.1 true d.2) <$> tagged_bodies pbs dbs) = all_bytes vs)
    by (unfold all_bytes, vs; by rewrite <-list_fmap_compose).
  rewrite Hall in *. pose proof (zlen_tlv 0 16 true (all_bytes vs)).
  assert (Hbound : ∀ v, v ∈ vs → zlen (rv_FullBytes v) < 2 ^ 31).
  { intros v Hv. pose proof (zlen_concat_le (rv_FullBytes v) (rv_FullBytes <$> vs)) as Hc.
    unfold all_bytes in *. specialize (Hc (list_elem_of_fmap_2 _ _ _ Hv)). lia. }
  exists vs, (((λ p, ([], [p])) <$> san_PermanentIdentifiers san) ++ ((λ n, ([n], [])) <$> san_DirectoryNames san)).
  split; [done|]. split; [lia|].
  unfold vs, tagged_bodies in *. rewrite fmap_app, <-!list_fmap_compose in *. split; [|split].
  - apply Forall_forall. intros v Hv. specialize (Hbound v Hv).
    apply elem_of_app in Hv as [(b & -> & _)%list_elem_of_fmap|(b & -> & _)%list_elem_of_fmap];
      [change (zlen (tlv 2 0 true b) < 2 ^ 31) in Hbound; pose proof (zlen_tlv 2 0 true b)
      |change (zlen (tlv 2 4 true b) < 2 ^ 31) in Hbound; pose proof (zlen_tlv 2 4 true b)];
      (split; [by repeat split|split; [cbn [compose raw rv_Bytes snd]; lia|done]]).
  - apply Forall2_app; apply Forall2_fmap_2.
    + apply (Forall2_bounded (λ b, zlen (tlv 2 0 true b) < 2 ^ 31) _ _ _ Hpg). intros b Hb.
      apply (Hbound (raw 2 0 true b)), elem_of_app. left. apply list_elem_of_fmap. by exists b.
    + apply (Forall2_bounded (λ b, zlen (tlv 2 4 true b) < 2 ^ 31) _ _ _ Hdg). intros b Hb.
      apply (Hbound (raw 2 4 true b)), elem_of_app. right. apply list_elem_of_fmap. by exists b.
  - destruct san as [ns ps]. cbn. f_equal.
    + rewrite !fmap_app, concat_app, <-!list_fmap_compose. clear. induction ps; cbn; [|done].
      induction ns; cbn; congruence.
    + rewrite !fmap_app, concat_app, <-!list_fmap_compose. clear. induction ps; cbn; [|congruence].
      induction ns; cbn; congruence.
Qed.

(** ** Acceptance *)
Section Acceptance.
Context {TL : GoTimeLaws}.

Lemma general_name_returns s v : no_crash (general_name s v).
Proof.
  unfold general_name. destruct s as [d o]. destruct (_ =? 0); [|destruct (_ =? 4); [|done]];
    (apply no_crash_bind; [apply wrapf_no_crash, decode_returns|done]).
Qed.

Lemma forEachSAN_returns {S} b (callback : S → RawValue → res error S) s :
  (∀ s v, no_crash (callback s v)) → no_crash (forEachSAN b callback s).
Proof.
  intros Hc. unfold forEachSAN. apply no_crash_bind; [apply decode_returns|]. intros [seq rest] _. cbv zeta.
  destruct (negb _); [done|]. destruct (_ || _); [done|]. apply der_loop_returns; [|..|done].
  - intros s1 b1. apply no_crash_bind; [apply decode_returns|]. intros vr _. by apply no_crash_bind.
  - intros s1 b1 s2 r ([v r'] & Hd & (s3 & _ & [= _ <-])%res_bind_Ok_inv)%res_bind_Ok_inv.
    by apply decode_consumes in Hd.
Qed.

Lemma permanent_identifier_returns l o : no_crash (permanent_identifier l o).
Proof.
  unfold permanent_identifier. case_bool_decide; [|done].
  apply no_crash_bind; [apply wrapf_no_crash|done]. by apply no_crash_bind; [apply decode_returns|].
Qed.

(** [ParseSubjectAltName] returns on every extension, and it accepts
    exactly a SEQUENCE of general names all of which are directory names or
    other names that decode, of which it returns the directory names and the
    permanent identifiers in order. *)
Theorem ParseSubjectAltName_iff ext san :
  no_crash (ParseSubjectAltName ext) ∧
  (ParseSubjectAltName ext = Ok san ↔
   ∃ vs parts, ext_Value ext = tlv 0 16 true (all_bytes vs) ∧ zlen (all_bytes vs) < 2 ^ 31 ∧ Forall wf_raw vs ∧
     Forall2 (λ v p, general_name_of v = Ok p) vs parts ∧
     san = mkSAN (concat parts.*1) (concat parts.*2)).
Proof.
  split; [|apply ParseSubjectAltName_Ok].
  apply no_crash_bind; [apply wrapf_no_crash, forEachSAN_returns, general_name_returns|].
  intros names _. apply no_crash_bind; [|done]. apply for_each_returns, permanent_identifier_returns.
Qed.
End Acceptance.
End Spec.

(** ** Examples *)
Definition ex_time : GoTime :=
  {| Time := bytes; time_zero := []; parseUTCTime b := Ok b; parseGeneralizedTime b := Ok b;
     time_is_zero t := bool_decide (t = []); makeTime t := Ok (TagUTCTime, t) |}.
#[local] Existing Instance ex_time.
#[local] Instance ex_time_laws : GoTimeLaws.
Proof. by split. Qed.

Definition ex_name : Name :=
  FillFromRDNSequence no_name
    [[mkATV [2; 5; 4; 6] (AnyString (str "US"))]; [mkATV [2; 5; 4; 3] (AnyString (str "www.example.com"))]].
Definition ex_san : SubjectAltName :=
  mkSAN [ex_name] [mkPermanentIdentifier (str "serial 42") [1; 3; 6; 1]; mkPermanentIdentifier [] [2; 999]].

Ltac solve_oid :=
  split;
  [split_and!; [done|done|done|repeat (apply Forall_cons; split; [by split|]); by apply Forall_nil]
  |eexists; vm_compute; reflexivity].

Lemma ParseSubjectAltName_Marshal_witness :
  ∃ ext, MarshalSubjectAltName ex_san true = Ok ext ∧ ParseSubjectAltName ext = Ok ex_san.
Proof.
  destruct (ParseSubjectAltName_Marshal ex_san true) as (ext & Hm & _ & _ & Hp).
  - apply Forall_cons; split; [split; [done|right; solve_oid]|].
    apply Forall_singleton. split; [done|right; solve_oid].
  - apply Forall_singleton. split; [done|]. apply Forall_cons; split.
    + exists [2; 5; 4; 6], (str "US"). split; [done|]. split; [solve_oid|done].
    + apply Forall_singleton. exists [2; 5; 4; 3], (str "www.example.com").
      split; [done|]. split; [solve_oid|done].
  - exists ext. split; [exact Hm|]. apply Hp.
    assert (Hl : match MarshalSubjectAltName ex_san true with Ok e => zlen (ext_Value e) <? 2 ^ 31 | _ => false end = true)
      by (vm_compute; reflexivity).
    rewrite Hm in Hl. by apply Z.ltb_lt.
Defined.

(** An empty SEQUENCE names nothing; an IP address is not accepted. *)
Lemma ParseSubjectAltName_iff_witness :
  ParseSubjectAltName (mkExtension Oid.SubjectAltName false (tlv 0 16 true [])) = Ok (mkSAN [] []) ∧
  no_crash (ParseSubjectAltName (mkExtension Oid.SubjectAltName false (tlv 0 16 true (tlv 2 7 false (str "1234"))))).
Proof.
  split.
  - apply (proj2 (ParseSubjectAltName_iff _ _)). exists [], []. by repeat split.
  - apply (ParseSubjectAltName_iff _ (mkSAN [] [])).
Defined.
