(* ===== verification/AttributeCert.v ===== *)
(** * Attribute certificates ([attributecert/attributecert.go])

    The ASN.1 structures of platform certificates and the analysis of their
    attributes and extensions.  The structures are records with their
    descriptions; [parseAttributeCertificate] is the code's sequence of
    updates of the result. *)
From coqutil Require Import Datatypes.RecordSetters.
From S2P Require Import Prelude GoBytes Loops GoCrypto Oid Asn1 Asn1Types Pkix.
Import TriangleBracketNotations.

(** ** Object identifiers *)
Definition oidExtensionAuthorityKeyIdentifier : list Z := [2; 5; 29; 35].
Definition oidAuthorityInfoAccess : list Z := [1; 3; 6; 1; 5; 5; 7; 1; 1].
Definition oidCpsCertificatePolicy : list Z := [1; 3; 6; 1; 5; 5; 7; 2; 1].
Definition oidAuthorityInfoAccessOcsp : list Z := [1; 3; 6; 1; 5; 5; 7; 48; 1].
Definition oidAuthorityInfoAccessIssuers : list Z := [1; 3; 6; 1; 5; 5; 7; 48; 2].
Definition oidTcgCertificatePolicy : list Z := [1; 2; 840; 113741; 1; 5; 2; 4].
Definition oidAttributeUserNotice : list Z := [1; 3; 6; 1; 5; 5; 7; 2; 2].
Definition oidTcgPlatformManufacturerStrV1 : list Z := [2; 23; 133; 2; 4].
Definition oidTcgPlatformModelV1 : list Z := [2; 23; 133; 2; 5].
Definition oidTcgPlatformVersionV1 : list Z := [2; 23; 133; 2; 6].

Definition oidSignatureRSASha1 : list Z := [1; 2; 840; 113549; 1; 1; 5].
Definition oidSignatureRSAPSS : list Z := [1; 2; 840; 113549; 1; 1; 10].
Definition oidSignatureRSASha256 : list Z := [1; 2; 840; 113549; 1; 1; 11].
Definition oidSignatureRSASha384 : list Z := [1; 2; 840; 113549; 1; 1; 12].
Definition oidSignatureEd25519 : list Z := [1; 3; 101; 112].
Definition oidSHA256 : list Z := [2; 16; 840; 1; 101; 3; 4; 2; 1].
Definition oidSHA384 : list Z := [2; 16; 840; 1; 101; 3; 4; 2; 2].
Definition oidSHA512 : list Z := [2; 16; 840; 1; 101; 3; 4; 2; 3].
Definition oidMGF1 : list Z := [1; 2; 840; 113549; 1; 1; 8].

(** ** Signature algorithms ([crypto/x509]) *)
Module x509.
Definition UnknownSignatureAlgorithm : Z := 0.
Definition SHA1WithRSA : Z := 3.
Definition SHA256WithRSA : Z := 4.
Definition SHA384WithRSA : Z := 5.
Definition SHA256WithRSAPSS : Z := 13.
Definition SHA384WithRSAPSS : Z := 14.
Definition SHA512WithRSAPSS : Z := 15.
Definition PureEd25519 : Z := 16.
Definition UnknownPublicKeyAlgorithm : Z := 0.
Definition RSA : Z := 1.
Definition Ed25519 : Z := 4.
Definition KeyUsageCertSign : Z := 32.
End x509.

Record signatureAlgorithmDetail := mkDetail {
  sd_algo : Z; sd_name : string; sd_oid : list Z; sd_pubKeyAlgo : Z; sd_hash : Z;
}.
Definition signatureAlgorithmDetails : list signatureAlgorithmDetail :=
  [mkDetail x509.SHA1WithRSA "SHA1-RSA" oidSignatureRSASha1 x509.RSA 3;
   mkDetail x509.SHA256WithRSA "SHA256-RSA" oidSignatureRSASha256 x509.RSA 5;
   mkDetail x509.SHA384WithRSA "SHA384-RSA" oidSignatureRSASha384 x509.RSA 6;
   mkDetail x509.SHA256WithRSAPSS "SHA256-RSAPSS" oidSignatureRSAPSS x509.RSA 5;
   mkDetail x509.SHA384WithRSAPSS "SHA384-RSAPSS" oidSignatureRSAPSS x509.RSA 6;
   mkDetail x509.SHA512WithRSAPSS "SHA512-RSAPSS" oidSignatureRSAPSS x509.RSA 7;
   mkDetail x509.PureEd25519 "Ed25519" oidSignatureEd25519 x509.Ed25519 0].

Definition eqb_oid (a b : list Z) : bool := bool_decide (a = b).
Definition NullBytes : bytes := [Byte.x05; Byte.x00].

Section AttributeCert.
Context {T : GoTime}.

Record pssParameters := mkPss {
  pss_Hash : AlgorithmIdentifier; pss_MGF : AlgorithmIdentifier;
  pss_SaltLength : Z; pss_TrailerField : Z;
}.
Definition pssParameters_type : gotype pssParameters :=
  struct mkPss
    (explicit_tag 0 ⟦pss_Hash : AlgorithmIdentifier_type⟧;
     explicit_tag 1 ⟦pss_MGF : AlgorithmIdentifier_type⟧;
     explicit_tag 2 ⟦pss_SaltLength : GInt⟧;
     (mkParams true true false (Some 3) (Some 1) 0) ⟦pss_TrailerField : GInt⟧; ⟦⟧).

(** Parameters that are absent or NULL *)
Definition no_parameters (ai : AlgorithmIdentifier) : bool :=
  (zlen (rv_FullBytes (ai_Parameters ai)) =? 0)
  || bool_decide (rv_FullBytes (ai_Parameters ai) = NullBytes).

Definition getSignatureAlgorithmFromAI (ai : AlgorithmIdentifier) : Z :=
  if eqb_oid (ai_Algorithm ai) oidSignatureEd25519 && negb (zlen (rv_FullBytes (ai_Parameters ai)) =? 0)
  then x509.UnknownSignatureAlgorithm
  else if negb (eqb_oid (ai_Algorithm ai) oidSignatureRSAPSS) then
    match List.find (λ details, eqb_oid (ai_Algorithm ai) (sd_oid details)) signatureAlgorithmDetails with
    | Some details => sd_algo details
    | None => x509.UnknownSignatureAlgorithm
    end
  else
    match decode pssParameters_type plain (rv_FullBytes (ai_Parameters ai)) with
    | Ok (params, _) =>
        match decode AlgorithmIdentifier_type plain (rv_FullBytes (ai_Parameters (pss_MGF params))) with
        | Ok (mgf1HashFunc, _) =>
            if negb (no_parameters (pss_Hash params))
               || negb (eqb_oid (ai_Algorithm (pss_MGF params)) oidMGF1)
               || negb (eqb_oid (ai_Algorithm mgf1HashFunc) (ai_Algorithm (pss_Hash params)))
               || negb (no_parameters mgf1HashFunc)
               || negb (pss_TrailerField params =? 1)
            then x509.UnknownSignatureAlgorithm
            else if eqb_oid (ai_Algorithm (pss_Hash params)) oidSHA256 && (pss_SaltLength params =? 32)
            then x509.SHA256WithRSAPSS
            else if eqb_oid (ai_Algorithm (pss_Hash params)) oidSHA384 && (pss_SaltLength params =? 48)
            then x509.SHA384WithRSAPSS
            else if eqb_oid (ai_Algorithm (pss_Hash params)) oidSHA512 && (pss_SaltLength params =? 64)
            then x509.SHA512WithRSAPSS
            else x509.UnknownSignatureAlgorithm
        | _ => x509.UnknownSignatureAlgorithm
        end
    | _ => x509.UnknownSignatureAlgorithm
    end.

(** ** The structures of a certificate *)
Record authorityInfoAccess := mkAIA { aia_Method : list Z; aia_Location : RawValue }.
Definition authorityInfoAccess_type : gotype authorityInfoAccess :=
  struct mkAIA (plain ⟦aia_Method : GOID⟧; plain ⟦aia_Location : GRawValue⟧; ⟦⟧).

Record authKeyID := mkAuthKeyID {
  ak_ID : bytes; ak_IssuerName : RawValue; ak_SerialNumber : option Z;
}.
Definition authKeyID_type : gotype authKeyID :=
  struct mkAuthKeyID
    (optional_tag 0 ⟦ak_ID : GBytes⟧;
     (mkParams true false true (Some 1) None 0) ⟦ak_IssuerName : GRawValue⟧;
     optional_tag 2 ⟦ak_SerialNumber : GBigInt⟧; ⟦⟧).

Record cpsPolicy := mkCpsPolicy { cps_ID : list Z; cps_Value : bytes }.
Definition cpsPolicy_type : gotype cpsPolicy :=
  struct mkCpsPolicy (plain ⟦cps_ID : GOID⟧; plain ⟦cps_Value : GString⟧; ⟦⟧).

Record policyInformation := mkPolicy { pi_Raw : bytes; pi_ID : list Z; pi_Policy : RawValue }.
Definition policyInformation_type : gotype policyInformation :=
  struct mkPolicy (⟦Raw pi_Raw⟧; plain ⟦pi_ID : GOID⟧; plain ⟦pi_Policy : GRawValue⟧; ⟦⟧).

Record validity := mkValidity { val_NotBefore : Time; val_NotAfter : Time }.
Definition validity_type : gotype validity :=
  struct mkValidity (plain ⟦val_NotBefore : GTime⟧; plain ⟦val_NotAfter : GTime⟧; ⟦⟧).

Record noticeReference := mkNoticeRef { nr_Organization : bytes; nr_NoticeNumbers : list Z }.
Definition noticeReference_type : gotype noticeReference :=
  struct mkNoticeRef
    (plain ⟦nr_Organization : GString⟧; plain ⟦nr_NoticeNumbers : (GSlice false GInt)⟧; ⟦⟧).

Record userNotice := mkUserNotice { un_NoticeRef : noticeReference; un_ExplicitText : bytes }.
Definition userNotice_type : gotype userNotice :=
  struct mkUserNotice
    (optional ⟦un_NoticeRef : noticeReference_type⟧; optional ⟦un_ExplicitText : GString⟧; ⟦⟧).

Record objectDigestInfo := mkDigestInfo {
  odi_DigestedObjectType : Z; odi_OtherObjectTypeID : list Z;
  odi_DigestAlgorithm : AlgorithmIdentifier; odi_ObjectDigest : BitString;
}.
Definition objectDigestInfo_type : gotype objectDigestInfo :=
  struct mkDigestInfo
    (plain ⟦odi_DigestedObjectType : GEnumerated⟧; plain ⟦odi_OtherObjectTypeID : GOID⟧;
     plain ⟦odi_DigestAlgorithm : AlgorithmIdentifier_type⟧; plain ⟦odi_ObjectDigest : GBitString⟧; ⟦⟧).

Record issuerSerial := mkIssuerSerial {
  is_Raw : bytes; is_Issuer : RawValue; is_Serial : option Z; is_IssuerUID : BitString;
}.
Definition issuerSerial_type : gotype issuerSerial :=
  struct mkIssuerSerial
    (⟦Raw is_Raw⟧; plain ⟦is_Issuer : GRawValue⟧; plain ⟦is_Serial : GBigInt⟧;
     optional ⟦is_IssuerUID : GBitString⟧; ⟦⟧).

Record attCertIssuer := mkAttCertIssuer {
  aci_IssuerName : RawValue; aci_BaseCertificateID : issuerSerial; aci_ObjectDigestInfo : objectDigestInfo;
}.
Definition attCertIssuer_type : gotype attCertIssuer :=
  struct mkAttCertIssuer
    ((mkParams true false true None None 0) ⟦aci_IssuerName : GRawValue⟧;
     optional_tag 0 ⟦aci_BaseCertificateID : issuerSerial_type⟧;
     optional_tag 1 ⟦aci_ObjectDigestInfo : objectDigestInfo_type⟧; ⟦⟧).

Record holder := mkHolder {
  h_Raw : bytes; h_BaseCertificateID : issuerSerial; h_EntityName : Extension;
  h_ObjectDigestInfo : objectDigestInfo;
}.
Definition holder_type : gotype holder :=
  struct mkHolder
    (⟦Raw h_Raw⟧; optional_tag 0 ⟦h_BaseCertificateID : issuerSerial_type⟧;
     optional_tag 1 ⟦h_EntityName : Extension_type⟧;
     optional_tag 2 ⟦h_ObjectDigestInfo : objectDigestInfo_type⟧; ⟦⟧).

Record attribute := mkAttribute { attr_ID : list Z; attr_RawValues : list RawValue }.
Definition attribute_type : gotype attribute :=
  struct mkAttribute
    (plain ⟦attr_ID : GOID⟧;
     (mkParams false false true None None 0) ⟦attr_RawValues : (GSlice false GRawValue)⟧; ⟦⟧).

Record tbsAttributeCertificate := mkTBS {
  tbs_Raw : bytes; tbs_Version : Z; tbs_Holder : holder; tbs_Issuer : attCertIssuer;
  tbs_SignatureAlgorithm : AlgorithmIdentifier; tbs_SerialNumber : option Z; tbs_Validity : validity;
  tbs_Attributes : list attribute; tbs_IssuerUniqueID : BitString; tbs_Extensions : list Extension;
}.
Definition tbsAttributeCertificate_type : gotype tbsAttributeCertificate :=
  struct mkTBS
    (⟦Raw tbs_Raw⟧; plain ⟦tbs_Version : GInt⟧; plain ⟦tbs_Holder : holder_type⟧;
     implicit_tag 0 ⟦tbs_Issuer : attCertIssuer_type⟧;
     plain ⟦tbs_SignatureAlgorithm : AlgorithmIdentifier_type⟧;
     plain ⟦tbs_SerialNumber : GBigInt⟧; plain ⟦tbs_Validity : validity_type⟧;
     plain ⟦tbs_Attributes : (GSlice false attribute_type)⟧;
     optional ⟦tbs_IssuerUniqueID : GBitString⟧;
     optional ⟦tbs_Extensions : (GSlice false Extension_type)⟧; ⟦⟧).

Record attributeCertificate := mkRawCert {
  rc_Raw : bytes; rc_TBSAttributeCertificate : tbsAttributeCertificate;
  rc_SignatureAlgorithm : AlgorithmIdentifier; rc_SignatureValue : BitString;
}.
Definition attributeCertificate_type : gotype attributeCertificate :=
  struct mkRawCert
    (⟦Raw rc_Raw⟧; plain ⟦rc_TBSAttributeCertificate : tbsAttributeCertificate_type⟧;
     plain ⟦rc_SignatureAlgorithm : AlgorithmIdentifier_type⟧;
     plain ⟦rc_SignatureValue : GBitString⟧; ⟦⟧).
(** ** The TCG attributes *)
Definition PlatformDataSET : Type := list AttributeTypeAndValue.
Definition PlatformDataSequence : Type := list PlatformDataSET.
Definition PlatformDataSequence_type : gotype PlatformDataSequence :=
  GSlice false (GSlice true AttributeTypeAndValue_type).

Record TCGDirectoryEntry := mkTCGDirectoryEntry { de_ID : list Z; de_Data : RawValue }.
Definition TCGDirectoryEntry_type : gotype TCGDirectoryEntry :=
  struct mkTCGDirectoryEntry (plain ⟦de_ID : GOID⟧; plain ⟦de_Data : GRawValue⟧; ⟦⟧).

Record TCGSpecificationVersion := mkSpecVersion { sv_MajorVersion : Z; sv_MinorVersion : Z; sv_Revision : Z }.
Definition TCGSpecificationVersion_type : gotype TCGSpecificationVersion :=
  struct mkSpecVersion
    (plain ⟦sv_MajorVersion : GInt⟧; plain ⟦sv_MinorVersion : GInt⟧; plain ⟦sv_Revision : GInt⟧; ⟦⟧).

Record TCGPlatformSpecification := mkPlatformSpec { ps_Version : TCGSpecificationVersion }.
Definition TCGPlatformSpecification_type : gotype TCGPlatformSpecification :=
  struct mkPlatformSpec (plain ⟦ps_Version : TCGSpecificationVersion_type⟧; ⟦⟧).

Record TCGCredentialSpecification := mkCredentialSpec { cs_Version : TCGSpecificationVersion }.
Definition TCGCredentialSpecification_type : gotype TCGCredentialSpecification :=
  struct mkCredentialSpec (plain ⟦cs_Version : TCGSpecificationVersion_type⟧; ⟦⟧).

Record TCGCredentialType := mkCredentialType { ct_CertificateType : list Z }.
Definition TCGCredentialType_type : gotype TCGCredentialType :=
  struct mkCredentialType (plain ⟦ct_CertificateType : GOID⟧; ⟦⟧).

(** [default=false] is not a parameter [asn1] knows: it is ignored. *)
Record FipsLevel := mkFipsLevel { fl_Version : bytes; fl_Level : Z; fl_Plus : bool }.
Definition FipsLevel_type : gotype FipsLevel :=
  struct mkFipsLevel
    (plain ⟦fl_Version : GString⟧; plain ⟦fl_Level : GEnumerated⟧; optional ⟦fl_Plus : GBool⟧; ⟦⟧).

Record CommonCriteriaMeasures := mkCCM {
  cc_Version : bytes; cc_AssuranceLevel : Z; cc_EvaluationStatus : Z; cc_Plus : bool;
  cc_StrengthOfFunction : Z; cc_ProfileOid : list Z; cc_ProfileURI : bytes;
  cc_TargetOid : list Z; cc_TargetURI : list Z;
}.
Definition CommonCriteriaMeasures_type : gotype CommonCriteriaMeasures :=
  struct mkCCM
    (plain ⟦cc_Version : GString⟧; plain ⟦cc_AssuranceLevel : GEnumerated⟧;
     plain ⟦cc_EvaluationStatus : GEnumerated⟧; plain ⟦cc_Plus : GBool⟧;
     optional_tag 0 ⟦cc_StrengthOfFunction : GEnumerated⟧; optional_tag 1 ⟦cc_ProfileOid : GOID⟧;
     optional_tag 2 ⟦cc_ProfileURI : GString⟧; optional_tag 3 ⟦cc_TargetOid : GOID⟧;
     optional_tag 4 ⟦cc_TargetURI : GOID⟧; ⟦⟧).

Record TBBSecurityAssertions := mkTBB {
  tbb_Version : Z; tbb_CcInfo : CommonCriteriaMeasures; tbb_FipsLevel : FipsLevel; tbb_RtmType : Z;
  tbb_Iso9000Certified : bool; tbb_Iso9000URI : bytes;
}.
Definition TBBSecurityAssertions_type : gotype TBBSecurityAssertions :=
  struct mkTBB
    (optional ⟦tbb_Version : GInt⟧; optional_tag 0 ⟦tbb_CcInfo : CommonCriteriaMeasures_type⟧;
     optional_tag 1 ⟦tbb_FipsLevel : FipsLevel_type⟧; optional_tag 2 ⟦tbb_RtmType : GEnumerated⟧;
     optional ⟦tbb_Iso9000Certified : GBool⟧; optional ⟦tbb_Iso9000URI : GString⟧; ⟦⟧).

(** In the directory attributes the optional fields have no tags. *)
Record CommonCriteriaMeasures_sda := mkCCM_sda {
  ccs_Version : bytes; ccs_AssuranceLevel : Z; ccs_EvaluationStatus : Z; ccs_Plus : bool;
  ccs_StrengthOfFunction : Z; ccs_ProfileOid : list Z; ccs_ProfileURI : bytes;
  ccs_TargetOid : list Z; ccs_TargetURI : list Z;
}.
Definition CommonCriteriaMeasures_sda_type : gotype CommonCriteriaMeasures_sda :=
  struct mkCCM_sda
    (plain ⟦ccs_Version : GString⟧; plain ⟦ccs_AssuranceLevel : GEnumerated⟧;
     plain ⟦ccs_EvaluationStatus : GEnumerated⟧; optional ⟦ccs_Plus : GBool⟧;
     optional ⟦ccs_StrengthOfFunction : GEnumerated⟧; optional ⟦ccs_ProfileOid : GOID⟧;
     optional ⟦ccs_ProfileURI : GString⟧; optional ⟦ccs_TargetOid : GOID⟧;
     optional ⟦ccs_TargetURI : GOID⟧; ⟦⟧).

Record TBBSecurityAssertions_sda := mkTBB_sda {
  tbbs_Version : Z; tbbs_CcInfo : CommonCriteriaMeasures_sda; tbbs_FipsLevel : FipsLevel; tbbs_RtmType : Z;
  tbbs_Iso9000Certified : bool; tbbs_Iso9000URI : bytes;
}.
Definition TBBSecurityAssertions_sda_type : gotype TBBSecurityAssertions_sda :=
  struct mkTBB_sda
    (plain ⟦tbbs_Version : GInt⟧; optional ⟦tbbs_CcInfo : CommonCriteriaMeasures_sda_type⟧;
     optional ⟦tbbs_FipsLevel : FipsLevel_type⟧; optional ⟦tbbs_RtmType : GEnumerated⟧;
     optional ⟦tbbs_Iso9000Certified : GBool⟧; optional ⟦tbbs_Iso9000URI : GString⟧; ⟦⟧).

Record Property := mkProperty { pr_PropertyName : bytes; pr_PropertyValue : bytes; pr_Status : Z }.
Definition Property_type : gotype Property :=
  struct mkProperty
    (plain ⟦pr_PropertyName : GString⟧; plain ⟦pr_PropertyValue : GString⟧;
     optional_tag 0 ⟦pr_Status : GEnumerated⟧; ⟦⟧).

Record AttributeCertificateIdentifier := mkCertId {
  aid_HashAlgorithm : AlgorithmIdentifier; aid_HashOverSignatureValue : bytes;
}.
Definition AttributeCertificateIdentifier_type : gotype AttributeCertificateIdentifier :=
  struct mkCertId
    (plain ⟦aid_HashAlgorithm : AlgorithmIdentifier_type⟧;
     plain ⟦aid_HashOverSignatureValue : GString⟧; ⟦⟧).

Record CertificateIdentifier := mkCertificateIdentifier {
  ci_AttributeCertIdentifier : AttributeCertificateIdentifier; ci_GenericCertIdientifier : issuerSerial;
}.
Definition CertificateIdentifier_type : gotype CertificateIdentifier :=
  struct mkCertificateIdentifier
    (optional_tag 0 ⟦ci_AttributeCertIdentifier : AttributeCertificateIdentifier_type⟧;
     optional_tag 1 ⟦ci_GenericCertIdientifier : issuerSerial_type⟧; ⟦⟧).

Record ComponentAddress := mkAddress { ca_AddressType : list Z; ca_AddressValue : bytes }.
Definition ComponentAddress_type : gotype ComponentAddress :=
  struct mkAddress (plain ⟦ca_AddressType : GOID⟧; plain ⟦ca_AddressValue : GString⟧; ⟦⟧).

Record ComponentClass := mkComponentClass {
  cl_ComponentClassRegistry : list Z; cl_ComponentClassValue : bytes;
}.
Definition ComponentClass_type : gotype ComponentClass :=
  struct mkComponentClass
    (plain ⟦cl_ComponentClassRegistry : GOID⟧; plain ⟦cl_ComponentClassValue : GBytes⟧; ⟦⟧).

Definition optional_utf8 (t : Z) : fieldParameters := mkParams true false false (Some t) None TagUTF8String.

Record ComponentIdentifierV2 := mkComponentV2 {
  c2_ComponentClass : ComponentClass; c2_ComponentManufacturer : bytes; c2_ComponentModel : bytes;
  c2_ComponentSerial : bytes; c2_ComponentRevision : bytes; c2_ComponentManufacturerID : Z;
  c2_FieldReplaceable : bool; c2_ComponentAddresses : list ComponentAddress;
  c2_ComponentPlatformCert : CertificateIdentifier; c2_ComponentPlatformCertURI : bytes; c2_Status : Z;
}.
Definition ComponentIdentifierV2_type : gotype ComponentIdentifierV2 :=
  struct mkComponentV2
    (plain ⟦c2_ComponentClass : ComponentClass_type⟧; plain ⟦c2_ComponentManufacturer : GString⟧;
     plain ⟦c2_ComponentModel : GString⟧; optional_utf8 0 ⟦c2_ComponentSerial : GString⟧;
     optional_utf8 1 ⟦c2_ComponentRevision : GString⟧; optional_tag 2 ⟦c2_ComponentManufacturerID : GInt⟧;
     optional_tag 3 ⟦c2_FieldReplaceable : GBool⟧;
     optional_tag 4 ⟦c2_ComponentAddresses : (GSlice false ComponentAddress_type)⟧;
     optional_tag 5 ⟦c2_ComponentPlatformCert : CertificateIdentifier_type⟧;
     optional_tag 6 ⟦c2_ComponentPlatformCertURI : GString⟧; optional_tag 7 ⟦c2_Status : GEnumerated⟧; ⟦⟧).

Record URIReference := mkURI {
  uri_UniformResourceIdentifier : bytes; uri_HashAlgorithm : AlgorithmIdentifier; uri_HashValue : bytes;
}.
Definition URIReference_type : gotype URIReference :=
  struct mkURI
    (plain ⟦uri_UniformResourceIdentifier : GString⟧;
     optional ⟦uri_HashAlgorithm : AlgorithmIdentifier_type⟧; optional ⟦uri_HashValue : GString⟧; ⟦⟧).

Record PlatformConfigurationV2 := mkConfigV2 {
  v2_ComponentIdentifiers : list ComponentIdentifierV2; v2_ComponentIdentifiersURI : URIReference;
  v2_PlatformProperties : list Property; v2_PlatformPropertiesURI : URIReference;
}.
Definition PlatformConfigurationV2_type : gotype PlatformConfigurationV2 :=
  struct mkConfigV2
    (optional_tag 0 ⟦v2_ComponentIdentifiers : (GSlice false ComponentIdentifierV2_type)⟧;
     optional_tag 1 ⟦v2_ComponentIdentifiersURI : URIReference_type⟧;
     optional_tag 2 ⟦v2_PlatformProperties : (GSlice false Property_type)⟧;
     optional_tag 3 ⟦v2_PlatformPropertiesURI : URIReference_type⟧; ⟦⟧).

(** Some certificates have one property where a sequence belongs. *)
Record PlatformConfigurationV2Workaround := mkConfigV2W {
  w2_ComponentIdentifiers : list ComponentIdentifierV2; w2_ComponentIdentifiersURI : URIReference;
  w2_PlatformProperty : Property; w2_PlatformPropertiesURI : URIReference;
}.
Definition PlatformConfigurationV2Workaround_type : gotype PlatformConfigurationV2Workaround :=
  struct mkConfigV2W
    (optional_tag 0 ⟦w2_ComponentIdentifiers : (GSlice false ComponentIdentifierV2_type)⟧;
     optional_tag 1 ⟦w2_ComponentIdentifiersURI : URIReference_type⟧;
     optional_tag 2 ⟦w2_PlatformProperty : Property_type⟧;
     optional_tag 3 ⟦w2_PlatformPropertiesURI : URIReference_type⟧; ⟦⟧).

Record ComponentIdentifierV1 := mkComponentV1 {
  c1_ComponentClass : bytes; c1_ComponentManufacturer : bytes; c1_ComponentModel : bytes;
  c1_ComponentSerial : bytes; c1_ComponentRevision : bytes; c1_ComponentManufacturerID : Z;
  c1_FieldReplaceable : bool; c1_ComponentAddresses : list ComponentAddress;
}.
Definition ComponentIdentifierV1_type : gotype ComponentIdentifierV1 :=
  struct mkComponentV1
    (optional ⟦c1_ComponentClass : GBytes⟧; plain ⟦c1_ComponentManufacturer : GString⟧;
     plain ⟦c1_ComponentModel : GString⟧; optional_utf8 0 ⟦c1_ComponentSerial : GString⟧;
     optional_utf8 1 ⟦c1_ComponentRevision : GString⟧; optional_tag 2 ⟦c1_ComponentManufacturerID : GInt⟧;
     optional_tag 3 ⟦c1_FieldReplaceable : GBool⟧;
     optional_tag 4 ⟦c1_ComponentAddresses : (GSlice false ComponentAddress_type)⟧; ⟦⟧).

Record PlatformConfigurationV1 := mkConfigV1 {
  v1_ComponentIdentifiers : list ComponentIdentifierV1; v1_PlatformProperties : list Property;
  v1_PlatformPropertiesURI : URIReference;
}.
Definition PlatformConfigurationV1_type : gotype PlatformConfigurationV1 :=
  struct mkConfigV1
    (optional_tag 0 ⟦v1_ComponentIdentifiers : (GSlice false ComponentIdentifierV1_type)⟧;
     optional_tag 1 ⟦v1_PlatformProperties : (GSlice false Property_type)⟧;
     optional_tag 2 ⟦v1_PlatformPropertiesURI : URIReference_type⟧; ⟦⟧).

(** ** The result *)
Record Certholder := mkCertholder { ch_Issuer : Name; ch_Serial : option Z }.
Record Component := mkComponent {
  co_Manufacturer : bytes; co_Model : bytes; co_Serial : bytes; co_Revision : bytes;
  co_ManufacturerID : Z; co_FieldReplaceable : bool; co_Addresses : list ComponentAddress;
}.
Record AttributeCertificate := mkCert {
  ac_Raw : bytes; ac_RawTBSAttributeCertificate : bytes; ac_Signature : bytes;
  ac_SignatureAlgorithm : Z; ac_Version : Z; ac_SerialNumber : option Z; ac_Holder : Certholder;
  ac_Issuer : Name; ac_Subject : Name; ac_NotBefore : Time; ac_NotAfter : Time;
  ac_TCGPlatformSpecification : TCGPlatformSpecification;
  ac_TBBSecurityAssertions : TBBSecurityAssertions;
  ac_PlatformManufacturer : bytes; ac_PlatformModel : bytes; ac_PlatformVersion : bytes;
  ac_PlatformSerial : bytes; ac_CredentialSpecification : bytes; ac_UserNotice : userNotice;
  ac_Components : list Component; ac_Properties : list Property; ac_PropertiesURI : bytes;
}.

(** ** Attributes *)

(** [asn1.Unmarshal(b, &v)] where [v] holds a value already *)
Definition update {A} (t : gotype A) (v : A) (b : bytes) : res error A :=
  let '(v, r) := Unmarshal t v b in _ ← r; Ok v.
(** into a new variable, ignoring what follows *)
Definition decoded {A} (t : gotype A) (b : bytes) : res error A := update t (zero t) b.

(** [attribute.RawValues[0].FullBytes] *)
Definition first_value (a : attribute) : res error bytes :=
  match attr_RawValues a with
  | v :: _ => Ok (rv_FullBytes v)
  | [] => Panic "index out of range"
  end.

Definition component_v1 (c : ComponentIdentifierV1) : Component :=
  mkComponent (c1_ComponentManufacturer c) (c1_ComponentModel c) (c1_ComponentSerial c)
    (c1_ComponentRevision c) (c1_ComponentManufacturerID c) (c1_FieldReplaceable c)
    (c1_ComponentAddresses c).
Definition component_v2 (c : ComponentIdentifierV2) : Component :=
  mkComponent (c2_ComponentManufacturer c) (c2_ComponentModel c) (c2_ComponentSerial c)
    (c2_ComponentRevision c) (c2_ComponentManufacturerID c) (c2_FieldReplaceable c)
    (c2_ComponentAddresses c).

Definition credential_specification (b : bytes) : res error () :=
  match decoded TCGCredentialSpecification_type b with
  | Err _ => _ ← decoded TCGSpecificationVersion_type b; Ok tt
  | r => _ ← r; Ok tt
  end.

(** The properties decoded before an error stay in [platformConfiguration]. *)
Definition configuration_v2 (b : bytes) : res error PlatformConfigurationV2 :=
  match Unmarshal PlatformConfigurationV2_type (zero PlatformConfigurationV2_type) b with
  | (platformConfiguration, Err _) =>
      workaround ← decoded PlatformConfigurationV2Workaround_type b;
      Ok (mkConfigV2 (w2_ComponentIdentifiers workaround) (w2_ComponentIdentifiersURI workaround)
            (v2_PlatformProperties platformConfiguration ++ [w2_PlatformProperty workaround])
            (w2_PlatformPropertiesURI workaround))
  | (platformConfiguration, r) => _ ← r; Ok platformConfiguration
  end.

Definition add_configuration (out : AttributeCertificate) (components : list Component)
    (properties : list Property) (uri : URIReference) : AttributeCertificate :=
  out <| ac_Components := ac_Components out ++ components |>
      <| ac_Properties := properties |>
      <| ac_PropertiesURI := uri_UniformResourceIdentifier uri |>.

Definition parse_attribute (out : AttributeCertificate) (a : attribute) : res error AttributeCertificate :=
  let id_is := eqb_oid (attr_ID a) in
  if id_is oidAttributeUserNotice then
    b ← first_value a; v ← update userNotice_type (ac_UserNotice out) b;
    Ok (out <| ac_UserNotice := v |>)
  else if id_is Oid.TCGPlatformSpecification then
    b ← first_value a; v ← update TCGPlatformSpecification_type (ac_TCGPlatformSpecification out) b;
    Ok (out <| ac_TCGPlatformSpecification := v |>)
  else if id_is Oid.TBBSecurityAssertions then
    b ← first_value a; v ← update TBBSecurityAssertions_type (ac_TBBSecurityAssertions out) b;
    Ok (out <| ac_TBBSecurityAssertions := v |>)
  else if id_is Oid.TCGCredentialSpecification then
    b ← first_value a; _ ← credential_specification b; Ok out
  else if id_is Oid.TCGCredentialType then
    b ← first_value a; _ ← decoded TCGCredentialType_type b; Ok out
  else if id_is Oid.PlatformConfigurationV1 then
    b ← first_value a; v ← decoded PlatformConfigurationV1_type b;
    Ok (add_configuration out (component_v1 <$> v1_ComponentIdentifiers v) (v1_PlatformProperties v)
          (v1_PlatformPropertiesURI v))
  else if id_is Oid.PlatformConfigurationV2 then
    b ← first_value a; v ← configuration_v2 b;
    Ok (add_configuration out (component_v2 <$> v2_ComponentIdentifiers v) (v2_PlatformProperties v)
          (v2_PlatformPropertiesURI v))
  else if id_is Oid.PlatformConfigURI then
    b ← first_value a; _ ← decoded URIReference_type b; Ok out
  else Err (Errorf "attributecert: unknown attribute %v").

(** ** Extensions *)
Definition unmarshalSAN (v : RawValue) : res error (list AttributeTypeAndValue) :=
  if rv_Tag v =? TagSet then
    e ← decoded AttributeTypeAndValue_type (rv_Bytes v);
    Ok [e]
  else if rv_Tag v =? TagOctetString then
    pr ← decode PlatformDataSequence_type plain (rv_Bytes v);
    if negb (zlen pr.2 =? 0) then Err (Errorf "attributecert: trailing data after X.509 subject")
    else Ok (concat pr.1)
  else Err (Errorf "attributecert: unexpected SAN type %v").

(** [e.Value.(string)] *)
Definition value_string (e : AttributeTypeAndValue) : res error bytes :=
  match atv_Value e with
  | AnyString s => Ok s
  | _ => Panic "interface conversion: interface {} is not string"
  end.

Definition san_attribute (out : AttributeCertificate) (e : AttributeTypeAndValue)
  : res error AttributeCertificate :=
  let id_is := eqb_oid (atv_Type e) in
  if id_is oidTcgPlatformManufacturerStrV1 then
    s ← value_string e; Ok (out <| ac_PlatformManufacturer := s |>)
  else if id_is oidTcgPlatformModelV1 then
    s ← value_string e; Ok (out <| ac_PlatformModel := s |>)
  else if id_is oidTcgPlatformVersionV1 then
    s ← value_string e; Ok (out <| ac_PlatformVersion := s |>)
  else if id_is Oid.TCGCredentialSpecification then
    s ← value_string e; Ok (out <| ac_PlatformSerial := s |>)
  else if id_is Oid.PlatformManufacturerStr then
    s ← value_string e; Ok (out <| ac_PlatformManufacturer := s |>)
  else if id_is Oid.PlatformManufacturerID then Ok out
  else if id_is Oid.PlatformModel then
    s ← value_string e; Ok (out <| ac_PlatformModel := s |>)
  else if id_is Oid.PlatformVersion then
    s ← value_string e; Ok (out <| ac_PlatformVersion := s |>)
  else if id_is Oid.PlatformSerial then
    s ← value_string e; Ok (out <| ac_PlatformSerial := s |>)
  else Err (Errorf "attributecert: unhandled attribute: %v").

Definition san_value (out : AttributeCertificate) (rest : bytes)
  : res error (AttributeCertificate * bytes) :=
  vr ← decode GRawValue plain rest;
  tcgdata ← wrapf "attributecert: failed to unmarshal SAN: %v" (unmarshalSAN vr.1);
  out ← for_each san_attribute out tcgdata;
  Ok (out, vr.2).

(** The single value an extension holds *)
Definition extension_sequence (value : bytes) : res error RawValue :=
  sr ← decode GRawValue plain value;
  if negb (zlen sr.2 =? 0) then Err (Errorf "attributecert: trailing data after X.509 extension")
  else Ok sr.1.

Definition parse_san (out : AttributeCertificate) (value : bytes) : res error AttributeCertificate :=
  seq ← extension_sequence value;
  der_loop (length (rv_Bytes seq)) san_value out (rv_Bytes seq).

Definition CommonCriteriaMeasures_of_sda (c : CommonCriteriaMeasures_sda) : CommonCriteriaMeasures :=
  mkCCM (ccs_Version c) (ccs_AssuranceLevel c) (ccs_EvaluationStatus c) (ccs_Plus c)
    (ccs_StrengthOfFunction c) (ccs_ProfileOid c) (ccs_ProfileURI c) (ccs_TargetOid c) (ccs_TargetURI c).

Definition directory_entry (out : AttributeCertificate) (rest : bytes)
  : res error (AttributeCertificate * bytes) :=
  er ← decode TCGDirectoryEntry_type plain rest;
  let e := er.1 in
  if eqb_oid (de_ID e) Oid.TCGPlatformSpecification then
    platformSpecification ← decoded TCGPlatformSpecification_type (rv_Bytes (de_Data e));
    Ok (out <| ac_TCGPlatformSpecification := platformSpecification |>, er.2)
  else if eqb_oid (de_ID e) Oid.TBBSecurityAssertions then
    s ← decoded TBBSecurityAssertions_sda_type (rv_Bytes (de_Data e));
    Ok (out <| ac_TBBSecurityAssertions :=
          mkTBB (tbbs_Version s) (CommonCriteriaMeasures_of_sda (tbbs_CcInfo s)) (tbbs_FipsLevel s)
            (tbbs_RtmType s) (tbbs_Iso9000Certified s) (tbbs_Iso9000URI s) |>, er.2)
  else Err (Errorf "attributecert: unhandled TCG directory attribute: %v").

Definition parse_directory (out : AttributeCertificate) (value : bytes) : res error AttributeCertificate :=
  seq ← extension_sequence value;
  der_loop (length (rv_Bytes seq)) directory_entry out (rv_Bytes seq).

Definition check_subpolicy (_ : ()) (subpolicy : policyInformation) : res error () :=
  if eqb_oid (pi_ID subpolicy) oidCpsCertificatePolicy then
    _ ← decoded cpsPolicy_type (pi_Raw subpolicy); Ok tt
  else if eqb_oid (pi_ID subpolicy) oidAttributeUserNotice then
    _ ← decoded GString (rv_Bytes (pi_Policy subpolicy)); Ok tt
  else Err (Errorf "attributecert: unhandled certificate policy: %v").
Definition check_policy (_ : ()) (policy : policyInformation) : res error () :=
  if eqb_oid (pi_ID policy) oidTcgCertificatePolicy then
    subpolicies ← decoded (GSlice false policyInformation_type) (rv_FullBytes (pi_Policy policy));
    for_each check_subpolicy tt subpolicies
  else Ok tt.
Definition check_access (_ : ()) (v : authorityInfoAccess) : res error () :=
  if eqb_oid (aia_Method v) oidAuthorityInfoAccessOcsp then Ok tt
  else if eqb_oid (aia_Method v) oidAuthorityInfoAccessIssuers then Ok tt
  else Err (Errorf "attributecert: unhandled Authority Info Access type %v").

Definition parse_extension (out : AttributeCertificate) (extension : Extension)
  : res error AttributeCertificate :=
  let id_is := eqb_oid (ext_Id extension) in
  let value := ext_Value extension in
  if id_is Oid.SubjectAltName then parse_san out value
  else if id_is Oid.SubjectDirectoryAttributes then parse_directory out value
  else if id_is Oid.CertificatePolicies then
    policies ← decoded (GSlice false policyInformation_type) value;
    _ ← for_each check_policy tt policies; Ok out
  else if id_is oidExtensionAuthorityKeyIdentifier then
    _ ← decoded authKeyID_type value; Ok out
  else if id_is oidAuthorityInfoAccess then
    aia ← decoded (GSlice false authorityInfoAccess_type) value;
    _ ← for_each check_access tt aia; Ok out
  else Err (Errorf "attributecert: unknown extension ID %v").

(** ** The certificate *)

(** An [int] wraps around at 64 bits. *)
Definition int64 (z : Z) : Z := (z + 2 ^ 63) mod 2 ^ 64 - 2 ^ 63.

Definition directory_name (b : bytes) : res error Name :=
  v ← decoded GRawValue b;
  pr ← decode RDNSequence_type plain (rv_Bytes v);
  if negb (zlen pr.2 =? 0) then Err (Errorf "attributecert: trailing data after X.509 subject")
  else Ok (FillFromRDNSequence no_name pr.1).

(** The fields that are copied; the others are set by attributes and extensions. *)
Definition new_certificate (inp : attributeCertificate) (issuer holderIssuer : Name) : AttributeCertificate :=
  let tbs := rc_TBSAttributeCertificate inp in
  mkCert (rc_Raw inp) (tbs_Raw tbs) (RightAlign (rc_SignatureValue inp))
    (getSignatureAlgorithmFromAI (tbs_SignatureAlgorithm tbs)) (int64 (tbs_Version tbs + 1))
    (tbs_SerialNumber tbs) (mkCertholder holderIssuer (is_Serial (h_BaseCertificateID (tbs_Holder tbs))))
    issuer no_name (val_NotBefore (tbs_Validity tbs)) (val_NotAfter (tbs_Validity tbs))
    (zero TCGPlatformSpecification_type) (zero TBBSecurityAssertions_type) [] [] [] [] []
    (zero userNotice_type) [] [] [].

Definition parseAttributeCertificate (inp : attributeCertificate) : res error AttributeCertificate :=
  let tbs := rc_TBSAttributeCertificate inp in
  issuer ← directory_name (rv_Bytes (aci_IssuerName (tbs_Issuer tbs)));
  holderIssuer ← directory_name (rv_Bytes (is_Issuer (h_BaseCertificateID (tbs_Holder tbs))));
  out ← for_each parse_attribute (new_certificate inp issuer holderIssuer) (tbs_Attributes tbs);
  for_each parse_extension out (tbs_Extensions tbs).

Definition ParseAttributeCertificate (asn1Data : bytes) : res error AttributeCertificate :=
  cr ← decode attributeCertificate_type plain asn1Data;
  if negb (zlen cr.2 =? 0) then Err (SyntaxError "attributecert: trailing data")
  else parseAttributeCertificate cr.1.
End AttributeCert.

(** ** Signatures *)

(** A certificate of [crypto/x509], as far as [CheckSignatureFrom] uses it *)
Class X509Parent := {
  x509_Certificate : Type;
  cert_KeyUsage : x509_Certificate → Z;
  cert_PublicKeyAlgorithm : x509_Certificate → Z;
  (** [parent.CheckSignature(algo, signed, signature)] *)
  cert_CheckSignature : x509_Certificate → Z → bytes → bytes → res error ();
}.

Definition ConstraintViolationError : error :=
  LibErr "x509: invalid signature: parent certificate cannot sign this kind of certificate".
Definition ErrUnsupportedAlgorithm : error :=
  LibErr "x509: cannot verify signature: algorithm unimplemented".

Definition CheckSignatureFrom `{GoTime, X509Parent} (c : AttributeCertificate) (parent : x509_Certificate)
  : res error () :=
  if negb (cert_KeyUsage parent =? 0) && (Z.land (cert_KeyUsage parent) x509.KeyUsageCertSign =? 0)
  then Err ConstraintViolationError
  else if cert_PublicKeyAlgorithm parent =? x509.UnknownPublicKeyAlgorithm
  then Err ErrUnsupportedAlgorithm
  else
    cert_CheckSignature parent (ac_SignatureAlgorithm c) (ac_RawTBSAttributeCertificate c) (ac_Signature c).
