(* ===== verification/AttributeCertSpec.v ===== *)
(** * What an attribute certificate says, and what its signature covers

    [ParseAttributeCertificate] returns on every input or panics, exactly as
    described; its result is a function of the signed bytes alone; the
    components, properties and signature algorithm it reports. *)
From coqutil Require Import Datatypes.RecordSetters.
From S2P Require Import Prelude GoBytes Loops GoCrypto Oid Asn1 Asn1Types Pkix AttributeCert.
Import TriangleBracketNotations.

Section Spec.
Context {T : GoTime}.

(** ** The signed part *)
Definition set_encoding (raw signature : bytes) (c : AttributeCertificate) : AttributeCertificate :=
  c <| ac_Raw := raw |> <| ac_Signature := signature |>.
#[local] Arguments set_encoding : simpl never.

(** What the signed bytes alone say *)
Definition signed_content (tbs : bytes) : res error AttributeCertificate :=
  tr ← decode tbsAttributeCertificate_type plain tbs;
  parseAttributeCertificate (mkRawCert [] tr.1 (zero AlgorithmIdentifier_type) (mkBits [] 0)).

(** Statements that read neither encoding nor signature *)
Ltac commute :=
  repeat match goal with
    | |- Ok _ = Ok _ => reflexivity
    | |- ?x = ?x => reflexivity
    | |- context [if ?c then _ else _] => destruct c; cbn [mbind res_bind]
    | |- context [mbind _ ?m] =>
        lazymatch m with mbind _ _ => fail | Ok _ => fail | _ => destruct m; cbn [mbind res_bind] end
    end.

Lemma parse_attribute_commutes r s a : commutes (set_encoding r s) (λ c, parse_attribute c a).
Proof.
  intros c. unfold parse_attribute. cbv zeta.
  replace (ac_UserNotice (set_encoding r s c)) with (ac_UserNotice c) by by destruct c.
  replace (ac_TCGPlatformSpecification (set_encoding r s c))
    with (ac_TCGPlatformSpecification c) by by destruct c.
  replace (ac_TBBSecurityAssertions (set_encoding r s c))
    with (ac_TBBSecurityAssertions c) by by destruct c.
  destruct c. commute.
Qed.

Lemma san_attribute_commutes r s e : commutes (set_encoding r s) (λ c, san_attribute c e).
Proof. intros []. unfold san_attribute. cbv zeta. commute. Qed.

Lemma san_value_commutes r s c b :
  san_value (set_encoding r s c) b = cr ← san_value c b; Ok (set_encoding r s cr.1, cr.2).
Proof.
  unfold san_value. destruct (decode GRawValue plain b) as [vr| | |]; cbn; try done.
  destruct (wrapf _ _) as [l| | |]; cbn; try done.
  rewrite (for_each_commutes _ (set_encoding r s)) by apply san_attribute_commutes.
  by destruct (for_each _ _ l).
Qed.

Lemma directory_entry_commutes r s c b :
  directory_entry (set_encoding r s c) b = cr ← directory_entry c b; Ok (set_encoding r s cr.1, cr.2).
Proof. destruct c. unfold directory_entry. cbv zeta. commute. Qed.

Lemma parse_extension_commutes r s e : commutes (set_encoding r s) (λ c, parse_extension c e).
Proof.
  intros c. unfold parse_extension, parse_san, parse_directory. cbv zeta.
  repeat (match goal with |- context [if ?c then _ else _] => destruct c end); try done;
    try (destruct (extension_sequence _) as [seq| | |]; cbn; try done).
  - by apply der_loop_commutes, san_value_commutes.
  - by apply der_loop_commutes, directory_entry_commutes.
  - destruct (decoded _ _); cbn; try done. by destruct (for_each _ _ _).
  - by destruct (decoded _ _).
  - destruct (decoded _ _); cbn; try done. by destruct (for_each _ _ _).
Qed.

Lemma parseAttributeCertificate_encoding inp r alg sig :
  parseAttributeCertificate (mkRawCert r (rc_TBSAttributeCertificate inp) alg sig)
  = c ← parseAttributeCertificate inp; Ok (set_encoding r (RightAlign sig) c).
Proof.
  unfold parseAttributeCertificate. cbv zeta. cbn [rc_TBSAttributeCertificate rc_Raw rc_SignatureValue].
  set (tbs := rc_TBSAttributeCertificate inp).
  destruct (directory_name (rv_Bytes (aci_IssuerName _))) as [issuer| | |]; cbn [mbind res_bind]; try done.
  destruct (directory_name _) as [hissuer| | |]; cbn [mbind res_bind]; try done.
  set (out := new_certificate inp issuer hissuer).
  change (new_certificate (mkRawCert _ _ _ _) issuer hissuer) with (set_encoding r (RightAlign sig) out).
  rewrite (for_each_commutes _ (set_encoding r (RightAlign sig))) by apply parse_attribute_commutes.
  destruct (for_each parse_attribute out _) as [out1| | |]; cbn [mbind res_bind]; try done.
  by rewrite (for_each_commutes _ (set_encoding r (RightAlign sig))) by apply parse_extension_commutes.
Qed.

(** Fields that the analysis copies *)
Definition same_origin (c c' : AttributeCertificate) : Prop :=
  ac_Raw c' = ac_Raw c ∧ ac_RawTBSAttributeCertificate c' = ac_RawTBSAttributeCertificate c ∧
  ac_Signature c' = ac_Signature c ∧ ac_SignatureAlgorithm c' = ac_SignatureAlgorithm c.

(** [update]s of other fields *)
Ltac origin H :=
  repeat match type of H with
    | (if ?c then _ else _) = Ok _ => destruct c
    | (mbind _ _) = Ok _ =>
        let a := fresh "a" in let Ha := fresh "Ha" in apply res_bind_Ok_inv in H as (a & Ha & H)
    | Err _ = Ok _ => discriminate H
    end; injection H; intros; subst; done.

Lemma parse_attribute_origin c0 a c c' : same_origin c0 c → parse_attribute c a = Ok c' → same_origin c0 c'.
Proof. intros Hc H. unfold parse_attribute in H. cbv zeta in H. destruct c. origin H. Qed.

Lemma san_attribute_origin c0 a c c' : same_origin c0 c → san_attribute c a = Ok c' → same_origin c0 c'.
Proof. intros Hc H. unfold san_attribute in H. cbv zeta in H. destruct c. origin H. Qed.

Lemma parse_extension_origin c0 e c c' : same_origin c0 c → parse_extension c e = Ok c' → same_origin c0 c'.
Proof.
  intros Hc H. unfold parse_extension in H. cbv zeta in H.
  repeat (match type of H with (if ?b then _ else _) = _ => destruct b end); try done.
  - apply res_bind_Ok_inv in H as (seq & _ & H). eapply der_loop_invariant; [|done|done].
    intros s b s' r Hs Hb. unfold san_value in Hb.
    apply res_bind_Ok_inv in Hb as (vr & _ & (l & _ & (o & Ho & [= <- _])%res_bind_Ok_inv)%res_bind_Ok_inv).
    eapply for_each_invariant; [|done|done]. intros. by eapply san_attribute_origin.
  - apply res_bind_Ok_inv in H as (seq & _ & H). eapply der_loop_invariant; [|done|done].
    intros s b s' r Hs Hb. unfold directory_entry in Hb. cbv zeta in Hb. destruct s. origin Hb.
  - origin H.
  - origin H.
  - origin H.
Qed.

Lemma parseAttributeCertificate_origin inp c :
  parseAttributeCertificate inp = Ok c →
  ac_Raw c = rc_Raw inp ∧ ac_RawTBSAttributeCertificate c = tbs_Raw (rc_TBSAttributeCertificate inp).
Proof.
  unfold parseAttributeCertificate. cbv zeta.
  intros (issuer & _ & (hissuer & _ & (out & Ho & H)%res_bind_Ok_inv)%res_bind_Ok_inv)%res_bind_Ok_inv.
  set (out0 := new_certificate _ _ _) in Ho.
  assert (Hc : same_origin out0 c).
  { eapply for_each_invariant; [| |exact H]; [intros; by eapply parse_extension_origin|].
    eapply for_each_invariant; [| |exact Ho]; [intros; by eapply parse_attribute_origin|done]. }
  destruct Hc as (-> & -> & _). done.
Qed.

(** A structure that records its encoding is the decoding of that record. *)
Lemma tbs_from_raw b v rest :
  parseField tbsAttributeCertificate_type plain (zero tbsAttributeCertificate_type) b = (v, Ok rest) →
  b = tbs_Raw v ++ rest ∧ decode tbsAttributeCertificate_type plain (tbs_Raw v) = Ok (v, []).
Proof.
  intros H. pose proof H as Hl. apply parseField_local in Hl as [[_ Hl]|(x & Hx & _ & Hl)]; [done| |by left].
  assert (Hraw : tbs_Raw v = x).
  { apply parse_struct in H as (class & tag & body & Hb & _ & _ & _ & H); try done.
    rewrite Hb in Hx. apply app_inj_2 in Hx as [Hx _]; [|done]. rewrite <-Hx. clear -H.
    rewrite parse_fields_raw in H.
    do 9 (apply parse_fields_cons in H as (? & ? & _ & H)). injection H as <-. done. }
  rewrite Hraw. split; [done|]. apply decode_Ok. rewrite <-(app_nil_r x). apply Hl.
Qed.

Lemma ParseAttributeCertificate_inv d c :
  ParseAttributeCertificate d = Ok c →
  ∃ cert pre post,
    parseAttributeCertificate cert = Ok c ∧ rc_Raw cert = d ∧
    d = pre ++ tbs_Raw (rc_TBSAttributeCertificate cert) ++ post ∧
    decode tbsAttributeCertificate_type plain (tbs_Raw (rc_TBSAttributeCertificate cert))
    = Ok (rc_TBSAttributeCertificate cert, []).
Proof.
  unfold ParseAttributeCertificate. intros ([cert rest] & Hd & H)%res_bind_Ok_inv. cbn in H.
  destruct (zlen rest =? 0) eqn:Hr; [|done]. cbn in H. apply Z.eqb_eq, zlen_0 in Hr as ->.
  apply decode_Ok, parse_struct in Hd as (class & tag & body & Hb & _ & _ & _ & Hf); try done.
  rewrite app_nil_r in Hb. rewrite parse_fields_raw in Hf.
  apply parse_fields_cons in Hf as (tbs & r1 & Htbs & Hf).
  do 2 (apply parse_fields_cons in Hf as (? & ? & _ & Hf)). injection Hf as <-. cbn in *.
  apply tbs_from_raw in Htbs as [Hbody Hraw].
  eexists _, _, r1. split; [exact H|]. cbn. split; [done|]. split; [|done].
  rewrite Hb, Hbody. unfold tlv. done.
Qed.

Lemma content_is_signed d c :
  ParseAttributeCertificate d = Ok c →
  ac_Raw c = d ∧ (∃ pre post, d = pre ++ ac_RawTBSAttributeCertificate c ++ post) ∧
  signed_content (ac_RawTBSAttributeCertificate c) = Ok (set_encoding [] [] c).
Proof.
  intros (cert & pre & post & H & Hraw & Hd & Htbs)%ParseAttributeCertificate_inv.
  apply parseAttributeCertificate_origin in H as Ho. destruct Ho as [-> ->].
  split; [done|]. split; [eauto|]. unfold signed_content. rewrite Htbs. cbn [mbind res_bind fst].
  by rewrite parseAttributeCertificate_encoding, H.
Qed.

Context {X : X509Parent}.

(** C11: An attribute certificate that parses and whose signature verifies under
    a parent says nothing that the parent did not sign: all its fields except
    the encoding and the signature itself are a function of a signed byte
    string contained in the input (in particular the signature algorithm used
    is the one inside it), and the parent's key usage permits signing. *)
Theorem attribute_certificate_authentic parent (issued : bytes → Prop) d c :
  (∀ alg m sig, cert_CheckSignature parent alg m sig = Ok tt → issued m) →
  ParseAttributeCertificate d = Ok c →
  CheckSignatureFrom c parent = Ok tt →
  ∃ m, issued m ∧ (∃ pre post, d = pre ++ m ++ post) ∧
       signed_content m = Ok (set_encoding [] [] c) ∧
       (cert_KeyUsage parent = 0 ∨ Z.testbit (cert_KeyUsage parent) 5 = true) ∧
       cert_PublicKeyAlgorithm parent ≠ x509.UnknownPublicKeyAlgorithm.
Proof.
  intros Hissued (_ & Hd & Hc)%content_is_signed. unfold CheckSignatureFrom.
  destruct (_ && _) eqn:Hu; [done|]. destruct (_ =? x509.UnknownPublicKeyAlgorithm) eqn:Ha; [done|].
  intros Hs. exists (ac_RawTBSAttributeCertificate c). split; [by eapply Hissued|].
  split; [done|]. split; [done|]. split; [|by apply Z.eqb_neq].
  apply andb_false_iff in Hu as [Hu|Hu]; [left; by apply negb_false_iff, Z.eqb_eq in Hu|right].
  apply Z.eqb_neq in Hu. destruct (Z.testbit _ 5) eqn:E; [done|]. exfalso. apply Hu.
  apply Z.bits_inj'. intros i Hi. rewrite Z.land_spec, Z.bits_0.
  change x509.KeyUsageCertSign with (2 ^ 5). rewrite Z.pow2_bits_eqb by done.
  destruct (Z.eqb_spec 5 i) as [<-|]; [by rewrite E|apply andb_false_r].
Qed.

(** ** Inputs on which the parser panics *)
Section Panics.
Context {TL : GoTimeLaws}.

(** The attributes of which the first value is read *)
Definition known_attributes : list (list Z) :=
  [oidAttributeUserNotice; Oid.TCGPlatformSpecification; Oid.TBBSecurityAssertions;
   Oid.TCGCredentialSpecification; Oid.TCGCredentialType; Oid.PlatformConfigurationV1;
   Oid.PlatformConfigurationV2; Oid.PlatformConfigURI].
Definition attribute_crashes (a : attribute) : Prop := attr_ID a ∈ known_attributes ∧ attr_RawValues a = [].

(** The subject attributes whose value is asserted to be a string *)
Definition asserted_types : list (list Z) :=
  [oidTcgPlatformManufacturerStrV1; oidTcgPlatformModelV1; oidTcgPlatformVersionV1;
   Oid.TCGCredentialSpecification; Oid.PlatformManufacturerStr; Oid.PlatformModel;
   Oid.PlatformVersion; Oid.PlatformSerial].
Definition value_crashes (e : AttributeTypeAndValue) : Prop :=
  atv_Type e ∈ asserted_types ∧ ∀ s, atv_Value e ≠ AnyString s.
Definition value_fine (e : AttributeTypeAndValue) : Prop :=
  atv_Type e = Oid.PlatformManufacturerID ∨ atv_Type e ∈ asserted_types ∧ ∃ s, atv_Value e = AnyString s.

(** A sequence of names, read up to such a value *)
Inductive san_crashes : bytes → Prop :=
| crash_here b v rest pre e post :
    decode GRawValue plain b = Ok (v, rest) → unmarshalSAN v = Ok (pre ++ e :: post) →
    Forall value_fine pre → value_crashes e → san_crashes b
| crash_later b v rest l :
    decode GRawValue plain b = Ok (v, rest) → unmarshalSAN v = Ok l → Forall value_fine l →
    san_crashes rest → san_crashes b.
Definition extension_crashes (e : Extension) : Prop :=
  ext_Id e = Oid.SubjectAltName ∧
  ∃ seq, extension_sequence (ext_Value e) = Ok seq ∧ san_crashes (rv_Bytes seq).

(** What precedes is read without an error. *)
Definition analysis_crashes (cert : attributeCertificate) (issuer holderIssuer : Name) : Prop :=
  let tbs := rc_TBSAttributeCertificate cert in
  (∃ pre a post out,
     tbs_Attributes tbs = pre ++ a :: post ∧
     for_each parse_attribute (new_certificate cert issuer holderIssuer) pre = Ok out ∧
     attribute_crashes a) ∨
  (∃ out, for_each parse_attribute (new_certificate cert issuer holderIssuer) (tbs_Attributes tbs) = Ok out ∧
   ∃ pre e post out', tbs_Extensions tbs = pre ++ e :: post ∧
     for_each parse_extension out pre = Ok out' ∧ extension_crashes e).
Definition certificate_crashes (d : bytes) : Prop :=
  ∃ cert issuer holderIssuer,
    let tbs := rc_TBSAttributeCertificate cert in
    decode attributeCertificate_type plain d = Ok (cert, []) ∧
    directory_name (rv_Bytes (aci_IssuerName (tbs_Issuer tbs))) = Ok issuer ∧
    directory_name (rv_Bytes (is_Issuer (h_BaseCertificateID (tbs_Holder tbs)))) = Ok holderIssuer ∧
    analysis_crashes cert issuer holderIssuer.

(** *** The pieces that return *)
Lemma update_returns {A} (t : gotype A) v b : no_crash (update t v b).
Proof.
  unfold update, Unmarshal, UnmarshalWithParams. pose proof (parseField_returns t plain v b) as H.
  destruct (parseField t plain v b) as [v' r]. by apply no_crash_bind.
Qed.

Lemma decoded_returns {A} (t : gotype A) b : no_crash (decoded t b).
Proof. apply update_returns. Qed.

Lemma credential_specification_returns b : no_crash (credential_specification b).
Proof.
  unfold credential_specification. pose proof (decoded_returns TCGCredentialSpecification_type b) as H.
  destruct (decoded _ b); try done. by apply no_crash_bind; [apply decoded_returns|].
Qed.

Lemma configuration_v2_returns b : no_crash (configuration_v2 b).
Proof.
  unfold configuration_v2, Unmarshal, UnmarshalWithParams.
  pose proof (parseField_returns PlatformConfigurationV2_type plain (zero PlatformConfigurationV2_type) b) as H.
  destruct (parseField _ _ _ b) as [v r]. destruct r; try done.
  by apply no_crash_bind; [apply decoded_returns|].
Qed.

Lemma unmarshalSAN_returns v : no_crash (unmarshalSAN v).
Proof.
  unfold unmarshalSAN. destruct (_ =? _); [by apply no_crash_bind; [apply decoded_returns|]|].
  destruct (_ =? _); [|done]. apply no_crash_bind; [apply decode_returns|].
  intros pr _. by destruct (negb _).
Qed.

Lemma extension_sequence_returns b : no_crash (extension_sequence b).
Proof. apply no_crash_bind; [apply decode_returns|]. intros sr _. by destruct (negb _). Qed.

Lemma directory_name_returns b : no_crash (directory_name b).
Proof.
  apply no_crash_bind; [apply decoded_returns|]. intros v _.
  apply no_crash_bind; [apply decode_returns|]. intros pr _. by destruct (negb _).
Qed.

Lemma directory_entry_returns out b : no_crash (directory_entry out b).
Proof.
  apply no_crash_bind; [apply decode_returns|]. intros er _. cbv zeta.
  destruct (eqb_oid _ _); [by apply no_crash_bind; [apply decoded_returns|]|].
  destruct (eqb_oid _ _); [by apply no_crash_bind; [apply decoded_returns|]|done].
Qed.

Lemma parse_directory_returns out b : no_crash (parse_directory out b).
Proof.
  apply no_crash_bind; [apply extension_sequence_returns|]. intros seq _.
  apply der_loop_returns; [apply directory_entry_returns| |done].
  intros s b' s' r. unfold directory_entry. cbv zeta.
  intros ([e r'] & He & H)%res_bind_Ok_inv. apply decode_consumes in He. cbn in H.
  destruct (eqb_oid _ _); [|destruct (eqb_oid _ _); [|done]];
    apply res_bind_Ok_inv in H as (p & _ & [= _ <-]); done.
Qed.

Lemma check_policy_returns u p : no_crash (check_policy u p).
Proof.
  unfold check_policy. destruct (eqb_oid _ _); [|done]. apply no_crash_bind; [apply decoded_returns|].
  intros l _. apply for_each_returns. intros [] sp. unfold check_subpolicy.
  destruct (eqb_oid _ _); [by apply no_crash_bind; [apply decoded_returns|]|].
  destruct (eqb_oid _ _); [by apply no_crash_bind; [apply decoded_returns|]|done].
Qed.

Lemma check_access_returns u p : no_crash (check_access u p).
Proof. unfold check_access. destruct (eqb_oid _ _); [done|]. by destruct (eqb_oid _ _). Qed.

(** *** The pieces that may panic *)
Lemma eqb_oid_true a b : eqb_oid a b = true ↔ a = b.
Proof. apply bool_decide_eq_true. Qed.
Lemma eqb_oid_false a b : eqb_oid a b = false ↔ a ≠ b.
Proof. apply bool_decide_eq_false. Qed.

Lemma first_value_bind {B} a (f : bytes → res error B) :
  attr_ID a ∈ known_attributes → (∀ b, no_crash (f b)) →
  panics_if (first_value a ≫= f) (attribute_crashes a).
Proof.
  intros Ha Hf. unfold attribute_crashes, first_value. destruct (attr_RawValues a); cbn; [done|].
  apply returns_panics_if; [done|]. by intros [_ ?].
Qed.

Ltac solve_known E :=
  apply eqb_oid_true in E; rewrite E; apply (bool_decide_eq_true_1 _); vm_compute; reflexivity.

Lemma parse_attribute_panics out a : panics_if (parse_attribute out a) (attribute_crashes a).
Proof.
  unfold parse_attribute. cbv zeta.
  repeat match goal with
    | |- panics_if (if eqb_oid ?x ?y then _ else _) _ =>
        let E := fresh "E" in destruct (eqb_oid x y) eqn:E;
          [apply first_value_bind;
             [solve_known E
             |intros b; apply no_crash_bind;
               [first [apply update_returns|apply decoded_returns|apply configuration_v2_returns
                      |apply credential_specification_returns]|done]]|]
    end.
  rewrite eqb_oid_false in *. cbn. unfold attribute_crashes, known_attributes.
  rewrite !elem_of_cons, elem_of_nil. tauto.
Qed.

Lemma value_string_bind {B} e (f : bytes → res error B) :
  atv_Type e ∈ asserted_types → (∀ b, no_crash (f b)) →
  panics_if (value_string e ≫= f) (value_crashes e).
Proof.
  intros He Hf. unfold value_crashes, value_string. destruct (atv_Value e) as [|s| | | | |]; cbn; try done.
  apply returns_panics_if; [done|]. intros [_ H]. by apply (H s).
Qed.

Lemma san_attribute_panics out e : panics_if (san_attribute out e) (value_crashes e).
Proof.
  unfold san_attribute. cbv zeta.
  repeat match goal with
    | |- panics_if (if eqb_oid ?x ?y then _ else _) _ =>
        let E := fresh "E" in destruct (eqb_oid x y) eqn:E;
          [first [apply value_string_bind; [solve_known E|done]
                 |cbn; intros [He _]; apply eqb_oid_true in E; rewrite E in He;
                  by apply (bool_decide_eq_true_2 _) in He]|]
    end.
  rewrite eqb_oid_false in *. cbn. unfold value_crashes, asserted_types.
  rewrite !elem_of_cons, elem_of_nil. tauto.
Qed.

Lemma value_string_Ok {B} e (f : bytes → B) :
  (∃ b, (s ← value_string e; Ok (f s)) = Ok b) ↔ ∃ s, atv_Value e = AnyString s.
Proof.
  unfold value_string. destruct (atv_Value e) as [|s| | | | |]; cbn; split; intros [? H]; try done; eauto.
Qed.

Lemma san_attribute_fine out e : (∃ out', san_attribute out e = Ok out') ↔ value_fine e.
Proof.
  unfold san_attribute, value_fine. cbv zeta.
  repeat match goal with
    | |- (∃ out', (if eqb_oid ?x ?y then _ else _) = _) ↔ _ =>
        let E := fresh "E" in destruct (eqb_oid x y) eqn:E;
          [rewrite eqb_oid_true in E; rewrite E;
           first [rewrite value_string_Ok; split;
                    [intros Hs; right; split; [apply (bool_decide_eq_true_1 _); vm_compute; reflexivity|done]
                    |intros [?|[_ Hs]]; done]
                 |split; [intros _; by left|eauto]]|]
    end.
  rewrite eqb_oid_false in *. unfold asserted_types. rewrite !elem_of_cons, elem_of_nil.
  split; [by intros [? ?]|tauto].
Qed.

(** A step that reads such a value *)
Definition san_value_crashes (b : bytes) : Prop :=
  ∃ v rest pre e post, decode GRawValue plain b = Ok (v, rest) ∧ unmarshalSAN v = Ok (pre ++ e :: post) ∧
                       Forall value_fine pre ∧ value_crashes e.

Lemma san_value_panics out b : panics_if (san_value out b) (san_value_crashes b).
Proof.
  unfold san_value. eapply returns_bind with
    (Q := λ vr, ∃ pre e post, unmarshalSAN vr.1 = Ok (pre ++ e :: post) ∧ Forall value_fine pre ∧ value_crashes e).
  - apply decode_returns.
  - intros [v rest] _. cbn. eapply returns_bind with
      (Q := λ l, ∃ pre e post, l = pre ++ e :: post ∧ Forall value_fine pre ∧ value_crashes e).
    + apply wrapf_no_crash, unmarshalSAN_returns.
    + intros l _. eapply panics_if_bind with (Q := λ _, False).
      * apply (panics_if_for_each _ (λ _, value_crashes)), san_attribute_panics.
      * by intros out' _ [].
      * setoid_rewrite <-(for_each_Ok_Forall san_attribute value_fine _ out san_attribute_fine). naive_solver.
    + unfold wrapf. destruct (unmarshalSAN v); naive_solver.
  - unfold san_value_crashes. split.
    + intros (v & rest & pre & e & post & Hd & H). exists (v, rest). eauto 10.
    + intros ([v rest] & Hd & pre & e & post & H). exists v, rest. eauto 10.
Qed.

Lemma san_value_Ok out b v rest l :
  decode GRawValue plain b = Ok (v, rest) → unmarshalSAN v = Ok l → Forall value_fine l →
  ∃ out', san_value out b = Ok (out', rest).
Proof.
  intros Hd Hu Hl. apply (for_each_Ok_Forall san_attribute value_fine _ out san_attribute_fine) in Hl as (out' & Ho).
  exists out'. unfold san_value. rewrite Hd. cbn. rewrite Hu. cbn. by rewrite Ho.
Qed.

Lemma san_value_Ok_inv out b out' rest :
  san_value out b = Ok (out', rest) →
  ∃ v l, decode GRawValue plain b = Ok (v, rest) ∧ unmarshalSAN v = Ok l ∧ Forall value_fine l.
Proof.
  intros ([v r] & Hd & (l & Hu & (o & Ho & [= <- <-])%res_bind_Ok_inv)%res_bind_Ok_inv)%res_bind_Ok_inv.
  apply wrapf_Ok_inv in Hu. cbn in Hu. exists v, l. split; [done|]. split; [done|].
  apply (for_each_Ok_Forall san_attribute value_fine _ out san_attribute_fine). eauto.
Qed.

Lemma san_loop_panics fuel : ∀ out b,
  (length b ≤ fuel)%nat → panics_if (der_loop fuel san_value out b) (san_crashes b).
Proof.
  induction fuel as [|fuel IH]; intros out [|x b] Hf; try (cbn in Hf; lia);
    [cbn; inversion 1; done..|].
  cbn [der_loop]. eapply panics_if_bind with (Q := λ sr, san_crashes sr.2).
  - apply san_value_panics.
  - intros [out' rest] H. apply IH. apply san_value_Ok_inv in H as (v & l & Hd & _).
    apply decode_consumes in Hd. cbn in *. lia.
  - split.
    + inversion 1 as [? v rest pre e post|? v rest l Hd Hu Hl Hc]; subst.
      * left. by exists v, rest, pre, e, post.
      * right. destruct (san_value_Ok out (x :: b) v rest l) as (out' & Ho); [done..|]. eexists. eauto.
    + intros [(v & rest & pre & e & post & H)|([out' rest] & H & Hc)].
      * eapply crash_here; naive_solver.
      * apply san_value_Ok_inv in H as (v & l & Hd & Hu & Hl). eapply crash_later; eauto.
Qed.

Lemma parse_extension_panics out e : panics_if (parse_extension out e) (extension_crashes e).
Proof.
  unfold parse_extension. cbv zeta. destruct (eqb_oid (ext_Id e) Oid.SubjectAltName) eqn:E.
  - apply eqb_oid_true in E. unfold parse_san. eapply returns_bind.
    + apply extension_sequence_returns.
    + intros seq _. by apply san_loop_panics.
    + unfold extension_crashes. tauto.
  - apply eqb_oid_false in E. apply returns_panics_if; [|by intros [? _]].
    repeat match goal with |- no_crash (if ?c then _ else _) => destruct c end; [|..|done].
    + apply parse_directory_returns.
    + apply no_crash_bind; [apply decoded_returns|]. intros l _.
      apply no_crash_bind; [|done]. apply for_each_returns, check_policy_returns.
    + by apply no_crash_bind; [apply decoded_returns|].
    + apply no_crash_bind; [apply decoded_returns|]. intros l _.
      apply no_crash_bind; [|done]. apply for_each_returns, check_access_returns.
Qed.

Lemma parseAttributeCertificate_panics_if cert :
  panics_if (parseAttributeCertificate cert)
    (∃ issuer holderIssuer,
       directory_name (rv_Bytes (aci_IssuerName (tbs_Issuer (rc_TBSAttributeCertificate cert)))) = Ok issuer ∧
       directory_name (rv_Bytes (is_Issuer (h_BaseCertificateID (tbs_Holder (rc_TBSAttributeCertificate cert)))))
       = Ok holderIssuer ∧
       analysis_crashes cert issuer holderIssuer).
Proof.
  unfold parseAttributeCertificate. cbv zeta. eapply returns_bind with
    (Q := λ issuer, ∃ holderIssuer, _ = Ok holderIssuer ∧ analysis_crashes cert issuer holderIssuer).
  - apply directory_name_returns.
  - intros issuer _. eapply returns_bind with (Q := analysis_crashes cert issuer).
    + apply directory_name_returns.
    + intros holderIssuer _. eapply panics_if_bind.
      * apply (panics_if_for_each _ (λ _, attribute_crashes)), parse_attribute_panics.
      * intros out _. apply (panics_if_for_each _ (λ _, extension_crashes)), parse_extension_panics.
      * reflexivity.
    + reflexivity.
  - naive_solver.
Qed.

(** C12: [ParseAttributeCertificate] terminates on every input, and it panics
    exactly when a known attribute with an empty set of values is reached, or a
    platform name in the subject alternative names whose value is not a string. *)
Theorem ParseAttributeCertificate_panics_iff d :
  ParseAttributeCertificate d ≠ NoFuel ∧
  ((∃ m, ParseAttributeCertificate d = Panic m) ↔ certificate_crashes d).
Proof.
  assert (H : panics_if (ParseAttributeCertificate d) (certificate_crashes d)).
  { unfold ParseAttributeCertificate. eapply returns_bind with
      (Q := λ cr, cr.2 = [] ∧ ∃ issuer holderIssuer,
         directory_name (rv_Bytes (aci_IssuerName (tbs_Issuer (rc_TBSAttributeCertificate cr.1)))) = Ok issuer ∧
         directory_name (rv_Bytes (is_Issuer (h_BaseCertificateID (tbs_Holder (rc_TBSAttributeCertificate cr.1)))))
         = Ok holderIssuer ∧ analysis_crashes cr.1 issuer holderIssuer).
    - apply decode_returns.
    - intros [cert rest] _. cbn [fst snd]. destruct (negb (zlen rest =? 0)) eqn:Hr.
      + cbn. intros [-> _]. done.
      + apply negb_false_iff, Z.eqb_eq, zlen_0 in Hr.
        eapply panics_if_iff, parseAttributeCertificate_panics_if. tauto.
    - unfold certificate_crashes. split.
      + intros (cert & issuer & holderIssuer & Hd & H). exists (cert, []). naive_solver.
      + intros ([cert rest] & Hd & E & issuer & holderIssuer & H). cbn in E. subst rest.
        by exists cert, issuer, holderIssuer. }
  destruct (ParseAttributeCertificate d); cbn in H; naive_solver.
Qed.
End Panics.

(** ** What the certificate reports *)

(** The configuration an attribute holds *)
Definition configuration_of (a : attribute) : res error (option (list Component * list Property * bytes)) :=
  if eqb_oid (attr_ID a) Oid.PlatformConfigurationV1 then
    b ← first_value a; v ← decoded PlatformConfigurationV1_type b;
    Ok (Some (component_v1 <$> v1_ComponentIdentifiers v, v1_PlatformProperties v,
              uri_UniformResourceIdentifier (v1_PlatformPropertiesURI v)))
  else if eqb_oid (attr_ID a) Oid.PlatformConfigurationV2 then
    b ← first_value a; v ← configuration_v2 b;
    Ok (Some (component_v2 <$> v2_ComponentIdentifiers v, v2_PlatformProperties v,
              uri_UniformResourceIdentifier (v2_PlatformPropertiesURI v)))
  else Ok None.
(** Those of all attributes, in order *)
Definition configurations (attributes : list attribute) : res error (list (list Component * list Property * bytes)) :=
  for_each (λ l a, o ← configuration_of a; Ok (l ++ option_list o)) [] attributes.

(** The names in the subject alternative names, in order *)
Definition collect_names (l : list AttributeTypeAndValue) (rest : bytes)
  : res error (list AttributeTypeAndValue * bytes) :=
  vr ← decode GRawValue plain rest;
  names ← wrapf "attributecert: failed to unmarshal SAN: %v" (unmarshalSAN vr.1);
  Ok (l ++ names, vr.2).
Definition extension_names (l : list AttributeTypeAndValue) (e : Extension) : res error (list AttributeTypeAndValue) :=
  if eqb_oid (ext_Id e) Oid.SubjectAltName then
    seq ← extension_sequence (ext_Value e);
    der_loop (length (rv_Bytes seq)) collect_names l (rv_Bytes seq)
  else Ok l.
Definition platform_names : list Extension → res error (list AttributeTypeAndValue) :=
  for_each extension_names [].

(** The last of the names of these types *)
Definition last_value (types : list (list Z)) (names : list AttributeTypeAndValue) : bytes :=
  default [] (last (omap (λ e, match atv_Value e with
                               | AnyString s => if existsb (eqb_oid (atv_Type e)) types then Some s else None
                               | _ => None
                               end) names)).

Definition reports_configurations (c : AttributeCertificate) (l : list (list Component * list Property * bytes)) : Prop :=
  ac_Components c = concat ((λ x, x.1.1) <$> l) ∧
  ac_Properties c = from_option (λ x, x.1.2) [] (last l) ∧
  ac_PropertiesURI c = from_option snd [] (last l).
Definition reports_names (c : AttributeCertificate) (names : list AttributeTypeAndValue) : Prop :=
  ac_PlatformManufacturer c = last_value [oidTcgPlatformManufacturerStrV1; Oid.PlatformManufacturerStr] names ∧
  ac_PlatformModel c = last_value [oidTcgPlatformModelV1; Oid.PlatformModel] names ∧
  ac_PlatformVersion c = last_value [oidTcgPlatformVersionV1; Oid.PlatformVersion] names ∧
  ac_PlatformSerial c = last_value [Oid.TCGCredentialSpecification; Oid.PlatformSerial] names.

Lemma last_value_snoc types names e :
  last_value types (names ++ [e])
  = match atv_Value e with
    | AnyString s => if existsb (eqb_oid (atv_Type e)) types then s else last_value types names
    | _ => last_value types names
    end.
Proof.
  unfold last_value. rewrite omap_app. cbn.
  destruct (atv_Value e) as [|s| | | | |]; cbn; rewrite ?app_nil_r; try done.
  destruct (existsb _ _); cbn; rewrite ?app_nil_r; [by rewrite last_snoc|done].
Qed.

Lemma san_attribute_reports e out out' names :
  reports_names out names → san_attribute out e = Ok out' → reports_names out' (names ++ [e]).
Proof.
  intros (H1 & H2 & H3 & H4) H. unfold reports_names. rewrite !last_value_snoc.
  unfold san_attribute, value_string in H. cbv zeta in H. destruct out, e as [ty v]. cbn in *. subst.
  repeat match type of H with
    | (if eqb_oid ?x ?y then _ else _) = Ok _ =>
        let E := fresh "E" in destruct (eqb_oid x y) eqn:E;
          [clear -H E; apply eqb_oid_true in E; subst;
           destruct v; try discriminate H; injection H as <-; cbn; done|]
    end.
  done.
Qed.

Lemma san_value_reports b out out' r names :
  reports_names out names → san_value out b = Ok (out', r) →
  ∃ names', collect_names names b = Ok (names', r) ∧ reports_names out' names'.
Proof.
  intros Hn ([v r'] & Hd & (l & Hu & (o & Ho & [= <- <-])%res_bind_Ok_inv)%res_bind_Ok_inv)%res_bind_Ok_inv.
  exists (names ++ l). unfold collect_names. rewrite Hd. cbn in *. rewrite Hu. split; [done|].
  clear Hd Hu. revert out names Hn Ho. induction l as [|e l IH]; intros out names Hn; cbn.
  - intros [= ->]. by rewrite app_nil_r.
  - intros (o1 & H1 & H)%res_bind_Ok_inv. rewrite (app_assoc names [e] l : names ++ e :: l = _).
    eapply IH; [|done]. by eapply san_attribute_reports.
Qed.

(** Fields the attributes, or the extensions, leave alone *)
Definition same_names (c c' : AttributeCertificate) : Prop :=
  ac_PlatformManufacturer c' = ac_PlatformManufacturer c ∧ ac_PlatformModel c' = ac_PlatformModel c ∧
  ac_PlatformVersion c' = ac_PlatformVersion c ∧ ac_PlatformSerial c' = ac_PlatformSerial c.
Definition same_configuration (c c' : AttributeCertificate) : Prop :=
  ac_Components c' = ac_Components c ∧ ac_Properties c' = ac_Properties c ∧
  ac_PropertiesURI c' = ac_PropertiesURI c.

Lemma same_configuration_reports c c' l :
  same_configuration c c' → reports_configurations c l → reports_configurations c' l.
Proof. intros (E1 & E2 & E3) H. unfold reports_configurations. by rewrite E1, E2, E3. Qed.

Lemma parse_attribute_reports a out out' l :
  reports_configurations out l → parse_attribute out a = Ok out' →
  ∃ o, configuration_of a = Ok o ∧ reports_configurations out' (l ++ option_list o) ∧ same_names out out'.
Proof.
  intros (H1 & H2 & H3) H. unfold parse_attribute in H. cbv zeta in H. unfold configuration_of.
  destruct (eqb_oid (attr_ID a) Oid.PlatformConfigurationV1) eqn:E1.
  { apply eqb_oid_true in E1 as Ea. rewrite Ea in H. cbn in H.
    apply res_bind_Ok_inv in H as (b & Hb & (v & Hv & H)%res_bind_Ok_inv). injection H as <-.
    rewrite Hb. cbn. rewrite Hv. cbn. eexists. split; [done|]. split; [|done].
    unfold reports_configurations. destruct out. cbn in *.
    by rewrite last_snoc, fmap_app, concat_app, H1; cbn; rewrite app_nil_r. }
  destruct (eqb_oid (attr_ID a) Oid.PlatformConfigurationV2) eqn:E2.
  { apply eqb_oid_true in E2 as Ea. rewrite Ea in H. cbn in H.
    apply res_bind_Ok_inv in H as (b & Hb & (v & Hv & H)%res_bind_Ok_inv). injection H as <-.
    rewrite Hb. cbn. rewrite Hv. cbn. eexists. split; [done|]. split; [|done].
    unfold reports_configurations. destruct out. cbn in *.
    by rewrite last_snoc, fmap_app, concat_app, H1; cbn; rewrite app_nil_r. }
  exists None. split; [done|]. cbn [option_list]. rewrite app_nil_r.
  assert (same_configuration out out' ∧ same_names out out') as [Hc Hn];
    [|split; [by eapply same_configuration_reports|done]].
  destruct out. origin H.
Qed.

Lemma san_attribute_configuration e out0 out out' :
  same_configuration out0 out → san_attribute out e = Ok out' → same_configuration out0 out'.
Proof. intros Hc H. unfold san_attribute in H. cbv zeta in H. destruct out. origin H. Qed.

Lemma parse_extension_reports e out out' names :
  reports_names out names → parse_extension out e = Ok out' →
  ∃ names', extension_names names e = Ok names' ∧
            reports_names out' names' ∧ same_configuration out out'.
Proof.
  intros Hn H. unfold parse_extension in H. cbv zeta in H. unfold extension_names.
  destruct (eqb_oid (ext_Id e) Oid.SubjectAltName).
  { apply res_bind_Ok_inv in H as (seq & -> & H). cbn [mbind res_bind].
    assert (Hc : same_configuration out out').
    { eapply der_loop_invariant; [| |exact H]; [|done].
      intros s b s' r Hs Hb. unfold san_value in Hb.
      apply res_bind_Ok_inv in Hb as (vr & _ & (l & _ & (o & Ho & [= <- _])%res_bind_Ok_inv)%res_bind_Ok_inv).
      eapply for_each_invariant; [|done|done]. intros. by eapply san_attribute_configuration. }
    apply (der_loop_simulated reports_names _ collect_names _ _ _ _ names) in H as (names' & Hd & Hr); [eauto| |done].
    intros. by eapply san_value_reports. }
  exists names. split; [done|].
  assert (same_names out out' ∧ same_configuration out out') as [Hs Hc].
  { repeat (match type of H with (if ?b then _ else _) = _ => destruct b end); try done.
    - apply res_bind_Ok_inv in H as (seq & _ & H).
      eapply (der_loop_invariant (λ c, same_names out c ∧ same_configuration out c)); [| |exact H]; [|done].
      intros s b s' r [Hs1 Hs2] Hb. unfold directory_entry in Hb. cbv zeta in Hb. destruct s. origin Hb.
    - origin H.
    - origin H.
    - origin H. }
  split; [|done]. destruct Hs as (E1 & E2 & E3 & E4). unfold reports_names.
  rewrite E1, E2, E3, E4. done.
Qed.

(** What a certificate that parses reports of the platform: the components
    of all its configuration attributes in order, the properties and their
    address of the last of them, and for each platform name the last one of
    its two types in the subject alternative names. *)
Theorem ParseAttributeCertificate_reports d c :
  ParseAttributeCertificate d = Ok c →
  ∃ cert configs names,
    decode attributeCertificate_type plain d = Ok (cert, []) ∧
    configurations (tbs_Attributes (rc_TBSAttributeCertificate cert)) = Ok configs ∧
    platform_names (tbs_Extensions (rc_TBSAttributeCertificate cert)) = Ok names ∧
    reports_configurations c configs ∧ reports_names c names.
Proof.
  unfold ParseAttributeCertificate. intros ([cert rest] & Hd & H)%res_bind_Ok_inv. cbn [fst snd] in H.
  destruct (zlen rest =? 0) eqn:Hr; [|done]. apply Z.eqb_eq, zlen_0 in Hr as ->. cbn [negb] in H.
  unfold parseAttributeCertificate in H. cbv zeta in H.
  apply res_bind_Ok_inv in H as (issuer & _ & (hissuer & _ & (out & Ho & H)%res_bind_Ok_inv)%res_bind_Ok_inv).
  set (out0 := new_certificate cert issuer hissuer) in Ho.
  apply (for_each_simulated (λ c l, reports_configurations c l ∧ same_names out0 c) _
           (λ l a, o ← configuration_of a; Ok (l ++ option_list o)) _ _ _ []) in Ho as (configs & Hcfg & Hrep & Hsame);
    [| |by repeat split]; cycle 1.
  { intros a s s' l [Hl Hs] Hp. destruct (parse_attribute_reports _ _ _ _ Hl Hp) as (o & -> & Hro & Hn).
    eexists. split; [done|]. split; [done|]. unfold same_names in *. naive_solver congruence. }
  assert (Hn0 : reports_names out []).
  { destruct Hsame as (E1 & E2 & E3 & E4). unfold reports_names. by rewrite E1, E2, E3, E4. }
  edestruct (for_each_simulated (λ c n, reports_names c n ∧ same_configuration out c) parse_extension extension_names)
    as (names & Hnames & Hrn & Hsc); [|by split|exact H|].
  { intros e s s' n [Hn Hs] Hp. destruct (parse_extension_reports _ _ _ _ Hn Hp) as (n' & Hn' & Hr & Hc).
    exists n'. split; [exact Hn'|]. split; [done|]. unfold same_configuration in *. naive_solver congruence. }
  exists cert, configs, names. split; [done|]. split; [done|]. split; [done|].
  split; [|done]. by eapply same_configuration_reports.
Qed.

(** ** The signature algorithm *)
Definition pkcs1_algorithms : list (list Z * Z) :=
  [(oidSignatureRSASha1, x509.SHA1WithRSA); (oidSignatureRSASha256, x509.SHA256WithRSA);
   (oidSignatureRSASha384, x509.SHA384WithRSA)].
(** Hash, salt length and the algorithm they stand for *)
Definition pss_algorithms : list (list Z * Z * Z) :=
  [(oidSHA256, 32, x509.SHA256WithRSAPSS); (oidSHA384, 48, x509.SHA384WithRSAPSS);
   (oidSHA512, 64, x509.SHA512WithRSAPSS)].
(** RFC 4055 parameters with one hash throughout, a salt of its length and the
    default trailer *)
Definition pss_parameters (b : bytes) (hash : list Z) (salt : Z) : Prop :=
  ∃ params r mgf1HashFunc r',
    decode pssParameters_type plain b = Ok (params, r) ∧
    decode AlgorithmIdentifier_type plain (rv_FullBytes (ai_Parameters (pss_MGF params))) = Ok (mgf1HashFunc, r') ∧
    ai_Algorithm (pss_Hash params) = hash ∧ no_parameters (pss_Hash params) = true ∧
    ai_Algorithm (pss_MGF params) = oidMGF1 ∧
    ai_Algorithm mgf1HashFunc = hash ∧ no_parameters mgf1HashFunc = true ∧
    pss_SaltLength params = salt ∧ pss_TrailerField params = 1.

Lemma pss_algorithm_iff b alg :
  alg ≠ x509.UnknownSignatureAlgorithm →
  match decode pssParameters_type plain b with
  | Ok (params, _) =>
      match decode AlgorithmIdentifier_type plain (rv_FullBytes (ai_Parameters (pss_MGF params))) with
      | Ok (mgf1HashFunc, _) =>
          if negb (no_parameters (pss_Hash params))
             || negb (eqb_oid (ai_Algorithm (pss_MGF params)) oidMGF1)
             || negb (eqb_oid (ai_Algorithm mgf1HashFunc) (ai_Algorithm (pss_Hash params)))
             || negb (no_parameters mgf1HashFunc)
             || negb (pss_TrailerField params =? 1)
          then x509.UnknownSignatureAlgorithm
          else if eqb_oid (ai_Algorithm (pss_Hash params)) oidSHA256 && (pss_SaltLength params =? 32)
          then x509.SHA256WithRSAPSS
          else if eqb_oid (ai_Algorithm (pss_Hash params)) oidSHA384 && (pss_SaltLength params =? 48)
          then x509.SHA384WithRSAPSS
          else if eqb_oid (ai_Algorithm (pss_Hash params)) oidSHA512 && (pss_SaltLength params =? 64)
          then x509.SHA512WithRSAPSS
          else x509.UnknownSignatureAlgorithm
      | _ => x509.UnknownSignatureAlgorithm
      end
  | _ => x509.UnknownSignatureAlgorithm
  end = alg ↔
  ∃ hash salt, (hash, salt, alg) ∈ pss_algorithms ∧ pss_parameters b hash salt.
Proof.
  intros Halg.
  assert (Hnone : ∀ P : Prop, ¬ P → x509.UnknownSignatureAlgorithm = alg ↔ P).
  { intros P HP. split; [by intros <-|done]. }
  unfold pss_parameters.
  destruct (decode pssParameters_type plain b) as [[params r]| | |]; [|apply Hnone; naive_solver..].
  destruct (decode AlgorithmIdentifier_type plain _) as [[mgf r']| | |] eqn:Emgf;
    [|apply Hnone; intros (? & ? & ? & ? & ? & ? & ? & [= <- <-] & H & _); congruence..].
  transitivity (∃ hash salt, (hash, salt, alg) ∈ pss_algorithms ∧
    (ai_Algorithm (pss_Hash params) = hash ∧ no_parameters (pss_Hash params) = true ∧
     ai_Algorithm (pss_MGF params) = oidMGF1 ∧ ai_Algorithm mgf = hash ∧ no_parameters mgf = true ∧
     pss_SaltLength params = salt ∧ pss_TrailerField params = 1)); cycle 1.
  { split; intros (hash & salt & Hin & H); exists hash, salt; (split; [done|]).
    - by exists params, r, mgf, r'.
    - destruct H as (? & ? & ? & ? & [= <- <-] & H & Hrest). rewrite Emgf in H. by injection H as <- <-. }
  unfold pss_algorithms. setoid_rewrite elem_of_cons. setoid_rewrite elem_of_cons.
  setoid_rewrite elem_of_cons. setoid_rewrite elem_of_nil.
  destruct (_ || _) eqn:Ebad.
  { apply Hnone. intros (hash & salt & _ & <- & H1 & H2 & H3 & H4 & _ & H5).
    rewrite H1, H2, H3, H4, H5 in Ebad. unfold eqb_oid in Ebad. by rewrite !bool_decide_eq_true_2 in Ebad. }
  repeat (apply orb_false_iff in Ebad as [Ebad ?]). rewrite negb_false_iff, ?eqb_oid_true in *.
  repeat match goal with H : negb _ = false |- _ => apply negb_false_iff in H end.
  rewrite ?eqb_oid_true, ?Z.eqb_eq in *.
  destruct (eqb_oid _ oidSHA256 && _) eqn:E1;
    [|destruct (eqb_oid _ oidSHA384 && _) eqn:E2; [|destruct (eqb_oid _ oidSHA512 && _) eqn:E3]];
    rewrite ?andb_true_iff, ?andb_false_iff, ?eqb_oid_true, ?eqb_oid_false, ?Z.eqb_eq, ?Z.eqb_neq in *.
  - destruct E1 as [E1 ?]. split.
    + intros <-. exists oidSHA256, 32. rewrite <-E1. tauto.
    + intros (h & s & [[= -> -> ->]|[[= -> -> ->]|[[= -> -> ->]|[]]]] & E & _); [done|..]; by rewrite E1 in E.
  - destruct E2 as [E2 ?]. split.
    + intros <-. exists oidSHA384, 48. rewrite <-E2. tauto.
    + intros (h & s & [[= -> -> ->]|[[= -> -> ->]|[[= -> -> ->]|[]]]] & E & _); [|done|]; by rewrite E2 in E.
  - destruct E3 as [E3 ?]. split.
    + intros <-. exists oidSHA512, 64. rewrite <-E3. tauto.
    + intros (h & s & [[= -> -> ->]|[[= -> -> ->]|[[= -> -> ->]|[]]]] & E & _); [..|done]; by rewrite E3 in E.
  - apply Hnone.
    intros (h & s & [[= -> -> ->]|[[= -> -> ->]|[[= -> -> ->]|[]]]] & E & _ & _ & _ & _ & Es & _); tauto.
Qed.

(** The signature algorithms recognised: RSA PKCS #1 with SHA-1, SHA-256 or
    SHA-384 whatever the parameters, Ed25519 without parameters, and RSA PSS
    with the parameters of SHA-256, SHA-384 or SHA-512; any other identifier is
    unknown. *)
Theorem getSignatureAlgorithmFromAI_iff ai alg :
  alg ≠ x509.UnknownSignatureAlgorithm →
  getSignatureAlgorithmFromAI ai = alg ↔
  (ai_Algorithm ai, alg) ∈ pkcs1_algorithms ∨
  (ai_Algorithm ai = oidSignatureEd25519 ∧ rv_FullBytes (ai_Parameters ai) = [] ∧ alg = x509.PureEd25519) ∨
  (ai_Algorithm ai = oidSignatureRSAPSS ∧
   ∃ hash salt, (hash, salt, alg) ∈ pss_algorithms ∧ pss_parameters (rv_FullBytes (ai_Parameters ai)) hash salt).
Proof.
  intros Halg. unfold getSignatureAlgorithmFromAI.
  assert (Hnone : ∀ P : Prop, ¬ P → x509.UnknownSignatureAlgorithm = alg ↔ P).
  { intros P HP. split; [by intros <-|done]. }
  destruct (eqb_oid (ai_Algorithm ai) oidSignatureRSAPSS) eqn:Epss.
  - apply eqb_oid_true in Epss as E. rewrite E. cbn [negb].
    change (eqb_oid oidSignatureRSAPSS oidSignatureEd25519) with false. cbn [andb].
    transitivity (∃ hash salt, (hash, salt, alg) ∈ pss_algorithms ∧
                    pss_parameters (rv_FullBytes (ai_Parameters ai)) hash salt); cycle 1.
    { split; [by right; right|]. intros [H|[[H _]|[_ H]]]; [|done|done].
      exfalso. revert H. unfold pkcs1_algorithms. rewrite !elem_of_cons, elem_of_nil. naive_solver. }
    by apply pss_algorithm_iff.
  - apply eqb_oid_false in Epss. cbn [negb].
    transitivity ((ai_Algorithm ai, alg) ∈ pkcs1_algorithms ∨
      (ai_Algorithm ai = oidSignatureEd25519 ∧ rv_FullBytes (ai_Parameters ai) = [] ∧ alg = x509.PureEd25519));
      [|tauto].
    unfold pkcs1_algorithms. rewrite !elem_of_cons, elem_of_nil. cbn [List.find signatureAlgorithmDetails sd_oid].
    rewrite <-zlen_0, <-(Z.eqb_eq (zlen _) 0).
    destruct (eqb_oid (ai_Algorithm ai) oidSignatureEd25519) eqn:E1.
    { apply eqb_oid_true in E1. rewrite E1. destruct (_ =? 0) eqn:E0.
      - change (x509.PureEd25519 = alg ↔ ((oidSignatureEd25519, alg) = (oidSignatureRSASha1, x509.SHA1WithRSA)
          ∨ (oidSignatureEd25519, alg) = (oidSignatureRSASha256, x509.SHA256WithRSA)
          ∨ (oidSignatureEd25519, alg) = (oidSignatureRSASha384, x509.SHA384WithRSA) ∨ False)
          ∨ oidSignatureEd25519 = oidSignatureEd25519 ∧ true = true ∧ alg = x509.PureEd25519).
        split; [intros <-; by right|]. by intros [[H|[H|[H|[]]]]|(_ & _ & ->)].
      - apply Hnone. intros [[H|[H|[H|[]]]]|(_ & [=] & _)]; done. }
    apply eqb_oid_false in E1. cbn [andb].
    destruct (eqb_oid _ oidSignatureRSASha1) eqn:E2;
      [|destruct (eqb_oid _ oidSignatureRSASha256) eqn:E3; [|destruct (eqb_oid _ oidSignatureRSASha384) eqn:E4]];
      rewrite ?eqb_oid_true, ?eqb_oid_false in *.
    + split; [intros <-; rewrite E2; auto|]. rewrite E2. by intros [[[= ->]|[H|[H|[]]]]|(H & _)].
    + split; [intros <-; rewrite E3; auto|]. rewrite E3. by intros [[H|[[= ->]|[H|[]]]]|(H & _)].
    + split; [intros <-; rewrite E4; auto|]. rewrite E4. by intros [[H|[H|[[= ->]|[]]]]|(H & _)].
    + assert (∀ o, ai_Algorithm ai ≠ o → eqb_oid (ai_Algorithm ai) o = false) as Ho by (intros; by apply eqb_oid_false).
      rewrite !Ho by done. apply Hnone. intros [[[= H _]|[[= H _]|[[= H _]|[]]]]|(H & _)]; done.
Qed.

(** ** The workaround for platform configurations *)

(** As if the failed attempt left nothing behind *)
Definition configuration_v2_reference (b : bytes) : res error PlatformConfigurationV2 :=
  match decoded PlatformConfigurationV2_type b with
  | Err _ =>
      w ← decoded PlatformConfigurationV2Workaround_type b;
      Ok (mkConfigV2 (w2_ComponentIdentifiers w) (w2_ComponentIdentifiersURI w) [w2_PlatformProperty w]
            (w2_PlatformPropertiesURI w))
  | r => r
  end.

(** A list field that fails to decode is left as it was. *)
Lemma slice_kept {A} isSet (elem : gotype A) params l b l' r :
  parseField (GSlice isSet elem) params l b = (l', r) → (∀ rest, r ≠ Ok rest) → l' = l.
Proof.
  unfold parseField, parse_frame. cbn [getUniversalType is_raw].
  assert (Hdef : ∀ e, match setDefaultValue (GSlice isSet elem) params l with
                      | Some v => (v, @Ok error bytes b) | None => (l, Err e) end = (l', r) →
                      (∀ rest, r ≠ Ok rest) → l' = l).
  { intros e. destruct (setDefaultValue _ _ _); intros [= -> <-] H; [by destruct (H b)|done]. }
  destruct (zlen b =? 0); [apply Hdef|].
  destruct (match_header _ _ _ _) as [[ut h inner rest|e']| | |]; try (by intros [= -> _]);
    [|apply Hdef].
  cbn [parse_body]. destruct (match getUniversalType elem with Some _ => _ | None => _ end) as [x| | |];
    cbn; intros [= -> <-] H; [by destruct (H rest)|done..].
Qed.

(** The contents of one property are not those of a list of properties. *)
Lemma property_not_list optional_tag_2 l b l' rest v v' rest' :
  p_optional optional_tag_2 = true → p_explicit optional_tag_2 = false → p_defaultValue optional_tag_2 = None →
  parseField (GSlice false Property_type) optional_tag_2 l b = (l', Ok rest) →
  parseField Property_type optional_tag_2 v b = (v', Ok rest') → l' = l.
Proof.
  intros Ho He Hd. unfold parseField, parse_frame.
  unfold setDefaultValue. rewrite Ho, Hd. cbn [negb getUniversalType is_raw Property_type].
  destruct (zlen b =? 0); [by intros [= -> _]|].
  destruct (match_header _ _ _ _) as [[ut h inner r|e']| | |]; try done; [|by intros [= -> _]].
  cbn [parse_body]. intros Hl Hp. exfalso.
  unfold Property_type in Hp. cbn [parse_body] in Hp.
  destruct (parse_fields _ _ _ _ inner) as [a ra] eqn:Hf. injection Hp as -> Hp.
  apply res_bind_Ok_inv in Hp as ([] & -> & _). apply parse_fields_cons in Hf as (x & r1 & Hx & _).
  cbn [Property_type getUniversalType] in Hl.
  destruct (count_elements _ _ inner) as [n| | |] eqn:Hc; try done. clear Hl.
  unfold parseField, parse_frame in Hx. destruct inner as [|y inner]; [done|]. cbn [length count_elements] in Hc.
  apply res_bind_Ok_inv in Hc as ([t b1] & Ht & Hc). cbv zeta in Hc. cbn [u_matchAny u_compound u_tag fst snd] in Hc.
  cbn [getUniversalType is_raw] in Hx. unfold match_header in Hx. rewrite Ht in Hx. cbn [mbind res_bind] in Hx.
  unfold explicit_header in Hx. cbn [plain p_explicit negb mbind res_bind p_tag fst snd u_matchAny u_compound] in Hx.
  destruct (negb false && _) eqn:E in Hc; [done|]. cbn in E.
  apply orb_false_iff in E as [E _]. apply orb_false_iff in E as [_ E].
  apply negb_false_iff, Bool.eqb_prop in E. rewrite E in Hx.
  cbn [negb andb Bool.eqb] in Hx. rewrite orb_true_r in Hx. done.
Qed.

Lemma workaround_leftovers b cfg e w :
  Unmarshal PlatformConfigurationV2_type (zero PlatformConfigurationV2_type) b = (cfg, Err e) →
  decoded PlatformConfigurationV2Workaround_type b = Ok w →
  v2_PlatformProperties cfg = [].
Proof.
  unfold decoded, update, Unmarshal, UnmarshalWithParams, parseField, parse_frame, setDefaultValue.
  cbn [plain p_optional negb getUniversalType is_raw PlatformConfigurationV2_type
       PlatformConfigurationV2Workaround_type].
  destruct (zlen b =? 0); [done|].
  destruct (match_header _ _ _ _) as [[ut h inner rest|e']| | |]; try done.
  unfold PlatformConfigurationV2_type at 1, PlatformConfigurationV2Workaround_type at 1. cbn [parse_body].
  set (z := zero PlatformConfigurationV2_type). set (zw := zero PlatformConfigurationV2Workaround_type).
  destruct (parse_fields _ _ mkConfigV2W _ inner) as [w' rw] eqn:Hw.
  destruct (parse_fields _ _ mkConfigV2 _ inner) as [cfg' r] eqn:Hf.
  intros [= -> Hr] Hw'. destruct rw as [[]| | |]; try done. clear Hw'.
  apply parse_fields_cons in Hw as (x0 & r0 & H0 & Hw). apply parse_fields_cons in Hw as (x1 & r1 & H1 & Hw).
  apply parse_fields_cons in Hw as (x2 & r2 & H2 & _). unfold parseField in H0, H1.
  cbn [parse_fields] in Hf.
  change (v2_ComponentIdentifiers z) with (w2_ComponentIdentifiers zw) in Hf. rewrite H0 in Hf.
  change (v2_ComponentIdentifiersURI z) with (w2_ComponentIdentifiersURI zw) in Hf. rewrite H1 in Hf.
  change (v2_PlatformProperties z) with (@nil Property) in Hf.
  destruct (parse_frame (GSlice false Property_type) _ _ [] r1) as [l rl] eqn:Hl.
  assert (l = []) as ->.
  { destruct rl as [rest2|e2| |]; [eapply property_not_list; [..|exact Hl|exact H2]; done|..];
      by apply slice_kept in Hl. }
  clear - Hf. repeat case_match; by simplify_eq.
Qed.

(** A configuration that is decoded by the workaround has exactly the one
    property found there: what the failed first attempt left in the structure
    is never part of the result. *)
Theorem configuration_v2_equiv b : configuration_v2 b = configuration_v2_reference b.
Proof.
  unfold configuration_v2, configuration_v2_reference, decoded at 2, update.
  destruct (Unmarshal PlatformConfigurationV2_type _ b) as [cfg [rest|e|m|]] eqn:H; cbn; try done.
  destruct (decoded PlatformConfigurationV2Workaround_type b) as [w| | |] eqn:Hw; cbn; try done.
  by rewrite (workaround_leftovers _ _ _ _ H Hw).
Qed.
End Spec.

(** ** Examples *)
Definition ex_time : GoTime :=
  {| Time := bytes; time_zero := []; parseUTCTime b := Ok b; parseGeneralizedTime b := Ok b;
     time_is_zero t := bool_decide (t = []); makeTime t := Ok (TagUTCTime, t) |}.
#[local] Existing Instance ex_time.
#[local] Instance ex_time_laws : GoTimeLaws.
Proof. by split. Qed.

Definition unhex_digit (c : Ascii.ascii) : Z :=
  let n := Z.of_N (Ascii.N_of_ascii c) in if n <? 58 then n - 48 else n - 87.
Fixpoint unhex (s : string) : bytes :=
  match s with
  | String a (String b s) => byte.of_Z (16 * unhex_digit a + unhex_digit b) :: unhex s
  | _ => []
  end.

(** [testdata/Intel_nuc1.cer] *)
Definition Intel_nuc1 : bytes := unhex (
   "30820767308205cf020101308195a08192308189a48186308183310b30090603550406130244453121301f060355040a" ++
   "0c18496e66696e656f6e20546563686e6f6c6f67696573204147311a3018060355040b0c114f505449474128544d2920" ++
   "54504d322e303135303306035504030c2c496e66696e656f6e204f505449474128544d2920525341204d616e75666163" ++
   "747572696e672043412030323202047b076be4a081a53081a2a4819f30819c310b3009060355040613025553310b3009" ++
   "06035504080c0243413114301206035504070c0b53616e746120436c617261311a3018060355040a0c11496e74656c20" ++
   "436f72706f726174696f6e31363034060355040b0c2d5472616e73706172656e7420537570706c7920436861696e2049" ++
   "737375696e6720434120494b47465f544553543116301406035504030c0d7777772e696e74656c2e636f6d300d06092a" ++
   "864886f70d01010b050002144560e048c14a2f49f44be92dbf19b00980b849ff3022180f323031383130303632313039" ++
   "33335a180f32303332303533313130323330325a30820279301c06056781050211311330113009020102020100020101" ++
   "0404000000013012060567810502193109300706056781050802301606056781050217310d300b300902010102010102" ++
   "0109301406056781050213310b3009020100820103010100308201cd060767810505010701318201c0308201bca08201" ++
   "39303c0404010000000c14496e74656c28522920436f72706f726174696f6e0c07436f72652069358008583233393833" ++
   "39328103322e3682033334338301ff30380404030000000c0753616d73756e670c104d34373141353134334542302d43" ++
   "5042800841424334353938398103332e31820331393683010030480404030000000c0d4e6f7420537065636966696564" ++
   "0c104b494e4753544f4e205341343030533380103530303236423737373830353237304281053630392e308203313936" ++
   "83010030750404040000000c11496e74656c20436f72706f726174696f6e0c1b45746865726e657420436f6e6e656374" ++
   "696f6e20493231392d4c4d801138633a30663a36663a37323a63363a6335810432312e3082033334338301ffa41c301a" ++
   "060567810511010c1138633a30663a36663a37323a63363a6335a13e300b0c03414d540c047472756530140c0c765072" ++
   "6f20456e61626c65640c047472756530190c1044726f705368697020456e61626c65640c0566616c7365a23d163b6874" ++
   "7470733a2f2f7777772e706c6174666f726d6d66672e636f6d2f706c6174666f7270726f706572746965732f34393338" ++
   "39343338342e68746d30460606678105050103313c303a163868747470733a2f2f7777772e706c6174666f726d6d6667" ++
   "2e636f6d2f706c6174666f726d636f6e6669672f3437383734383733382e786d6c308201c23081a90603551d200481a1" ++
   "30819e30819b060a2a864886f84d0105020430818c305a06082b06010505070201164e68747470733a2f2f7472757374" ++
   "656473657276696365732e696e74656c2e636f6d2f636f6e74656e742f5453432f63657274732f54534363657274506f" ++
   "6c69637953746174656d656e742e706466302e06082b0601050507020230220c20544347205472757374656420506c61" ++
   "74666f726d20456e646f7273656d656e743081860603551d11047f307da47b3079311d301b06066781050501010c1149" ++
   "6e74656c20436f72706f726174696f6e3116301406066781050501040c0a4e5543376935444e48453116301406066781" ++
   "050501050c0a4a37313733392d3430313128302606066781050501060c1c4457313630303432303330303131305f4254" ++
   "444e373332303030514d301f0603551d230418301680143c06b9fb63a53ca57c6b87433339f1dca807fba4306a06082b" ++
   "06010505070101045e305c305a06082b06010505073002864e68747470733a2f2f747275737465647365727669636573" ++
   "2e696e74656c2e636f6d2f636f6e74656e742f5453432f63657274732f5453435f49737375696e674341494b47465f54" ++
   "4553542e636572300d06092a864886f70d01010b050003820181007ca07a5afbbbc0e190ef14d566dd4722ef30390205" ++
   "d5e3a59dd7a9a3454aae0ead94d6774cd1cc4a02daa161fb3f8da7bb8dd0e436c22b9200e6d308e0b7230a382e80e33a" ++
   "1aed8dd5bc2fb278d7f580eadc32e21445d91aafebe3b718899ba32279dc438874c64bcd16697a436c8d35baa3c67597" ++
   "01e1a81ced6cf50b6fd0ff943ed527b07ce2c7c6404cf7c86c95116743a2e9d8e88d3e0b96a4b1a6d14ee945a8c5d4e5" ++
   "e560a015b7fec4a8c63e6bb90c40de91f94642f514e27caa31224e4c6056b256ad00e5642825359adcb3f3ddf97dd0fb" ++
   "677cc0fe43f8651c3ac215804d441ad66cc743c7d12357a25e339762ceaba4d7e2c5fb57ed2e2b6f3f995112ebbf0c45" ++
   "6390ad4d19767998ebeed8179bae32c33d7fdb62570180ce7bf048b7cd3b7663e8ca16a69b4d34cfa5b0d0748353d4da" ++
   "bd3c9a90256b4438cefa47697f064664368ebcfe76e6a84c54a3cef46d66f653bd7b59218c90313f9ee1dab38a8614a9" ++
   "ad4b1f53d959ae2606ca0241afa56c789380bea88e807aead31778")%string.

(** A parent that has signed one message *)
Definition ex_parent (m0 : bytes) : X509Parent :=
  {| x509_Certificate := (); cert_KeyUsage _ := x509.KeyUsageCertSign; cert_PublicKeyAlgorithm _ := x509.RSA;
     cert_CheckSignature _ _ m _ := if decide (m = m0) then Ok tt else Err (Errorf "verification error") |}.

Lemma Intel_nuc1_parses : ∃ c, ParseAttributeCertificate Intel_nuc1 = Ok c.
Proof.
  destruct (ParseAttributeCertificate Intel_nuc1) as [c| | |] eqn:E; [by eexists|..]; by vm_compute in E.
Qed.

Lemma attribute_certificate_authentic_witness :
  ∃ c m, ParseAttributeCertificate Intel_nuc1 = Ok c ∧ m = ac_RawTBSAttributeCertificate c ∧
         signed_content m = Ok (set_encoding [] [] c).
Proof.
  destruct Intel_nuc1_parses as [c Hc].
  destruct (attribute_certificate_authentic (X := ex_parent (ac_RawTBSAttributeCertificate c)) tt
              (λ m, m = ac_RawTBSAttributeCertificate c) Intel_nuc1 c) as (m & Hm & _ & Hs & _).
  - intros alg m sig. cbn. by destruct (decide _).
  - exact Hc.
  - unfold CheckSignatureFrom. cbn. by rewrite decide_True.
  - exists c, m. exact (conj Hc (conj Hm Hs)).
Defined.

Lemma ParseAttributeCertificate_reports_witness :
  ∃ c cert configs names,
    ParseAttributeCertificate Intel_nuc1 = Ok c ∧
    configurations (tbs_Attributes (rc_TBSAttributeCertificate cert)) = Ok configs ∧
    platform_names (tbs_Extensions (rc_TBSAttributeCertificate cert)) = Ok names ∧
    reports_configurations c configs ∧ reports_names c names.
Proof.
  destruct Intel_nuc1_parses as [c Hc].
  destruct (ParseAttributeCertificate_reports Intel_nuc1 c Hc) as (cert & configs & names & _ & H).
  exists c, cert, configs, names. exact (conj Hc H).
Defined.

(** What it reports *)
Example Intel_nuc1_platform :
  match ParseAttributeCertificate Intel_nuc1 with
  | Ok c =>
      bool_decide (ac_PlatformManufacturer c = str "Intel Corporation") &&
      bool_decide (co_Model <$> ac_Components c
                   = [str "Core i5"; str "M471A5143EB0-CPB"; str "KINGSTON SA400S3"; str "Ethernet Connection I219-LM"])
  | _ => false
  end = true.
Proof. vm_compute. reflexivity. Qed.

(** RSA PSS with SHA-256 *)
Definition ex_pss : AlgorithmIdentifier :=
  mkAlgorithmIdentifier oidSignatureRSAPSS
    (raw 0 16 true (unhex (
       "a00f300d06096086480165030402010500" ++ "a11c301a06092a864886f70d010108300d06096086480165030402010500" ++
       "a203020120")%string)).
Lemma getSignatureAlgorithmFromAI_iff_witness :
  getSignatureAlgorithmFromAI ex_pss = x509.SHA256WithRSAPSS ∧
  ∃ hash salt, (hash, salt, x509.SHA256WithRSAPSS) ∈ pss_algorithms ∧
               pss_parameters (rv_FullBytes (ai_Parameters ex_pss)) hash salt.
Proof.
  assert (H : getSignatureAlgorithmFromAI ex_pss = x509.SHA256WithRSAPSS) by (vm_compute; reflexivity).
  split; [exact H|]. apply getSignatureAlgorithmFromAI_iff in H; [|done].
  destruct H as [H|[[_ [H _]]|[_ H]]]; [by apply (bool_decide_eq_true_2 _) in H|done|exact H].
Defined.

(** A certificate with one attribute and one extension, made by hand *)
Definition ex_seq : bytes → bytes := tlv 0 16 true.
Definition ex_oid (o : list Z) : bytes := match makeObjectIdentifier o with Ok b => tlv 0 6 false b | _ => [] end.
Definition ex_int : bytes := unhex "020101".
Definition ex_certificate (attributes extensions : bytes) : bytes :=
  let name := ex_seq (tlv 2 4 true (ex_seq [])) in
  let alg := ex_seq (ex_oid oidSignatureRSASha256) in
  let time := tlv 0 23 false (str "200101000000Z") in
  ex_seq
    (ex_seq (ex_int ++ ex_seq (tlv 2 0 true (name ++ ex_int)) ++ tlv 2 0 true name ++ alg ++ ex_int ++
             ex_seq (time ++ time) ++ ex_seq attributes ++ ex_seq extensions)
     ++ alg ++ tlv 0 3 false (unhex "00")).
(** a TCG credential type without a value *)
Definition ex_no_value : bytes :=
  ex_certificate (ex_seq (ex_oid Oid.TCGCredentialType ++ tlv 0 17 true [])) [].
(** a platform model that is an integer *)
Definition ex_not_string : bytes :=
  ex_certificate []
    (ex_seq (ex_oid Oid.SubjectAltName ++
             tlv 0 4 false (ex_seq (tlv 0 17 true (ex_seq (ex_oid Oid.PlatformModel ++ ex_int)))))).

Lemma ParseAttributeCertificate_panics_iff_witness :
  certificate_crashes ex_no_value ∧ certificate_crashes ex_not_string.
Proof.
  split; apply (ParseAttributeCertificate_panics_iff _); eexists; vm_compute; reflexivity.
Defined.
