(* ===== verification/ToolEventLog.v ===== *)
(** * The event log analysis of attest-tool
    ([attest-tool/internal/eventlog/eventlog.go] and [secureboot.go])

    The tool has its own table of event types and its own reading of the secure
    boot variables ([ParseSecureBoot]), beside [attest.ParseSecurebootState]:
    it looks at fewer things, tells variables of different vendors apart and
    accepts other digests.  Its [efiGUID] has the fields of the one in
    [internal/events.go], which is used here. *)
From coqutil Require Import Datatypes.RecordSetters.
From S2P Require Import Prelude GoBytes Loops GoCrypto Attest EventLog UefiEvents.
From S2P Require Import SecureBoot.
Import TriangleBracketNotations.

(** ** Event types *)
Definition evPrebootCert : Z := 0x00000000.
Definition evPostCode : Z := 0x00000001.
Definition evUnused : Z := 0x00000002.
Definition evNoAction : Z := 0x00000003.
Definition evSeparator : Z := 0x00000004.
Definition evAction : Z := 0x00000005.
Definition evEventTag : Z := 0x00000006.
Definition evSCRTMContents : Z := 0x00000007.
Definition evSCRTMVersion : Z := 0x00000008.
Definition evCUPMicrocode : Z := 0x00000009.
Definition evPlatformConfigFiles : Z := 0x0000000A.
Definition evTableOfDevices : Z := 0x0000000B.
Definition evCompactHash : Z := 0x0000000C.
Definition evIPL : Z := 0x0000000D.
Definition evIPLPartitionData : Z := 0x0000000E.
Definition evNonhostCode : Z := 0x0000000F.
Definition evNonhostConfig : Z := 0x00000010.
Definition evNonhostInfo : Z := 0x00000011.
Definition evOmitBootDeviceEvents : Z := 0x00000012.
Definition evEFIVariableDriverConfig : Z := 0x80000001.
Definition evEFIVariableBoot : Z := 0x80000002.
Definition evEFIBootServicesApplication : Z := 0x80000003.
Definition evEFIBootServicesDriver : Z := 0x80000004.
Definition evEFIRuntimeServicesDriver : Z := 0x80000005.
Definition evEFIGPTEvent : Z := 0x80000006.
Definition evEFIAction : Z := 0x80000007.
Definition evEFIPlatformFirmwareBlob : Z := 0x80000008.
Definition evEFIHandoffTables : Z := 0x80000009.
Definition evEFIHCRTMEvent : Z := 0x80000010.
Definition evEFIVariableAuthority : Z := 0x800000E0.

Definition isReserved (t : Z) : bool :=
  if (0x00000013 <=? t) && (t <=? 0x0000FFFF) then true
  else if (0x800000E1 <=? t) && (t <=? 0x8000FFFF) then true
  else false.

Definition tool_eventTypeNames : list (Z * string) := [
  (evPrebootCert, "EV_PREBOOT_CERT");
  (evPostCode, "EV_POST_CODE");
  (evUnused, "EV_UNUSED");
  (evNoAction, "EV_NO_ACTION");
  (evSeparator, "EV_SEPARATOR");
  (evAction, "EV_ACTION");
  (evEventTag, "EV_EVENT_TAG");
  (evSCRTMContents, "EV_S_CRTM_CONTENTS");
  (evSCRTMVersion, "EV_S_CRTM_VERSION");
  (evCUPMicrocode, "EV_CPU_MICROCODE");
  (evPlatformConfigFiles, "EV_PLATFORM_CONFIG_FLAGS");
  (evTableOfDevices, "EV_TABLE_OF_DEVICES");
  (evCompactHash, "EV_COMPACT_HASH");
  (evIPL, "EV_IPL (deprecated)");
  (evIPLPartitionData, "EV_IPL_PARTITION_DATA (deprecated)");
  (evNonhostCode, "EV_NONHOST_CODE");
  (evNonhostConfig, "EV_NONHOST_CONFIG");
  (evNonhostInfo, "EV_NONHOST_INFO");
  (evOmitBootDeviceEvents, "EV_OMIT_BOOT_DEVICE_EVENTS");
  (evEFIVariableDriverConfig, "EV_EFI_VARIABLE_DRIVER_CONFIG");
  (evEFIVariableBoot, "EV_EFI_VARIABLE_BOOT");
  (evEFIBootServicesApplication, "EV_EFI_BOOT_SERVICES_APPLICATION");
  (evEFIBootServicesDriver, "EV_EFI_BOOT_SERVICES_DRIVER");
  (evEFIRuntimeServicesDriver, "EV_EFI_RUNTIME_SERVICES_DRIVER");
  (evEFIGPTEvent, "EV_EFI_GPT_EVENT");
  (evEFIAction, "EV_EFI_ACTION");
  (evEFIPlatformFirmwareBlob, "EV_EFI_PLATFORM_FIRMWARE_BLOB");
  (evEFIHandoffTables, "EV_EFI_HANDOFF_TABLES");
  (evEFIHCRTMEvent, "EV_EFI_HCRTM_EVENT");
  (evEFIVariableAuthority, "EV_EFI_VARIABLE_AUTHORITY")
]%string.

Definition eventType_String (e : Z) : string :=
  match assoc e tool_eventTypeNames with
  | Some s => s
  | None =>
      let s := ("eventType(0x" +:+ hex_pad 8 e +:+ ")")%string in
      if isReserved e then (s +:+ " (reserved)")%string else s
  end.

(** ** Variables *)
Definition efiGlobalVariable : efiGUID := guid 0x8BE4DF61 0x93CA 0x11d2 0xAA0D00E098032B8C.
Definition efiImageSecurityDatabaseGUID : efiGUID := guid 0xd719b2cb 0x3d3a 0x4596 0xa3bcdad00e67656f.

Definition efiGlobalVariableSecureBoot : list Z := runes "SecureBoot".
Definition efiGlobalVariablePlatformKey : list Z := runes "PK".
Definition efiGlobalVariableKeyExchangeKey : list Z := runes "KEK".
Definition efiImageSecurityDatabase : list Z := runes "db".
Definition efiImageSecurityDatabase1 : list Z := runes "dbx".
Definition efiImageSecurityDatabase2 : list Z := runes "dbt".
Definition efiImageSecurityDatabase3 : list Z := runes "dbr".

Definition tool_GUID_String (e : efiGUID) : string :=
  if decide (e = efiGlobalVariable) then "EFI_GLOBAL_VARIABLE"
  else if decide (e = efiImageSecurityDatabaseGUID) then "EFI_IMAGE_SECURITY_DATABASE_GUID"
  else ("{0x" +:+ hex_trim 8 (g_Data1 e) +:+ ",0x" +:+ hex_trim 4 (g_Data2 e) +:+ ",0x"
          +:+ hex_trim 4 (g_Data3 e) +:+ ",{" +:+ hex_EncodeToString (g_Data4 e) +:+ "}}")%string.

Record uefiVariableData := mkToolVariable { tv_id : efiGUID; tv_name : list Z; tv_data : bytes }.

Record SecureBoot := mkSecureBoot {
  tb_Enabled : bool;
  tb_PK : bytes; tb_KEK : bytes;
  tb_DB : bytes; tb_DBX : bytes; tb_DBT : bytes; tb_DBR : bytes;
  tb_Authority : bytes;
}.

(** How much memory a [make] can get: beyond it the runtime ends the program
    ("makeslice: len out of range", "out of memory"). *)
Class GoMemory := { max_alloc : Z }.

Section ToolEventLog.
Context `{GoCrypto, GoMemory}.

(** [hashBySize], and a digest of one of these sizes *)
Definition hashBySize (size : Z) : option Z :=
  if size =? 20 then Some crypto_SHA1 else if size =? 32 then Some crypto_SHA256 else None.
Definition verifyDigest (digest data : bytes) : bool :=
  match hashBySize (zlen digest) with
  | Some h => bool_decide (digest = hash_sum h data)
  | None => false
  end.

(** [make([]uint16, n)] *)
Definition make_uint16s (n : Z) : M reader () :=
  if max_alloc <? 2 * n then panic "makeslice: len out of range" else mret tt.

(** Two bytes each, little endian *)

Definition parseUEFIVariableData_body (b digest : bytes) : M reader uefiVariableData :=
  hdr ← ReadFull 32;
  let NameLength := le_uint (field 16 8 hdr) in
  let DataLength := le_uint (field 24 8 hdr) in
  _ ← make_uint16s NameLength;
  name ← wrapM "parsing name: %v" (ReadFull (2 * NameLength));
  n ← gets rd_len;
  _ ← reject_if (negb (n =? int_of_uint64 DataLength))
        (Errorf "remaining bytes %d doesn't match data length %d");
  data ← gets rd_buf;
  _ ← reject_if (negb (verifyDigest digest b) && negb (verifyDigest digest data))
        (Errorf "digest didn't match data");
  mret (mkToolVariable (decode_GUID (field 0 16 hdr)) (utf16_Decode (uint16s name)) data).
Definition parseUEFIVariableData (b digest : bytes) : res error uefiVariableData :=
  (parseUEFIVariableData_body b digest (NewReader b)).1.

(** ** Secure boot *)

(** [switch data.id], before the separator *)
Definition driver_config (sb : SecureBoot) (v : uefiVariableData) : res error SecureBoot :=
  if decide (tv_id v = efiGlobalVariable) then
    if decide (tv_name v = efiGlobalVariableSecureBoot) then
      match tv_data v with
      | [b] =>
          if decide (b = Byte.x00) then Ok (sb <| tb_Enabled := false |>)
          else if decide (b = Byte.x01) then Ok (sb <| tb_Enabled := true |>)
          else Err (Errorf "invalid %s/%s value 0x%x")
      | _ => Err (Errorf "%s/%s was %d bytes")
      end
    else if decide (tv_name v = efiGlobalVariablePlatformKey) then Ok (sb <| tb_PK := tv_data v |>)
    else if decide (tv_name v = efiGlobalVariableKeyExchangeKey) then Ok (sb <| tb_KEK := tv_data v |>)
    else Ok sb
  else if decide (tv_id v = efiImageSecurityDatabaseGUID) then
    if decide (tv_name v = efiImageSecurityDatabase) then Ok (sb <| tb_DB := tv_data v |>)
    else if decide (tv_name v = efiImageSecurityDatabase1) then Ok (sb <| tb_DBX := tv_data v |>)
    else if decide (tv_name v = efiImageSecurityDatabase2) then Ok (sb <| tb_DBT := tv_data v |>)
    else if decide (tv_name v = efiImageSecurityDatabase3) then Ok (sb <| tb_DBR := tv_data v |>)
    else Ok sb
  else Ok sb.

(** [switch data.id], after it *)
Definition authority (sb : SecureBoot) (v : uefiVariableData) : res error SecureBoot :=
  if decide (tv_id v = efiImageSecurityDatabaseGUID) then
    if decide (tv_name v = efiImageSecurityDatabase) then
      _ ← reject (negb (tb_Enabled sb)) (Errorf "%s/%s present when secure boot wasn't enabled");
      _ ← reject (negb (zlen (tb_Authority sb) =? 0))
            (Errorf "%s/%s was already present earlier in the event log");
      Ok (sb <| tb_Authority := tv_data v |>)
    else Ok sb
  else Ok sb.

(** The state is the result so far and [seenSep]. *)
Definition secure_boot_event (st : SecureBoot * bool) (e : Event) : res error (SecureBoot * bool) :=
  let '(sb, seenSep) := st in
  if negb (ev_Index e =? 7) then Ok st
  else
    let t := uint32 (ev_Type e) in
    if t =? evEFIVariableDriverConfig then
      _ ← reject seenSep (Errorf "event %d %s after %s");
      data ← wrapf "parsing event %d, PCR[%02d] %s: %v" (parseUEFIVariableData (ev_Data e) (ev_Digest e));
      sb ← driver_config sb data;
      Ok (sb, seenSep)
    else if t =? evEFIVariableAuthority then
      _ ← reject (negb seenSep) (Errorf "event %d %s before %s");
      data ← wrapf "parsing event %d, PCR[%02d] %s: %v" (parseUEFIVariableData (ev_Data e) (ev_Digest e));
      sb ← authority sb data;
      Ok (sb, seenSep)
    else if t =? evSeparator then Ok (sb, true)
    else Ok st.

Definition no_secure_boot : SecureBoot := mkSecureBoot false [] [] [] [] [] [] [].
Definition ParseSecureBoot (events : list Event) : res error SecureBoot :=
  st ← for_each secure_boot_event (no_secure_boot, false) events;
  Ok st.1.
End ToolEventLog.

(** ** Both readings of a variable *)
Section Agreement.
Context `{GoCrypto, GoMemory}.

Lemma length_encode_uint16s l : zlen (encode_uint16s l) = 2 * zlen l.
Proof.
  unfold encode_uint16s, zlen. induction l as [|x l IH]; [done|]. cbn [concat fmap list_fmap length].
  rewrite length_app, length_le_bytes. lia.
Qed.

Lemma uint16s_encode l : Forall (λ x, 0 ≤ x < 2 ^ 16) l → uint16s (encode_uint16s l) = l.
Proof.
  unfold encode_uint16s. induction 1 as [|x l Hx _ IH]; [done|]. cbn [concat fmap list_fmap].
  pose proof (length_le_bytes 2 x) as Hl. pose proof (le_uint_le_bytes 2 x Hx) as Hv.
  destruct (le_bytes 2 x) as [|a [|b [|]]]; try done. cbn [app uint16s]. by rewrite Hv, IH.
Qed.

Lemma make_uint16s_Ok n r u r' : make_uint16s n r = (Ok u, r') → r' = r.
Proof. unfold make_uint16s. destruct (_ <? _); [done|]. by intros [= _ ->]. Qed.

(** A variable that both parsers accept is the same variable. *)
Lemma variables_agree b digest v w :
  parse_variable b = Ok v → parseUEFIVariableData b digest = Ok w →
  tv_id w = vh_VariableName (uv_Header v) ∧ tv_name w = VarName v ∧ tv_data w = uv_VariableData v.
Proof.
  rewrite parse_variable_iff. intros [(Hg & Hn & Hnm & Hd & Hdm & Hf) [rest ->]].
  unfold parseUEFIVariableData, parseUEFIVariableData_body, encode_variable.
  set (hdr := encode_GUID (vh_VariableName (uv_Header v)) ++
    le_bytes 8 (vh_UnicodeNameLength (uv_Header v)) ++ le_bytes 8 (vh_VariableDataLength (uv_Header v))).
  pose proof (length_encode_GUID _ Hg) as HgL.
  pose proof (zlen_nonneg (uv_UnicodeName v)). pose proof (zlen_nonneg (uv_VariableData v)).
  unfold maxNameLen, maxDataLen in *.
  assert (decode_GUID (field 0 16 hdr) = vh_VariableName (uv_Header v)) as E1.
  { unfold hdr. field_eval. by apply decode_encode_GUID. }
  assert (le_uint (field 16 8 hdr) = zlen (uv_UnicodeName v)) as E2.
  { unfold hdr. field_eval. rewrite le_uint_le_bytes; [done|]. rewrite Hn. lia. }
  assert (le_uint (field 24 8 hdr) = zlen (uv_VariableData v)) as E3.
  { unfold hdr. field_eval. rewrite le_uint_le_bytes; [done|]. rewrite Hd. lia. }
  assert (zlen hdr = 32) as Hhdr.
  { unfold hdr, zlen. rewrite !length_app, HgL, !length_le_bytes. done. }
  intros E. match type of E with (?m ?r).1 = _ => destruct (m r) as [x r'] eqn:Em end. cbn in E. subst x.
  replace (_ ++ rest) with (hdr ++ encode_uint16s (uv_UnicodeName v) ++ uv_VariableData v ++ rest) in Em
    by (unfold hdr; by rewrite <- !(assoc_L app)).
  revert Em. erewrite bind_Ok by (by apply ReadFull_app). cbv zeta. rewrite E1, E2, E3.
  intros (u & r1 & ->%make_uint16s_Ok & Em)%bind_Ok_inv. revert Em.
  erewrite bind_Ok by (apply wrapM_Ok, ReadFull_app, length_encode_uint16s).
  erewrite bind_Ok by done. intros (u' & r2 & [Hlen ->]%reject_if_Ok_inv & Em)%bind_Ok_inv. revert Em.
  erewrite bind_Ok by done. intros (u'' & r3 & [_ ->]%reject_if_Ok_inv & [= <- _])%bind_Ok_inv.
  apply negb_false_iff, Z.eqb_eq in Hlen. unfold rd_len, int_of_uint64 in Hlen. cbn in Hlen |- *.
  rewrite zlen_app, (proj2 (Z.ltb_lt _ _)) in Hlen by lia.
  assert (rest = []) as -> by (apply zlen_0; lia).
  split; [done|]. split; [by rewrite uint16s_encode|by rewrite app_nil_r].
Qed.

(** ** The fields before the separator, from the events *)
Context `{X509}.

(** The data of the variable of that name, if it is the vendor's. *)
Definition vendor_data (g : efiGUID) (v : UEFIVariableData) : bytes :=
  if decide (vh_VariableName (uv_Header v) = g) then uv_VariableData v else [].
Definition measured (name : string) (g : efiGUID) (events : list Event) : bytes :=
  match the_variable name events with Some v => vendor_data g v | None => [] end.

(** The variable of an event assigns the field, or the field keeps its value. *)
Definition picked (w : uefiVariableData) (name : string) (g : efiGUID) (old : bytes) : bytes :=
  if decide (tv_name w = runes name ∧ tv_id w = g) then tv_data w else old.

Definition enabled_data (b : bool) : bytes := if b then [Byte.x01] else [].

#[local] Ltac pick_field :=
  split_and!;
  first [ rewrite decide_True by (split; reflexivity); reflexivity
        | rewrite decide_False; [reflexivity|];
          let H := fresh in let H' := fresh in
          intros [H H'];
          first [ contradiction | vm_compute in H; discriminate H | vm_compute in H'; discriminate H' ] ].

Lemma driver_config_Ok sb w sb' :
  driver_config sb w = Ok sb' →
  tb_PK sb' = picked w "PK" efiGlobalVariable (tb_PK sb) ∧
  tb_KEK sb' = picked w "KEK" efiGlobalVariable (tb_KEK sb) ∧
  tb_DB sb' = picked w "db" efiImageSecurityDatabaseGUID (tb_DB sb) ∧
  tb_DBX sb' = picked w "dbx" efiImageSecurityDatabaseGUID (tb_DBX sb) ∧
  tb_Enabled sb' = (if decide (tv_name w = runes "SecureBoot" ∧ tv_id w = efiGlobalVariable)
                    then bool_decide (tv_data w = [Byte.x01]) else tb_Enabled sb).
Proof.
  destruct w as [id name data]. unfold driver_config, picked. cbn [tv_id tv_name tv_data].
  destruct (decide (id = efiGlobalVariable)) as [->|Hg];
    [|destruct (decide (id = efiImageSecurityDatabaseGUID)) as [->|Hi]].
  - unfold efiGlobalVariableSecureBoot, efiGlobalVariablePlatformKey, efiGlobalVariableKeyExchangeKey.
    destruct (decide (name = runes "SecureBoot")) as [->|].
    { destruct data as [|b [|]]; try done. do 2 (destruct (decide (b = _)) as [->|]; [intros [= <-]; pick_field|]).
      done. }
    do 2 (destruct (decide (name = _)) as [->|]; [intros [= <-]; pick_field|]). intros [= <-]. pick_field.
  - unfold efiImageSecurityDatabase, efiImageSecurityDatabase1, efiImageSecurityDatabase2,
      efiImageSecurityDatabase3.
    do 4 (destruct (decide (name = _)) as [->|]; [intros [= <-]; pick_field|]). intros [= <-]. pick_field.
  - intros [= <-]. pick_field.
Qed.

Lemma authority_Ok sb w sb' :
  authority sb w = Ok sb' →
  tb_PK sb' = tb_PK sb ∧ tb_KEK sb' = tb_KEK sb ∧ tb_DB sb' = tb_DB sb ∧ tb_DBX sb' = tb_DBX sb ∧
  tb_Enabled sb' = tb_Enabled sb.
Proof.
  unfold authority. repeat case_decide; try (by intros [= <-]).
  rewrite !res_bind_unit_Ok. intros (_ & _ & [= <-]). done.
Qed.

Record tool_inv (done : list Event) (sb : SecureBoot) : Prop := {
  ti_PK : tb_PK sb = measured "PK" efiGlobalVariable done;
  ti_KEK : tb_KEK sb = measured "KEK" efiGlobalVariable done;
  ti_DB : tb_DB sb = measured "db" efiImageSecurityDatabaseGUID done;
  ti_DBX : tb_DBX sb = measured "dbx" efiImageSecurityDatabaseGUID done;
  ti_Enabled : tb_Enabled sb = bool_decide (measured "SecureBoot" efiGlobalVariable done = [Byte.x01]);
}.

Lemma measured_None name g done e : variable_of e = None → measured name g (done ++ [e]) = measured name g done.
Proof. intros E. unfold measured. by rewrite the_variable_snoc_None. Qed.

(** A new variable of that name was not measured before. *)
Lemma measured_snoc name g done e v w :
  variable_of e = Some v → VarName v ∉ VarName <$> variables done →
  tv_id w = vh_VariableName (uv_Header v) → tv_name w = VarName v → tv_data w = uv_VariableData v →
  measured name g (done ++ [e]) = picked w name g (measured name g done).
Proof.
  intros E Hn Hid Hname Hdata. unfold measured, picked, vendor_data.
  rewrite (the_variable_snoc _ _ _ v E Hn), Hid, Hname, Hdata.
  destruct (decide (VarName v = runes name)) as [Ev|Ev]; [|by rewrite decide_False by tauto].
  destruct (decide (vh_VariableName (uv_Header v) = g)); [by rewrite decide_True|].
  rewrite decide_False by tauto.
  assert (the_variable name done = None) as ->; [|done].
  unfold the_variable. destruct (filter _ _) as [|x l] eqn:Hf; [done|]. exfalso. apply Hn.
  assert (x ∈ filter (λ v, VarName v = runes name) (variables done)) as [Hx Hin]%list_elem_of_filter
    by (rewrite Hf; by left).
  rewrite Ev, <-Hx. by apply list_elem_of_fmap_2.
Qed.

Lemma tool_inv_step done sb seen e sb' seen' :
  legal7 e → NoDup (VarName <$> variables (done ++ [e])) → tool_inv done sb →
  secure_boot_event (sb, seen) e = Ok (sb', seen') → tool_inv (done ++ [e]) sb'.
Proof.
  intros Hl Hnd [] Hev. unfold secure_boot_event in Hev.
  assert (Hnone : variable_of e = None → tb_PK sb' = tb_PK sb ∧ tb_KEK sb' = tb_KEK sb ∧
    tb_DB sb' = tb_DB sb ∧ tb_DBX sb' = tb_DBX sb ∧ tb_Enabled sb' = tb_Enabled sb → tool_inv (done ++ [e]) sb').
  { intros E (Hk1 & Hk2 & Hk3 & Hk4 & Hk5). constructor; rewrite measured_None by done; congruence. }
  unfold variable_of in Hnone. change (uint32 (ev_Type e)) with (etype e) in Hev.
  destruct (Z.eqb_spec (ev_Index e) 7) as [H7|]; cbn [negb andb] in Hev, Hnone; [|injection Hev as <- <-; by apply Hnone].
  change evEFIVariableDriverConfig with EFIVariableDriverConfig in Hev.
  destruct (Z.eqb_spec (etype e) EFIVariableDriverConfig) as [Ht|Ht].
  - clear Hnone. apply res_bind_unit_Ok in Hev as [_ Hev].
    apply res_bind_Ok in Hev as (w & Hw%wrapf_Ok_inv & Hev).
    apply res_bind_Ok in Hev as (sb1 & Hc%driver_config_Ok & [= <- _]).
    destruct (Hl H7) as [(E & _)|[(E & _)|[(_ & _ & v & Hv)|(E & _)]]]; try (by rewrite Ht in E).
    assert (Hvar : variable_of e = Some v).
    { unfold variable_of. rewrite H7, Ht, Hv. done. }
    destruct (variables_agree _ _ _ _ Hv Hw) as (Hid & Hname & Hdata).
    rewrite variables_snoc, Hvar, fmap_app in Hnd. apply NoDup_app in Hnd as (_ & Hnd & _).
    assert (Hn : VarName v ∉ VarName <$> variables done) by (intros Hin; apply (Hnd _ Hin); by left).
    destruct Hc as (Hk1 & Hk2 & Hk3 & Hk4 & Hk5).
    constructor; erewrite measured_snoc by done; try congruence.
    rewrite Hk5, ti_Enabled0. unfold picked. by destruct (decide _).
  - destruct (_ =? evEFIVariableAuthority).
    + apply res_bind_unit_Ok in Hev as [_ Hev]. apply res_bind_Ok in Hev as (w & _ & Hev).
      apply res_bind_Ok in Hev as (sb1 & Hc%authority_Ok & [= <- _]). by apply Hnone.
    + apply Hnone; [done|]. destruct (_ =? evSeparator); by injection Hev as <- _.
Qed.

Lemma tool_run_inv events st :
  Forall legal7 events → NoDup (VarName <$> variables events) →
  for_each secure_boot_event (no_secure_boot, false) events = Ok st → tool_inv events st.1.
Proof.
  revert st. induction events as [|e events IH] using rev_ind; intros st Hl Hnd Hrun;
    [injection Hrun as <-; by constructor|].
  apply for_each_snoc_Ok in Hrun as ([sb seen] & Hr1 & Hr2). destruct st as [sb' seen'].
  apply Forall_app in Hl as [Hl He]. apply Forall_cons in He as [He _].
  cbn [fst]. eapply tool_inv_step; [exact He|exact Hnd| |exact Hr2]. apply (IH (sb, seen)); [done| |done].
  rewrite variables_snoc, fmap_app in Hnd. by apply NoDup_app in Hnd as (? & _ & _).
Qed.

(** The library decodes the databases it accepts. *)
Lemma databases_decode events st v name :
  sb_run sb_init events st → v ∈ variables events → VarName v = runes name →
  name ∈ ["PK"; "KEK"; "db"; "dbx"]%string → ∃ r, SignatureData v = Ok r.
Proof.
  induction 1 as [|events e st st' Hr IH Ha]; [by intros ?%elem_of_nil|].
  rewrite variables_snoc, elem_of_app. intros [Hv|Hv] Hname Hin; [by apply IH|].
  unfold variable_of in Hv. destruct ((ev_Index e =? 7) && _) eqn:E; [|by apply elem_of_nil in Hv].
  apply andb_true_iff in E as [E7%Z.eqb_eq Et%Z.eqb_eq].
  destruct (parse_variable (ev_Data e)) as [v'| | |] eqn:Ev; try (by apply elem_of_nil in Hv).
  apply list_elem_of_singleton in Hv as ->.
  inversion Ha; subst; try congruence; try (by rewrite Et in *).
  match goal with Hp : parse_variable _ = Ok ?w |- _ => assert (w = v') as -> by congruence end.
  match goal with Hs : assign_variable _ _ = Ok _ |- _ => revert Hs end.
  unfold assign_variable. rewrite Hname.
  repeat (apply elem_of_cons in Hin as [->|Hin];
    [repeat (rewrite decide_False by (intros Hd; vm_compute in Hd; discriminate Hd));
     rewrite decide_True by reflexivity; intros (r & Hs%wrapf_Ok_inv & _)%res_bind_Ok_inv; by exists r|]).
  by apply elem_of_nil in Hin.
Qed.

(** The vendors the UEFI specification gives these names to *)
Definition standard_vendor (v : UEFIVariableData) : Prop :=
  let id := vh_VariableName (uv_Header v) in
  (VarName v ∈ [runes "SecureBoot"; runes "PK"; runes "KEK"] → id = efiGlobalVariable) ∧
  (VarName v ∈ [runes "db"; runes "dbx"] → id = efiImageSecurityDatabaseGUID).

(** A database the library found is the tool's, decoded. *)
Lemma database_agrees name g events st :
  sb_run sb_init events st → name ∈ ["PK"; "KEK"; "db"; "dbx"]%string →
  (∀ v, v ∈ variables events → VarName v = runes name → vh_VariableName (uv_Header v) = g) →
  parseEfiSignatureList (measured name g events) = Ok (database_in name events).
Proof.
  intros Hr Hname Hg. unfold measured, database_in.
  destruct (the_variable name events) as [v|] eqn:Ev; [|done].
  apply head_Some_elem_of, list_elem_of_filter in Ev as [Hn Hin].
  destruct (databases_decode _ _ _ _ Hr Hin Hn Hname) as [r Hs]. rewrite Hs.
  unfold vendor_data. rewrite decide_True by by apply Hg. exact Hs.
Qed.

(** C36: The tool and the library read the secure boot configuration alike: if
    both accept the events, the tool reports secure boot enabled only if the
    library does; and when the variables of the five names are those of their
    vendors (the library compares names only), both report the same state and
    the keys and hashes of the library are the decoding of what the tool
    returns, database by database. *)
Theorem ParseSecureBoot_agrees events s t :
  ParseSecurebootState events = Ok s → ParseSecureBoot events = Ok t →
  (tb_Enabled t = true → Enabled s = true) ∧
  (Forall standard_vendor (variables events) →
     Enabled s = tb_Enabled t ∧
     parseEfiSignatureList (tb_PK t) = Ok (PlatformKeys s, PlatformKeyHashes s) ∧
     parseEfiSignatureList (tb_KEK t) = Ok (ExchangeKeys s, ExchangeKeyHashes s) ∧
     parseEfiSignatureList (tb_DB t) = Ok (PermittedKeys s, PermittedHashes s) ∧
     parseEfiSignatureList (tb_DBX t) = Ok (ForbiddenKeys s, ForbiddenHashes s)).
Proof.
  intros ([st Hr] & -> & _)%ParseSecurebootState_run.
  intros ([t' seen] & Ht & [= <-])%res_bind_Ok_inv.
  pose proof (sb_run_inv _ _ Hr) as Hi.
  apply tool_run_inv in Ht as [E1 E2 E3 E4 E5]; [|by apply (inv_legal _ _ Hi)|by apply (inv_names _ _ Hi)].
  cbn [fst] in *. rewrite E1, E2, E3, E4, E5. unfold secureboot_of. cbn.
  unfold is_enabled, measured at 1. split.
  - intros Hd%bool_decide_eq_true. destruct (the_variable "SecureBoot" events) as [v|]; [|done].
    unfold vendor_data in Hd. case_decide; [|done]. by apply bool_decide_eq_true.
  - intros Hv. rewrite Forall_forall in Hv.
    split; [|split_and!; rewrite <-surjective_pairing; eapply database_agrees; try exact Hr; try set_solver].
    + unfold measured. destruct (the_variable "SecureBoot" events) as [v|] eqn:Ev; [|done].
      apply head_Some_elem_of, list_elem_of_filter in Ev as [Hn Hin].
      unfold vendor_data. rewrite decide_True; [done|]. apply (Hv v Hin). rewrite Hn. by left.
    + intros v Hin Hn. apply (Hv v Hin). rewrite Hn. set_solver.
    + intros v Hin Hn. apply (Hv v Hin). rewrite Hn. set_solver.
    + intros v Hin Hn. apply (Hv v Hin). rewrite Hn. set_solver.
    + intros v Hin Hn. apply (Hv v Hin). rewrite Hn. set_solver.
Qed.
End Agreement.

(** ** Names that do not fit into memory *)
Section Panics.
Context `{GoCrypto, GoMemory}.

(** The length of the name is allocated before the name is read. *)
Definition name_too_long (e : Event) : Prop :=
  32 ≤ zlen (ev_Data e) ∧ max_alloc < 2 * le_uint (field 16 8 (ev_Data e)).
(** In state [st], a variable is looked at. *)
Definition variable_expected (st : SecureBoot * bool) (e : Event) : Prop :=
  ev_Index e = 7 ∧
  (etype e = EFIVariableDriverConfig ∧ st.2 = false ∨ etype e = EFIVariableAuthority ∧ st.2 = true).

Lemma ReadFull_returns n r : no_crash (ReadFull n r).1.
Proof. unfold ReadFull. by destruct (n <=? rd_avail r). Qed.

Lemma parseUEFIVariableData_panics e digest :
  panics_if (parseUEFIVariableData (ev_Data e) digest) (name_too_long e).
Proof.
  unfold parseUEFIVariableData, parseUEFIVariableData_body, name_too_long. set (b := ev_Data e).
  destruct (Z.ltb_spec (zlen b) 32) as [Hs|Hs].
  { erewrite bind_Err by (by apply ReadFull_short). cbn. lia. }
  rewrite <-(take_drop 32 b) at 1. erewrite bind_Ok; [|apply ReadFull_app].
  2: { unfold zlen in *. rewrite length_take. lia. }
  cbv zeta. assert (field 16 8 (take 32 b) = field 16 8 b) as ->.
  { unfold field. by rewrite skipn_firstn_comm, take_take. }
  unfold make_uint16s, mbind, M_bind, panic, mret, M_ret. destruct (Z.ltb_spec max_alloc (2 * le_uint (field 16 8 b))).
  { cbn. lia. }
  unfold wrapM. pose proof (ReadFull_returns (2 * le_uint (field 16 8 b)) (NewReader (drop 32 b))) as Hr.
  destruct (ReadFull _ _) as [[name|e'|m|] r']; try done; cbn [wrapf gets reject_if].
  - unfold gets, reject_if, fail, mret, M_ret. destruct (negb (_ =? _)); cbn; [lia|].
    destruct (negb (verifyDigest _ _) && _); cbn; lia.
  - cbn. lia.
Qed.

Lemma driver_config_returns sb v : no_crash (driver_config sb v).
Proof. unfold driver_config. repeat case_match; done. Qed.
Lemma authority_returns sb v : no_crash (authority sb v).
Proof.
  unfold authority. repeat case_decide; try done.
  apply no_crash_bind; [apply reject_no_crash|]. intros _ _.
  by apply no_crash_bind; [apply reject_no_crash|].
Qed.

Lemma secure_boot_event_panics st e :
  panics_if (secure_boot_event st e) (variable_expected st e ∧ name_too_long e).
Proof.
  assert (Hparse : ∀ (f : SecureBoot → uefiVariableData → res error SecureBoot) sb seen msg,
    (∀ sb v, no_crash (f sb v)) →
    panics_if (data ← wrapf msg (parseUEFIVariableData (ev_Data e) (ev_Digest e));
               sb ← f sb data; Ok (sb, seen : bool)) (name_too_long e)).
  { intros f sb seen msg Hf. pose proof (parseUEFIVariableData_panics e (ev_Digest e)) as Hp.
    destruct (parseUEFIVariableData _ _) as [v| | |]; cbn in *; try done.
    pose proof (Hf sb v). by destruct (f sb v). }
  unfold secure_boot_event, variable_expected. destruct st as [sb seen]. cbn [snd].
  change (uint32 (ev_Type e)) with (etype e). change evEFIVariableDriverConfig with EFIVariableDriverConfig.
  change evEFIVariableAuthority with EFIVariableAuthority.
  destruct (Z.eqb_spec (ev_Index e) 7); cbn [negb]; [|apply returns_panics_if; [done|tauto]].
  destruct (Z.eqb_spec (etype e) EFIVariableDriverConfig) as [->|].
  { destruct seen; [apply returns_panics_if; [done|naive_solver]|].
    eapply panics_if_iff; [|apply (Hparse driver_config), driver_config_returns]. tauto. }
  destruct (Z.eqb_spec (etype e) EFIVariableAuthority) as [->|].
  { destruct seen; [|apply returns_panics_if; [done|naive_solver]].
    eapply panics_if_iff; [|apply (Hparse authority), authority_returns]. tauto. }
  apply returns_panics_if; [by destruct (_ =? _)|tauto].
Qed.

(** [ParseSecureBoot] returns on every log, except that it ends the program
    exactly when it reaches a variable of PCR 7, 32 bytes or longer, that
    announces a name larger than the memory: the length is a 64-bit number
    from the log and is allocated before anything is checked. *)
Theorem ParseSecureBoot_panics_iff events :
  ParseSecureBoot events ≠ NoFuel ∧
  ((∃ m, ParseSecureBoot events = Panic m) ↔
   ∃ pre e post st, events = pre ++ e :: post ∧
     for_each secure_boot_event (no_secure_boot, false) pre = Ok st ∧
     variable_expected st e ∧ name_too_long e).
Proof.
  assert (H' : panics_if (ParseSecureBoot events)
    (∃ pre e post st, events = pre ++ e :: post ∧
       for_each secure_boot_event (no_secure_boot, false) pre = Ok st ∧
       variable_expected st e ∧ name_too_long e)).
  { unfold ParseSecureBoot. eapply panics_if_bind with (Q := λ _, False).
    - apply (panics_if_for_each _ (λ st e, variable_expected st e ∧ name_too_long e)), secure_boot_event_panics.
    - by intros st _ [].
    - naive_solver. }
  destruct (ParseSecureBoot events); cbn in H'; split; try done; split; try done; try naive_solver.
Qed.
End Panics.

(** ** Examples *)
Section Witnesses.
#[local] Existing Instance sha_crypto.
#[local] Existing Instance tag_x509.
#[local] Instance ex_memory : GoMemory := {| max_alloc := 2 ^ 40 |}.

Definition ex_vendor_variable (g : efiGUID) (name : string) (data : bytes) : Event :=
  ex_measured 7 EFIVariableDriverConfig
    (encode_variable (mkVariable (mkVarHeader g (zlen (runes name)) (zlen data)) (runes name) data)).
Definition ex_vendor_boot : list Event := [
  ex_vendor_variable efiGlobalVariable "SecureBoot" [Byte.x01];
  ex_vendor_variable efiGlobalVariable "PK" ex_db_bytes;
  ex_vendor_variable efiGlobalVariable "KEK" ex_db_bytes;
  ex_vendor_variable efiImageSecurityDatabaseGUID "db" ex_db_bytes;
  ex_vendor_variable efiImageSecurityDatabaseGUID "dbx" [];
  ex_measured 7 Separator zero4;
  ex_measured 7 EFIVariableAuthority (ex_variable "db" (encode_signature (ex_owner, ex_cert)))].

#[local] Instance standard_vendor_dec v : Decision (standard_vendor v).
Proof. unfold standard_vendor. apply _. Defined.

Lemma ParseSecureBoot_agrees_witness :
  ∃ s t, ParseSecurebootState ex_vendor_boot = Ok s ∧ ParseSecureBoot ex_vendor_boot = Ok t ∧
    Enabled s = true ∧ tb_Enabled t = true ∧
    parseEfiSignatureList (tb_DB t) = Ok (PermittedKeys s, PermittedHashes s).
Proof.
  assert (∃ s, ParseSecurebootState ex_vendor_boot = Ok s) as [s Hs] by (eexists; vm_compute; reflexivity).
  assert (∃ t, ParseSecureBoot ex_vendor_boot = Ok t ∧ tb_Enabled t = true) as (t & Ht & He)
    by (eexists; split; vm_compute; reflexivity).
  exists s, t. destruct (ParseSecureBoot_agrees _ _ _ Hs Ht) as [Hen Hall].
  split; [exact Hs|]. split; [exact Ht|]. split; [by apply Hen|]. split; [exact He|].
  apply Hall. apply (bool_decide_unpack _). vm_compute. exact I.
Defined.

(** Variables of the right names but another vendor: the library takes them for
    the configuration, the tool does not. *)
Example other_vendor :
  ParseSecureBoot ex_boot = Ok no_secure_boot ∧ ∃ s, ParseSecurebootState ex_boot = Ok s ∧ Enabled s = true.
Proof. split; [vm_compute; reflexivity|]. eexists. split; vm_compute; reflexivity. Qed.
End Witnesses.
